(* ===== verification/_CoqProject ===== *)
-Q . S2P
Prelude.v
CStr.v
CFloat.v
CDec.v
Timers.v
TimersSpec.v
TimersThm.v
TimersRun.v
TimersClient.v
TimersDemo.v
HttpHeader.v
HttpHeaderThm.v
HttpHeaderDemo.v
HttpLoad.v
HttpLoadInv.v
HttpLoadThm.v
HttpMain.v
HttpRead.v
HttpLoadDemo.v
HttpArgs.v
HttpArgsThm.v
ThreadPool.v
ThreadPoolThm.v
ThreadPoolSys.v
ThreadPoolProps.v
Posix.v
CommSocket.v
CommSocketThm.v
PosixDemo.v
CommSocketProps.v
Httpd.v
HttpdThm.v
HttpdServe.v
HttpdDemo.v
HttpdLoop.v
Weather.v
WeatherThm.v
WeatherDemo.v
Crawler.v
CrawlerThm.v
CrawlerMain.v
CrawlerDemo.v
System.v
Assoc.v
AssocThm.v
AssocProps.v
DList.v
Store.v
Slabs.v
Items.v
StoreCmd.v
StoreInv.v
LruThm.v
SlabsThm.v
ItemsThm.v
ItemsGet.v
PullThm.v
AllocThm.v
CacheSpec.v
CachedThm.v
StoreThm.v
UpdateThm.v
LookupThm.v
ArithThm.v
CacheRun.v
Hash.v
HashThm.v
CacheThm.v
CacheInit.v
LeakThm.v
CacheProps.v
Proto.v
Conn.v
ProtoThm.v
ConnThm.v
ConnRun.v
WireThm.v
Binary.v
BinaryThm.v
WireProps.v
