(* ===== verification/Prelude.v ===== *)
(** A weather query system: verification library.

    The system (src/README.md, src/Makefile) is a web server with a thread pool
    whose CGI program answers "what is the weather in this city" from a cache
    and a table, a crawler that fills the table, and a load generator that the
    tests of the server are made with.  Its parts, with the files here:

    - Timers package (http_load/timers.c, .h).  [Timers]: cells of type Timer in
      an explicit heap, hash buckets as doubly linked lists, the free list; one
      definition per function.  [TimersSpec] relates a heap to the multiset of
      pending timers; [TimersThm] proves that each operation returns and
      implements its abstract effect, [TimersRun] that tmr_run performs a
      sequence of firings of due timers, [TimersClient] what other code may rely
      on when timer procedures touch the package, [TimersDemo] runs it.
    - Load generator (http_load/http_load.c).  [HttpHeader]: the header state
      machine character by character; [HttpHeaderThm]: against the position of
      the first empty line and against well-formed responses.  [HttpLoad]: the
      connection table, timer procedures, statistics, main loop, over a class
      [Kernel] of system calls; [HttpLoadInv] the invariant of the loop,
      [HttpLoadThm] that every operation keeps it, [HttpMain] that a pass ends
      and what holds in every reached state, [HttpRead] requests, responses and
      the final report.  [HttpArgs], [HttpArgsThm]: command line, URL file and
      source address file, and that what main accepts is a configuration the
      main loop is correct for.  [HttpLoadDemo] runs it on a small kernel.
      [CFloat] has float and double arithmetic, on the Standard Library's
      SpecFloat.
    - Thread pool (threadpool.c, .h).  [ThreadPool]: the bodies of the critical
      sections over an explicit list of task cells, and all interleavings of
      workers and users as the relation [step]; [ThreadPoolThm] the critical
      sections, [ThreadPoolSys] the invariant by induction over steps,
      [ThreadPoolProps] conservation of tasks, destroy, wake-ups, progress, and
      the two paths that leave the lock taken.
    - Operating system.  [Posix]: the class of system calls the servers make,
      the process that makes them, and the laws POSIX gives them; [PosixDemo] a
      system that has the laws, used by every witness.
    - Socket wrappers (commsocket.c).  [CommSocket] all functions;
      [CommSocketThm], [CommSocketProps]: complete reads and writes through
      signals and cuts, the frame round trip, the overflow.
    - Web server (httpd.c, epoll.c).  [Httpd] all functions; [HttpdThm] reading
      of lines and headers, [HttpdServe] what a request is answered with,
      [HttpdLoop] the event loop over an interface of the pool ([TaskPool]) that
      [ThreadPool] implements, [HttpdDemo] runs.
    - Weather query (cgi_bin/find_cgi.cpp, memcache/memcache.h,
      sql_connect/sql_connect.cpp).  [Weather], [WeatherThm], [WeatherDemo],
      over the interfaces [Libmemcached] and [Mysql] of the two client
      libraries, which the makefiles take from outside the repository.
    - Crawler (htdocs/weather.cpp).  [Crawler]; [CrawlerThm] keys of cities,
      pages, the network; [CrawlerMain] the whole run and what the weather query
      answers after it; [CrawlerDemo].
    - [System]: a request through the parts, from the process the server starts
      for the query program to the page the client receives.
    - Cache server (lib/memcached-1.4.25), which src/start_memcache.sh runs.
      [Assoc], [AssocThm], [AssocProps]: the hash table of assoc.c with its growth,
      against a finite map.  [DList]: doubly linked lists with a head, a tail and a
      count.  [Store]: items, LRU lists, slab classes, settings and counters as one
      state over a heap of items; [Slabs] slabs.c, [Items] items.c and the locking
      wrappers of thread.c, [StoreCmd] the commands of memcached.c from their
      parsed arguments on, with safe_strtoull (util.c) and the clock.  [StoreInv] is
      the invariant: what the lists, the table, the free chunks and the counts of
      references say of each item; [LruThm], [SlabsThm], [ItemsThm], [ItemsGet],
      [PullThm], [AllocThm] that every operation keeps it, and what it does.
      [CacheSpec] is the promise, a map with expiry and flush from which entries may
      be lost, and the map a store stands for; [CachedThm], [StoreThm],
      [UpdateThm], [LookupThm], [ArithThm] prove each command
      against it, [CacheRun] sequences of requests, [CacheThm] what a client may
      conclude, [CacheInit] the start, [LeakThm] the two commands that break the
      counts of references.  [Hash], [HashThm]: jenkins_hash.c and murmur3_hash.c.
      [CacheProps] states the properties and runs them.
    - The connection of a client to the cache server (memcached.c, util.c).
      [Proto]: tokens, numbers in tokens, the handler of each command of the text
      protocol and what it does to [struct conn], of which [side] is the part the
      commands work on.  [Conn]: the buffer that commands are read into, the
      network, one definition per state of drive_machine, the loop, the event loop;
      and [converse], what a connection sends when all its input is there at once.
      [ProtoThm]: what every command leaves the connection in.  [ConnThm]: lines,
      data and answers in pieces, and what every round keeps whatever the network
      does; [ConnRun]: round by round the connection follows [converse], with
      a measure that ends the loops.  [WireThm]: requests of [CacheRun]
      written in the text protocol are served as these requests.
      [Binary] (with protocol_binary.h): headers in network byte order, the checks
      and the handler of each command of the binary protocol, and [bin_converse],
      what a connection sends when all the packets are there at once.  [BinaryThm]:
      headers and flags come back; what each command does to the store, and that
      its packet does that and is answered with what the map allows ([obeyed]).
      [WireProps] joins them: from the bytes a client writes to the map.

    This file has the monad of C code ([CM]: a value, a call of exit, undefined
    behaviour, or a loop bound that was too small), its weakest preconditions
    [wp] (code that returns) and [wpe] (returns or exits), [ev] for code whose
    bound is only known to be large enough from some point on, and machine
    integers; [CStr] has characters, C strings and what the programs use of
    string.h and stdlib.h.

    How state and effects appear.  Structures are records, shared cells live in
    explicit heaps, arrays are lists of their full length and an access outside
    one is [Undef]; ints wrap or are shown not to.  A dereference of a null
    pointer is [Undef], except in the crawler, whose main installs a handler
    that turns it into exit(0) ([Crawler.segv]).

    Bounds.  Loops that are not structural take fuel, and every theorem about
    them says how much is enough: the length of the data that will arrive plus
    the interruptions still to come for the network loops, the number of pending
    timers for the timer loops, the length of the array for string loops, the
    number of items and five tries for the walk up an LRU list, the number of slab
    classes for the search of a class, eight rounds for every byte and every event
    of a connection, eight for every packet and two more.  Loops
    that may not end have theorems that say when they do: [clear_header_outcome]
    for a header without an end.  [crawl_then_not_found] is about what a run of
    the crawler leaves behind when it comes to its end; its witness is such a run.

    The cache server.  Requests are served one at a time, as the locks of items
    make them; [lockable] says which item locks item_trylock finds free, [junk] is
    what malloc'ed memory holds, a list in the heap says which calls of malloc
    succeed, and chunks lie below 4 GB.  The settings are those main starts with:
    no maintainer thread, no repair of tails.  The start is main's assoc_init and
    slabs_init without preallocation.

    A connection.  The network is a list of what the next calls of read and sendmsg
    meet: they would block, move at most so many bytes, or fail, or the peer has hung
    up; what is still to arrive is a list of bytes.  The theorems that compare with
    [converse] are for a client that stays, calls of realloc that succeed and less
    than 2^30 bytes of input; [connection_well_formed] is for any network.  An answer
    is the bytes that are still to be sent; the calls update_event and realloc of its
    message lists succeed, and where one sendmsg ends and the next begins is left to
    the network.  [stale_errno] says whether errno is ERANGE from an earlier call when
    flush_all tests it.  Commands that are not followed lead to the state
    [conn_elsewhere], about which nothing is proved.

    Hypotheses.  The laws of [Posix], of the kernel of the load generator, of
    the cache and of the table are classes with an instance each; files do not
    change while a request is served.  The thread pool's theorems are about
    sequentially consistent steps between lock operations, which is what the
    mutex gives.

    Findings.  Where the code does not do what it means to, the theorems say
    what it does: the crawler leaves the table empty; the keys it computes lose
    digits F and keep the tail of the previous key; a failed threadpool_add or
    a second threadpool_destroy keeps the lock; the pool is a stack; clear_header
    never returns without an empty line; Server_rev, the URL buffer, the request
    buffer of the load generator and the city buffer overflow; the cache server
    runs the data of a refused noreply command, cuts lengths to 32 bits, drops
    commands before a hang-up, loses references to items, takes a value without
    memory for the next packet, and writes outside an item for an append whose
    body is shorter than its key.

    Not modelled: output of printf and perror that nothing reads (the load
    generator's report, the pages of the CGI program and the crawler's output
    are modelled); the code under USE_SSL, off unless the build asks for it;
    memorypool.c (an empty main); destructors, close_connect and show_info;
    functions nothing calls (prase, wea_cmp); the older copy of the crawler and
    trial programs under htdocs/ and memcache/; the releases of libevent and
    libmemcached under lib/, which are not built by the system's makefiles.  Of
    memcached: packets that arrive in pieces and the growth of the buffer for
    them, SASL, UDP, accepting connections and handing them to threads,
    statistics, and the threads that the start script does not ask for
    (LRU maintainer and crawler, slab rebalancer) with the commands that drive
    them; incr and decr of the binary protocol are modelled, but their packets
    are not among the requests of [BinaryThm].  *)
From stdpp Require Export base tactics list gmap strings sorting.
From Stdlib Require Export ZArith Lia Ascii.

Declare Scope c_scope.
Delimit Scope c_scope with c.

(** * Outcomes of C code *)

(** What running a piece of C code from a state can end in: a value and a
    state, a call of [exit], undefined behaviour (a null or dangling
    dereference, an access outside an object), or a loop bound that was too
    small. *)
Inductive outcome (S A : Type) : Type :=
| Ret (a : A) (s : S)
| Exit (code : Z) (s : S)
| Undef
| OutOfFuel.
Arguments Ret {S A} a s.
Arguments Exit {S A} code s.
Arguments Undef {S A}.
Arguments OutOfFuel {S A}.

Definition CM (S A : Type) : Type := S -> outcome S A.

Definition ret {S A} (a : A) : CM S A := fun s => Ret a s.
Definition bind {S A B} (m : CM S A) (k : A -> CM S B) : CM S B := fun s =>
  match m s with
  | Ret a s' => k a s'
  | Exit c s' => Exit c s'
  | Undef => Undef
  | OutOfFuel => OutOfFuel
  end.
Definition undef {S A} : CM S A := fun _ => Undef.
Definition nofuel {S A} : CM S A := fun _ => OutOfFuel.
Definition exit {S A} (code : Z) : CM S A := fun s => Exit code s.
Definition gets {S A} (f : S -> A) : CM S A := fun s => Ret (f s) s.
Definition modify {S} (f : S -> S) : CM S unit := fun s => Ret tt (f s).
(** A dereference: undefined when there is nothing there. *)
Definition get_or_undef {S A} (f : S -> option A) : CM S A := fun s =>
  match f s with Some a => Ret a s | None => Undef end.

Notation "x <- m ;; k" := (bind m (fun x => k))
  (at level 100, m at next level, right associativity) : c_scope.
Notation "m ;;; k" := (bind m (fun _ => k))
  (at level 100, right associativity) : c_scope.
Open Scope c_scope.
Local Open Scope Z_scope.

(** Code over a part of a larger state, run on the whole. *)
Definition zoom {S T A} (get : S -> T) (put : T -> S -> S) (m : CM T A) : CM S A := fun s =>
  match m (get s) with
  | Ret a t => Ret a (put t s)
  | Exit c t => Exit c (put t s)
  | Undef => Undef
  | OutOfFuel => OutOfFuel
  end.

(** * Weakest preconditions *)

(** [wp m s Q]: [m] returns from [s], with a value and a state that satisfy [Q]. *)
Definition wp {S A} (m : CM S A) (s : S) (Q : A -> S -> Prop) : Prop :=
  match m s with Ret a s' => Q a s' | _ => False end.

Lemma wp_ret {S A} (a : A) (s : S) (Q : A -> S -> Prop) : Q a s -> wp (ret a) s Q.
Proof. done. Qed.

Lemma wp_bind {S A B} (m : CM S A) (k : A -> CM S B) s Q :
  wp m s (fun a s' => wp (k a) s' Q) -> wp (bind m k) s Q.
Proof. unfold wp, bind. by destruct (m s). Qed.

Lemma wp_gets {S A} (f : S -> A) s (Q : A -> S -> Prop) : Q (f s) s -> wp (gets f) s Q.
Proof. done. Qed.

Lemma wp_modify {S} (f : S -> S) s (Q : unit -> S -> Prop) : Q tt (f s) -> wp (modify f) s Q.
Proof. done. Qed.

Lemma wp_get_or_undef {S A} (f : S -> option A) s a (Q : A -> S -> Prop) :
  f s = Some a -> Q a s -> wp (get_or_undef f) s Q.
Proof. unfold wp, get_or_undef. by intros ->. Qed.

Lemma wp_mono {S A} (m : CM S A) s (Q Q' : A -> S -> Prop) :
  wp m s Q -> (forall a s', Q a s' -> Q' a s') -> wp m s Q'.
Proof. unfold wp. destruct (m s); naive_solver. Qed.

Lemma wp_zoom {S T A} (get : S -> T) put (m : CM T A) s (Q : A -> S -> Prop) :
  wp m (get s) (fun a t => Q a (put t s)) -> wp (zoom get put m) s Q.
Proof. unfold wp, zoom. by destruct (m (get s)). Qed.

Lemma wp_ext {S A} (m m' : CM S A) s Q : m s = m' s -> wp m' s Q -> wp m s Q.
Proof. unfold wp. by intros ->. Qed.

(** From a weakest precondition to the run itself, and back. *)
Lemma wp_run {S A} (m : CM S A) s Q : wp m s Q <-> exists a s', m s = Ret a s' /\ Q a s'.
Proof.
  unfold wp. destruct (m s) as [a s' | | |]; split; try done; try (by intros (? & ? & ? & _)).
  - intros. by exists a, s'.
  - by intros (? & ? & [= -> ->] & ?).
Qed.

Lemma wp_intro {S A} (m : CM S A) s a s' (Q : A -> S -> Prop) : m s = Ret a s' -> Q a s' -> wp m s Q.
Proof. unfold wp. by intros ->. Qed.

Lemma bind_ret_inv {S A B} (m : CM S A) (k : A -> CM S B) s b s2 :
  bind m k s = Ret b s2 -> exists a s1, m s = Ret a s1 /\ k a s1 = Ret b s2.
Proof. unfold bind. destruct (m s); naive_solver. Qed.

Lemma bind_eq {S A B} (m : CM S A) (k : A -> CM S B) s a s1 :
  m s = Ret a s1 -> bind m k s = k a s1.
Proof. unfold bind. by intros ->. Qed.

(** * Programs that may exit *)

(** [wpe m s Q X]: [m] returns with [Q], or calls exit with [X]. *)
Definition ends {S A} (o : outcome S A) (Q : A -> S -> Prop) (X : Z -> S -> Prop) : Prop :=
  match o with Ret a s => Q a s | Exit c s => X c s | _ => False end.
Definition wpe {S A} (m : CM S A) (s : S) (Q : A -> S -> Prop) (X : Z -> S -> Prop) : Prop := ends (m s) Q X.

Lemma wpe_of_wp {S A} (m : CM S A) s Q (X : Z -> S -> Prop) : wp m s Q -> wpe m s Q X.
Proof. unfold wp, wpe, ends. by destruct (m s). Qed.
Lemma wpe_ret {S A} (a : A) (s : S) Q (X : Z -> S -> Prop) : Q a s -> wpe (ret a) s Q X.
Proof. done. Qed.
Lemma wpe_exit {S A} c (s : S) (Q : A -> S -> Prop) (X : Z -> S -> Prop) : X c s -> wpe (exit c) s Q X.
Proof. done. Qed.
Lemma wpe_bind {S A B} (m : CM S A) (k : A -> CM S B) s Q X :
  wpe m s (fun a s' => wpe (k a) s' Q X) X -> wpe (bind m k) s Q X.
Proof. unfold wpe, bind. by destruct (m s). Qed.
Lemma wpe_gets {S A} (f : S -> A) s Q (X : Z -> S -> Prop) : Q (f s) s -> wpe (gets f) s Q X.
Proof. done. Qed.
Lemma wpe_modify {S} (f : S -> S) s Q (X : Z -> S -> Prop) : Q tt (f s) -> wpe (modify f) s Q X.
Proof. done. Qed.
Lemma wpe_mono {S A} (m : CM S A) s (Q Q' : A -> S -> Prop) (X X' : Z -> S -> Prop) :
  wpe m s Q X -> (forall a s', Q a s' -> Q' a s') -> (forall c s', X c s' -> X' c s') -> wpe m s Q' X'.
Proof. unfold wpe, ends. destruct (m s); auto. Qed.
Lemma wpe_zoom {S T A} (get : S -> T) put (m : CM T A) s Q (X : Z -> S -> Prop) :
  wpe m (get s) (fun a t => Q a (put t s)) (fun c t => X c (put t s)) -> wpe (zoom get put m) s Q X.
Proof. unfold wpe, ends, zoom. by destruct (m (get s)). Qed.

(** Code with a bound on its loops: from some bound on it ends, in one way. *)
Definition ev {S A} (m : nat -> CM S A) (s : S) (Q : A -> S -> Prop) (X : Z -> S -> Prop) : Prop :=
  exists N o, (forall fuel, (N <= fuel)%nat -> m fuel s = o) /\ ends o Q X.

Lemma ev_const {S A} (m : CM S A) s Q X : wpe m s Q X -> ev (fun _ => m) s Q X.
Proof. intros H. by exists O, (m s). Qed.
Lemma ev_mono {S A} (m : nat -> CM S A) s (Q Q' : A -> S -> Prop) (X X' : Z -> S -> Prop) :
  ev m s Q X -> (forall a s', Q a s' -> Q' a s') -> (forall c s', X c s' -> X' c s') -> ev m s Q' X'.
Proof. intros (N & o & Hm & Ho) HQ HX. exists N, o. split; [done |]. destruct o; simpl in *; auto. Qed.
Lemma ev_bind {S A B} (m : nat -> CM S A) (k : nat -> A -> CM S B) s Q X :
  ev m s (fun a s' => ev (fun fuel => k fuel a) s' Q X) X -> ev (fun fuel => bind (m fuel) (k fuel)) s Q X.
Proof.
  intros (N & o & Hm & Ho). destruct o as [a s' | c s' | |]; simpl in Ho; try done.
  - destruct Ho as (N' & o' & Hk & Ho'). exists (N + N')%nat, o'. split; [|done].
    intros fuel Hf. unfold bind. rewrite Hm by lia. apply Hk. lia.
  - exists N, (Exit c s'). split; [|done]. intros fuel Hf. unfold bind. by rewrite Hm.
Qed.

(** One step of a weakest-precondition goal; stops at calls it has no rule for. *)
Ltac wp_step :=
  lazymatch goal with
  | |- wp (bind _ _) _ _ => apply wp_bind
  | |- wp (ret _) _ _ => apply wp_ret
  | |- wp (gets _) _ _ => apply wp_gets
  | |- wp (modify _) _ _ => apply wp_modify
  | |- wp (get_or_undef _) _ _ => eapply wp_get_or_undef; [eassumption |]
  | |- wp (zoom _ _ _) _ _ => apply wp_zoom
  | |- wpe (bind _ _) _ _ _ => apply wpe_bind
  | |- wpe (ret _) _ _ _ => apply wpe_ret
  | |- wpe (gets _) _ _ _ => apply wpe_gets
  | |- wpe (modify _) _ _ _ => apply wpe_modify
  | |- wpe (zoom _ _ _) _ _ _ => apply wpe_zoom
  end; cbv beta.
Ltac wp_steps := repeat wp_step.

(** * Machine integers *)

(** Two's complement values of [w] bits. *)
Definition wrap_u (w x : Z) : Z := x mod 2 ^ w.
Definition wrap_s (w x : Z) : Z := (x + 2 ^ (w - 1)) mod 2 ^ w - 2 ^ (w - 1).
Definition i16 := wrap_s 16.
Definition i32 := wrap_s 32.
Definition i64 := wrap_s 64.
Definition u16 := wrap_u 16.
Definition u32 := wrap_u 32.
Definition u64 := wrap_u 64.

Definition in_s (w x : Z) : Prop := - 2 ^ (w - 1) <= x < 2 ^ (w - 1).
Definition in_u (w x : Z) : Prop := 0 <= x < 2 ^ w.

Lemma wrap_u_small w x : in_u w x -> wrap_u w x = x.
Proof. intros. by apply Z.mod_small. Qed.

Lemma wrap_s_small w x : 0 < w -> in_s w x -> wrap_s w x = x.
Proof.
  unfold in_s, wrap_s. intros Hw H.
  replace (2 ^ w) with (2 ^ (w - 1) + 2 ^ (w - 1)).
  - rewrite Z.mod_small; lia.
  - replace w with (Z.succ (w - 1)) at 3 by lia. rewrite Z.pow_succ_r; lia.
Qed.

Lemma wrap_u_range w x : 0 <= w -> in_u w (wrap_u w x).
Proof. intros. apply Z.mod_pos_bound. lia. Qed.

Lemma i32_small x : -2147483648 <= x < 2147483648 -> i32 x = x.
Proof. intros. apply wrap_s_small; [lia |]. unfold in_s. simpl. lia. Qed.
Lemma i64_small x : -9223372036854775808 <= x < 9223372036854775808 -> i64 x = x.
Proof. intros. apply wrap_s_small; [lia |]. unfold in_s. simpl. lia. Qed.
Lemma u64_small x : 0 <= x < 18446744073709551616 -> u64 x = x.
Proof. intros. by apply wrap_u_small. Qed.
Lemma u32_small x : 0 <= x < 4294967296 -> u32 x = x.
Proof. intros. by apply wrap_u_small. Qed.
Lemma u16_small x : 0 <= x < 65536 -> u16 x = x.
Proof. intros. by apply wrap_u_small. Qed.

Lemma i32_range x : -2147483648 <= i32 x < 2147483648.
Proof.
  unfold i32, wrap_s. change (2 ^ (32 - 1)) with 2147483648. change (2 ^ 32) with 4294967296.
  pose proof (Z.mod_pos_bound (x + 2147483648) 4294967296 eq_refl). lia.
Qed.

(** Wrapping before an addition makes no difference after it. *)
Lemma wrap_s_add_l w a b : wrap_s w (wrap_s w a + b) = wrap_s w (a + b).
Proof.
  unfold wrap_s. f_equal. set (h := 2 ^ (w - 1)).
  replace ((a + h) mod 2 ^ w - h + b + h) with ((a + h) mod 2 ^ w + b) by lia.
  rewrite Zplus_mod_idemp_l. f_equal. lia.
Qed.
Lemma i32_add_l a b : i32 (i32 a + b) = i32 (a + b).
Proof. apply wrap_s_add_l. Qed.

Lemma i64_add_l a b : i64 (i64 a + b) = i64 (a + b).
Proof. apply wrap_s_add_l. Qed.

Create Rewrite HintDb c_int.
#[export] Hint Rewrite i32_small i64_small u64_small u32_small u16_small using lia : c_int.
