(* ===== verification/CStr.v ===== *)
(** Characters and C strings: what the programs use of ctype.h, string.h,
    strings.h and stdlib.h. *)
From S2P Require Import Prelude.
Local Open Scope Z_scope.

(** A [char] of the source; its value as an unsigned and as a signed char. *)
Definition uchar (c : ascii) : Z := Z.of_N (N_of_ascii c).
Definition schar (c : ascii) : Z := if uchar c <? 128 then uchar c else uchar c - 256.

Definition NUL : ascii := "000"%char.
Definition HT : ascii := "009"%char.
Definition LF : ascii := "010"%char.
Definition CR : ascii := "013"%char.
Definition SP : ascii := " "%char.

(** The characters of a literal. *)
Definition lit (s : string) : list ascii := String.list_ascii_of_string s.

Infix "=c" := Ascii.eqb (at level 70) : c_scope.
Definition one_of (c : ascii) (l : list ascii) : bool := existsb (Ascii.eqb c) l.

(** ctype.h in the C locale. *)
Definition isspace (c : ascii) : bool := (uchar c =? 32) || ((9 <=? uchar c) && (uchar c <=? 13)).
Definition isdigit (c : ascii) : bool := (48 <=? uchar c) && (uchar c <=? 57).
Definition tolower (c : ascii) : Z :=
  if (65 <=? uchar c) && (uchar c <=? 90) then uchar c + 32 else uchar c.

(** The string in a buffer: up to the first NUL. *)
Fixpoint cstr (buf : list ascii) : list ascii :=
  match buf with
  | [] => []
  | c :: buf => if c =c NUL then [] else c :: cstr buf
  end.
Definition strlen (buf : list ascii) : Z := Z.of_nat (length (cstr buf)).

(** strcasecmp and strncasecmp on strings without their NUL: the sign counts. *)
Fixpoint strcasecmp (a b : list ascii) : Z :=
  match a, b with
  | [], [] => 0
  | [], y :: _ => 0 - tolower y
  | x :: _, [] => tolower x - 0
  | x :: a, y :: b => if tolower x =? tolower y then strcasecmp a b else tolower x - tolower y
  end.
Definition strncasecmp (a b : list ascii) (n : nat) : Z := strcasecmp (take n a) (take n b).
Fixpoint strcmp (a b : list ascii) : Z :=
  match a, b with
  | [], [] => 0
  | [], y :: _ => 0 - uchar y
  | x :: _, [] => uchar x - 0
  | x :: a, y :: b => if x =c y then strcmp a b else uchar x - uchar y
  end.
Definition strncmp (a b : list ascii) (n : nat) : Z := strcmp (take n a) (take n b).

(** The value of a run of decimal digits. *)
Fixpoint digits (acc : Z) (s : list ascii) : Z :=
  match s with
  | [] => acc
  | c :: s => if isdigit c then digits (acc * 10 + (uchar c - 48)) s else acc
  end.
Definition skip_space (s : list ascii) : list ascii :=
  (fix go s := match s with [] => [] | c :: s' => if isspace c then go s' else s end) s.
(** atoi: white space, an optional sign, digits; the value is converted from a
    long, saturated as strtol does, to an int. *)
Definition clamp64 (x : Z) : Z := Z.max (-9223372036854775808) (Z.min 9223372036854775807 x).
Definition atoi (s : list ascii) : Z :=
  match skip_space s with
  | [] => 0
  | c :: s' =>
      if c =c "-"%char then i32 (clamp64 (- digits 0 s'))
      else if c =c "+"%char then i32 (clamp64 (digits 0 s'))
      else i32 (clamp64 (digits 0 (c :: s')))
  end.

(** strstr: the rest of the string from the first place where [tag] stands. *)
Definition starts_with (tag s : list ascii) : bool := strncmp s tag (length tag) =? 0.
Fixpoint strstr (s tag : list ascii) : option (list ascii) :=
  if starts_with tag s then Some s else match s with [] => None | _ :: s => strstr s tag end.

(** The loop [for (i = 0; i < strlen(str) + 1; ++i)] that writes each character
    but the dropped ones back to [str[index++]]; strlen is evaluated again in
    each round, on the array as it is by then. *)
Fixpoint compact {T} (dropped : ascii -> bool) (fuel : nat) (str : list ascii) (i index : nat) : CM T (list ascii) :=
  if Z.of_nat i <? strlen str + 1 then
    match fuel with
    | O => nofuel
    | S fuel =>
        match str !! i with
        | None => undef
        | Some c =>
            if dropped c then compact dropped fuel str (S i) index
            else compact dropped fuel (<[index := c]> str) (S i) (S index)
        end
    end
  else ret str.

(** ** Lemmas *)

Lemma uchar_range c : 0 <= uchar c < 256.
Proof. unfold uchar. pose proof (N_ascii_bounded c). lia. Qed.

Lemma uchar_inj a b : uchar a = uchar b -> a = b.
Proof.
  unfold uchar. intros H. apply N2Z.inj in H.
  rewrite <- (ascii_N_embedding a), <- (ascii_N_embedding b). by rewrite H.
Qed.

Lemma one_of_In c l : one_of c l = true <-> c ∈ l.
Proof.
  unfold one_of. rewrite existsb_exists. split.
  - intros (x & Hx & ->%Ascii.eqb_eq). by apply list_elem_of_In.
  - intros Hc. exists c. split; [by apply list_elem_of_In | apply Ascii.eqb_refl].
Qed.

Lemma strcasecmp_refl s : strcasecmp s s = 0.
Proof. induction s as [|c s IH]; simpl; [done |]. by rewrite Z.eqb_refl. Qed.

Lemma tolower_pos c : c <> NUL -> 0 < tolower c.
Proof.
  intros Hc. pose proof (uchar_range c). assert (uchar c <> 0) by (intros H0; apply Hc, uchar_inj; exact H0).
  unfold tolower. destruct (_ && _); lia.
Qed.

Lemma strcmp_eq a b : NUL ∉ a -> NUL ∉ b -> strcmp a b = 0 <-> a = b.
Proof.
  assert (Hpos : forall c : ascii, c <> NUL -> 0 < uchar c).
  { intros c Hc. pose proof (uchar_range c). assert (uchar c <> 0) by (intros H0; apply Hc, uchar_inj; exact H0). lia. }
  revert b. induction a as [|x a IH]; intros [|y b] Ha Hb; simpl.
  - done.
  - pose proof (Hpos y). rewrite not_elem_of_cons in Hb. split; [|done]. intros. destruct Hb. assert (0 < uchar y) by auto. lia.
  - pose proof (Hpos x). rewrite not_elem_of_cons in Ha. split; [|done]. intros. destruct Ha. assert (0 < uchar x) by auto. lia.
  - rewrite not_elem_of_cons in Ha, Hb. destruct (Ascii.eqb_spec x y) as [->|Hne].
    + rewrite IH by tauto. split; [by intros -> | by intros [= ->]].
    + split; [|by intros [= -> _]]. intros Hz. destruct Hne. apply uchar_inj. lia.
Qed.

Lemma cstr_no_nul buf : NUL ∉ cstr buf.
Proof.
  induction buf as [|c buf IH]; simpl; [set_solver |].
  destruct (Ascii.eqb_spec c NUL); set_solver.
Qed.

Lemma cstr_app_nul s rest : NUL ∉ s -> cstr (s ++ NUL :: rest) = s.
Proof.
  induction s as [|c s IH]; simpl; [done |]. intros Hn. rewrite not_elem_of_cons in Hn.
  destruct (Ascii.eqb_spec c NUL); [naive_solver |]. f_equal. tauto.
Qed.

Lemma cstr_id s : NUL ∉ s -> cstr s = s.
Proof.
  induction s as [|c s IH]; simpl; [done |]. intros Hn. rewrite not_elem_of_cons in Hn.
  destruct (Ascii.eqb_spec c NUL); [naive_solver |]. f_equal. tauto.
Qed.

Lemma digits_app acc ds s : forallb isdigit ds = true -> digits acc (ds ++ s) = digits (digits acc ds) s.
Proof.
  revert acc. induction ds as [|c ds IH]; intros acc; simpl; [done |].
  intros [-> Hd]%andb_prop. by apply IH.
Qed.

(** A run of [n] digits after [acc] stays below [(acc + 1) * 10 ^ n]. *)
Lemma digits_bound acc s : 0 <= acc -> acc <= digits acc s < (acc + 1) * 10 ^ Z.of_nat (length s).
Proof.
  revert acc. induction s as [|c s IH]; intros acc Ha; simpl length; [simpl; lia |].
  rewrite Nat2Z.inj_succ, Z.pow_succ_r by lia. simpl.
  pose proof (Z.pow_pos_nonneg 10 (Z.of_nat (length s)) ltac:(lia) ltac:(lia)).
  destruct (isdigit c) eqn:Hc; [|nia].
  unfold isdigit in Hc. apply andb_prop in Hc as [?%Z.leb_le ?%Z.leb_le].
  specialize (IH (acc * 10 + (uchar c - 48)) ltac:(lia)). nia.
Qed.

Lemma strlen_app_nul s rest : NUL ∉ s -> strlen (s ++ NUL :: rest) = Z.of_nat (length s).
Proof. intros H. unfold strlen. by rewrite cstr_app_nul. Qed.

(** What [compact] leaves of a string. *)
Definition kept (dropped : ascii -> bool) (s : list ascii) : list ascii := List.filter (fun c => negb (dropped c)) s.

(** The loop in the middle: [done] is written, [gap] is the part it has passed
    and not overwritten, [s] is still to be read. *)
Lemma compact_loop {T} dropped fuel (done gap s rest : list ascii) (w : T) :
  dropped NUL = false ->
  NUL ∉ done -> NUL ∉ gap -> NUL ∉ s -> (length s + 1 <= fuel)%nat ->
  wp (compact dropped fuel (done ++ gap ++ s ++ NUL :: rest) (length done + length gap) (length done)) w
    (fun b w' => w' = w /\ cstr b = done ++ kept dropped s /\ length b = length (done ++ gap ++ s ++ NUL :: rest)).
Proof.
  intros Hnul. revert fuel done gap. induction s as [|c s IH]; intros fuel done gap Hd Hg Hs Hf.
  - destruct fuel as [|fuel]; [simpl in Hf; lia |]. cbn [compact app].
    assert (Hlen : strlen (done ++ gap ++ NUL :: rest) = Z.of_nat (length done + length gap)).
    { rewrite app_assoc, strlen_app_nul by set_solver. by rewrite length_app. }
    rewrite Hlen, (proj2 (Z.ltb_lt _ _)) by lia.
    assert (Hat : (done ++ gap ++ NUL :: rest) !! (length done + length gap)%nat = Some NUL).
    { rewrite app_assoc, lookup_app_r, length_app, Nat.sub_diag by (rewrite length_app; lia). done. }
    rewrite Hat. rewrite Hnul.
    assert (Hb : exists tl, <[length done := NUL]> (done ++ gap ++ NUL :: rest) = done ++ NUL :: tl /\
      length tl = (length gap + length rest)%nat).
    { rewrite insert_app_r_alt, Nat.sub_diag by lia. destruct gap as [|x gap]; simpl.
      - by exists rest.
      - exists (gap ++ NUL :: rest). rewrite length_app. simpl. split; [done | lia]. }
    destruct Hb as (tl & -> & Htl).
    destruct fuel; cbn [compact]; rewrite strlen_app_nul by done; rewrite (proj2 (Z.ltb_ge _ _)) by lia;
      apply wp_ret; rewrite cstr_app_nul, app_nil_r by done; (split; [done |]); (split; [done |]);
      rewrite !length_app; simpl; rewrite ?length_app; simpl; lia.
  - destruct fuel as [|fuel]; [simpl in Hf; lia |]. cbn [compact]. rewrite not_elem_of_cons in Hs.
    assert (Hlen : strlen (done ++ gap ++ (c :: s) ++ NUL :: rest) = Z.of_nat (length done + length gap + S (length s))).
    { rewrite !app_assoc, strlen_app_nul by set_solver. rewrite !length_app. simpl. lia. }
    rewrite Hlen, (proj2 (Z.ltb_lt _ _)) by lia.
    assert (Hat : (done ++ gap ++ (c :: s) ++ NUL :: rest) !! (length done + length gap)%nat = Some c).
    { rewrite app_assoc, lookup_app_r, length_app, Nat.sub_diag by (rewrite length_app; lia). done. }
    rewrite Hat. simpl in Hf. destruct (dropped c) eqn:Hdrop.
    + replace (done ++ gap ++ (c :: s) ++ NUL :: rest) with (done ++ (gap ++ [c]) ++ s ++ NUL :: rest)
        by (rewrite <- !app_assoc; done).
      replace (S (length done + length gap)) with (length done + length (gap ++ [c]))%nat by (rewrite length_app; simpl; lia).
      unfold kept. simpl. rewrite Hdrop. simpl. apply IH; [done | | tauto | lia].
      rewrite not_elem_of_app, list_elem_of_singleton. split; [done | intros E; by apply (proj1 Hs)].
    + assert (Hins : exists gap', <[length done := c]> (done ++ gap ++ (c :: s) ++ NUL :: rest) = (done ++ [c]) ++ gap' ++ s ++ NUL :: rest /\
        length gap' = length gap /\ NUL ∉ gap').
      { rewrite insert_app_r_alt, Nat.sub_diag by lia. destruct gap as [|x gap]; simpl.
        - exists []. rewrite <- app_assoc. done.
        - exists (gap ++ [c]). rewrite <- !app_assoc, length_app. simpl. split; [done |]. split; [lia |].
          rewrite not_elem_of_cons in Hg. rewrite not_elem_of_app, list_elem_of_singleton. split; [tauto |]. intros E. by apply (proj1 Hs). }
      destruct Hins as (gap' & -> & Hl & Hg').
      replace (S (length done + length gap)) with (length (done ++ [c]) + length gap')%nat by (rewrite length_app; simpl; lia).
      replace (S (length done)) with (length (done ++ [c])) by (rewrite length_app; simpl; lia).
      eapply wp_mono; [apply IH; [rewrite not_elem_of_app, list_elem_of_singleton; split; [done | intros E; by apply (proj1 Hs)] | done | tauto | lia] |].
      intros b w' (-> & Hb & Hlb). split; [done |]. split.
      * rewrite Hb. unfold kept. simpl. rewrite Hdrop. simpl. by rewrite <- app_assoc.
      * rewrite Hlb, !length_app. simpl. rewrite ?length_app. simpl. lia.
Qed.


Lemma compact_spec {T} dropped s rest fuel (w : T) :
  dropped NUL = false -> NUL ∉ s -> (length s + 1 <= fuel)%nat ->
  wp (compact dropped fuel (s ++ NUL :: rest) 0 0) w
    (fun b w' => w' = w /\ cstr b = kept dropped s /\ length b = length (s ++ NUL :: rest)).
Proof. intros Hd Hs Hf. apply (compact_loop dropped fuel [] [] s rest w); [done | set_solver | set_solver | done | done]. Qed.

(** ** Searching *)

(** The first place of [tag] in [junk ++ tag] is at the end. *)
Definition fresh (tag junk : list ascii) : Prop := strstr (junk ++ tag) tag = Some tag.
#[export] Instance fresh_dec tag junk : Decision (fresh tag junk).
Proof. unfold fresh. apply _. Defined.

Lemma strcmp_refl s : strcmp s s = 0.
Proof. induction s as [|c s IH]; simpl; [done |]. by rewrite Ascii.eqb_refl. Qed.
Lemma starts_with_app tag s : starts_with tag (tag ++ s) = true.
Proof. unfold starts_with, strncmp. by rewrite take_app_length, take_ge, strcmp_refl by lia. Qed.
Lemma starts_with_take tag s s' : take (length tag) s = take (length tag) s' -> starts_with tag s = starts_with tag s'.
Proof. unfold starts_with, strncmp. by intros ->. Qed.

Lemma strstr_app tag rest : strstr (tag ++ rest) tag = Some (tag ++ rest).
Proof. pose proof (starts_with_app tag rest). destruct (tag ++ rest); simpl; by case_match. Qed.
Lemma strstr_fresh tag junk rest : fresh tag junk -> strstr (junk ++ tag ++ rest) tag = Some (tag ++ rest).
Proof.
  unfold fresh. induction junk as [|x junk IH]; intros H; [exact (strstr_app tag rest) |].
  simpl in H |- *. destruct (starts_with tag (x :: junk ++ tag)) eqn:E.
  - injection H as H. apply (f_equal length) in H. simpl in H. rewrite length_app in H. lia.
  - rewrite (starts_with_take tag (x :: junk ++ tag ++ rest) (x :: junk ++ tag)), E; [by apply IH |].
    change (x :: junk ++ tag ++ rest) with ((x :: junk) ++ tag ++ rest). change (x :: junk ++ tag) with ((x :: junk) ++ tag).
    rewrite app_assoc, take_app_le; [done |]. rewrite length_app. lia.
Qed.

(** A write of NUL cuts the string. *)
Lemma cstr_cut n buf : (n < length buf)%nat -> cstr (<[n := NUL]> buf) = take n (cstr buf).
Proof.
  revert n. induction buf as [|c buf IH]; intros [|n] Hn; simpl in Hn |- *; [lia | lia | by destruct (_ =c _) |].
  destruct (Ascii.eqb_spec c NUL); [done |]. simpl. f_equal. apply IH. lia.
Qed.
Lemma cstr_split buf : NUL ∈ buf -> exists rest, buf = cstr buf ++ NUL :: rest.
Proof.
  induction buf as [|c buf IH]; intros H; [by apply not_elem_of_nil in H |]. simpl.
  destruct (Ascii.eqb_spec c NUL) as [->|Hne]; [by exists buf |].
  apply elem_of_cons in H as [E|H]; [congruence |]. destruct (IH H) as [rest Hr]. exists rest. simpl. by f_equal.
Qed.
