(* ===== verification/CFloat.v ===== *)
(** [float] and [double] values as the load generator computes with them: IEEE
    754 binary32 and binary64, rounded to nearest even. *)
From S2P Require Import Prelude.
From Stdlib Require Import SpecFloat.
Local Open Scope Z_scope.

(** Conversions from a long, a decimal literal [n/d], and between the two widths. *)
Definition f64_of_Z (x : Z) : spec_float := binary_normalize 53 1024 x 0 false.
Definition f32_of_Z (x : Z) : spec_float := binary_normalize 24 128 x 0 false.
Definition f64_div : spec_float -> spec_float -> spec_float := SFdiv 53 1024.
Definition f32_div : spec_float -> spec_float -> spec_float := SFdiv 24 128.
Definition f64_lit (n d : Z) : spec_float := f64_div (f64_of_Z n) (f64_of_Z d).
Definition f_convert (prec emax : Z) (x : spec_float) : spec_float :=
  match x with
  | S754_finite s m e => binary_normalize prec emax (if s then Zneg m else Zpos m) e s
  | _ => x
  end.
Definition f32_of_f64 : spec_float -> spec_float := f_convert 24 128.
Definition f64_of_f32 : spec_float -> spec_float := f_convert 53 1024.

(** [x > y]: false when either is a NaN. *)
Definition f_gt (x y : spec_float) : bool := SFltb y x.

(** The truncation a cast to int makes; undefined for what is out of range. *)
Definition int_of_f64 (x : spec_float) : option Z :=
  let in_range (v : Z) := if (-2147483648 <=? v) && (v <? 2147483648) then Some v else None in
  match x with
  | S754_zero _ => Some 0
  | S754_finite s m e =>
      let v := if 0 <=? e then Zpos m * 2 ^ e else Zpos m / 2 ^ (- e) in
      in_range (if s then - v else v)
  | _ => None
  end.

(** The values stay what they are on small integers. *)
Example f32_small : int_of_f64 (f64_div (f64_of_f32 (f32_of_Z 3360)) (f64_of_Z 2)) = Some 1680.
Proof. vm_compute. reflexivity. Qed.
Example f64_cent : f_gt (f64_lit 1 50) (f64_lit 1 100) = true.
Proof. vm_compute. reflexivity. Qed.
