(* ===== verification/CDec.v ===== *)
(** Decimal numbers: what printf writes for them, and that atoi reads it back. *)
From S2P Require Import Prelude CStr.
Local Open Scope Z_scope.

Definition digit (d : Z) : ascii := ascii_of_N (Z.to_N (48 + d)).
Fixpoint dec_go (fuel : nat) (n : Z) (acc : list ascii) : list ascii :=
  match fuel with
  | O => acc
  | S fuel => if n <? 10 then digit n :: acc else dec_go fuel (n / 10) (digit (n mod 10) :: acc)
  end.
(** The decimal of an int that is not negative, [%d] of any int, [%llu]. *)
Definition dec (n : Z) : list ascii := dec_go 10 n [].
Definition show_int (n : Z) : list ascii := if n <? 0 then "-"%char :: dec (- n) else dec n.
Definition show_u64 (n : Z) : list ascii := dec_go 20 n [].

Lemma uchar_digit d : 0 <= d < 10 -> uchar (digit d) = 48 + d.
Proof. intros H. unfold uchar, digit. rewrite N_ascii_embedding; lia. Qed.
Lemma isdigit_digit d : 0 <= d < 10 -> isdigit (digit d) = true.
Proof. intros H. unfold isdigit. rewrite uchar_digit by done. lia. Qed.

Lemma digits_dec_go fuel n acc : 0 <= n < 10 ^ Z.of_nat fuel -> digits 0 (dec_go fuel n acc) = digits n acc.
Proof.
  revert n acc. induction fuel as [|fuel IH]; intros n acc Hn; [simpl in *; f_equal; lia |].
  rewrite Nat2Z.inj_succ, Z.pow_succ_r in Hn by lia. cbn [dec_go].
  destruct (Z.ltb_spec n 10) as [Hs|Hb].
  - simpl. rewrite isdigit_digit, uchar_digit by lia. f_equal. lia.
  - assert (Hm : 0 <= n mod 10 < 10) by (apply Z.mod_pos_bound; lia).
    rewrite IH; [|split; [apply Z.div_pos; lia | apply Z.div_lt_upper_bound; lia]].
    simpl. rewrite isdigit_digit, uchar_digit by done. f_equal. pose proof (Z.div_mod n 10). lia.
Qed.

Lemma dec_go_digits fuel n acc :
  0 <= n -> forallb isdigit acc = true -> forallb isdigit (dec_go fuel n acc) = true.
Proof.
  revert n acc. induction fuel as [|fuel IH]; intros n acc Hn Ha; [done |]. cbn [dec_go].
  destruct (Z.ltb_spec n 10); [simpl; rewrite isdigit_digit by lia; done |].
  apply IH; [apply Z.div_pos; lia |]. simpl. rewrite isdigit_digit; [done |]. apply Z.mod_pos_bound. lia.
Qed.
Lemma dec_go_head fuel n acc : (0 < fuel)%nat -> exists c l, dec_go fuel n acc = c :: l.
Proof.
  revert n acc. induction fuel as [|fuel IH]; intros n acc Hf; [lia |]. cbn [dec_go]. destruct (n <? 10); [by eexists _, _ |].
  destruct fuel; [by eexists _, _ |]. apply IH. lia.
Qed.

Lemma isdigit_not c : isdigit c = true -> isspace c = false /\ c <> "-"%char /\ c <> "+"%char /\ c <> "/"%char /\ c <> ":"%char /\ c <> LF /\ c <> NUL.
Proof.
  unfold isdigit, isspace. intros [H1%Z.leb_le H2%Z.leb_le]%andb_prop. split; [lia |].
  repeat split; intros ->; vm_compute in H1, H2; congruence.
Qed.

(** atoi reads the decimal, whatever follows it that is not a digit. *)
Lemma atoi_dec n rest :
  0 <= n < 2 ^ 31 -> (match rest with c :: _ => isdigit c = false | [] => True end) -> atoi (dec n ++ rest) = n.
Proof.
  intros Hn Hr. change (2 ^ 31) with 2147483648 in Hn. unfold dec.
  pose proof (dec_go_digits 10 n [] ltac:(lia) eq_refl) as Hd. pose proof (digits_dec_go 10 n [] ltac:(lia)) as Hv.
  destruct (dec_go_head 10 n []) as (c & l & E); [lia |]. rewrite E in *. pose proof Hd as Hall. simpl in Hd. apply andb_prop in Hd as [Hc _].
  destruct (isdigit_not c Hc) as (Hsp & Hm & Hp & _).
  assert (Hdig : digits 0 ((c :: l) ++ rest) = n).
  { rewrite digits_app by done. rewrite Hv. cbn [digits]. destruct rest as [|x rest]; [done |]. simpl. by rewrite Hr. }
  cbn [app] in Hdig |- *. unfold atoi. cbn [skip_space]. rewrite Hsp.
  rewrite (proj2 (Ascii.eqb_neq _ _) Hm), (proj2 (Ascii.eqb_neq _ _) Hp), Hdig. unfold clamp64. rewrite i32_small; lia.
Qed.
Lemma atoi_dec_all n : 0 <= n < 2 ^ 31 -> atoi (dec n) = n.
Proof. intros H. rewrite <- (app_nil_r (dec n)). by apply atoi_dec. Qed.
