(* ===== verification/Timers.v ===== *)
(** The timers package of the load generator (http_load/timers.c and timers.h):
    data, operations, and the pointer structure they maintain. *)
From S2P Require Import Prelude.
Local Open Scope Z_scope.

(** Addresses of [Timer] cells; a null pointer is [None]. *)
Definition loc : Type := positive.

Record timeval := Timeval { tv_sec : Z; tv_usec : Z }.

(** [struct TimerStruct]; a function pointer and a [ClientData] value are of
    whatever types the client of the package uses. *)
Record Timer (proc cdata : Type) := MkTimer {
  timer_proc : proc;
  client_data : cdata;
  msecs : Z;
  periodic : bool;
  time : timeval;
  prev : option loc;
  next : option loc;
  hash_ : Z
}.
Arguments MkTimer {proc cdata}.
Arguments timer_proc {proc cdata}.
Arguments client_data {proc cdata}.
Arguments msecs {proc cdata}.
Arguments periodic {proc cdata}.
Arguments time {proc cdata}.
Arguments prev {proc cdata}.
Arguments next {proc cdata}.
Arguments hash_ {proc cdata}.

Definition HASH_SIZE : nat := 67.
Definition INFTIM : Z := -1.

(** The package's static data, and the C heap of [Timer] cells: [mallocs]
    counts the calls of malloc so far, whose addresses are numbered. *)
Record tstate (proc cdata : Type) := TState {
  theap : gmap loc (Timer proc cdata);
  timers : list (option loc);
  free_timers : option loc;
  mallocs : nat
}.
Arguments TState {proc cdata}.
Arguments theap {proc cdata}.
Arguments timers {proc cdata}.
Arguments free_timers {proc cdata}.
Arguments mallocs {proc cdata}.

Section Defs.
Context {proc cdata : Type}.
Abbreviation timer := (Timer proc cdata).
Abbreviation st := (tstate proc cdata).
Abbreviation T := (CM st).

(** Field updates. *)
Definition with_prev (v : option loc) (t : timer) : timer :=
  MkTimer (timer_proc t) (client_data t) (msecs t) (periodic t) (time t) v (next t) (hash_ t).
Definition with_next (v : option loc) (t : timer) : timer :=
  MkTimer (timer_proc t) (client_data t) (msecs t) (periodic t) (time t) (prev t) v (hash_ t).
Definition with_time (v : timeval) (t : timer) : timer :=
  MkTimer (timer_proc t) (client_data t) (msecs t) (periodic t) v (prev t) (next t) (hash_ t).
Definition with_hash (v : Z) (t : timer) : timer :=
  MkTimer (timer_proc t) (client_data t) (msecs t) (periodic t) (time t) (prev t) (next t) v.

Definition set_heap (h : gmap loc timer) (s : st) : st :=
  TState h (timers s) (free_timers s) (mallocs s).
Definition set_timers (b : list (option loc)) (s : st) : st :=
  TState (theap s) b (free_timers s) (mallocs s).
Definition set_free (f : option loc) (s : st) : st :=
  TState (theap s) (timers s) f (mallocs s).

(** [*p] and an assignment to fields of [*p]: undefined for a cell that is not allocated. *)
Definition load (p : loc) : T timer := get_or_undef (fun s => theap s !! p).
Definition store (f : timer -> timer) (p : loc) : T unit :=
  t <- load p ;;
  modify (fun s => set_heap (<[p := f t]> (theap s)) s).

(** [timers[h]] read and written: undefined out of range. *)
Definition get_bucket (h : Z) : T (option loc) :=
  get_or_undef (fun s => if 0 <=? h then timers s !! Z.to_nat h else None).
Definition set_bucket (h : Z) (v : option loc) : T unit :=
  b <- get_bucket h ;;
  modify (fun s => set_timers (<[Z.to_nat h := v]> (timers s)) s).

(** [hash]: both fields cast to a 32-bit unsigned, xor-ed, modulo the table size. *)
Definition hash_time (tv : timeval) : Z :=
  Z.lxor (u32 (tv_sec tv)) (u32 (tv_usec tv)) mod Z.of_nat HASH_SIZE.
Definition hash (t : timer) : Z := hash_time (time t).

(** The comparison [l_add] makes: the new timer goes before [t2]. *)
Definition tv_leb (a b : timeval) : bool :=
  (tv_sec a <? tv_sec b) || ((tv_sec a =? tv_sec b) && (tv_usec a <=? tv_usec b)).
(** The comparison [tmr_run] makes: the timer isn't ready yet. *)
Definition tv_later (a b : timeval) : bool :=
  (tv_sec a >? tv_sec b) || ((tv_sec a =? tv_sec b) && (tv_usec a >? tv_usec b)).

(** The walk for the insertion point in [l_add]: [fuel] bounds the number of
    cells passed, [tm] is the new timer's trigger time. *)
Fixpoint l_add_walk (fuel : nat) (t : loc) (tm : timeval) (t2prev : loc) (t2 : option loc) : T unit :=
  match t2 with
  | None =>
      store (with_next (Some t)) t2prev ;;;
      store (with_prev (Some t2prev)) t ;;;
      store (with_next None) t
  | Some q =>
      match fuel with
      | O => nofuel
      | S fuel =>
          c2 <- load q ;;
          if tv_leb tm (time c2) then
            store (with_next (Some t)) t2prev ;;;
            store (with_prev (Some t2prev)) t ;;;
            store (with_next (Some q)) t ;;;
            store (with_prev (Some t)) q
          else l_add_walk fuel t tm q (next c2)
      end
  end.

Definition l_add (t : loc) : T unit :=
  c <- load t ;;
  let h := hash_ c in
  t2 <- get_bucket h ;;
  match t2 with
  | None =>
      set_bucket h (Some t) ;;;
      store (with_next None) t ;;;
      store (with_prev None) t
  | Some q =>
      c2 <- load q ;;
      if tv_leb (time c) (time c2) then
        set_bucket h (Some t) ;;;
        store (with_prev None) t ;;;
        store (with_next (Some q)) t ;;;
        store (with_prev (Some t)) q
      else
        fuel <- gets (fun s => size (theap s)) ;;
        l_add_walk fuel t (time c) q (next c2)
  end.

Definition l_remove (t : loc) : T unit :=
  c <- load t ;;
  let h := hash_ c in
  match prev c with
  | None => set_bucket h (next c)
  | Some p => store (with_next (next c)) p
  end ;;;
  c' <- load t ;;
  match next c' with
  | None => ret tt
  | Some n => store (with_prev (prev c')) n
  end.

Definition l_resort (t : loc) : T unit :=
  l_remove t ;;;
  c <- load t ;;
  store (with_hash (hash c)) t ;;;
  l_add t.

Definition tmr_init : T unit :=
  modify (fun s => set_timers (replicate HASH_SIZE None) s).

(** [t->time] moved [ms] milliseconds on, with the carry the code makes. *)
Definition time_plus (tv : timeval) (ms : Z) : timeval :=
  let sec := tv_sec tv + Z.quot ms 1000 in
  let usec := tv_usec tv + Z.rem ms 1000 * 1000 in
  if usec >=? 1000000
  then Timeval (sec + Z.quot usec 1000000) (Z.rem usec 1000000)
  else Timeval sec usec.

(** malloc: whether the [n]-th call succeeds is the system's choice
    ([malloc_ok]), and so is what the new cell holds ([junk]). *)
Definition malloc_timer (malloc_ok : nat -> bool) (junk : timer) : T (option loc) := fun s =>
  if malloc_ok (mallocs s) then
    let p := Pos.of_succ_nat (mallocs s) in
    Ret (Some p) (TState (<[p := junk]> (theap s)) (timers s) (free_timers s) (S (mallocs s)))
  else Ret None (TState (theap s) (timers s) (free_timers s) (S (mallocs s))).

(** free: undefined for a cell that is not allocated. *)
Definition free_timer (p : loc) : T unit :=
  t <- load p ;;
  modify (fun s => set_heap (delete p (theap s)) s).

Definition alloc_cell (malloc_ok : nat -> bool) (junk : timer) : T (option loc) :=
  f <- gets free_timers ;;
  match f with
  | Some t =>
      c <- load t ;;
      modify (set_free (next c)) ;;;
      ret (Some t)
  | None => malloc_timer malloc_ok junk
  end.

(** [gtod] is what gettimeofday gives when the caller passes no time. *)
Definition tmr_create (malloc_ok : nat -> bool) (junk : timer) (gtod : timeval)
    (nowP : option timeval) (pr : proc) (cd : cdata) (ms : Z) (per : bool) : T (option loc) :=
  t' <- alloc_cell malloc_ok junk ;;
  match t' with
  | None => ret None
  | Some t =>
      let tm := time_plus (default gtod nowP) ms in
      store (fun c => MkTimer pr cd ms per tm (prev c) (next c) (hash_time tm)) t ;;;
      l_add t ;;;
      ret (Some t)
  end.

(** The milliseconds from [now] to a trigger time, as [tmr_mstimeout] computes them. *)
Definition ms_until (now tm : timeval) : Z :=
  (tv_sec tm - tv_sec now) * 1000 + Z.quot (tv_usec tm - tv_usec now) 1000.

(** The loop of [tmr_mstimeout] over the buckets; [acc] is [msecs] when [gotone]. *)
Fixpoint mstimeout_loop (now : timeval) (bs : list (option loc)) (acc : option Z) : T (option Z) :=
  match bs with
  | [] => ret acc
  | None :: bs => mstimeout_loop now bs acc
  | Some t :: bs =>
      c <- load t ;;
      let m := ms_until now (time c) in
      mstimeout_loop now bs
        (match acc with
         | None => Some m
         | Some ms => if m <? ms then Some m else Some ms
         end)
  end.

Definition tmr_mstimeout (now : timeval) : T Z :=
  bs <- gets timers ;;
  acc <- mstimeout_loop now bs None ;;
  match acc with
  | None => ret INFTIM
  | Some ms => ret (if ms <=? 0 then 0 else ms)
  end.

Definition tmr_timeout (now : timeval) : T (option timeval) :=
  ms <- tmr_mstimeout now ;;
  if ms =? INFTIM then ret None
  else ret (Some (Timeval (Z.quot ms 1000) (Z.rem ms 1000 * 1000))).

Definition tmr_reset (now : timeval) (t : loc) : T unit :=
  c <- load t ;;
  store (with_time (time_plus now (msecs c))) t ;;;
  l_resort t.

Definition tmr_cancel (t : loc) : T unit :=
  l_remove t ;;;
  f <- gets free_timers ;;
  store (with_next f) t ;;;
  modify (set_free (Some t)) ;;;
  store (with_prev None) t.

Fixpoint tmr_cleanup_loop (fuel : nat) : T unit :=
  f <- gets free_timers ;;
  match f with
  | None => ret tt
  | Some t =>
      match fuel with
      | O => nofuel
      | S fuel =>
          c <- load t ;;
          modify (set_free (next c)) ;;;
          free_timer t ;;;
          tmr_cleanup_loop fuel
      end
  end.
Definition tmr_cleanup : T unit :=
  fuel <- gets (fun s => size (theap s)) ;; tmr_cleanup_loop fuel.

Fixpoint tmr_destroy_bucket (fuel : nat) (h : Z) : T unit :=
  b <- get_bucket h ;;
  match b with
  | None => ret tt
  | Some t =>
      match fuel with
      | O => nofuel
      | S fuel => tmr_cancel t ;;; tmr_destroy_bucket fuel h
      end
  end.
Fixpoint tmr_destroy_loop (n : nat) (h : Z) : T unit :=
  match n with
  | O => ret tt
  | S n =>
      fuel <- gets (fun s => size (theap s)) ;;
      tmr_destroy_bucket fuel h ;;;
      tmr_destroy_loop n (h + 1)
  end.
Definition tmr_destroy : T unit :=
  tmr_destroy_loop HASH_SIZE 0 ;;; tmr_cleanup.
End Defs.

(** * Running the timers *)

(** What [tmr_run] needs of the program it runs in: where the package's data
    are, what [*nowP] is (a callback may change it), and what a call of a
    timer procedure does. *)
Class TimerClient (St proc cdata : Type) := {
  tmr_get : St -> tstate proc cdata;
  tmr_put : tstate proc cdata -> St -> St;
  nowP : St -> timeval;
  timer_call : proc -> cdata -> CM St unit
}.

Section Run.
Context {St proc cdata : Type} {TC : TimerClient St proc cdata}.

Definition tmr {A} (m : CM (tstate proc cdata) A) : CM St A := zoom tmr_get tmr_put m.

(** The inner loop of [tmr_run] from the cell [t]; [next] is read before the
    timer procedure runs. *)
Fixpoint tmr_run_list (fuel : nat) (t : option loc) : CM St unit :=
  match t with
  | None => ret tt
  | Some p =>
      match fuel with
      | O => nofuel
      | S fuel =>
          c <- tmr (load p) ;;
          let next := next c in
          now <- gets nowP ;;
          if tv_later (time c) now then ret tt
          else
            timer_call (timer_proc c) (client_data c) ;;;
            c' <- tmr (load p) ;;
            (if periodic c' then
               tmr (store (with_time (time_plus (time c') (msecs c'))) p) ;;;
               tmr (l_resort p)
             else tmr (tmr_cancel p)) ;;;
            tmr_run_list fuel next
      end
  end.

Fixpoint tmr_run_loop (fuel : nat) (n : nat) (h : Z) : CM St unit :=
  match n with
  | O => ret tt
  | S n =>
      t <- tmr (get_bucket h) ;;
      tmr_run_list fuel t ;;;
      tmr_run_loop fuel n (h + 1)
  end.
Definition tmr_run (fuel : nat) : CM St unit := tmr_run_loop fuel HASH_SIZE 0.
End Run.
