(* ===== verification/TimersSpec.v ===== *)
(** The pointer structure of the timers package: doubly linked bucket lists,
    a singly linked free list, and what [l_add], [l_remove] and [l_resort] do to them. *)
From S2P Require Import Prelude Timers.
Local Open Scope Z_scope.

Section Structure.
Context {proc cdata : Type}.
Abbreviation timer := (Timer proc cdata).
Abbreviation st := (tstate proc cdata).
Implicit Types (m : gmap loc timer) (s : st) (p q : loc) (l : list loc) (bs : list (list loc)).

(** ** Representation predicates *)

(** From [hd], through the cells [l], to [nx]; [pv] and [last] are the cells before and at the end. *)
Fixpoint dseg m (pv hd : option loc) (l : list loc) (last nx : option loc) : Prop :=
  match l with
  | [] => hd = nx /\ last = pv
  | p :: l => hd = Some p /\ exists t, m !! p = Some t /\ prev t = pv /\ dseg m (Some p) (next t) l last nx
  end.

(** The free list, linked by [next] only. *)
Fixpoint sseg m (hd : option loc) (l : list loc) : Prop :=
  match l with
  | [] => hd = None
  | p :: l => hd = Some p /\ exists t, m !! p = Some t /\ sseg m (next t) l
  end.

(** A cell without its links. *)
Definition tdata (t : timer) : timer := with_prev None (with_next None t).
Definition same_data m m' : Prop := forall p, tdata <$> m' !! p = tdata <$> m !! p.

Lemma dseg_app m pv hd l1 l2 last nx :
  dseg m pv hd (l1 ++ l2) last nx <->
  exists lm hm, dseg m pv hd l1 lm hm /\ dseg m lm hm l2 last nx.
Proof.
  revert pv hd. induction l1 as [|p l1 IH]; intros pv hd; simpl.
  - split; [by eauto |]. by intros (lm & hm & [-> ->] & ?).
  - split.
    + intros (-> & t & Hp & Hpv & (lm & hm & ? & ?)%IH). naive_solver.
    + intros (lm & hm & (-> & t & Hp & Hpv & Hs) & H2). split; [done |].
      exists t. repeat split; [done..|]. apply IH. by eauto.
Qed.

Lemma dseg_frame m m' pv hd l last nx :
  (forall p, p ∈ l -> m' !! p = m !! p) -> dseg m pv hd l last nx -> dseg m' pv hd l last nx.
Proof.
  revert pv hd. induction l as [|p l IH]; intros pv hd Hm; simpl; [done |].
  intros (-> & t & Hp & Hpv & Hs). split; [done |]. exists t.
  rewrite Hm by set_solver. repeat split; [done..|]. apply IH; [set_solver | done].
Qed.

Lemma sseg_frame m m' hd l :
  (forall p, p ∈ l -> m' !! p = m !! p) -> sseg m hd l -> sseg m' hd l.
Proof.
  revert hd. induction l as [|p l IH]; intros hd Hm; simpl; [done |].
  intros (-> & t & Hp & Hs). split; [done |]. exists t.
  rewrite Hm by set_solver. repeat split; [done..|]. apply IH; [set_solver | done].
Qed.

(** A change of [next] at the last cell, of [prev] at the first. *)
Lemma dseg_set_next m pv hd l p t nx v :
  NoDup (l ++ [p]) -> m !! p = Some t ->
  dseg m pv hd (l ++ [p]) (Some p) nx ->
  dseg (<[p := with_next v t]> m) pv hd (l ++ [p]) (Some p) v.
Proof.
  intros (_ & Hni & _)%NoDup_app Hp (lm & hm & Hl & Ht)%dseg_app.
  apply dseg_app. exists lm, hm. split.
  - eapply dseg_frame; [|done]. intros q Hq. apply lookup_insert_ne. set_solver.
  - simpl in *. destruct Ht as (-> & t' & Hp' & Hpv & _). simplify_eq.
    split; [done |]. eexists. rewrite lookup_insert_eq. naive_solver.
Qed.

Lemma dseg_set_prev m pv p l t last nx v :
  p ∉ l -> m !! p = Some t ->
  dseg m pv (Some p) (p :: l) last nx ->
  dseg (<[p := with_prev v t]> m) v (Some p) (p :: l) last nx.
Proof.
  intros Hni Hp (_ & t' & Hp' & Hpv & Hs). simplify_eq. simpl. split; [done |].
  exists (with_prev v t). rewrite lookup_insert_eq. repeat split; [done..|]. simpl.
  eapply dseg_frame; [|done]. intros q Hq. apply lookup_insert_ne. set_solver.
Qed.

(** A segment's last cell, and its first. *)
Lemma dseg_last m pv hd l last nx : dseg m pv hd l last nx -> last = default pv (Some <$> list.last l).
Proof.
  revert pv hd. induction l as [|p l IH]; intros pv hd; simpl; [naive_solver |].
  intros (_ & t & _ & _ & ->%IH). rewrite last_cons. by destruct (list.last l).
Qed.

Lemma dseg_head m hd l last : dseg m None hd l last None -> hd = head l.
Proof. destruct l; naive_solver. Qed.

Lemma dseg_cells m pv hd l last nx : dseg m pv hd l last nx -> forall p, p ∈ l -> is_Some (m !! p).
Proof.
  revert pv hd. induction l as [|q l IH]; intros pv hd; [set_solver |].
  intros (_ & t & Hq & _ & Hs) p [->|Hp]%elem_of_cons; [done |]. by eapply IH.
Qed.

Lemma sseg_cells m hd l : sseg m hd l -> forall p, p ∈ l -> is_Some (m !! p).
Proof.
  revert hd. induction l as [|q l IH]; intros hd; [set_solver |].
  intros (_ & t & Hq & Hs) p [->|Hp]%elem_of_cons; [done |]. by eapply IH.
Qed.

(** ** Link-only updates *)

Lemma same_data_refl m : same_data m m.
Proof. done. Qed.

Lemma same_data_trans m1 m2 m3 : same_data m1 m2 -> same_data m2 m3 -> same_data m1 m3.
Proof. intros H1 H2 p. by rewrite H2. Qed.

Lemma same_data_insert m m' p t t' :
  same_data m m' -> m' !! p = Some t -> tdata t' = tdata t -> same_data m (<[p := t']> m').
Proof.
  intros Hm Hp Ht q. rewrite <- Hm. destruct (decide (p = q)) as [->|].
  - by rewrite lookup_insert_eq, Hp; simpl; rewrite Ht.
  - by rewrite lookup_insert_ne.
Qed.

Lemma same_data_lookup m m' p t :
  same_data m m' -> m !! p = Some t ->
  exists t', m' !! p = Some t' /\ tdata t' = tdata t.
Proof.
  intros Hm Hp. specialize (Hm p). rewrite Hp in Hm. simpl in Hm.
  destruct (m' !! p) as [t'|]; [|done]. exists t'. split; [done |].
  apply (inj Some) in Hm. exact Hm.
Qed.

Lemma same_data_sym m m' : same_data m m' -> same_data m' m.
Proof. intros H p. by rewrite H. Qed.

Lemma same_data_is_Some m m' p : same_data m m' -> is_Some (m' !! p) <-> is_Some (m !! p).
Proof. intros H. rewrite <- (fmap_is_Some tdata (m' !! p)), <- (fmap_is_Some tdata (m !! p)). by rewrite H. Qed.

Lemma tdata_fields (t t' : timer) : tdata t = tdata t' ->
  timer_proc t = timer_proc t' /\ client_data t = client_data t' /\ msecs t = msecs t' /\
  periodic t = periodic t' /\ time t = time t' /\ hash_ t = hash_ t'.
Proof. destruct t, t'. unfold tdata, with_prev, with_next. simpl. by intros [= <- <- <- <- <- <-]. Qed.

(** ** Linking a cell in, and out *)

(** [m'] is [m] with the [next] of the last cell of [l1] set to [nx] and the
    [prev] of the first cell of [l2] set to [pv]. *)
Record relinked m m' l1 l2 (t : loc) (nx pv : option loc) : Prop := {
  rl_left q cq : list.last l1 = Some q -> m !! q = Some cq -> m' !! q = Some (with_next nx cq);
  rl_right q cq : head l2 = Some q -> m !! q = Some cq -> m' !! q = Some (with_prev pv cq);
  rl_other p : p <> t -> list.last l1 <> Some p -> head l2 <> Some p -> m' !! p = m !! p
}.

Definition new_head (hd : option loc) l1 (v : option loc) : option loc :=
  match l1 with [] => v | _ => hd end.

Lemma relinked_left m m' hd l1 l2 t nx nx' pv :
  relinked m m' l1 l2 t nx' pv -> t ∉ l1 -> NoDup (l1 ++ l2) ->
  dseg m None hd l1 (list.last l1) nx ->
  dseg m' None (new_head hd l1 nx') l1 (list.last l1) nx'.
Proof.
  intros [Hl _ Ho] Ht (Hnd & Hdis & _)%NoDup_app. destruct l1 as [|q l1 _] using rev_ind; [done |].
  rewrite last_snoc in *. intros Hs.
  replace (new_head hd (l1 ++ [q]) nx') with hd by (by destruct l1).
  destruct (dseg_cells _ _ _ _ _ _ Hs q) as [cq Hq]; [set_solver |].
  eapply dseg_frame; [|by eapply dseg_set_next].
  intros p Hp. destruct (decide (p = q)) as [->|Hne].
  - rewrite lookup_insert_eq. by apply Hl.
  - rewrite lookup_insert_ne by done. apply Ho; [set_solver | congruence |].
    intros Hh. apply (Hdis p Hp). by apply head_Some_elem_of.
Qed.

Lemma relinked_right m m' pv pv' hd l1 l2 last t nx :
  relinked m m' l1 l2 t nx pv' -> t ∉ l2 -> NoDup (l1 ++ l2) ->
  dseg m pv hd l2 last None ->
  exists last', dseg m' pv' (head l2) l2 last' None.
Proof.
  intros [_ Hr Ho] Ht (_ & Hdis & Hnd)%NoDup_app Hs. destruct l2 as [|q l2]; [by exists pv' |].
  exists last. destruct (Hs) as (-> & cq & Hq & _).
  apply NoDup_cons in Hnd as [Hnq Hnd].
  eapply dseg_frame; [|by eapply dseg_set_prev].
  intros p Hp. destruct (decide (p = q)) as [->|Hne].
  - rewrite lookup_insert_eq. by apply Hr.
  - rewrite lookup_insert_ne by done. apply Ho; [set_solver | | simpl; congruence].
    intros Hh. apply (Hdis p); [|done]. by apply last_Some_elem_of.
Qed.

Lemma dseg_last_cell m hd l last nx : dseg m None hd l last nx -> last = list.last l.
Proof. intros ->%dseg_last. by destruct (list.last l). Qed.

Lemma dseg_link m m' hd l1 l2 last t c :
  relinked m m' l1 l2 t (Some t) (Some t) -> NoDup (t :: l1 ++ l2) ->
  dseg m None hd (l1 ++ l2) last None ->
  m' !! t = Some c -> prev c = list.last l1 -> next c = head l2 ->
  exists last', dseg m' None (new_head hd l1 (Some t)) (l1 ++ t :: l2) last' None.
Proof.
  intros Hrl [Hni Hnd]%NoDup_cons (lm & hm & H1 & H2)%dseg_app Ht Hpv Hnx.
  pose proof (dseg_last_cell _ _ _ _ _ H1) as ->.
  destruct (relinked_right _ _ _ _ _ _ _ _ _ _ Hrl ltac:(set_solver) Hnd H2) as (last' & Hr).
  exists last'. apply dseg_app. exists (list.last l1), (Some t). split.
  - eapply relinked_left; [done | set_solver | done..].
  - simpl. split; [done |]. exists c. rewrite Hnx. done.
Qed.

Lemma dseg_unlink m m' hd l1 l2 last t :
  relinked m m' l1 l2 t (head l2) (list.last l1) -> NoDup (t :: l1 ++ l2) ->
  dseg m None hd (l1 ++ t :: l2) last None ->
  exists last', dseg m' None (new_head hd l1 (head l2)) (l1 ++ l2) last' None.
Proof.
  intros Hrl [Hni Hnd]%NoDup_cons (lm & hm & H1 & H2)%dseg_app.
  pose proof (dseg_last_cell _ _ _ _ _ H1) as ->.
  destruct H2 as (-> & c & Ht & _ & H2).
  destruct (relinked_right _ _ _ _ _ _ _ _ _ _ Hrl ltac:(set_solver) Hnd H2) as (last' & Hr).
  exists last'. apply dseg_app. exists (list.last l1), (head l2). split; [|done].
  eapply relinked_left; [done | set_solver | done..].
Qed.

(** ** The well-formedness invariant *)

(** [bs] are the cells of each bucket in order, [fl] those of the free list,
    [hand] those on no list (an operation is between a removal and an insertion). *)
Record wf s bs (fl hand : list loc) : Prop := Wf {
  wf_len : length (timers s) = HASH_SIZE;
  wf_bs : Forall2 (fun hd l => exists last, dseg (theap s) None hd l last None) (timers s) bs;
  wf_free : sseg (theap s) (free_timers s) fl;
  wf_nodup : NoDup (hand ++ concat bs ++ fl);
  wf_dom : forall p, is_Some (theap s !! p) <-> p ∈ hand ++ concat bs ++ fl;
  wf_fresh : forall p, is_Some (theap s !! p) -> (Pos.to_nat p <= mallocs s)%nat
}.

(** The cells of the other buckets. *)
Definition others (h : nat) bs : list loc := concat (take h bs) ++ concat (drop (S h) bs).

Lemma concat_insert_perm h l l' bs :
  bs !! h = Some l -> concat (<[h := l']> bs) ≡ₚ l' ++ others h bs.
Proof.
  intros Hl. unfold others.
  rewrite insert_take_drop by (by eapply lookup_lt_Some).
  rewrite concat_app. simpl. rewrite Permutation_app_comm, <- !app_assoc.
  apply Permutation_app_head, Permutation_app_comm.
Qed.

Lemma concat_perm h l bs : bs !! h = Some l -> concat bs ≡ₚ l ++ others h bs.
Proof. intros Hl. rewrite <- (concat_insert_perm h l l bs Hl). by rewrite list_insert_id. Qed.

Lemma elem_of_others h h' l' bs p : bs !! h' = Some l' -> h <> h' -> p ∈ l' -> p ∈ others h bs.
Proof.
  intros Hl' Hne Hp. unfold others. rewrite elem_of_app, !list_elem_of_In, !in_concat.
  destruct (decide (h' < h)%nat).
  - left. exists l'. split; [|by apply list_elem_of_In]. apply list_elem_of_In.
    apply list_elem_of_lookup. exists h'. by rewrite lookup_take_lt.
  - right. exists l'. split; [|by apply list_elem_of_In]. apply list_elem_of_In.
    apply list_elem_of_lookup. exists (h' - S h)%nat. rewrite lookup_drop. by replace (S h + (h' - S h))%nat with h' by lia.
Qed.

Lemma wf_bucket s bs fl hand h l :
  wf s bs fl hand -> bs !! h = Some l ->
  exists hd last, timers s !! h = Some hd /\ dseg (theap s) None hd l last None /\ hd = head l.
Proof.
  intros Hwf Hl. destruct (Forall2_lookup_r _ _ _ _ _ (wf_bs _ _ _ _ Hwf) Hl) as (hd & ? & last & ?).
  exists hd, last. eauto using dseg_head.
Qed.

Lemma wf_nodup_bucket s bs fl hand h l :
  wf s bs fl hand -> bs !! h = Some l -> NoDup (hand ++ l ++ others h bs ++ fl).
Proof.
  intros Hwf Hl. pose proof (wf_nodup _ _ _ _ Hwf) as Hnd.
  by rewrite (concat_perm _ _ _ Hl), <- app_assoc in Hnd.
Qed.

(** The pool after one bucket's cells, and those in hand, were relinked. *)
Lemma wf_update s bs fl hand h l m' hd' l' last' hand' :
  wf s bs fl hand -> bs !! h = Some l ->
  same_data (theap s) m' ->
  (forall p, p ∉ hand ++ l -> m' !! p = theap s !! p) ->
  dseg m' None hd' l' last' None ->
  hand' ++ l' ≡ₚ hand ++ l ->
  wf (TState m' (<[h := hd']> (timers s)) (free_timers s) (mallocs s)) (<[h := l']> bs) fl hand'.
Proof.
  intros Hwf Hl Hsame Hframe Hseg Hperm.
  pose proof (wf_nodup_bucket _ _ _ _ _ _ Hwf Hl) as Hnd.
  assert (Hall : hand' ++ concat (<[h:=l']> bs) ++ fl ≡ₚ hand ++ concat bs ++ fl).
  { rewrite (concat_insert_perm _ _ _ _ Hl), (concat_perm _ _ _ Hl), <- !app_assoc, !app_assoc.
    by rewrite Hperm. }
  rewrite app_assoc in Hnd. apply NoDup_app in Hnd as (_ & Hdisj & _).
  constructor; simpl.
  - rewrite length_insert. apply Hwf.
  - assert (Hlen := Forall2_length _ _ _ (wf_bs _ _ _ _ Hwf)).
    apply Forall2_same_length_lookup. rewrite !length_insert. split; [done |].
    intros i hd k Hhd Hk. destruct (decide (i = h)) as [->|Hne].
    + pose proof (lookup_lt_Some _ _ _ Hl).
      rewrite list_lookup_insert_eq in Hhd by lia. rewrite list_lookup_insert_eq in Hk by lia. simplify_eq. by exists last'.
    + rewrite list_lookup_insert_ne in Hhd by done. rewrite list_lookup_insert_ne in Hk by done.
      destruct (Forall2_lookup_lr _ _ _ _ _ _ (wf_bs _ _ _ _ Hwf) Hhd Hk) as (last & Hd).
      exists last. eapply dseg_frame; [|exact Hd]. intros p Hp. apply Hframe. intros Hin.
      apply (Hdisj p Hin). apply elem_of_app. left.
      by eapply elem_of_others; [exact Hk | congruence |].
  - eapply sseg_frame; [|apply Hwf]. intros p Hp. apply Hframe. intros Hin.
    apply (Hdisj p Hin). set_solver.
  - rewrite Hall. apply Hwf.
  - intros p. rewrite Hall. rewrite <- (wf_dom _ _ _ _ Hwf). by apply same_data_is_Some.
  - intros p Hp. apply (wf_fresh _ _ _ _ Hwf). by apply (same_data_is_Some _ _ p Hsame).
Qed.

(** ** Rules for the primitive accesses *)

Lemma wp_load p s t (Q : timer -> st -> Prop) : theap s !! p = Some t -> Q t s -> wp (load p) s Q.
Proof. apply (wp_get_or_undef (fun s => theap s !! p)). Qed.

Lemma wp_store f p s t (Q : unit -> st -> Prop) :
  theap s !! p = Some t -> Q tt (set_heap (<[p := f t]> (theap s)) s) -> wp (store f p) s Q.
Proof. intros Hp HQ. unfold store. wp_step. eapply wp_load; [done |]. by wp_steps. Qed.

Lemma wp_get_bucket (h : nat) s v (Q : option loc -> st -> Prop) :
  timers s !! h = Some v -> Q v s -> wp (get_bucket (Z.of_nat h)) s Q.
Proof.
  intros Hh HQ. unfold get_bucket. eapply wp_get_or_undef; [|done].
  rewrite (proj2 (Z.leb_le _ _)) by lia. by rewrite Nat2Z.id.
Qed.

Lemma wp_set_bucket (h : nat) v s v0 (Q : unit -> st -> Prop) :
  timers s !! h = Some v0 -> Q tt (set_timers (<[h := v]> (timers s)) s) ->
  wp (set_bucket (Z.of_nat h) v) s Q.
Proof.
  intros Hh HQ. unfold set_bucket. wp_step. eapply wp_get_bucket; [done |]. wp_steps. by rewrite Nat2Z.id.
Qed.

End Structure.

(** One step through code of the timers package. *)
Ltac tstep :=
  first
  [ wp_step
  | lazymatch goal with
    | |- wp (load _) _ _ => eapply wp_load; [simpl; simplify_map_eq; done |]
    | |- wp (store _ _) _ _ => eapply wp_store; [simpl; simplify_map_eq; done |]
    | |- wp (get_bucket (Z.of_nat _)) _ _ => eapply wp_get_bucket; [simpl; done |]
    | |- wp (set_bucket (Z.of_nat _) _) _ _ => eapply wp_set_bucket; [simpl; done |]
    end ]; cbv beta; simpl.

Section ListOps.
Context {proc cdata : Type}.
Abbreviation timer := (Timer proc cdata).
Abbreviation st := (tstate proc cdata).
Implicit Types (m : gmap loc timer) (s : st) (p q : loc) (l : list loc) (bs : list (list loc)).

(** ** [l_add] *)

(** Whether a timer for [tm] goes before the cell [q]. *)
Definition goes_before m (tm : timeval) q : bool :=
  match m !! q with Some c => tv_leb tm (time c) | None => false end.

(** Where [l_add] puts a new cell: before the first that is not earlier. *)
Fixpoint ins (before : loc -> bool) (t : loc) (l : list loc) : list loc :=
  match l with
  | [] => [t]
  | q :: l' => if before q then t :: l else q :: ins before t l'
  end.

Lemma ins_perm before t l : ins before t l ≡ₚ t :: l.
Proof.
  induction l as [|q l IH]; simpl; [done |]. destruct (before q); [done |].
  rewrite IH. apply Permutation_swap.
Qed.

(** What a link-changing operation leaves of the rest of the state. *)
Definition relinks (cells : list loc) s s' : Prop :=
  same_data (theap s) (theap s') /\ (forall p, p ∉ cells -> theap s' !! p = theap s !! p) /\
  free_timers s' = free_timers s /\ mallocs s' = mallocs s.

(** The proof obligations of a chain of cell updates. *)
Ltac solve_relinks :=
  repeat lazymatch goal with
  | |- relinks _ _ _ => unfold relinks; simpl; split; [| split; [| split; [done | done]]]
  | |- same_data _ (<[_ := _]> _) => eapply same_data_insert; [| simpl; simplify_map_eq; reflexivity | reflexivity]
  | |- same_data ?m ?m => apply same_data_refl
  | |- forall p, _ -> <[_ := _]> _ !! p = _ =>
      let p := fresh in intros p ?; rewrite ?lookup_insert_ne by set_solver; reflexivity
  end.

Ltac solve_relinked :=
  split; rewrite ?last_snoc; simpl; intros; simplify_eq;
  first [ by simplify_map_eq | rewrite ?lookup_insert_ne by congruence; done ].

Lemma dseg_next m pv hd l1 q l2 last nx cq :
  dseg m pv hd (l1 ++ q :: l2) last nx -> m !! q = Some cq -> nx = None -> next cq = head l2.
Proof.
  intros (lm & hm & _ & H2)%dseg_app Hq ->. destruct H2 as (_ & t & Hq' & _ & H2). simplify_eq.
  destruct l2; naive_solver.
Qed.

Lemma dseg_prev m hd l1 q l2 last nx cq :
  dseg m None hd (l1 ++ q :: l2) last nx -> m !! q = Some cq -> prev cq = list.last l1.
Proof.
  intros (lm & hm & H1 & H2)%dseg_app Hq. destruct H2 as (_ & t & Hq' & <- & H2). simplify_eq.
  by apply dseg_last_cell in H1.
Qed.

Lemma dseg_cell m pv hd l last nx q : dseg m pv hd l last nx -> q ∈ l -> exists cq, m !! q = Some cq.
Proof. intros H Hq. destruct (dseg_cells _ _ _ _ _ _ H q Hq) as [c Hc]. by exists c. Qed.

Lemma l_add_walk_spec fuel t c l1 q1 l2 s hd last :
  theap s !! t = Some c -> NoDup (t :: l1 ++ q1 :: l2) ->
  dseg (theap s) None hd (l1 ++ q1 :: l2) last None ->
  (length l2 <= fuel)%nat ->
  wp (l_add_walk fuel t (time c) q1 (head l2)) s (fun _ s' =>
    relinks (t :: l1 ++ q1 :: l2) s s' /\ timers s' = timers s /\
    exists last', dseg (theap s') None hd
      (l1 ++ q1 :: ins (goes_before (theap s) (time c)) t l2) last' None).
Proof.
  revert fuel l1 q1. induction l2 as [|q2 l2 IH]; intros fuel l1 q1 Ht Hnd Hseg Hlen.
  all: destruct (dseg_cell _ _ _ _ _ _ q1 Hseg ltac:(set_solver)) as [cq1 Hq1].
  all: assert (t <> q1) by (apply NoDup_cons in Hnd; set_solver).
  - replace (l_add_walk fuel t (time c) q1 (head [])) with
      (store (with_next (Some t)) q1 ;;; store (with_prev (Some q1)) t ;;; store (with_next None) t : CM st unit)
      by (by destruct fuel).
    repeat tstep. split; [solve_relinks |]. split; [done |].
    replace (l1 ++ [q1; t]) with ((l1 ++ [q1]) ++ t :: []) by (by rewrite <- app_assoc).
    replace hd with (new_head hd (l1 ++ [q1]) (Some t)) by (by destruct l1).
    eapply dseg_link; [| by rewrite app_nil_r | by rewrite app_nil_r | | |].
    2: by simplify_map_eq.
    2: by rewrite last_snoc.
    2: done.
    solve_relinked.
  - destruct fuel as [|fuel]; simpl in Hlen; [lia |]. simpl.
    destruct (dseg_cell _ _ _ _ _ _ q2 Hseg ltac:(set_solver)) as [cq2 Hq2].
    assert (t <> q2) by (apply NoDup_cons in Hnd; set_solver).
    assert (q1 <> q2).
    { apply NoDup_cons in Hnd as [_ Hnd]. apply NoDup_app in Hnd as (_ & _ & Hnd).
      apply NoDup_cons in Hnd. set_solver. }
    do 2 tstep.
    replace (goes_before (theap s) (time c) q2) with (tv_leb (time c) (time cq2))
      by (unfold goes_before; by rewrite Hq2).
    destruct (tv_leb (time c) (time cq2)) eqn:Hle.
    + repeat tstep. split; [solve_relinks |]. split; [done |].
      replace (l1 ++ q1 :: t :: q2 :: l2) with ((l1 ++ [q1]) ++ t :: q2 :: l2) by (by rewrite <- app_assoc).
      replace hd with (new_head hd (l1 ++ [q1]) (Some t)) by (by destruct l1).
      eapply dseg_link; [| by rewrite <- app_assoc | by rewrite <- app_assoc | | |].
      2: by simplify_map_eq.
      2: by rewrite last_snoc.
      2: done.
      solve_relinked.
    + assert (next cq2 = head l2) as ->.
      { eapply (dseg_next _ _ _ (l1 ++ [q1])); [|done|done]. rewrite <- app_assoc. exact Hseg. }
      eapply wp_mono.
      * apply (IH fuel (l1 ++ [q1]) q2); rewrite <- ?app_assoc; [done..|lia].
      * simpl. intros _ s'. rewrite <- !app_assoc. done.
Qed.

(** The invariant after a relinking of one bucket and the cells in hand. *)
Lemma wf_relinks s s' bs fl hand h l hd' l' last' hand' cells :
  wf s bs fl hand -> bs !! h = Some l ->
  relinks cells s s' -> cells ⊆ hand ++ l ->
  timers s' = <[h := hd']> (timers s) ->
  dseg (theap s') None hd' l' last' None ->
  hand' ++ l' ≡ₚ hand ++ l ->
  wf s' (<[h := l']> bs) fl hand'.
Proof.
  intros Hwf Hl (Hsame & Hfr & Hfree & Hmal) Hsub Htm Hseg Hperm.
  pose proof (wf_update _ _ _ _ _ _ _ _ _ _ _ Hwf Hl Hsame ltac:(eauto using not_elem_of_weaken) Hseg Hperm) as H.
  rewrite <- Htm, <- Hfree, <- Hmal in H. by destruct s'.
Qed.

Lemma cells_size m l : NoDup l -> (forall p, p ∈ l -> is_Some (m !! p)) -> (length l <= size m)%nat.
Proof.
  intros Hnd Hin. rewrite <- size_dom, <- (size_list_to_set (C:=gset loc) l) by done.
  apply subseteq_size. intros p. rewrite elem_of_list_to_set, elem_of_dom. by apply Hin.
Qed.

Lemma new_head_nonempty hd q l v : new_head hd (q :: l) v = hd.
Proof. done. Qed.

Lemma l_add_spec s bs fl hand t c h l :
  wf s bs fl (t :: hand) -> theap s !! t = Some c -> hash_ c = Z.of_nat h -> bs !! h = Some l ->
  wp (l_add t) s (fun _ s' =>
    wf s' (<[h := ins (goes_before (theap s) (time c)) t l]> bs) fl hand /\ relinks (t :: l) s s').
Proof.
  intros Hwf Ht Hh Hl.
  destruct (wf_bucket _ _ _ _ _ _ Hwf Hl) as (hd & last & Hhd & Hseg & Hhead).
  pose proof (wf_nodup_bucket _ _ _ _ _ _ Hwf Hl) as Hnd0.
  assert (Hnd : NoDup (t :: l)).
  { apply NoDup_cons in Hnd0 as [Hni Hnd0]. apply NoDup_app in Hnd0 as (_ & _ & Hnd0).
    apply NoDup_app in Hnd0 as (Hnd0 & _). apply NoDup_cons. set_solver. }
  set (l' := ins (goes_before (theap s) (time c)) t l).
  enough (wp (l_add t) s (fun _ s' => relinks (t :: l) s s' /\ exists hd' last',
    timers s' = <[h := hd']> (timers s) /\ dseg (theap s') None hd' l' last' None)) as Hwp.
  { eapply wp_mono; [exact Hwp |]. intros _ s' (Hrl & hd' & last' & Htm & Hd). split; [|done].
    eapply wf_relinks; try done; [set_solver |]. unfold l'. rewrite ins_perm. solve_Permutation. }
  unfold l_add. repeat tstep. rewrite Hh. tstep.
  destruct l as [|q l]; simpl in Hhead; subst hd.
  - repeat tstep. split; [solve_relinks |]. exists (Some t), (Some t). split; [done |].
    simpl. split; [done |]. eexists. split; [by simplify_map_eq |]. done.
  - destruct (dseg_cell _ _ _ _ _ _ q Hseg ltac:(set_solver)) as [cq Hq].
    assert (t <> q) by (apply NoDup_cons in Hnd; set_solver).
    tstep. tstep. subst l'. simpl.
    replace (goes_before (theap s) (time c) q) with (tv_leb (time c) (time cq))
      by (unfold goes_before; by rewrite Hq).
    destruct (tv_leb (time c) (time cq)).
    + repeat tstep. split; [solve_relinks |].
      eapply (dseg_link _ _ _ [] (q :: l) _ t) in Hseg as [last' Hd']; [| |done | | |].
      { exists (Some t), last'. split; [done | exact Hd']. }
      * solve_relinked.
      * by simplify_map_eq.
      * done.
      * done.
    + repeat tstep. replace (next cq) with (head l) by (symmetry; by eapply (dseg_next _ _ _ [])).
      eapply wp_mono; [eapply (l_add_walk_spec _ _ _ [] q); try done |].
      * transitivity (length (q :: l)); [simpl; lia |].
        apply cells_size; [by apply NoDup_cons in Hnd as [_ ?] | by eapply dseg_cells].
      * intros _ s' (Hrl & Htm & last' & Hd'). split; [done |]. exists (Some q), last'.
        split; [|done]. rewrite Htm. by rewrite list_insert_id.
Qed.

(** ** [l_remove] *)

(** What is left to show of a removal once its stores have run. *)
Ltac solve_unlink El1 El2 Hout :=
  split; [| split; [done | split; rewrite ?El1, ?El2; intros; simplify_eq;
    first [by simplify_map_eq | rewrite ?lookup_insert_ne by congruence; done]]];
  unfold relinks; simpl; split; [by solve_relinks |]; split; [|done];
  let p := fresh in let Hp := fresh in
  intros p Hp%Hout; rewrite ?lookup_insert_ne by naive_solver; done.

Lemma l_remove_spec s bs fl hand t c h l1 l2 :
  wf s bs fl hand -> theap s !! t = Some c -> hash_ c = Z.of_nat h -> bs !! h = Some (l1 ++ t :: l2) ->
  wp (l_remove t) s (fun _ s' =>
    wf s' (<[h := l1 ++ l2]> bs) fl (t :: hand) /\ relinks (l1 ++ l2) s s').
Proof.
  intros Hwf Ht Hh Hl.
  destruct (wf_bucket _ _ _ _ _ _ Hwf Hl) as (hd & last & Hhd & Hseg & Hhead).
  pose proof (wf_nodup_bucket _ _ _ _ _ _ Hwf Hl) as Hnd0.
  assert (Hnd : NoDup (t :: l1 ++ l2)).
  { apply NoDup_app in Hnd0 as (_ & _ & Hnd0). apply NoDup_app in Hnd0 as (Hnd0 & _).
    by rewrite <- Permutation_middle in Hnd0. }
  assert (Hpv : prev c = list.last l1) by (by eapply dseg_prev).
  assert (Hnx : next c = head l2) by (by eapply dseg_next).
  enough (wp (l_remove t) s (fun _ s' => relinks (l1 ++ l2) s s' /\
    timers s' = <[h := new_head hd l1 (head l2)]> (timers s) /\
    relinked (theap s) (theap s') l1 l2 t (head l2) (list.last l1))) as Hwp.
  { eapply wp_mono; [exact Hwp |]. intros _ s' (Hrl & Htm & Hlk). split; [|done].
    destruct (dseg_unlink _ _ _ _ _ _ _ Hlk Hnd Hseg) as [last' Hd'].
    eapply wf_relinks; [done..| |done|done|]; [set_solver | solve_Permutation]. }
  unfold l_remove. repeat tstep. rewrite Hh, Hpv.
  assert (Hl1 : forall q, list.last l1 = Some q -> q <> t /\ head l2 <> Some q /\ exists cq, theap s !! q = Some cq).
  { intros q Hq%last_Some_elem_of. apply NoDup_cons in Hnd as [Hni Hnd]. split; [set_solver |]. split.
    - intros Hq2%head_Some_elem_of. apply NoDup_app in Hnd. set_solver.
    - eapply dseg_cell; [done | set_solver]. }
  assert (Hl2 : forall q, head l2 = Some q -> q <> t /\ exists cq, theap s !! q = Some cq).
  { intros q Hq%head_Some_elem_of. apply NoDup_cons in Hnd as [Hni _]. split; [set_solver |].
    eapply dseg_cell; [done | set_solver]. }
  assert (Hout : forall p, p ∉ l1 ++ l2 -> list.last l1 <> Some p /\ head l2 <> Some p).
  { intros p Hp. split; [intros ?%last_Some_elem_of | intros ?%head_Some_elem_of]; set_solver. }
  destruct (list.last l1) as [q1|] eqn:El1.
  - destruct (Hl1 q1 eq_refl) as (? & Hne & cq1 & Hq1).
    assert (new_head hd l1 (head l2) = hd) as -> by (by destruct l1).
    rewrite (list_insert_id _ _ _ Hhd). rewrite Hnx.
    destruct (head l2) as [q2|] eqn:El2.
    + destruct (Hl2 q2 eq_refl) as (? & cq2 & Hq2). assert (q1 <> q2) by congruence.
      repeat tstep. rewrite Hnx. repeat tstep. rewrite Hpv.
      solve_unlink El1 El2 Hout.
    + repeat tstep. rewrite Hnx. repeat tstep.
      solve_unlink El1 El2 Hout.
  - apply last_None in El1 as ->. simpl. rewrite Hnx.
    destruct (head l2) as [q2|] eqn:El2.
    + destruct (Hl2 q2 eq_refl) as (? & cq2 & Hq2).
      repeat tstep. rewrite Hnx. repeat tstep. rewrite Hpv.
      solve_unlink El2 El2 Hout.
    + repeat tstep. rewrite Hnx. repeat tstep.
      solve_unlink El2 El2 Hout.
Qed.
End ListOps.
