(* ===== verification/TimersThm.v ===== *)
(** The timers package refines a finite map of pending timers: what each
    operation of http_load/timers.c does to the map, and the timeouts it computes. *)
From S2P Require Import Prelude Timers TimersSpec.
Local Open Scope Z_scope.

(** * Trigger times *)

(** Microseconds since the epoch, for times in normal form. *)
Definition usecs (tv : timeval) : Z := tv_sec tv * 1000000 + tv_usec tv.
Definition normal (tv : timeval) : Prop := 0 <= tv_usec tv < 1000000.

Lemma tv_leb_usecs a b : normal a -> normal b -> tv_leb a b = true <-> usecs a <= usecs b.
Proof. unfold normal, usecs, tv_leb. lia. Qed.

Lemma tv_later_leb a b : tv_later a b = negb (tv_leb a b).
Proof. unfold tv_later, tv_leb. lia. Qed.

Lemma tv_leb_refl a : tv_leb a a = true.
Proof. unfold tv_leb. lia. Qed.
Lemma tv_leb_trans a b c : tv_leb a b = true -> tv_leb b c = true -> tv_leb a c = true.
Proof. unfold tv_leb. lia. Qed.
Lemma tv_leb_total a b : tv_leb a b = false -> tv_leb b a = true.
Proof. unfold tv_leb. lia. Qed.

Lemma time_plus_spec tv ms :
  normal tv -> 0 <= ms -> normal (time_plus tv ms) /\ usecs (time_plus tv ms) = usecs tv + ms * 1000.
Proof.
  unfold normal, usecs, time_plus. intros Hn Hms.
  rewrite Z.quot_div_nonneg, Z.rem_mod_nonneg by lia.
  destruct (_ >=? _) eqn:E; simpl.
  - rewrite Z.quot_div_nonneg, Z.rem_mod_nonneg by lia. Z.to_euclidean_division_equations. lia.
  - Z.to_euclidean_division_equations. lia.
Qed.

Lemma hash_time_range tv : 0 <= hash_time tv < Z.of_nat HASH_SIZE.
Proof. apply Z.mod_pos_bound. done. Qed.

Section Thm.
Context {proc cdata : Type}.
Abbreviation timer := (Timer proc cdata).
Abbreviation st := (tstate proc cdata).
Implicit Types (m : gmap loc timer) (s : st) (p q t : loc) (l fl hand : list loc) (bs : list (list loc)).

(** * Order within the buckets *)

Definition before m p q : Prop :=
  forall c c', m !! p = Some c -> m !! q = Some c' -> tv_leb (time c) (time c') = true.

(** Every cell is in the bucket of its trigger time, and a bucket is sorted. *)
Record ordered m bs : Prop := Ordered {
  ord_hash h l p c : bs !! h = Some l -> p ∈ l -> m !! p = Some c ->
    hash_ c = Z.of_nat h /\ hash c = Z.of_nat h;
  ord_sorted h l : bs !! h = Some l -> StronglySorted (before m) l
}.

Lemma before_agree m m' p q :
  (forall r, r = p \/ r = q -> tdata <$> m' !! r = tdata <$> m !! r) -> before m p q -> before m' p q.
Proof.
  intros Hd Hb c c' Hc Hc'.
  pose proof (Hd p ltac:(auto)) as Hp. pose proof (Hd q ltac:(auto)) as Hq.
  rewrite Hc in Hp. rewrite Hc' in Hq. simpl in *.
  destruct (m !! p) as [d|] eqn:Ed; [|done]. destruct (m !! q) as [d'|] eqn:Ed'; [|done].
  apply (inj Some), tdata_fields in Hp. apply (inj Some), tdata_fields in Hq.
  destruct Hp as (_ & _ & _ & _ & -> & _), Hq as (_ & _ & _ & _ & -> & _). by apply Hb.
Qed.

Lemma StronglySorted_agree m m' l :
  (forall r, r ∈ l -> tdata <$> m' !! r = tdata <$> m !! r) ->
  StronglySorted (before m) l -> StronglySorted (before m') l.
Proof.
  induction l as [|p l IH]; intros Hd; [by constructor |].
  inversion 1 as [|?? Hs Hf]; subst. constructor; [apply IH; set_solver |].
  rewrite Forall_forall in Hf |- *. intros q Hq.
  eapply before_agree; [|by apply Hf]. intros r [->| ->]; set_solver.
Qed.

Lemma elem_of_concat bs p : p ∈ concat bs <-> exists h l, bs !! h = Some l /\ p ∈ l.
Proof.
  rewrite list_elem_of_In, in_concat. split.
  - intros (l & Hl & Hp). apply list_elem_of_In, list_elem_of_lookup in Hl as [h Hh].
    exists h, l. by rewrite list_elem_of_In.
  - intros (h & l & Hl & Hp). exists l. rewrite <- !list_elem_of_In.
    split; [|done]. apply list_elem_of_lookup. eauto.
Qed.

Lemma ordered_agree m m' bs :
  (forall r, r ∈ concat bs -> tdata <$> m' !! r = tdata <$> m !! r) -> ordered m bs -> ordered m' bs.
Proof.
  intros Hd [Hh Hs]. split.
  - intros h l p c Hl Hp Hc.
    specialize (Hd p ltac:(apply elem_of_concat; eauto)). rewrite Hc in Hd.
    destruct (m !! p) as [d|] eqn:Ed; [|done]. apply (inj Some), tdata_fields in Hd.
    destruct (Hh h l p d Hl Hp Ed). unfold hash in *.
    destruct Hd as (_ & _ & _ & _ & -> & ->). done.
  - intros h l Hl. eapply StronglySorted_agree; [|by eapply Hs].
    intros r Hr. apply Hd, elem_of_concat. eauto.
Qed.

Lemma ordered_set m bs h l' :
  ordered m bs -> (forall p c, p ∈ l' -> m !! p = Some c -> hash_ c = Z.of_nat h /\ hash c = Z.of_nat h) ->
  StronglySorted (before m) l' -> ordered m (<[h := l']> bs).
Proof.
  intros [Hh Hs] Hh' Hs'. split.
  - intros k l p c Hl Hp Hc. apply list_lookup_insert_Some in Hl as [(<- & <- & _)|[_ Hl]]; eauto.
  - intros k l Hl. apply list_lookup_insert_Some in Hl as [(<- & <- & _)|[_ Hl]]; eauto.
Qed.

Lemma ins_elem_of b t l p : p ∈ ins b t l <-> p = t \/ p ∈ l.
Proof. rewrite ins_perm. set_solver. Qed.

Lemma ins_sorted m t c l :
  m !! t = Some c -> (forall q, q ∈ l -> is_Some (m !! q)) ->
  StronglySorted (before m) l -> StronglySorted (before m) (ins (goes_before m (time c)) t l).
Proof.
  intros Ht. induction l as [|q l IH]; intros Hin Hs; simpl.
  - repeat constructor.
  - inversion Hs as [|?? Hs' Hf]; subst. destruct (Hin q ltac:(set_solver)) as [cq Hq].
    unfold goes_before at 1. rewrite Hq. destruct (tv_leb (time c) (time cq)) eqn:Hle.
    + constructor; [done |]. rewrite Forall_forall in Hf |- *. intros r Hr c1 c2 Hc1 Hc2. simplify_eq.
      apply elem_of_cons in Hr as [->|Hr]; simplify_eq; [done |].
      eapply tv_leb_trans; [done |]. by eapply Hf.
    + constructor; [apply IH; set_solver |]. rewrite Forall_forall in Hf |- *.
      intros r [->|Hr]%ins_elem_of; [|by apply Hf]. intros c1 c2 Hc1 Hc2. simplify_eq.
      by apply tv_leb_total.
Qed.

Lemma ordered_ins m bs h l t c :
  ordered m bs -> bs !! h = Some l -> (forall q, q ∈ l -> is_Some (m !! q)) ->
  m !! t = Some c -> hash_ c = Z.of_nat h -> hash c = Z.of_nat h ->
  ordered m (<[h := ins (goes_before m (time c)) t l]> bs).
Proof.
  intros Ho Hl Hin Ht Hh Hh'. apply ordered_set; [done | |].
  - intros p d [->|Hp]%ins_elem_of Hd; [by simplify_eq |]. by eapply ord_hash.
  - eapply ins_sorted; [done | done | by eapply ord_sorted].
Qed.

Lemma StronglySorted_remove (R : loc -> loc -> Prop) l1 t l2 :
  StronglySorted R (l1 ++ t :: l2) -> StronglySorted R (l1 ++ l2).
Proof.
  induction l1 as [|p l1 IH]; simpl; inversion 1 as [|?? Hs Hf]; subst; [done |].
  constructor; [by apply IH |]. rewrite Forall_forall in Hf |- *. set_solver.
Qed.

Lemma ordered_remove m bs h l1 t l2 :
  ordered m bs -> bs !! h = Some (l1 ++ t :: l2) -> ordered m (<[h := l1 ++ l2]> bs).
Proof.
  intros Ho Hl. apply ordered_set; [done | |].
  - intros p c Hp Hc. eapply (ord_hash _ _ Ho h _ p); [done | set_solver | done].
  - eapply StronglySorted_remove. by eapply ord_sorted.
Qed.

(** * The map of pending timers *)

(** A pending timer as the package's clients see it. *)
Record tinfo := TInfo {
  i_proc : proc; i_data : cdata; i_msecs : Z; i_periodic : bool; i_time : timeval
}.
Definition info (c : timer) : tinfo :=
  TInfo (timer_proc c) (client_data c) (msecs c) (periodic c) (time c).
Definition i_with_time (tv : timeval) (i : tinfo) : tinfo :=
  TInfo (i_proc i) (i_data i) (i_msecs i) (i_periodic i) tv.

Lemma info_agree (o o' : option timer) : tdata <$> o = tdata <$> o' -> info <$> o = info <$> o'.
Proof.
  destruct o, o'; simpl; try done. intros Hd. apply (inj Some), tdata_fields in Hd.
  unfold info. destruct Hd as (-> & -> & -> & -> & -> & _). done.
Qed.

(** The package's data represent the pending timers [A]; [fl] is the free
    list, and the cells of [hand] are on no list. *)
Definition repb s (A : gmap loc tinfo) fl hand bs : Prop :=
  wf s bs fl hand /\ ordered (theap s) bs /\
    (forall p, A !! p = if decide (p ∈ concat bs) then info <$> theap s !! p else None).
Definition rep s (A : gmap loc tinfo) fl hand : Prop := exists bs, repb s A fl hand bs.

Lemma rep_lookup s A fl hand p i :
  rep s A fl hand -> A !! p = Some i -> exists c, theap s !! p = Some c /\ info c = i /\ hash_ c = hash c.
Proof.
  intros (bs & Hwf & Ho & HA) Hp. rewrite HA in Hp. case_decide as Hin; [|done].
  destruct (theap s !! p) as [c|] eqn:Hc; [|done]. simplify_eq/=. exists c.
  split; [done |]. split; [done |]. apply elem_of_concat in Hin as (h & l & Hl & Hin).
  destruct (ord_hash _ _ Ho h l p c) as [-> ->]; done.
Qed.

Lemma bs_lookup_hash s bs fl hand tv : wf s bs fl hand -> exists l, bs !! Z.to_nat (hash_time tv) = Some l.
Proof.
  intros Hwf. apply lookup_lt_is_Some.
  rewrite <- (Forall2_length _ _ _ (wf_bs _ _ _ _ Hwf)), (wf_len _ _ _ _ Hwf).
  pose proof (hash_time_range tv). lia.
Qed.

(** What an operation that only moves cells between lists keeps. *)
Lemma repb_add s A fl t c bs l :
  repb s A fl [t] bs -> theap s !! t = Some c -> hash_ c = hash c ->
  bs !! Z.to_nat (hash c) = Some l ->
  wp (l_add t) s (fun _ s' =>
    repb s' (<[t := info c]> A) fl []
      (<[Z.to_nat (hash c) := ins (goes_before (theap s) (time c)) t l]> bs)
    /\ same_data (theap s) (theap s') /\ free_timers s' = free_timers s).
Proof.
  intros (Hwf & Ho & HA) Ht Hh Hl. unfold hash in Hl.
  assert (Hhn : hash_ c = Z.of_nat (Z.to_nat (hash_time (time c)))).
  { rewrite Hh. unfold hash. pose proof (hash_time_range (time c)). lia. }
  eapply wp_mono; [by eapply (l_add_spec _ _ _ _ _ _ _ _ Hwf Ht Hhn Hl) |].
  intros _ s' (Hwf' & Hsame & Hfr & Hfree & _). split; [|done].
  split; [done |]. split.
  - apply (ordered_agree (theap s)); [done |].
    destruct (wf_bucket _ _ _ _ _ _ Hwf Hl) as (? & ? & _ & Hseg & _).
    apply ordered_ins; try done; [by eapply dseg_cells |].
    pose proof (hash_time_range (time c)). unfold hash. lia.
  - intros p. specialize (Hsame p).
    rewrite (info_agree _ _ Hsame). destruct (decide (p = t)) as [->|Hne].
    + rewrite lookup_insert_eq, Ht, decide_True; [done |]. apply elem_of_concat.
      eexists _, _. rewrite list_lookup_insert_eq by (by eapply lookup_lt_Some).
      split; [done |]. by apply ins_elem_of; left.
    + rewrite lookup_insert_ne, HA by done. apply decide_ext.
      rewrite !(concat_insert_perm _ _ _ _ Hl), (concat_perm _ _ _ Hl), !elem_of_app, ins_elem_of.
      set_solver.
Qed.

Lemma rep_add s A fl t c :
  rep s A fl [t] -> theap s !! t = Some c -> hash_ c = hash c ->
  wp (l_add t) s (fun _ s' => rep s' (<[t := info c]> A) fl [] /\ same_data (theap s) (theap s')
    /\ free_timers s' = free_timers s).
Proof.
  intros (bs & Hrep) Ht Hh. destruct (bs_lookup_hash _ _ _ _ (time c) (proj1 Hrep)) as [l Hl].
  eapply wp_mono; [by eapply (repb_add _ _ _ _ _ _ l Hrep) |].
  intros _ s' (? & ?). split; [by eexists | done].
Qed.

Definition links (c : timer) : option loc * option loc := (prev c, next c).

Lemma dseg_agree m m' pv hd l last nx :
  (forall p, p ∈ l -> links <$> m' !! p = links <$> m !! p) ->
  dseg m pv hd l last nx -> dseg m' pv hd l last nx.
Proof.
  revert pv hd. induction l as [|p l IH]; intros pv hd Hm; simpl; [done |].
  intros (-> & c & Hp & Hpv & Hs). split; [done |].
  pose proof (Hm p ltac:(set_solver)) as Hc. rewrite Hp in Hc.
  destruct (m' !! p) as [c'|] eqn:Hp'; [|done]. apply (inj Some) in Hc. unfold links in Hc.
  exists c'. simplify_eq. split; [done |]. split; [congruence |]. replace (next c') with (next c) by congruence.
  apply IH; [set_solver | done].
Qed.

Lemma sseg_agree m m' hd l :
  (forall p, p ∈ l -> next <$> m' !! p = next <$> m !! p) -> sseg m hd l -> sseg m' hd l.
Proof.
  revert hd. induction l as [|p l IH]; intros hd Hm; simpl; [done |].
  intros (-> & c & Hp & Hs). split; [done |].
  pose proof (Hm p ltac:(set_solver)) as Hc. rewrite Hp in Hc.
  destruct (m' !! p) as [c'|] eqn:Hp'; [|done]. apply (inj Some) in Hc.
  exists c'. split; [done |]. rewrite Hc. apply IH; [set_solver | done].
Qed.

(** A store that changes no link in use. *)
Lemma wf_store s bs fl hand p c c' :
  wf s bs fl hand -> theap s !! p = Some c ->
  (p ∈ hand \/ links c' = links c) ->
  wf (set_heap (<[p := c']> (theap s)) s) bs fl hand.
Proof.
  intros Hwf Hp Hor.
  assert (Hag : forall q, q ∈ concat bs ++ fl -> links <$> <[p := c']> (theap s) !! q = links <$> theap s !! q).
  { intros q Hq. destruct (decide (p = q)) as [->|]; [|by rewrite lookup_insert_ne].
    rewrite lookup_insert_eq, Hp. simpl. destruct Hor as [Hh| ->]; [|done].
    pose proof (wf_nodup _ _ _ _ Hwf) as (_ & Hd & _)%NoDup_app. by destruct (Hd q). }
  destruct Hwf as [Hlen Hbs Hfree Hnd Hdom Hfr]. constructor; simpl; try done.
  - apply Forall2_same_length_lookup. split; [by eapply Forall2_length |].
    intros i hd l Hi Hl. destruct (Forall2_lookup_lr _ _ _ _ _ _ Hbs Hi Hl) as (last & Hd). exists last.
    eapply dseg_agree; [|done]. intros q Hq. apply Hag, elem_of_app. left. apply elem_of_concat. eauto.
  - eapply sseg_agree; [|done]. intros q Hq. specialize (Hag q ltac:(set_solver)).
    destruct (<[p:=c']> (theap s) !! q), (theap s !! q); simpl in *; try done. unfold links in Hag. congruence.
  - intros q. rewrite <- Hdom. destruct (decide (p = q)) as [->|]; [|by rewrite lookup_insert_ne].
    rewrite lookup_insert_eq, Hp. split; eauto.
  - intros q Hq. apply Hfr. destruct (decide (p = q)) as [->|]; [eauto |].
    by rewrite lookup_insert_ne in Hq.
Qed.

(** The removal of a pending timer, after a store to its data (its trigger time). *)
Lemma repb_remove s A fl t c c' bs h l1 l2 :
  repb s A fl [] bs -> bs !! h = Some (l1 ++ t :: l2) -> theap s !! t = Some c ->
  links c' = links c -> hash_ c' = hash_ c ->
  wp (l_remove t) (set_heap (<[t := c']> (theap s)) s) (fun _ s' =>
    repb s' (delete t A) fl [t] (<[h := l1 ++ l2]> bs)
    /\ same_data (<[t := c']> (theap s)) (theap s') /\ free_timers s' = free_timers s).
Proof.
  intros (Hwf & Ho & HA) Hl Ht Hlk Hh.
  destruct (ord_hash _ _ Ho h _ t c Hl ltac:(set_solver) Ht) as [Hhc _].
  eapply wp_mono.
  { eapply (l_remove_spec _ bs fl [] t c' h l1 l2); [| |by rewrite Hh|done].
    - eapply wf_store; eauto.
    - by simplify_map_eq. }
  intros _ s' (Hwf' & Hsame & Hfr & Hfree & _). simpl in *. split; [|done].
  assert (Hnt : t ∉ concat (<[h := l1 ++ l2]> bs)).
  { pose proof (wf_nodup _ _ _ _ Hwf') as Hnd. apply NoDup_app in Hnd as (_ & Hnd & _). set_solver. }
  assert (Hag : forall q, q <> t -> tdata <$> theap s' !! q = tdata <$> theap s !! q).
  { intros q Hq. rewrite Hsame. by rewrite lookup_insert_ne. }
  split; [done |]. split.
  - apply (ordered_agree (theap s)); [|by eapply ordered_remove].
    intros r Hr. apply Hag. by intros ->.
  - intros p. destruct (decide (p = t)) as [->|Hne].
    + rewrite lookup_delete_eq. by rewrite decide_False.
    + rewrite lookup_delete_ne, HA by done. specialize (Hag p Hne).
      rewrite (info_agree _ _ Hag). apply decide_ext. rewrite (concat_insert_perm _ _ _ _ Hl), (concat_perm _ _ _ Hl). set_solver.
Qed.

(** The bucket and the place in it of a pending timer. *)
Lemma repb_pending s A fl hand bs t i :
  repb s A fl hand bs -> A !! t = Some i ->
  exists h l1 l2 c, bs !! h = Some (l1 ++ t :: l2) /\ theap s !! t = Some c /\ i = info c.
Proof.
  intros Hrep Hi. destruct (rep_lookup s A fl hand t i) as (c & Hc & <- & _); [by exists bs | done |].
  destruct Hrep as (Hwf & Ho & HA). rewrite HA in Hi. case_decide as Hin; [|done].
  apply elem_of_concat in Hin as (h & l & Hl & Hin).
  apply list_elem_of_split in Hin as (l1 & l2 & ->). by exists h, l1, l2, c.
Qed.

(** [l_resort] after the trigger time of a pending timer was set. *)
Lemma repb_resort s A fl t c tv bs h l1 l2 l :
  repb s A fl [] bs -> bs !! h = Some (l1 ++ t :: l2) -> theap s !! t = Some c ->
  <[h := l1 ++ l2]> bs !! Z.to_nat (hash_time tv) = Some l ->
  wp (l_resort t) (set_heap (<[t := with_time tv c]> (theap s)) s) (fun _ s' =>
    (exists b, repb s' (<[t := i_with_time tv (info c)]> A) fl []
      (<[Z.to_nat (hash_time tv) := ins b t l]> (<[h := l1 ++ l2]> bs)))
    /\ free_timers s' = free_timers s).
Proof.
  intros Hrep Hlt Ht Hl. unfold l_resort. repeat tstep.
  eapply wp_mono; [eapply repb_remove; eauto |]. intros _ s1 (Hrep1 & Hsame1 & Hfree1).
  destruct (same_data_lookup _ _ t (with_time tv c) Hsame1 ltac:(by simplify_map_eq)) as (c1 & Hc1 & Hd1).
  repeat tstep.
  apply tdata_fields in Hd1 as (E1 & E2 & E3 & E4 & E5 & _). simpl in *.
  eapply wp_mono; [eapply (repb_add _ (delete t A) fl t (with_hash (hash c1) c1))|].
  - destruct Hrep1 as (Hwf & Ho & HA).
    assert (Hnt : t ∉ concat (<[h := l1 ++ l2]> bs)).
    { pose proof (wf_nodup _ _ _ _ Hwf) as (_ & Hnd & _)%NoDup_app. set_solver. }
    split; [by eapply wf_store; [..|left; set_solver] |]. split.
    + apply (ordered_agree (theap s1)); [|done]. intros r Hr. simpl.
      rewrite lookup_insert_ne; [done | by intros ->].
    + intros p. rewrite HA. case_decide; [|done]. simpl. rewrite lookup_insert_ne; [done | by intros ->].
  - simpl. by simplify_map_eq.
  - done.
  - unfold hash. simpl. by rewrite E5.
  - simpl. intros _ s' (Hrep' & _ & Hf). split; [|by rewrite Hf]. rewrite insert_delete_eq in Hrep'.
    unfold info, hash in Hrep'. simpl in Hrep'. unfold i_with_time. simpl. eexists.
    rewrite E1, E2, E3, E4, E5 in Hrep'. exact Hrep'.
Qed.

Lemma rep_resort s A fl t i c tv :
  rep s A fl [] -> A !! t = Some i -> theap s !! t = Some c ->
  wp (l_resort t) (set_heap (<[t := with_time tv c]> (theap s)) s) (fun _ s' =>
    rep s' (<[t := i_with_time tv i]> A) fl []).
Proof.
  intros (bs & Hrep) Hi Ht. destruct (repb_pending _ _ _ _ _ _ _ Hrep Hi) as (h & l1 & l2 & c' & Hl & Ht' & ->).
  simplify_eq. destruct (lookup_lt_is_Some_2 (<[h := l1 ++ l2]> bs) (Z.to_nat (hash_time tv))) as [l Hl'].
  { rewrite length_insert. apply lookup_lt_is_Some. by apply (bs_lookup_hash _ _ _ _ tv (proj1 Hrep)). }
  eapply wp_mono; [by eapply repb_resort |]. intros _ s' [[b Hr] _]. by eexists.
Qed.

(** ** Cells in hand and the free list *)

Lemma wf_change_lists s s' bs fl fl' hand hand' m' :
  wf s bs fl hand ->
  theap s' = m' -> timers s' = timers s ->
  (forall p, p ∈ concat bs -> m' !! p = theap s !! p) ->
  sseg m' (free_timers s') fl' ->
  NoDup (hand' ++ concat bs ++ fl') ->
  (forall p, is_Some (m' !! p) <-> p ∈ hand' ++ concat bs ++ fl') ->
  (forall p, is_Some (m' !! p) -> (Pos.to_nat p <= mallocs s')%nat) ->
  wf s' bs fl' hand'.
Proof.
  intros [Hlen Hbs _ _ _ _] <- Htm Hag Hfree Hnd Hdom Hfr. constructor; rewrite ?Htm; try done.
  apply Forall2_same_length_lookup. split; [by eapply Forall2_length |].
  intros i hd l Hi Hl. destruct (Forall2_lookup_lr _ _ _ _ _ _ Hbs Hi Hl) as (last & Hd). exists last.
  eapply dseg_frame; [|done]. intros q Hq. apply Hag, elem_of_concat. eauto.
Qed.

(** The map only sees the cells on the buckets. *)
Lemma repb_change_lists s s' A fl fl' hand hand' bs :
  repb s A fl hand bs ->
  timers s' = timers s ->
  sseg (theap s') (free_timers s') fl' ->
  (forall bs, wf s bs fl hand ->
    (forall p, p ∈ concat bs -> theap s' !! p = theap s !! p) /\
    NoDup (hand' ++ concat bs ++ fl') /\
    (forall p, is_Some (theap s' !! p) <-> p ∈ hand' ++ concat bs ++ fl')) ->
  (forall p, is_Some (theap s' !! p) -> (Pos.to_nat p <= mallocs s')%nat) ->
  repb s' A fl' hand' bs.
Proof.
  intros (Hwf & Ho & HA) Htm Hfree Hnd Hfr.
  destruct (Hnd bs Hwf) as (Hag & ? & ?). split; [by eapply wf_change_lists |]. split.
  - apply (ordered_agree (theap s)); [|done]. intros r Hr. by rewrite Hag.
  - intros p. rewrite HA. case_decide; [|done]. by rewrite Hag.
Qed.

Lemma rep_change_lists s s' A fl fl' hand hand' :
  rep s A fl hand ->
  timers s' = timers s ->
  sseg (theap s') (free_timers s') fl' ->
  (forall bs, wf s bs fl hand ->
    (forall p, p ∈ concat bs -> theap s' !! p = theap s !! p) /\
    NoDup (hand' ++ concat bs ++ fl') /\
    (forall p, is_Some (theap s' !! p) <-> p ∈ hand' ++ concat bs ++ fl')) ->
  (forall p, is_Some (theap s' !! p) -> (Pos.to_nat p <= mallocs s')%nat) ->
  rep s' A fl' hand'.
Proof. intros [bs Hrep] ????. exists bs. by eapply repb_change_lists. Qed.

Lemma alloc_cell_spec ok junk s A fl :
  rep s A fl [] ->
  wp (alloc_cell ok junk) s (fun r s' =>
    match r with
    | None => fl = [] /\ ok (mallocs s) = false /\ rep s' A [] []
    | Some t => A !! t = None /\ (forall t0, head fl = Some t0 -> t = t0) /\ rep s' A (tail fl) [t]
        /\ is_Some (theap s' !! t)
    end).
Proof.
  intros Hrep. pose proof Hrep as (bs & Hwf & Ho & HA). unfold alloc_cell. repeat tstep.
  pose proof (wf_free _ _ _ _ Hwf) as Hfree. destruct fl as [|t fl]; simpl in Hfree.
  - rewrite Hfree. unfold malloc_timer, wp. destruct (ok (mallocs s)) eqn:Hok.
    + set (p := Pos.of_succ_nat (mallocs s)).
      assert (Hp : theap s !! p = None).
      { apply eq_None_not_Some. intros Hp%(wf_fresh _ _ _ _ Hwf). unfold p in Hp.
        rewrite SuccNat2Pos.id_succ in Hp. lia. }
      assert (Hnin : forall bs', wf s bs' [] [] -> p ∉ concat bs').
      { intros bs' Hwf' Hin. apply eq_None_not_Some in Hp. apply Hp, (wf_dom _ _ _ _ Hwf'). set_solver. }
      split; [rewrite HA, decide_False by auto; done |]. split; [done |].
      split; [|simpl; by simplify_map_eq].
      eapply rep_change_lists; [done | done | by rewrite Hfree | |]; simpl.
      * intros bs' Hwf'. pose proof (Hnin bs' Hwf'). split; [|split].
        -- intros q Hq. apply lookup_insert_ne. by intros <-.
        -- apply NoDup_cons. rewrite app_nil_r. split; [done |].
           pose proof (wf_nodup _ _ _ _ Hwf') as Hnd. by rewrite app_nil_l, app_nil_r in Hnd.
        -- intros q. pose proof (wf_dom _ _ _ _ Hwf' q) as Hd. destruct (decide (p = q)) as [<-|Hne].
           ++ rewrite lookup_insert_eq. split; [set_solver | eauto].
           ++ rewrite lookup_insert_ne by done. rewrite Hd. set_solver.
      * intros q Hq. destruct (decide (p = q)) as [<-|Hne].
        -- unfold p. rewrite SuccNat2Pos.id_succ. lia.
        -- rewrite lookup_insert_ne in Hq by done. apply (wf_fresh _ _ _ _ Hwf) in Hq. lia.
    + split; [done |]. split; [done |].
      eapply rep_change_lists; [done | done | by rewrite Hfree | |]; simpl.
      * intros bs' Hwf'. split; [done |]. split; apply Hwf'.
      * intros q Hq%(wf_fresh _ _ _ _ Hwf). lia.
  - destruct Hfree as (-> & c & Hc & Hfree). repeat tstep.
    assert (Htb : t ∉ concat bs).
    { pose proof (wf_nodup _ _ _ _ Hwf) as (_ & _ & (_ & Hd & _)%NoDup_app)%NoDup_app.
      intros Hin. apply (Hd t Hin). set_solver. }
    split; [by rewrite HA, decide_False |]. split; [naive_solver |]. split; [|by exists c].
    eapply rep_change_lists; [done | done | done | |]; simpl.
    + intros bs' Hwf'. split; [done |].
      assert (Hpm : t :: concat bs' ++ fl ≡ₚ [] ++ concat bs' ++ t :: fl) by (simpl; solve_Permutation).
      split; [rewrite Hpm; apply Hwf' |]. intros q. rewrite Hpm. apply Hwf'.
    + apply Hwf.
Qed.

(** The cell in hand goes to the free list. *)
Lemma repb_free_cell s A fl t bs :
  repb s A fl [t] bs ->
  wp (f <- gets free_timers ;;
      store (with_next f) t ;;;
      modify (set_free (Some t)) ;;;
      store (with_prev None) t) s (fun _ s' => repb s' A (t :: fl) [] bs).
Proof.
  intros Hrep. pose proof Hrep as (Hwf & _).
  destruct (proj2 (wf_dom _ _ _ _ Hwf t) ltac:(set_solver)) as [c Hc].
  assert (Hni : forall bs', wf s bs' fl [t] -> t ∉ concat bs' ++ fl).
  { intros bs' Hwf'. pose proof (wf_nodup _ _ _ _ Hwf') as Hnd. simpl in Hnd. by apply NoDup_cons in Hnd as [? _]. }
  pose proof (Hni bs Hwf). repeat tstep.
  eapply repb_change_lists; [done | done | | |]; simpl.
  - split; [done |]. eexists. split; [by simplify_map_eq |]. simpl.
    eapply sseg_frame; [|apply Hwf]. intros p Hp. rewrite !lookup_insert_ne; [done | set_solver..].
  - intros bs' Hwf'. pose proof (Hni bs' Hwf'). split; [|split].
    + intros p Hp. rewrite !lookup_insert_ne; [done | set_solver..].
    + pose proof (wf_nodup _ _ _ _ Hwf') as Hnd. simpl in Hnd. by rewrite <- Permutation_middle.
    + intros p. pose proof (wf_dom _ _ _ _ Hwf' p) as Hd. destruct (decide (t = p)) as [<-|].
      * rewrite lookup_insert_eq. split; [set_solver | eauto].
      * rewrite !lookup_insert_ne by done. rewrite Hd. set_solver.
  - intros p Hp. apply (wf_fresh _ _ _ _ Hwf). destruct (decide (t = p)) as [<-|]; [by eexists |].
    by rewrite !lookup_insert_ne in Hp.
Qed.

(** * The operations *)

(** [tmr_create] adds one pending timer, due the given milliseconds after
    the given time, in a cell that held none; it reuses the first free cell
    when there is one, gives null exactly when there is none and malloc fails,
    and otherwise touches no other pending timer. *)
Lemma tmr_create_wp ok junk gtod nw pr cd ms per s A fl :
  rep s A fl [] ->
  wp (tmr_create ok junk gtod nw pr cd ms per) s (fun r s' =>
    match r with
    | None => fl = [] /\ ok (mallocs s) = false /\ rep s' A [] []
    | Some t => A !! t = None /\ (forall t0, head fl = Some t0 -> t = t0) /\
        rep s' (<[t := TInfo pr cd ms per (time_plus (default gtod nw) ms)]> A) (tail fl) []
    end).
Proof.
  intros Hrep. unfold tmr_create. tstep. eapply wp_mono; [by eapply alloc_cell_spec |].
  intros [t|] s1; [|by intros (? & ? & ?); repeat tstep].
  intros (HA & Hhd & Hrep1 & [c Hc]). repeat tstep. set (tm := time_plus _ _).
  set (c1 := MkTimer pr cd ms per tm (prev c) (next c) (hash_time tm)).
  eapply wp_mono; [apply (rep_add _ A (tail fl) t c1)|].
  - destruct Hrep1 as (bs & Hwf & Ho & HA1). exists bs.
    assert (Hnt : t ∉ concat bs).
    { pose proof (wf_nodup _ _ _ _ Hwf) as (_ & Hnd & _)%NoDup_app. set_solver. }
    split; [by eapply wf_store; [..|left; set_solver] |]. split.
    + apply (ordered_agree (theap s1)); [|done]. intros r Hr. simpl.
      rewrite lookup_insert_ne; [done | by intros ->].
    + intros p. rewrite HA1. case_decide; [|done]. simpl. rewrite lookup_insert_ne; [done | by intros ->].
  - simpl. by simplify_map_eq.
  - done.
  - simpl. intros _ s' (Hrep' & _). by repeat tstep.
Qed.

Lemma repb_cancel s A fl t bs h l1 l2 :
  repb s A fl [] bs -> bs !! h = Some (l1 ++ t :: l2) ->
  wp (tmr_cancel t) s (fun _ s' => repb s' (delete t A) (t :: fl) [] (<[h := l1 ++ l2]> bs)).
Proof.
  intros Hrep Hl. destruct (wf_dom _ _ _ _ (proj1 Hrep) t) as [_ [c Hc]].
  { rewrite !elem_of_app. right. left. apply elem_of_concat. eexists _, _. split; [done | set_solver]. }
  unfold tmr_cancel. apply wp_bind. eapply wp_mono.
  { replace s with (set_heap (<[t := c]> (theap s)) s) at 1; [by eapply repb_remove |].
    rewrite insert_id by done. by destruct s. }
  intros _ s1 (Hrep1 & _ & _). by apply repb_free_cell.
Qed.

(** [tmr_cancel] of a pending timer removes that timer and no other, and
    leaves its cell first on the free list. *)
Lemma tmr_cancel_wp s A fl t i :
  rep s A fl [] -> A !! t = Some i ->
  wp (tmr_cancel t) s (fun _ s' => rep s' (delete t A) (t :: fl) []).
Proof.
  intros [bs Hrep] Hi. destruct (repb_pending _ _ _ _ _ _ _ Hrep Hi) as (h & l1 & l2 & c & Hl & _).
  eapply wp_mono; [by eapply repb_cancel |]. cbv beta. intros _ s' Hr. by eexists.
Qed.

(** [tmr_reset] of a pending timer moves its trigger time to its interval
    after the given time, and changes nothing else. *)
Lemma tmr_reset_wp now s A fl t i :
  rep s A fl [] -> A !! t = Some i ->
  wp (tmr_reset now t) s (fun _ s' =>
    rep s' (<[t := i_with_time (time_plus now (i_msecs i)) i]> A) fl []).
Proof.
  intros Hrep Hi. destruct (rep_lookup _ _ _ _ _ _ Hrep Hi) as (c & Hc & <- & _).
  unfold tmr_reset. repeat tstep. by eapply rep_resort.
Qed.

Lemma ms_until_mono now a b :
  normal a -> normal b -> tv_leb a b = true -> ms_until now a <= ms_until now b.
Proof. unfold normal, tv_leb, ms_until. intros. Z.to_euclidean_division_equations. lia. Qed.

Lemma rep_dom s A fl hand t : rep s A fl hand -> is_Some (A !! t) ->
  exists h l, timers s !! h = Some (head l) /\ t ∈ l /\ StronglySorted (before (theap s)) l /\
    (forall p, p ∈ l -> exists c, theap s !! p = Some c /\ A !! p = Some (info c)).
Proof.
  intros (bs & Hwf & Ho & HA) [i Hi]. rewrite HA in Hi. case_decide as Hin; [|done].
  apply elem_of_concat in Hin as (h & l & Hl & Hin). exists h, l.
  destruct (wf_bucket _ _ _ _ _ _ Hwf Hl) as (hd & last & Hhd & Hseg & ->).
  split; [done |]. split; [done |]. split; [by eapply ord_sorted |].
  intros p Hp. destruct (dseg_cell _ _ _ _ _ _ p Hseg Hp) as [c Hc]. exists c. split; [done |].
  rewrite HA, decide_True, Hc; [done |]. apply elem_of_concat. eauto.
Qed.

Lemma mstimeout_loop_spec now hs acc s :
  (forall t, Some t ∈ hs -> is_Some (theap s !! t)) ->
  wp (mstimeout_loop now hs acc) s (fun r s' => s' = s /\
    match r with
    | None => acc = None /\ forall t, Some t ∉ hs
    | Some ms =>
        (acc = Some ms \/ exists t c, Some t ∈ hs /\ theap s !! t = Some c /\ ms = ms_until now (time c)) /\
        (forall a, acc = Some a -> ms <= a) /\
        (forall t c, Some t ∈ hs -> theap s !! t = Some c -> ms <= ms_until now (time c))
    end).
Proof.
  revert acc. induction hs as [|[t|] hs IH]; intros acc Hin; simpl.
  - tstep. split; [done |]. destruct acc as [a|]; [|set_solver].
    split; [by left |]. split; [by intros ? [= ->] | set_solver].
  - destruct (Hin t) as [c Hc]; [set_solver |]. do 2 tstep.
    eapply wp_mono; [apply IH; set_solver |]. intros r s' (-> & Hr). split; [done |].
    destruct r as [ms|]; [|by destruct acc as [a|]; [destruct (_ <? _)|]; destruct Hr].
    destruct Hr as (Hfrom & Hacc & Hle).
    assert (Hms : ms <= ms_until now (time c) /\ (forall a, acc = Some a -> ms <= a)).
    { destruct acc as [a|]; [|by split; [apply Hacc | done]].
      destruct (Z.ltb_spec (ms_until now (time c)) a);
        specialize (Hacc _ eq_refl); split; try lia; intros ? [= <-]; lia. }
    destruct Hms as [Hmc Hma]. split; [|split; [done |]].
    + destruct Hfrom as [Ha | (t' & c' & ? & ? & ?)]; [|right; exists t', c'; set_solver].
      destruct acc as [a|]; [destruct (_ <? _)|]; simplify_eq;
        first [by left | right; exists t, c; set_solver].
    + intros t' c' [[= ->]|Ht']%elem_of_cons Hc'; [by simplify_eq | by eapply Hle].
  - eapply wp_mono; [apply IH; set_solver |]. intros r s' (-> & Hr). split; [done |].
    destruct r as [ms|]; [|set_solver]. destruct Hr as ([?|(t & c & ? & ? & ?)] & ? & Hle).
    + split; [by left |]. split; [done |]. intros t c Ht. apply Hle. set_solver.
    + split; [right; exists t, c; set_solver |]. split; [done |]. intros t' c' Ht. apply Hle. set_solver.
Qed.

(** The cells that head the buckets are pending. *)
Lemma rep_heads s A fl hand t :
  rep s A fl hand -> Some t ∈ timers s -> exists c, theap s !! t = Some c /\ A !! t = Some (info c).
Proof.
  intros Hrep [h Hh]%list_elem_of_lookup. pose proof Hrep as (bs & Hwf & Ho & HA).
  destruct (Forall2_lookup_l _ _ _ _ _ (wf_bs _ _ _ _ Hwf) Hh) as (l & Hl & last & Hseg).
  destruct l as [|q l]; destruct Hseg as [[=] Hseg]; subst.
  destruct Hseg as (c & Hc & _). exists c. split; [done |].
  rewrite HA, decide_True, Hc; [done |]. apply elem_of_concat. exists h, (q :: l). set_solver.
Qed.

(** [tmr_mstimeout] gives [INFTIM] when nothing is pending, and otherwise
    the least number of milliseconds, at least 0, until any pending timer
    triggers: looking at the first timer of each bucket is enough. *)
Lemma tmr_mstimeout_wp now s A fl :
  rep s A fl [] -> (forall t i, A !! t = Some i -> normal (i_time i)) ->
  wp (tmr_mstimeout now) s (fun ms s' => s' = s /\
    ((A = ∅ /\ ms = INFTIM) \/
     ((exists t i, A !! t = Some i /\ ms = Z.max 0 (ms_until now (i_time i))) /\
      (forall t i, A !! t = Some i -> ms <= Z.max 0 (ms_until now (i_time i)))))).
Proof.
  intros Hrep Hnorm. unfold tmr_mstimeout. repeat tstep. eapply wp_mono.
  { apply mstimeout_loop_spec. intros t Ht. destruct (rep_heads _ _ _ _ _ Hrep Ht) as (c & -> & _). eauto. }
  intros [ms|] s' (-> & Hr).
  - destruct Hr as (Hfrom & _ & Hle). tstep. split; [done |]. right. split.
    + destruct Hfrom as [[=]|(t & c & Ht & Hc & ->)].
      destruct (rep_heads _ _ _ _ _ Hrep Ht) as (c' & Hc' & HA).
      rewrite Hc in Hc'. injection Hc' as <-.
      exists t, (info c). split; [done |]. simpl. destruct (Z.leb_spec (ms_until now (time c)) 0); lia.
    + intros t i Hi. destruct (rep_dom _ _ _ _ t Hrep ltac:(eauto)) as (h & l & Hh & Hin & Hs & Hl).
      destruct (Hl t Hin) as (ct & Hct & HAt). simplify_eq. simpl.
      destruct l as [|q l]; [set_solver |]. destruct (Hl q ltac:(set_solver)) as (cq & Hcq & HAq).
      assert (ms_until now (time cq) <= ms_until now (time ct)).
      { apply ms_until_mono; [apply (Hnorm _ _ HAq) | apply (Hnorm _ _ Hi) |].
        apply elem_of_cons in Hin as [->|Hin]; [simplify_eq; apply tv_leb_refl |].
        inversion Hs as [|?? _ Hf]; subst. rewrite Forall_forall in Hf. by apply (Hf t). }
      specialize (Hle q cq ltac:(apply list_elem_of_lookup; eauto) Hcq).
      destruct (Z.leb_spec ms 0); lia.
  - destruct Hr as [_ Hnone]. tstep. split; [done |]. left. split; [|done].
    apply map_empty. intros t. destruct (A !! t) as [i|] eqn:Hi; [|done].
    destruct (rep_dom _ _ _ _ t Hrep ltac:(eauto)) as (h & l & Hh & Hin & _ & _).
    destruct l as [|q l]; [set_solver |]. destruct (Hnone q). apply list_elem_of_lookup. eauto.
Qed.

(** The milliseconds computed are less than one off the exact time left. *)
Lemma ms_until_close now tv : -1000 < ms_until now tv * 1000 - (usecs tv - usecs now) < 1000.
Proof. unfold ms_until, usecs. Z.to_euclidean_division_equations. lia. Qed.

(** [tmr_timeout] gives null when nothing is pending, and otherwise a
    well-formed timeout that is less than a millisecond off the time left
    (never negative) before the pending timer that triggers first. *)
Lemma tmr_timeout_wp now s A fl :
  rep s A fl [] -> (forall t i, A !! t = Some i -> normal (i_time i)) ->
  wp (tmr_timeout now) s (fun r s' => s' = s /\
    match r with
    | None => A = ∅
    | Some tv => normal tv /\ exists t i, A !! t = Some i /\
        -1000 < usecs tv - Z.max 0 (usecs (i_time i) - usecs now) < 1000 /\
        (forall t' i', A !! t' = Some i' -> usecs tv < Z.max 0 (usecs (i_time i') - usecs now) + 1000)
    end).
Proof.
  intros Hrep Hnorm. unfold tmr_timeout. tstep.
  eapply wp_mono; [by apply (tmr_mstimeout_wp now s A fl) |]. intros ms s' (-> & Hms).
  destruct (Z.eqb_spec ms INFTIM) as [->|Hne]; tstep; (split; [done |]).
  - destruct Hms as [[-> _]|[(t & i & _ & Hms) _]]; [done |]. unfold INFTIM in Hms. lia.
  - destruct Hms as [[_ ->]|[(t & i & Hi & Hms) Hle]]; [done |].
    assert (Hnn : 0 <= ms) by lia.
    assert (Hus : usecs (Timeval (Z.quot ms 1000) (Z.rem ms 1000 * 1000)) = ms * 1000).
    { unfold usecs. simpl. Z.to_euclidean_division_equations. lia. }
    split; [unfold normal; simpl; Z.to_euclidean_division_equations; lia |].
    exists t, i. rewrite Hus. split; [done |]. split.
    + pose proof (ms_until_close now (i_time i)). lia.
    + intros t' i' Hi'. specialize (Hle t' i' Hi'). pose proof (ms_until_close now (i_time i')). lia.
Qed.

(** ** Initialisation and cleaning up *)

(** after [tmr_init] on the zero-initialised statics, nothing is pending
    and nothing is free. *)
Lemma tmr_init_wp (old : list (option loc)) n :
  wp tmr_init (TState (∅ : gmap loc timer) old None n) (fun _ s' => rep s' ∅ [] []).
Proof.
  unfold tmr_init. wp_step. exists (replicate HASH_SIZE []).
  assert (Hc : concat (replicate HASH_SIZE ([] : list loc)) = []) by done.
  split; [constructor; rewrite ?Hc;
    cbn [timers theap set_timers free_timers mallocs app sseg]; try done|split; [split|]].
  - apply Forall2_replicate. exists None. done.
  - constructor.
  - intros p. rewrite lookup_empty. split; [by intros [? ?] | set_solver].
  - intros p. rewrite lookup_empty. by intros [? ?].
  - intros h l p c [-> _]%lookup_replicate. set_solver.
  - intros h l [-> _]%lookup_replicate. constructor.
  - intros p. rewrite Hc, decide_False by set_solver. done.
Qed.

(** With empty free list, the allocated cells are those of the pending timers. *)
Lemma rep_heap_dom s A p : rep s A [] [] -> is_Some (theap s !! p) <-> is_Some (A !! p).
Proof.
  intros (bs & Hwf & Ho & HA). rewrite HA, (wf_dom _ _ _ _ Hwf), app_nil_r. simpl.
  case_decide as Hin; [|split; [done | by intros [? ?]]].
  rewrite fmap_is_Some, (wf_dom _ _ _ _ Hwf). set_solver.
Qed.

Lemma rep_free_head s A fl t :
  rep s A (t :: fl) [] -> exists c, free_timers s = Some t /\ theap s !! t = Some c /\ sseg (theap s) (next c) fl.
Proof. intros (bs & Hwf & _). destruct (wf_free _ _ _ _ Hwf) as (? & c & ? & ?). eauto. Qed.

Lemma tmr_cleanup_loop_spec fuel s A fl :
  rep s A fl [] -> (length fl <= fuel)%nat ->
  wp (tmr_cleanup_loop fuel) s (fun _ s' => rep s' A [] []).
Proof.
  revert fuel s. induction fl as [|t fl IH]; intros fuel s Hrep Hlen.
  - pose proof Hrep as (bs & Hwf & _). pose proof (wf_free _ _ _ _ Hwf) as Hf. simpl in Hf.
    destruct fuel; simpl; tstep; tstep; rewrite Hf; by tstep.
  - destruct fuel as [|fuel]; simpl in Hlen; [lia |].
    destruct (rep_free_head _ _ _ _ Hrep) as (c & Hf & Hc & Hs).
    pose proof Hrep as (bs & Hwf & _). simpl. tstep. tstep. rewrite Hf.
    unfold free_timer. repeat tstep. apply IH; [|lia].
    assert (Hni : forall bs', wf s bs' (t :: fl) [] -> t ∉ concat bs' ++ fl /\ NoDup (concat bs' ++ fl)).
    { intros bs' Hwf'. pose proof (wf_nodup _ _ _ _ Hwf') as Hnd. simpl in Hnd.
      by rewrite <- Permutation_middle, NoDup_cons in Hnd. }
    destruct (Hni bs Hwf) as [Hn _].
    eapply rep_change_lists; [done | done | | |]; simpl.
    + eapply sseg_frame; [|done]. intros p Hp. rewrite lookup_delete_ne; [done | set_solver].
    + intros bs' Hwf'. destruct (Hni bs' Hwf'). split; [|split; [done |]].
      * intros p Hp. rewrite lookup_delete_ne; [done | set_solver].
      * intros p. pose proof (wf_dom _ _ _ _ Hwf' p) as Hd. destruct (decide (t = p)) as [<-|].
        -- rewrite lookup_delete_eq. split; [by intros [? ?] | done].
        -- rewrite lookup_delete_ne by done. rewrite Hd. set_solver.
    + intros p Hp. apply (wf_fresh _ _ _ _ Hwf). destruct (decide (t = p)) as [<-|]; [by eexists |].
      by rewrite lookup_delete_ne in Hp.
Qed.

(** [tmr_cleanup] frees exactly the cells of the free list. *)
Lemma tmr_cleanup_wp s A fl :
  rep s A fl [] ->
  wp tmr_cleanup s (fun _ s' => rep s' A [] [] /\ forall p, is_Some (theap s' !! p) <-> is_Some (A !! p)).
Proof.
  intros Hrep. unfold tmr_cleanup. repeat tstep. eapply wp_mono.
  - apply (tmr_cleanup_loop_spec _ _ A fl); [done |]. destruct Hrep as (bs & Hwf & _).
    apply cells_size; [|intros p Hp; apply (wf_dom _ _ _ _ Hwf); set_solver].
    by pose proof (wf_nodup _ _ _ _ Hwf) as (_ & _ & (_ & _ & ?)%NoDup_app)%NoDup_app.
  - cbv beta. intros _ s' Hr. split; [done |]. intros p. by apply rep_heap_dom.
Qed.

Lemma rep_size s A fl hand : rep s A fl hand -> (size A <= size (theap s))%nat.
Proof.
  intros (bs & Hwf & Ho & HA). rewrite <- !size_dom. apply subseteq_size. intros p.
  rewrite !elem_of_dom, HA. case_decide; [|by intros [? ?]]. by rewrite fmap_is_Some.
Qed.

(** A pending timer keeps its bucket's head pointer from being null. *)
Lemma rep_bucket_head s A fl hand t i :
  rep s A fl hand -> A !! t = Some i ->
  exists q, timers s !! Z.to_nat (hash_time (i_time i)) = Some (Some q).
Proof.
  intros Hrep Hi. pose proof Hrep as (bs & Hwf & Ho & HA).
  destruct (rep_lookup _ _ _ _ _ _ Hrep Hi) as (c & Hc & <- & _).
  rewrite HA in Hi. case_decide as Hin; [|done]. apply elem_of_concat in Hin as (h & l & Hl & Hin).
  destruct (ord_hash _ _ Ho h l t c Hl Hin Hc) as [_ Hh]. unfold hash in Hh. simpl. rewrite Hh, Nat2Z.id.
  destruct (wf_bucket _ _ _ _ _ _ Hwf Hl) as (hd & last & Hhd & _ & ->). rewrite Hhd.
  destruct l; [set_solver | by eexists].
Qed.

(** A smaller pool, without the timers of bucket [h]. *)
Definition drops (h : nat) (A A' : gmap loc tinfo) : Prop :=
  A' ⊆ A /\ forall t i, A' !! t = Some i -> Z.to_nat (hash_time (i_time i)) <> h.

Lemma tmr_destroy_bucket_spec fuel h s A fl :
  rep s A fl [] -> (h < HASH_SIZE)%nat -> (size A <= fuel)%nat ->
  wp (tmr_destroy_bucket fuel (Z.of_nat h)) s (fun _ s' => exists A' fl', rep s' A' fl' [] /\ drops h A A').
Proof.
  revert s A fl. induction fuel as [|fuel IH]; intros s A fl Hrep Hh Hsz.
  all: pose proof Hrep as (bs & Hwf & _).
  all: destruct (lookup_lt_is_Some_2 (timers s) h) as [hd Hhd]; [by rewrite (wf_len _ _ _ _ Hwf) |].
  all: simpl; tstep; tstep; destruct hd as [t|].
  2,4: tstep; exists A, fl; split; [done |]; split; [done |]; intros t i Hi <-;
    destruct (rep_bucket_head _ _ _ _ _ _ Hrep Hi) as [q Hq]; by simplify_eq.
  - destruct (rep_heads _ _ _ _ t Hrep) as (c & _ & HA); [apply list_elem_of_lookup; eauto |].
    assert (A = ∅) as -> by (apply map_size_empty_inv; lia). by rewrite lookup_empty in HA.
  - destruct (rep_heads _ _ _ _ t Hrep) as (c & _ & HA); [apply list_elem_of_lookup; eauto |].
    tstep. eapply wp_mono; [apply (tmr_cancel_wp _ A fl t (info c) Hrep HA) |]. cbv beta. intros _ s1 Hrep1.
    eapply wp_mono; [eapply IH; [done | done |] |].
    + rewrite map_size_delete_Some by eauto. lia.
    + cbv beta. intros _ s' (A' & fl' & ? & Hsub & Hd). exists A', fl'. split; [done |]. split; [|done].
      etrans; [done |]. apply delete_subseteq.
Qed.

Lemma tmr_destroy_loop_spec n h s A fl :
  rep s A fl [] -> (h + n = HASH_SIZE)%nat ->
  (forall t i, A !! t = Some i -> (h <= Z.to_nat (hash_time (i_time i)))%nat) ->
  wp (tmr_destroy_loop n (Z.of_nat h)) s (fun _ s' => exists fl', rep s' ∅ fl' []).
Proof.
  revert h s A fl. induction n as [|n IH]; intros h s A fl Hrep Hn HA; cbn [tmr_destroy_loop].
  - wp_step. exists fl. replace A with (∅ : gmap loc tinfo) in Hrep; [done |].
    symmetry. apply map_empty. intros t. destruct (A !! t) as [i|] eqn:Hi; [|done].
    apply HA in Hi. pose proof (hash_time_range (i_time i)). lia.
  - wp_step. wp_step. wp_step. eapply wp_mono.
    + eapply (tmr_destroy_bucket_spec _ h s A fl); [done | lia | exact (rep_size _ _ _ _ Hrep)].
    + cbv beta. intros _ s1 (A1 & fl1 & Hrep1 & Hsub & Hd).
      replace (Z.of_nat h + 1) with (Z.of_nat (S h)) by lia. eapply IH; [done | lia |].
      intros t i Hi. pose proof (Hd t i Hi). pose proof (HA t i ltac:(by eapply lookup_weaken)). lia.
Qed.

(** [tmr_destroy] leaves nothing pending, nothing free and no cell
    allocated: the package leaks no memory. *)
Lemma tmr_destroy_wp s A fl :
  rep s A fl [] -> wp tmr_destroy s (fun _ s' => rep s' ∅ [] [] /\ theap s' = ∅).
Proof.
  intros Hrep. unfold tmr_destroy. wp_step. eapply wp_mono.
  - apply (tmr_destroy_loop_spec HASH_SIZE 0 s A fl); [done | done | intros; lia].
  - cbv beta. intros _ s1 (fl1 & Hrep1). eapply wp_mono; [by apply (tmr_cleanup_wp s1 ∅ fl1) |].
    intros _ s' [Hr Hdom]. split; [done |]. apply map_empty. intros p. apply eq_None_not_Some.
    rewrite Hdom, lookup_empty. by intros [? ?].
Qed.

(** * The claims *)

(** [tmr_create] always returns. It adds one pending timer, due the given
    milliseconds after the given time, in a cell that held none; it reuses the
    first free cell when there is one, gives null exactly when there is none
    and malloc fails, and otherwise touches no other pending timer. *)
Theorem tmr_create_refines ok junk gtod nw pr cd ms per s A fl :
  rep s A fl [] ->
  exists r s', tmr_create ok junk gtod nw pr cd ms per s = Ret r s' /\
    match r with
    | None => fl = [] /\ ok (mallocs s) = false /\ rep s' A [] []
    | Some t => A !! t = None /\ (forall t0, head fl = Some t0 -> t = t0) /\
        rep s' (<[t := TInfo pr cd ms per (time_plus (default gtod nw) ms)]> A) (tail fl) []
    end.
Proof. intros Hrep. by apply wp_run, tmr_create_wp. Qed.

(** [tmr_cancel] of a pending timer returns, having removed that timer and
    no other, with its cell first on the free list. *)
Theorem tmr_cancel_refines s A fl t i :
  rep s A fl [] -> A !! t = Some i ->
  exists s', tmr_cancel t s = Ret tt s' /\ rep s' (delete t A) (t :: fl) [].
Proof. intros Hrep Hi. destruct (proj1 (wp_run _ _ _) (tmr_cancel_wp s A fl t i Hrep Hi)) as ([] & s' & ? & ?). eauto. Qed.

(** [tmr_reset] of a pending timer returns, having moved its trigger time to
    its interval after the given time, and changed nothing else. *)
Theorem tmr_reset_refines now s A fl t i :
  rep s A fl [] -> A !! t = Some i ->
  exists s', tmr_reset now t s = Ret tt s' /\
    rep s' (<[t := i_with_time (time_plus now (i_msecs i)) i]> A) fl [].
Proof. intros Hrep Hi. destruct (proj1 (wp_run _ _ _) (tmr_reset_wp now s A fl t i Hrep Hi)) as ([] & s' & ? & ?). eauto. Qed.

(** [tmr_mstimeout] gives [INFTIM] when nothing is pending, and otherwise
    the least number of milliseconds, at least 0, until any pending timer
    triggers: looking at the first timer of each bucket is enough. *)
Theorem tmr_mstimeout_least now s A fl :
  rep s A fl [] -> (forall t i, A !! t = Some i -> normal (i_time i)) ->
  exists ms, tmr_mstimeout now s = Ret ms s /\
    ((A = ∅ /\ ms = INFTIM) \/
     ((exists t i, A !! t = Some i /\ ms = Z.max 0 (ms_until now (i_time i))) /\
      (forall t i, A !! t = Some i -> ms <= Z.max 0 (ms_until now (i_time i))))).
Proof.
  intros Hrep Hn.
  destruct (proj1 (wp_run _ _ _) (tmr_mstimeout_wp now s A fl Hrep Hn)) as (ms & s' & ? & -> & ?). eauto.
Qed.

(** [tmr_timeout] gives null when nothing is pending, and otherwise a
    well-formed timeout that is less than a millisecond off the time left
    (never negative) before the pending timer that triggers first. *)
Theorem tmr_timeout_close now s A fl :
  rep s A fl [] -> (forall t i, A !! t = Some i -> normal (i_time i)) ->
  exists r, tmr_timeout now s = Ret r s /\
    match r with
    | None => A = ∅
    | Some tv => normal tv /\ exists t i, A !! t = Some i /\
        -1000 < usecs tv - Z.max 0 (usecs (i_time i) - usecs now) < 1000 /\
        (forall t' i', A !! t' = Some i' -> usecs tv < Z.max 0 (usecs (i_time i') - usecs now) + 1000)
    end.
Proof.
  intros Hrep Hn.
  destruct (proj1 (wp_run _ _ _) (tmr_timeout_wp now s A fl Hrep Hn)) as (r & s' & ? & -> & ?). eauto.
Qed.

(** [tmr_destroy] returns with nothing pending, nothing free and no cell
    allocated: the package leaks no memory. *)
Theorem tmr_destroy_empties s A fl :
  rep s A fl [] -> exists s', tmr_destroy s = Ret tt s' /\ rep s' ∅ [] [] /\ theap s' = ∅.
Proof. intros Hrep. destruct (proj1 (wp_run _ _ _) (tmr_destroy_wp s A fl Hrep)) as ([] & s' & ? & ?). eauto. Qed.
End Thm.
