(* ===== verification/TimersRun.v ===== *)
(** [tmr_run] refines firing due timers one at a time: for timer procedures
    that leave the package alone, it ends, every timer it calls is due, and every
    timer that was due is called. *)
From S2P Require Import Prelude Timers TimersSpec TimersThm.
Local Open Scope Z_scope.

Section Abstract.
Context {proc cdata : Type}.
Abbreviation tinfo := (@tinfo proc cdata).
Implicit Types (A : gmap loc tinfo) (i : tinfo) (t p : loc).

(** * Firing, on the map of pending timers *)

Definition due (now : timeval) i : bool := negb (tv_later (i_time i) now).

(** One-shot timers go away; periodic ones move one interval on. *)
Definition fire_one p i A : gmap loc tinfo :=
  if i_periodic i
  then <[p := i_with_time (time_plus (i_time i) (i_msecs i)) i]> A
  else delete p A.

(** A sequence of firings, with the timers fired as they were. *)
Inductive fires (now : timeval) : gmap loc tinfo -> list (loc * tinfo) -> gmap loc tinfo -> Prop :=
| fires_nil A : fires now A [] A
| fires_cons A p i evs A' :
    A !! p = Some i -> due now i = true ->
    fires now (fire_one p i A) evs A' -> fires now A ((p, i) :: evs) A'.

Lemma fires_app now A1 A2 A3 evs1 evs2 :
  fires now A1 evs1 A2 -> fires now A2 evs2 A3 -> fires now A1 (evs1 ++ evs2) A3.
Proof. induction 1; simpl; [done |]. intros. econstructor; eauto. Qed.

Lemma fire_one_ne p i A t : t <> p -> fire_one p i A !! t = A !! t.
Proof. intros. unfold fire_one. destruct (i_periodic i); by simplify_map_eq. Qed.

Lemma fires_other now A evs A' t : fires now A evs A' -> t ∉ evs.*1 -> A' !! t = A !! t.
Proof.
  induction 1 as [|A p i evs A' Hp Hd Hf IH]; simpl; [done |]. intros Hni.
  rewrite IH by set_solver. apply fire_one_ne. set_solver.
Qed.

(** A one-shot timer is fired at most once. *)
Lemma fires_gone now A evs A' t : fires now A evs A' -> A !! t = None -> t ∉ evs.*1 /\ A' !! t = None.
Proof.
  induction 1 as [|A p i evs A' Hp Hd Hf IH]; simpl; intros Ht; [set_solver |].
  assert (t <> p) by congruence. destruct IH; [by rewrite fire_one_ne |]. set_solver.
Qed.

(** * A bound on the number of firings *)

(** Timers fit for running: times in normal form, and periodic ones that advance. *)
Definition runnable A : Prop :=
  forall t i, A !! t = Some i -> normal (i_time i) /\ (i_periodic i = true -> 1 <= i_msecs i).

(** How often a timer can fire before it is no longer due. *)
Definition backlog (now : timeval) i : nat :=
  if due now i
  then if i_periodic i then S (Z.to_nat ((usecs now - usecs (i_time i)) / (i_msecs i * 1000))) else 1
  else 0.
Definition total_backlog (now : timeval) A : nat := map_fold (fun _ i n => backlog now i + n)%nat O A.

Lemma total_backlog_delete now A p i :
  A !! p = Some i -> total_backlog now A = (backlog now i + total_backlog now (delete p A))%nat.
Proof.
  intros Hp. unfold total_backlog.
  rewrite (map_fold_delete_L (fun _ i n => backlog now i + n)%nat 0%nat p i A); [done | intros; lia | done].
Qed.

Lemma total_backlog_insert now A p i :
  total_backlog now (<[p := i]> A) = (backlog now i + total_backlog now (delete p A))%nat.
Proof. rewrite (total_backlog_delete _ _ p i), delete_insert_eq by apply lookup_insert_eq. done. Qed.

Lemma due_usecs now i : normal now -> normal (i_time i) -> due now i = true <-> usecs (i_time i) <= usecs now.
Proof.
  intros Hn Hi. unfold due. rewrite tv_later_leb, negb_involutive. by apply tv_leb_usecs.
Qed.

Lemma backlog_periodic now i :
  normal now -> normal (i_time i) -> i_periodic i = true -> 1 <= i_msecs i -> due now i = true ->
  (backlog now (i_with_time (time_plus (i_time i) (i_msecs i)) i) < backlog now i)%nat.
Proof.
  intros Hn Hi Hper Hms Hdue. destruct (time_plus_spec (i_time i) (i_msecs i)) as [Hn' Hu]; [done | lia |].
  unfold backlog at 2. rewrite Hdue, Hper. rewrite due_usecs in Hdue by done.
  unfold backlog. destruct (due now _) eqn:Hd; [|lia].
  rewrite due_usecs in Hd by done. simpl in *. rewrite Hper, Hu in *.
  replace (usecs now - (usecs (i_time i) + i_msecs i * 1000))
    with (usecs now - usecs (i_time i) + (-1) * (i_msecs i * 1000)) by lia.
  rewrite Z.div_add by lia.
  enough (1 <= (usecs now - usecs (i_time i)) / (i_msecs i * 1000)) by lia.
  apply Z.div_le_lower_bound; lia.
Qed.

Lemma fire_one_runnable p i A : runnable A -> A !! p = Some i -> runnable (fire_one p i A).
Proof.
  intros Hrun Hp. destruct (Hrun p i Hp) as [Hni Hms]. unfold fire_one. destruct (i_periodic i) eqn:Hper.
  - intros t j. destruct (decide (t = p)) as [->|]; [rewrite lookup_insert_eq | rewrite lookup_insert_ne by done; apply Hrun].
    intros [= <-]. simpl. split; [apply time_plus_spec; [done | specialize (Hms eq_refl); lia] | by rewrite Hper].
  - intros t j Hj. apply lookup_delete_Some in Hj as [_ ?]. eauto.
Qed.

Lemma fire_one_drop now A p i :
  normal now -> normal (i_time i) -> (i_periodic i = true -> 1 <= i_msecs i) ->
  A !! p = Some i -> due now i = true ->
  (total_backlog now (fire_one p i A) < total_backlog now A)%nat.
Proof.
  intros Hn Hni Hms Hp Hd. rewrite (total_backlog_delete now A p i Hp). unfold fire_one.
  destruct (i_periodic i) eqn:Hper.
  - rewrite total_backlog_insert. pose proof (backlog_periodic now i Hn Hni Hper (Hms eq_refl) Hd). lia.
  - unfold backlog. rewrite Hd, Hper. lia.
Qed.

Lemma fire_one_backlog now A p i :
  normal now -> runnable A -> A !! p = Some i -> due now i = true ->
  (total_backlog now (fire_one p i A) < total_backlog now A)%nat /\ runnable (fire_one p i A).
Proof.
  intros Hn Hrun Hp Hd. destruct (Hrun p i Hp) as [Hni Hms].
  split; [by apply fire_one_drop | by apply fire_one_runnable].
Qed.

Lemma fires_backlog now A evs A' :
  normal now -> runnable A -> fires now A evs A' ->
  (total_backlog now A' <= total_backlog now A)%nat /\ runnable A'.
Proof.
  intros Hn Hrun Hf. induction Hf as [|A p i evs A' Hp Hd Hf IH]; [done |].
  destruct (fire_one_backlog now A p i) as [? Hrun']; [done..|]. destruct (IH Hrun'). split; [lia | done].
Qed.

(** A new timer is not due. *)
Lemma new_timer_backlog now A t pr cd ms :
  normal now -> 1 <= ms -> A !! t = None ->
  total_backlog now (<[t := TInfo pr cd ms false (time_plus now ms)]> A) = total_backlog now A.
Proof.
  intros Hn Hms Ht. rewrite total_backlog_insert, delete_id by done. unfold backlog, due. simpl.
  destruct (time_plus_spec now ms) as [Hn' Hu]; [done | lia |].
  destruct (tv_later (time_plus now ms) now) eqn:E; [done |].
  rewrite tv_later_leb in E. apply negb_false_iff in E. apply tv_leb_usecs in E; [lia | done | done].
Qed.
End Abstract.

(** * The code *)

(** A client whose timer procedures only add a line to a log. *)
Class QuietClient {St proc cdata : Type} {TC : TimerClient St proc cdata}
    (trace : St -> list (proc * cdata)) : Prop := {
  quiet_get_put t s : tmr_get (tmr_put t s) = t;
  quiet_put_get s : tmr_put (tmr_get s) s = s;
  quiet_now_put t s : nowP (tmr_put t s) = nowP s;
  quiet_trace_put t s : trace (tmr_put t s) = trace s;
  quiet_call pr cd s : exists s', timer_call pr cd s = Ret tt s' /\
    tmr_get s' = tmr_get s /\ nowP s' = nowP s /\ trace s' = trace s ++ [(pr, cd)]
}.

Section Code.
Context {St proc cdata : Type} {TC : TimerClient St proc cdata}
  (trace : St -> list (proc * cdata)) {QC : QuietClient trace}.
Abbreviation tinfo := (@TimersThm.tinfo proc cdata).
Implicit Types (s : St) (A : gmap loc tinfo) (bs : list (list loc)) (fl l : list loc).

Definition calls (evs : list (loc * tinfo)) : list (proc * cdata) :=
  map (fun e => (i_proc e.2, i_data e.2)) evs.

(** Where the insertion of [p] into [l1 ++ l2] leaves what comes from [l2] on. *)
Lemma ins_split b (p : loc) l1 l2 :
  exists l1' l2', ins b p (l1 ++ l2) = l1' ++ l2' /\ head l2' = head l2 /\ l2 ⊆ l2'.
Proof.
  induction l1 as [|q l1 IH]; simpl.
  - destruct l2 as [|q l2]; [by exists [p], [] |]. simpl. destruct (b q).
    + by exists [p], (q :: l2).
    + exists [], (q :: ins b p l2). split; [done |]. split; [done |]. intros r. rewrite !elem_of_cons, ins_elem_of. naive_solver.
  - destruct (b q).
    + exists (p :: q :: l1), l2. done.
    + destruct IH as (l1' & l2' & -> & ? & ?). by exists (q :: l1'), l2'.
Qed.

(** The state after a run of firings, seen from the client. *)
Record ran s s' A A' evs : Prop := {
  ran_rep : exists fl, rep (tmr_get s') A' fl [];
  ran_fires : fires (nowP s) A evs A';
  ran_trace : trace s' = trace s ++ calls evs;
  ran_now : nowP s' = nowP s
}.

(** What the body of the loop does with a due timer. *)
Definition fired s s1 A p i h l2 : Prop :=
  nowP s1 = nowP s /\ trace s1 = trace s ++ [(i_proc i, i_data i)] /\
  exists fl1 bs1 l1' l2', repb (tmr_get s1) (fire_one p i A) fl1 [] bs1 /\
    bs1 !! h = Some (l1' ++ l2') /\ head l2' = head l2 /\ l2 ⊆ l2'.

Lemma run_due s A fl bs h l1 p l2 c (k : CM St unit) Q :
  repb (tmr_get s) A fl [] bs -> bs !! h = Some (l1 ++ p :: l2) ->
  theap (tmr_get s) !! p = Some c ->
  (forall s1, fired s s1 A p (info c) h l2 -> wp k s1 Q) ->
  wp (timer_call (timer_proc c) (client_data c) ;;;
      c' <- tmr (load p) ;;
      (if periodic c' then
         tmr (store (with_time (time_plus (time c') (msecs c'))) p) ;;; tmr (l_resort p)
       else tmr (tmr_cancel p)) ;;; k) s Q.
Proof.
  intros Hrep Hl Hc Hk. destruct (quiet_call (timer_proc c) (client_data c) s) as (s1 & Hcall & Hg1 & Hn1 & Ht1).
  pose proof (lookup_lt_Some _ _ _ Hl) as Hlt.
  tstep. eapply wp_intro; [done |]. unfold tmr. do 2 tstep. eapply wp_load; [by rewrite Hg1 |].
  rewrite quiet_put_get. apply wp_bind.
  eapply (wp_mono _ _ (fun _ s2 => fired s s2 A p (info c) h l2)); [|intros _ s2; apply Hk].
  unfold fired, fire_one. simpl. destruct (periodic c).
  - repeat tstep. rewrite Hg1. eapply wp_store; [done |]. tstep. rewrite quiet_get_put.
    destruct (lookup_lt_is_Some_2 (<[h := l1 ++ l2]> bs)
      (Z.to_nat (hash_time (time_plus (time c) (msecs c))))) as [l Hl'].
    { rewrite length_insert. apply lookup_lt_is_Some. by apply (bs_lookup_hash _ _ _ _ _ (proj1 Hrep)). }
    eapply wp_mono; [by eapply repb_resort |]. cbv beta. intros _ t2 [[b Hr2] _].
    rewrite ?quiet_now_put, ?quiet_trace_put, quiet_get_put. split; [done |]. split; [done |].
    exists fl, (<[Z.to_nat (hash_time (time_plus (time c) (msecs c))) := ins b p l]> (<[h := l1 ++ l2]> bs)).
    set (h' := Z.to_nat _) in *. destruct (decide (h' = h)) as [->|Hne].
    + rewrite list_lookup_insert_eq in Hl' by done. injection Hl' as <-.
      destruct (ins_split b p l1 l2) as (l1' & l2' & Heq & Hhd & Hsub).
      exists l1', l2'. split; [done |]. rewrite <- Heq. split; [|done].
      rewrite list_lookup_insert_eq; [done | by rewrite length_insert].
    + exists l1, l2. split; [done |]. split; [|done].
      rewrite list_lookup_insert_ne, list_lookup_insert_eq by done. done.
  - tstep. rewrite Hg1. eapply wp_mono; [by eapply repb_cancel |].
    cbv beta. intros _ t2 Hr2. rewrite ?quiet_now_put, ?quiet_trace_put, quiet_get_put.
    split; [done |]. split; [done |]. exists (p :: fl), (<[h := l1 ++ l2]> bs), l1, l2.
    split; [done |]. split; [|done]. by rewrite list_lookup_insert_eq.
Qed.

(** The rest of a bucket from a timer that is not due holds none that is. *)
Lemma sorted_not_due now (s : tstate proc cdata) A fl bs h l1 (p : loc) l2 :
  repb s A fl [] bs -> bs !! h = Some (l1 ++ p :: l2) ->
  (forall i, A !! p = Some i -> due now i = false) ->
  forall t i, t ∈ p :: l2 -> A !! t = Some i -> due now i = false.
Proof.
  intros Hrep Hl Hp t i Ht Hi. apply elem_of_cons in Ht as [->|Ht]; [by apply Hp |].
  pose proof Hrep as (Hwf & Ho & HA).
  destruct (rep_lookup s A fl [] t i) as (ct & Hct & <- & _); [by exists bs | done |].
  assert (exists cp, theap s !! p = Some cp /\ A !! p = Some (info cp)) as (cp & Hcp & HAp).
  { assert (Hin : p ∈ concat bs) by (apply elem_of_concat; eexists _, _; split; [done | set_solver]).
    destruct (proj2 (wf_dom _ _ _ _ Hwf p)) as [cp Hcp]; [set_solver |].
    exists cp. by rewrite HA, decide_True, Hcp. }
  specialize (Hp _ HAp). unfold due in *. simpl in *. apply negb_false_iff in Hp. apply negb_false_iff.
  pose proof (ord_sorted _ _ Ho h _ Hl) as Hs.
  assert (Hs' : StronglySorted (before (theap s)) (p :: l2)).
  { clear -Hs. induction l1 as [|q l1 IH]; [done |]. inversion Hs; auto. }
  inversion Hs' as [|?? _ Hf]; subst. rewrite Forall_forall in Hf.
  pose proof (Hf t Ht cp ct Hcp Hct). rewrite tv_later_leb in *. apply negb_true_iff. apply negb_true_iff in Hp.
  destruct (tv_leb (time ct) now) eqn:E; [|done]. rewrite (tv_leb_trans (time cp) (time ct) now) in Hp; done.
Qed.

Lemma tmr_run_list_spec fuel h l1 l2 s A fl bs :
  repb (tmr_get s) A fl [] bs -> bs !! h = Some (l1 ++ l2) ->
  normal (nowP s) -> runnable A -> (total_backlog (nowP s) A < fuel)%nat ->
  wp (tmr_run_list fuel (head l2)) s (fun _ s' => exists A' evs, ran s s' A A' evs /\
    forall t i, t ∈ l2 -> A !! t = Some i -> due (nowP s) i = true -> t ∈ evs.*1).
Proof.
  revert l1 l2 s A fl bs. induction fuel as [|fuel IH]; intros l1 l2 s A fl bs Hrep Hl Hn Hrun Hfuel; [lia |].
  destruct l2 as [|p l2]; simpl.
  { tstep. exists A, []. split; [|set_solver]. split; [eexists; by eexists | constructor | by rewrite app_nil_r | done]. }
  pose proof Hrep as (Hwf & Ho & HA).
  assert (Hin : p ∈ concat bs) by (apply elem_of_concat; eexists _, _; split; [done | set_solver]).
  destruct (proj2 (wf_dom _ _ _ _ Hwf p)) as [c Hc]; [set_solver |].
  assert (HAp : A !! p = Some (info c)) by (by rewrite HA, decide_True, Hc).
  destruct (wf_bucket _ _ _ _ _ _ Hwf Hl) as (hd & last & _ & Hseg & _).
  assert (Hnext : next c = head l2) by (by eapply dseg_next).
  tstep. unfold tmr at 1. tstep. eapply wp_load; [done |]. rewrite quiet_put_get. do 2 tstep.
  destruct (tv_later (time c) (nowP s)) eqn:Hlater.
  { tstep. exists A, []. split.
    - split; [eexists; by eexists | constructor | by rewrite app_nil_r | done].
    - intros t i Ht Hi Hd. assert (due (nowP s) i = false); [|congruence].
      eapply sorted_not_due; [done | done | | done | done].
      intros i' Hi'. rewrite HAp in Hi'. injection Hi' as <-. unfold due. simpl. by rewrite Hlater. }
  assert (Hdue : due (nowP s) (info c) = true) by (unfold due; simpl; by rewrite Hlater).
  destruct (fire_one_backlog (nowP s) A p (info c)) as [Hlt Hrun1]; [done..|].
  rewrite Hnext. eapply run_due; [done..|]. intros s1 (Hn1 & Ht1 & fl1 & bs1 & l1' & l2' & Hrep1 & Hl' & Hhd & Hsub).
  rewrite <- Hhd. eapply wp_mono; [eapply (IH l1' l2'); [done | done | by rewrite Hn1 | done | rewrite Hn1; lia] |].
  cbv beta. rewrite Hn1. intros _ s' (A' & evs & [Hfl Hf Htr Hnw] & Hall).
  exists A', ((p, info c) :: evs). split.
  - split; [done | | |].
    + econstructor; [done | done |]. by rewrite <- Hn1.
    + by rewrite Htr, Ht1, <- app_assoc.
    + congruence.
  - intros t i Ht Hi Hd. simpl. apply elem_of_cons.
    destruct (decide (t = p)) as [->|Hne]; [by left | right].
    apply (Hall t i); [set_solver | by rewrite fire_one_ne | done].
Qed.

Lemma tmr_run_loop_spec fuel n h s A fl :
  rep (tmr_get s) A fl [] -> (h + n = HASH_SIZE)%nat ->
  normal (nowP s) -> runnable A -> (total_backlog (nowP s) A < fuel)%nat ->
  wp (tmr_run_loop fuel n (Z.of_nat h)) s (fun _ s' => exists A' evs, ran s s' A A' evs /\
    forall t i, A !! t = Some i -> due (nowP s) i = true ->
      (h <= Z.to_nat (hash_time (i_time i)))%nat -> t ∈ evs.*1).
Proof.
  revert h s A fl. induction n as [|n IH]; intros h s A fl Hrep Hh Hn Hrun Hfuel; cbn [tmr_run_loop].
  { wp_step. exists A, []. split.
    - split; [by eexists | constructor | by rewrite app_nil_r | done].
    - intros t i _ _ Hle. pose proof (hash_time_range (i_time i)). lia. }
  destruct Hrep as [bs Hrep].
  destruct (lookup_lt_is_Some_2 bs h) as [l Hl].
  { rewrite <- (Forall2_length _ _ _ (wf_bs _ _ _ _ (proj1 Hrep))), (wf_len _ _ _ _ (proj1 Hrep)). lia. }
  destruct (wf_bucket _ _ _ _ _ _ (proj1 Hrep) Hl) as (hd & last & Hhd & _ & ->).
  wp_step. unfold tmr. wp_step. eapply wp_get_bucket; [done |]. rewrite quiet_put_get. wp_step.
  eapply wp_mono; [by apply (tmr_run_list_spec fuel h [] l s A fl bs) |].
  cbv beta. intros _ s1 (A1 & evs1 & [[fl1 Hrep1] Hf1 Ht1 Hn1] & Hall1).
  destruct (fires_backlog _ _ _ _ Hn Hrun Hf1) as [Hle Hrun1].
  replace (Z.of_nat h + 1) with (Z.of_nat (S h)) by lia.
  eapply wp_mono; [eapply (IH (S h) s1 A1 fl1); rewrite ?Hn1; [done | lia | done | done | lia] |].
  cbv beta. rewrite Hn1. intros _ s' (A' & evs & [Hfl Hf Htr Hnw] & Hall).
  exists A', (evs1 ++ evs). split.
  - split; [done | eapply fires_app; [done |]; by rewrite <- Hn1 | | congruence].
    rewrite Htr, Ht1, <- app_assoc. unfold calls. by rewrite map_app.
  - intros t i Hi Hd Hht. rewrite fmap_app, elem_of_app.
    destruct (decide (t ∈ evs1.*1)) as [|Hni]; [by left | right].
    destruct (decide (Z.to_nat (hash_time (i_time i)) = h)) as [He|Hne].
    + destruct Hni. apply (Hall1 t i); [|done | done].
      destruct (repb_pending _ _ _ _ _ _ _ Hrep Hi) as (h' & l1 & l2 & c & Hl' & Hc & ->).
      destruct (ord_hash _ _ (proj1 (proj2 Hrep)) h' _ t c Hl' ltac:(set_solver) Hc) as [_ Hhc].
      unfold hash in Hhc. simpl in He. rewrite Hhc, Nat2Z.id in He. subst h'. simplify_eq. set_solver.
    + apply (Hall t i); [by rewrite (fires_other _ _ _ _ t Hf1) | done | lia].
Qed.

(** C14: for timer procedures that leave the package alone, [tmr_run] ends
    once its bound exceeds the backlog of the pending timers; what it does to
    them is a sequence of firings of due timers, the procedures called are
    those of the timers fired, in that order, and every timer that was due at
    the start is fired. *)
Theorem tmr_run_refines fuel s A fl :
  rep (tmr_get s) A fl [] -> normal (nowP s) -> runnable A ->
  (total_backlog (nowP s) A < fuel)%nat ->
  exists s' A' evs fl', tmr_run fuel s = Ret tt s' /\
    rep (tmr_get s') A' fl' [] /\ fires (nowP s) A evs A' /\
    trace s' = trace s ++ calls evs /\ nowP s' = nowP s /\
    (forall t i, A !! t = Some i -> due (nowP s) i = true -> t ∈ evs.*1).
Proof.
  intros Hrep Hn Hrun Hfuel.
  pose proof (tmr_run_loop_spec fuel HASH_SIZE 0 s A fl Hrep eq_refl Hn Hrun Hfuel) as Hwp.
  apply wp_run in Hwp as ([] & s' & Hs' & A' & evs & [[fl' ?] ? ? ?] & Hall).
  exists s', A', evs, fl'. split; [done |]. do 4 (split; [done |]). intros t i Hi Hd. eapply Hall; [done..|lia].
Qed.

(** After such a run, a one-shot timer is gone if it was due and is as
    it was if it was not, and a due one-shot timer was fired exactly once. *)
Theorem tmr_run_oneshot fuel s A fl :
  rep (tmr_get s) A fl [] -> normal (nowP s) -> runnable A ->
  (total_backlog (nowP s) A < fuel)%nat ->
  exists s' A' evs fl', tmr_run fuel s = Ret tt s' /\
    rep (tmr_get s') A' fl' [] /\ trace s' = trace s ++ calls evs /\
    forall t i, A !! t = Some i -> i_periodic i = false ->
      if due (nowP s) i
      then A' !! t = None /\ exists e1 e2, evs = e1 ++ (t, i) :: e2 /\ t ∉ e1.*1 /\ t ∉ e2.*1
      else A' !! t = Some i /\ t ∉ evs.*1.
Proof.
  intros Hrep Hn Hrun Hfuel.
  pose proof (tmr_run_loop_spec fuel HASH_SIZE 0 s A fl Hrep eq_refl Hn Hrun Hfuel) as Hwp.
  apply wp_run in Hwp as ([] & s' & Hs' & A' & evs & [[fl' ?] Hf ? _] & Hloop).
  assert (Hall : forall t i, A !! t = Some i -> due (nowP s) i = true -> t ∈ evs.*1).
  { intros t i Hi Hd. eapply Hloop; [done..|lia]. }
  exists s', A', evs, fl'. do 3 (split; [done |]). intros t i Hi Hper.
  assert (Hgen : forall A evs A', fires (nowP s) A evs A' -> A !! t = Some i ->
    (t ∉ evs.*1 /\ A' !! t = Some i) \/
    (due (nowP s) i = true /\ A' !! t = None /\
      exists e1 e2, evs = e1 ++ (t, i) :: e2 /\ t ∉ e1.*1 /\ t ∉ e2.*1)).
  { clear -Hper. intros A evs A'. induction 1 as [|A p j evs A' Hp Hd Hf IH]; intros Ht; [left; set_solver |].
    destruct (decide (t = p)) as [->|Hne].
    - rewrite Ht in Hp. injection Hp as <-. right. split; [done |].
      assert (Hg : fire_one p i A !! p = None) by (unfold fire_one; rewrite Hper; apply lookup_delete_eq).
      destruct (fires_gone _ _ _ _ _ Hf Hg). split; [done |]. exists [], evs. set_solver.
    - destruct IH as [[? ?]|(? & ? & e1 & e2 & -> & ? & ?)]; [by rewrite fire_one_ne | left; set_solver |].
      right. do 2 (split; [done |]). exists ((p, j) :: e1), e2. set_solver. }
  destruct (Hgen A evs A' Hf Hi) as [[Hni HA']|(-> & ? & ?)]; [|done].
  destruct (due (nowP s) i) eqn:Hd; [|done]. destruct Hni. by apply (Hall t i).
Qed.
End Code.
