(* ===== verification/TimersClient.v ===== *)
(** [tmr_run] for clients whose timer procedures use the package themselves:
    they may cancel, reset and create timers, as long as the timer that runs and
    the one after it in its bucket stay pending. The contract is a class; the
    rule is proved against it. *)
From S2P Require Import Prelude Timers TimersSpec TimersThm TimersRun.
Local Open Scope Z_scope.

(** * The bound only has to be large enough *)

Section Mono.
Context {St proc cdata : Type} {TC : TimerClient St proc cdata}.

Lemma tmr_run_list_mono fuel fuel' t s :
  (fuel <= fuel')%nat -> tmr_run_list fuel t s <> OutOfFuel ->
  tmr_run_list fuel' t s = tmr_run_list fuel t s.
Proof.
  revert fuel' t s. induction fuel as [|fuel IH]; intros fuel' t s Hle Hs.
  - destruct t; [done |]. by destruct fuel'.
  - destruct fuel' as [|fuel']; [lia |]. destruct t as [p|]; [|done]. revert Hs. simpl.
    unfold bind, gets. destruct (tmr (load p) s) as [c s1 | | |]; try done.
    destruct (tv_later _ _); [done |].
    destruct (timer_call _ _ s1) as [[] s2 | | |]; try done.
    destruct (tmr (load p) s2) as [c' s3 | | |]; try done.
    lazymatch goal with |- match ?o with _ => _ end <> _ -> _ => destruct o as [[] s4 | | |]; try done end.
    intros Hs. apply IH; [lia | done].
Qed.

Lemma tmr_run_loop_mono fuel fuel' n h s :
  (fuel <= fuel')%nat -> tmr_run_loop fuel n h s <> OutOfFuel ->
  tmr_run_loop fuel' n h s = tmr_run_loop fuel n h s.
Proof.
  intros Hle. revert h s. induction n as [|n IH]; intros h s Hs; [done |]. revert Hs. simpl.
  unfold bind. destruct (tmr (get_bucket h) s) as [t s1 | | |]; try done. intros Hs.
  assert (Hl : tmr_run_list fuel t s1 <> OutOfFuel) by (intros He; by rewrite He in Hs).
  rewrite (tmr_run_list_mono fuel fuel') by done.
  destruct (tmr_run_list fuel t s1) as [[] s2 | | |]; try done. by apply IH.
Qed.
End Mono.

(** * The contract *)

(** [Inv s A]: the client's invariant on its state and the pending timers; it
    must not look at the package's own data. A due timer's procedure is called
    with the timer still pending, and it is fired after the call. *)
Class ActiveClient {St proc cdata : Type} {TC : TimerClient St proc cdata}
    (Inv : St -> gmap loc (@tinfo proc cdata) -> Prop) (X : Z -> St -> Prop) : Prop := {
  ac_get_put t s : tmr_get (tmr_put t s) = t;
  ac_put_get s : tmr_put (tmr_get s) s = s;
  ac_now_put t s : nowP (tmr_put t s) = nowP s;
  ac_inv_put t s A : Inv s A -> Inv (tmr_put t s) A;
  ac_runnable s A : Inv s A -> normal (nowP s) /\ runnable A;
  ac_call s A fl p i :
    rep (tmr_get s) A fl [] -> Inv s A -> A !! p = Some i -> due (nowP s) i = true ->
    wpe (timer_call (i_proc i) (i_data i)) s (fun _ s1 =>
      exists A1 fl1, rep (tmr_get s1) A1 fl1 [] /\ A1 !! p = Some i /\ Inv s1 (fire_one p i A1) /\
        nowP s1 = nowP s /\
        (total_backlog (nowP s) A1 <= total_backlog (nowP s) A)%nat /\
        (forall q j, A !! q = Some j -> q <> p -> tv_leb (i_time i) (i_time j) = true -> is_Some (A1 !! q)))
      X
}.

Section Rule.
Context {St proc cdata : Type} {TC : TimerClient St proc cdata}
  (Inv : St -> gmap loc (@tinfo proc cdata) -> Prop) (X : Z -> St -> Prop) {AC : ActiveClient Inv X}.
Implicit Types (s : St) (A : gmap loc (@tinfo proc cdata)).

(** The state between two timers. *)
Definition calm (now : timeval) (n : nat) s : Prop :=
  nowP s = now /\ exists A fl, rep (tmr_get s) A fl [] /\ Inv s A /\ (total_backlog now A <= n)%nat.

(** The timer after a pending one in its bucket is pending and not earlier. *)
Lemma next_pending (s : tstate proc cdata) A fl p c q :
  rep s A fl [] -> theap s !! p = Some c -> is_Some (A !! p) -> next c = Some q ->
  exists j, A !! q = Some j /\ q <> p /\ tv_leb (time c) (i_time j) = true.
Proof.
  intros Hr Hc [i Hi] Hq. destruct Hr as [bs Hr].
  destruct (repb_pending _ _ _ _ _ _ _ Hr Hi) as (h & l1 & l2 & c' & Hl & Hc' & ->). simplify_eq.
  pose proof Hr as (Hwf & Ho & HA).
  destruct (wf_bucket _ _ _ _ _ _ Hwf Hl) as (hd & last & _ & Hseg & _).
  rewrite (dseg_next _ _ _ _ _ _ _ _ _ Hseg Hc eq_refl) in Hq.
  destruct l2 as [|q' l2]; [done |]. simpl in Hq. apply (inj Some) in Hq as ->.
  destruct (dseg_cell _ _ _ _ _ _ q Hseg) as [cq Hcq]; [set_solver |].
  exists (info cq). split; [|split].
  - rewrite HA, decide_True, Hcq; [done |]. apply elem_of_concat. eexists _, _. split; [exact Hl | set_solver].
  - pose proof (wf_nodup_bucket _ _ _ _ _ _ Hwf Hl) as Hnd. rewrite app_nil_l in Hnd.
    apply NoDup_app in Hnd as (Hnd & _). apply NoDup_app in Hnd as (_ & _ & Hnd).
    apply NoDup_cons in Hnd as [Hnd _]. intros ->. set_solver.
  - pose proof (ord_sorted _ _ Ho h _ Hl) as Hs. clear -Hs Hc Hcq.
    induction l1 as [|r l1 IH]; inversion Hs as [|?? Hs' Hf]; subst; [|by apply IH].
    rewrite Forall_forall in Hf. simpl. eapply Hf; [|done..]. set_solver.
Qed.

(** What the loop does with a timer after its procedure returned. *)
Lemma run_fire p i (k : CM St unit) s A fl Q :
  rep (tmr_get s) A fl [] -> A !! p = Some i -> Inv s (fire_one p i A) ->
  (forall s2 fl2, rep (tmr_get s2) (fire_one p i A) fl2 [] -> Inv s2 (fire_one p i A) ->
    nowP s2 = nowP s -> wpe k s2 Q X) ->
  wpe (c' <- tmr (load p) ;;
       (if periodic c' then
          tmr (store (with_time (time_plus (time c') (msecs c'))) p) ;;; tmr (l_resort p)
        else tmr (tmr_cancel p)) ;;; k) s Q X.
Proof.
  intros Hrep Hi HI Hk. destruct (rep_lookup _ _ _ _ _ _ Hrep Hi) as (c & Hc & <- & _).
  unfold tmr. do 2 wp_step. apply wpe_of_wp. eapply wp_load; [done |]. rewrite ac_put_get. wp_step.
  assert (Hput : forall t fl2, rep t (fire_one p (info c) A) fl2 [] -> forall s1, Inv s1 (fire_one p (info c) A) ->
    nowP s1 = nowP s -> wpe k (tmr_put t s1) Q X).
  { intros t fl2 Ht s1 HI1 Hn1. eapply Hk; [by rewrite ac_get_put | by apply ac_inv_put | by rewrite ac_now_put]. }
  assert (Hf : fire_one p (info c) A = if periodic c
    then <[p := i_with_time (time_plus (time c) (msecs c)) (info c)]> A else delete p A) by done.
  clear Hk. revert HI Hput. rewrite Hf. intros HI Hput. destruct (periodic c).
  - do 2 wp_step. apply wpe_of_wp. eapply wp_store; [done |]. wp_step. rewrite ac_get_put. apply wpe_of_wp.
    eapply wp_mono; [by eapply rep_resort |]. cbv beta. intros _ t Ht.
    eapply Hput; [done | by apply ac_inv_put | by rewrite ac_now_put].
  - wp_step. apply wpe_of_wp. eapply wp_mono; [by eapply tmr_cancel_wp |]. cbv beta. intros _ t Ht. by eapply Hput.
Qed.

Lemma run_list_active fuel t s A fl now :
  nowP s = now -> rep (tmr_get s) A fl [] -> Inv s A ->
  match t with None => True | Some p => is_Some (A !! p) end ->
  (total_backlog now A < fuel)%nat ->
  wpe (tmr_run_list fuel t) s (fun _ s' => calm now (total_backlog now A) s') X.
Proof.
  revert t s A fl. induction fuel as [|fuel IH]; intros t s A fl Hnow Hrep HI Ht Hfuel; [lia |].
  assert (Hcalm : calm now (total_backlog now A) s) by (split; [done |]; by exists A, fl).
  destruct t as [p|]; simpl; [|by wp_step]. destruct Ht as [i Hi].
  destruct (rep_lookup _ _ _ _ _ _ Hrep Hi) as (c & Hc & <- & _).
  wp_step. unfold tmr at 1. wp_step. apply wpe_of_wp. eapply wp_load; [done |]. rewrite ac_put_get. do 2 wp_step.
  destruct (tv_later (time c) (nowP s)) eqn:Hlater; [by wp_step |].
  assert (Hdue : due (nowP s) (info c) = true) by (unfold due; simpl; by rewrite Hlater).
  wp_step. eapply wpe_mono; [by apply (ac_call s A fl p (info c)) | | done]. cbv beta.
  intros _ s1 (A1 & fl1 & Hrep1 & Hi1 & HI1 & Hn1 & Hle & Hsurv).
  assert (Hlt : (total_backlog now (fire_one p (info c) A1) < total_backlog now A1)%nat).
  { destruct (ac_runnable _ _ HI) as [Hn Hrun]. destruct (Hrun _ _ Hi). rewrite Hnow in *. by apply fire_one_drop. }
  eapply run_fire; [done..|]. intros s2 fl2 Hrep2 HI2 Hn2. rewrite Hnow in *.
  eapply wpe_mono; [eapply (IH (next c) s2 _ fl2); [congruence | done | done | | lia] | | done].
  - destruct (next c) as [q|] eqn:Hq; [|done].
    destruct (next_pending _ _ _ _ _ _ Hrep Hc ltac:(by eexists) Hq) as (j & Hj & Hne & Hb).
    rewrite fire_one_ne by done. by eapply Hsurv.
  - cbv beta. intros _ s' (Hn' & A' & fl' & ? & ? & ?). split; [done |]. exists A', fl'. split; [done |].
    split; [done | lia].
Qed.

Lemma run_loop_active fuel n h s A fl now :
  nowP s = now -> rep (tmr_get s) A fl [] -> Inv s A -> (h + n = HASH_SIZE)%nat ->
  (total_backlog now A < fuel)%nat ->
  wpe (tmr_run_loop fuel n (Z.of_nat h)) s (fun _ s' => calm now (total_backlog now A) s') X.
Proof.
  revert h s A fl. induction n as [|n IH]; intros h s A fl Hnow Hrep HI Hh Hfuel; cbn [tmr_run_loop].
  { wp_step. split; [done |]. by exists A, fl. }
  pose proof Hrep as [bs Hr]. destruct (lookup_lt_is_Some_2 bs h) as [l Hl].
  { rewrite <- (Forall2_length _ _ _ (wf_bs _ _ _ _ (proj1 Hr))), (wf_len _ _ _ _ (proj1 Hr)). lia. }
  destruct (wf_bucket _ _ _ _ _ _ (proj1 Hr) Hl) as (hd & last & Hhd & _ & ->).
  wp_step. unfold tmr. wp_step. apply wpe_of_wp. eapply wp_get_bucket; [done |]. rewrite ac_put_get. wp_step.
  eapply wpe_mono; [eapply (run_list_active fuel (head l)); [done..| |done] | | done].
  - destruct l as [|p l]; [done |]. simpl.
    destruct (rep_heads _ _ _ _ p Hrep) as (c & _ & Hc); [|by eexists]. apply list_elem_of_lookup. by exists h.
  - cbv beta. intros _ s1 (Hn1 & A1 & fl1 & Hrep1 & HI1 & Hle).
    replace (Z.of_nat h + 1) with (Z.of_nat (S h)) by lia.
    eapply wpe_mono; [eapply (IH (S h)); [done..| lia | lia] | | done]. cbv beta.
    intros _ s' (Hn' & A' & fl' & ? & ? & ?). split; [done |]. exists A', fl'. split; [done |]. split; [done | lia].
Qed.

(** The rule: from some bound on, [tmr_run] ends, with the invariant. *)
Lemma tmr_run_active s A fl :
  rep (tmr_get s) A fl [] -> Inv s A ->
  ev tmr_run s (fun _ s' => calm (nowP s) (total_backlog (nowP s) A) s') X.
Proof.
  intros Hrep HI. set (N := S (total_backlog (nowP s) A)). exists N, (tmr_run N s).
  pose proof (run_loop_active N HASH_SIZE 0 s A fl (nowP s) eq_refl Hrep HI eq_refl ltac:(lia)) as Hw.
  split; [|exact Hw]. intros fuel Hle. apply tmr_run_loop_mono; [done |].
  unfold wpe, ends in Hw. change (Z.of_nat 0) with 0 in Hw. intros He. by rewrite He in Hw.
Qed.
End Rule.
