(* ===== verification/TimersDemo.v ===== *)
(** A concrete pool of timers, run through the code, on which the theorems about
    the timers package are instantiated. *)
From S2P Require Import Prelude Timers TimersSpec TimersThm TimersRun.
Local Open Scope Z_scope.

Definition demo_ok (_ : nat) : bool := true.
Definition demo_junk : Timer nat nat := MkTimer 0%nat 0%nat 0 false (Timeval 0 0) None None 0.
Definition demo_now : timeval := Timeval 100 999000.

(** Nothing pending; then a one-shot timer 2.5 s away, and a periodic one of 1 s. *)
Definition demo0 : tstate nat nat := TState ∅ (replicate HASH_SIZE None) None 0.
Definition demo_create (pr : nat) (ms : Z) (per : bool) (s : tstate nat nat) :=
  tmr_create demo_ok demo_junk demo_now (Some demo_now) pr pr ms per s.
Definition state_of {S A} (s0 : S) (o : outcome S A) : S := match o with Ret _ s => s | _ => s0 end.
Definition demo1 : tstate nat nat := state_of demo0 (demo_create 1 2500 false demo0).
Definition demo2 : tstate nat nat := state_of demo0 (demo_create 2 1000 true demo1).

Definition demo_i1 : tinfo := TInfo 1%nat 1%nat 2500 false (Timeval 103 499000).
Definition demo_i2 : tinfo := TInfo 2%nat 2%nat 1000 true (Timeval 101 999000).
Definition demo_A1 : gmap loc (@tinfo nat nat) := {[1%positive := demo_i1]}.
Definition demo_A2 : gmap loc (@tinfo nat nat) := <[2%positive := demo_i2]> demo_A1.

Lemma demo0_rep : rep demo0 ∅ [] [].
Proof. exact (tmr_init_wp (replicate HASH_SIZE None) 0). Qed.

Lemma demo1_rep : rep demo1 demo_A1 [] [].
Proof.
  pose proof (tmr_create_wp demo_ok demo_junk demo_now (Some demo_now) 1%nat 1%nat 2500 false demo0 ∅ [] demo0_rep) as H.
  unfold wp in H. change demo1 with (state_of demo0 (demo_create 1 2500 false demo0)). unfold demo_create.
  replace (tmr_create demo_ok demo_junk demo_now (Some demo_now) 1%nat 1%nat 2500 false demo0)
    with (Ret (Some 1%positive) demo1) in * by (vm_compute; reflexivity).
  destruct H as (_ & _ & H). exact H.
Qed.

Lemma demo2_rep : rep demo2 demo_A2 [] [].
Proof.
  pose proof (tmr_create_wp demo_ok demo_junk demo_now (Some demo_now) 2%nat 2%nat 1000 true demo1 demo_A1 [] demo1_rep) as H.
  unfold wp in H. change demo2 with (state_of demo0 (demo_create 2 1000 true demo1)). unfold demo_create.
  replace (tmr_create demo_ok demo_junk demo_now (Some demo_now) 2%nat 2%nat 1000 true demo1)
    with (Ret (Some 2%positive) demo2) in * by (vm_compute; reflexivity).
  destruct H as (_ & _ & H). exact H.
Qed.

Lemma demo_normal : forall t i, demo_A2 !! t = Some i -> normal (i_time i).
Proof.
  intros t i. unfold demo_A2, demo_A1.
  intros [[<- <-]|[_ Hi]]%lookup_insert_Some; [unfold normal; simpl; lia |].
  apply lookup_singleton_Some in Hi as [_ <-]. unfold normal. simpl. lia.
Qed.

Lemma demo_runnable : runnable demo_A2.
Proof.
  intros t i Hi. split; [by eapply demo_normal |]. revert Hi. unfold demo_A2, demo_A1.
  intros [[<- <-]|[_ Hi]]%lookup_insert_Some; simpl; [lia |].
  apply lookup_singleton_Some in Hi as [_ <-]. done.
Qed.

Lemma tmr_create_refines_witness :
  exists r s', tmr_create demo_ok demo_junk demo_now (Some demo_now) 3%nat 3%nat 60000 false demo2 = Ret r s' /\
    match r with
    | None => [] = ([] : list loc) /\ demo_ok (mallocs demo2) = false /\ rep s' demo_A2 [] []
    | Some t => demo_A2 !! t = None /\ (forall t0, head [] = Some t0 -> t = t0) /\
        rep s' (<[t := TInfo 3%nat 3%nat 60000 false (time_plus (default demo_now (Some demo_now)) 60000)]> demo_A2) [] []
    end.
Proof. apply (tmr_create_refines _ _ _ _ _ _ _ _ demo2 demo_A2 []). exact demo2_rep. Defined.

Lemma tmr_cancel_refines_witness :
  exists s', tmr_cancel 1%positive demo2 = Ret tt s' /\ rep s' (delete 1%positive demo_A2) [1%positive] [].
Proof. apply (tmr_cancel_refines demo2 demo_A2 [] 1%positive demo_i1); [exact demo2_rep | reflexivity]. Defined.

Lemma tmr_reset_refines_witness :
  exists s', tmr_reset (Timeval 101 5) 1%positive demo2 = Ret tt s' /\
    rep s' (<[1%positive := i_with_time (time_plus (Timeval 101 5) 2500) demo_i1]> demo_A2) [] [].
Proof. apply (tmr_reset_refines _ demo2 demo_A2 [] 1%positive demo_i1); [exact demo2_rep | reflexivity]. Defined.

Lemma tmr_mstimeout_least_witness :
  (exists ms, tmr_mstimeout demo_now demo2 = Ret ms demo2 /\
    ((demo_A2 = ∅ /\ ms = INFTIM) \/
     ((exists t i, demo_A2 !! t = Some i /\ ms = Z.max 0 (ms_until demo_now (i_time i))) /\
      (forall t i, demo_A2 !! t = Some i -> ms <= Z.max 0 (ms_until demo_now (i_time i)))))) /\
  tmr_mstimeout demo_now demo2 = Ret 1000 demo2.
Proof.
  split; [apply (tmr_mstimeout_least demo_now demo2 demo_A2 []); [exact demo2_rep | exact demo_normal] |].
  vm_compute. reflexivity.
Defined.

Lemma tmr_timeout_close_witness :
  exists r, tmr_timeout demo_now demo2 = Ret r demo2 /\
    match r with
    | None => demo_A2 = ∅
    | Some tv => normal tv /\ exists t i, demo_A2 !! t = Some i /\
        -1000 < usecs tv - Z.max 0 (usecs (i_time i) - usecs demo_now) < 1000 /\
        (forall t' i', demo_A2 !! t' = Some i' -> usecs tv < Z.max 0 (usecs (i_time i') - usecs demo_now) + 1000)
    end.
Proof. apply (tmr_timeout_close demo_now demo2 demo_A2 []); [exact demo2_rep | exact demo_normal]. Defined.

Lemma tmr_destroy_empties_witness :
  exists s', tmr_destroy demo2 = Ret tt s' /\ rep s' ∅ [] [] /\ theap s' = ∅.
Proof. apply (tmr_destroy_empties demo2 demo_A2 []). exact demo2_rep. Defined.

(** A client that logs the calls; the clock stands at 103 s, so that the
    periodic timer is two periods late and the one-shot one not due yet. *)
Record logger := Logger { lg_tmr : tstate nat nat; lg_now : timeval; lg_log : list (nat * nat) }.
#[export] Instance logger_client : TimerClient logger nat nat := {
  tmr_get := lg_tmr;
  tmr_put t s := Logger t (lg_now s) (lg_log s);
  nowP := lg_now;
  timer_call pr cd s := Ret tt (Logger (lg_tmr s) (lg_now s) (lg_log s ++ [(pr, cd)]))
}.
#[export] Instance logger_quiet : QuietClient lg_log.
Proof. constructor; try done; [by intros [] |]. intros pr cd s. by eexists. Qed.

Definition demo_run : logger := Logger demo2 (Timeval 103 0) [].

Lemma tmr_run_refines_witness :
  exists s' A' evs fl', tmr_run 3 demo_run = Ret tt s' /\
    rep (tmr_get s') A' fl' [] /\ fires (nowP demo_run) demo_A2 evs A' /\
    lg_log s' = lg_log demo_run ++ calls evs /\ nowP s' = nowP demo_run /\
    (forall t i, demo_A2 !! t = Some i -> due (nowP demo_run) i = true -> t ∈ evs.*1).
Proof.
  apply (tmr_run_refines lg_log 3 demo_run demo_A2 []).
  - exact demo2_rep.
  - unfold normal. simpl. lia.
  - exact demo_runnable.
  - apply Nat.ltb_lt. vm_compute. reflexivity.
Defined.

Definition demo_late : logger := Logger demo2 (Timeval 104 0) [].

Lemma tmr_run_oneshot_witness :
  exists s' A' evs fl', tmr_run 9 demo_late = Ret tt s' /\
    rep (tmr_get s') A' fl' [] /\ lg_log s' = lg_log demo_late ++ calls evs /\
    forall t i, demo_A2 !! t = Some i -> i_periodic i = false ->
      if due (nowP demo_late) i
      then A' !! t = None /\ exists e1 e2, evs = e1 ++ (t, i) :: e2 /\ t ∉ e1.*1 /\ t ∉ e2.*1
      else A' !! t = Some i /\ t ∉ evs.*1.
Proof.
  apply (tmr_run_oneshot lg_log 9 demo_late demo_A2 []).
  - exact demo2_rep.
  - unfold normal. simpl. lia.
  - exact demo_runnable.
  - apply Nat.ltb_lt. vm_compute. reflexivity.
Defined.
