(* ===== verification/HttpHeader.v ===== *)
(** Reading a response in the load generator (http_load/http_load.c, the loops
    of [handle_read]): the header state machine and the body checksum. *)
From S2P Require Import Prelude CStr.
Local Open Scope Z_scope.

(** CNST_*: the state of a connection. *)
Inductive conn_state : Type :=
| CNST_FREE | CNST_CONNECTING | CNST_HEADERS | CNST_READING | CNST_PAUSING.
#[export] Instance conn_state_dec : EqDecision conn_state.
Proof. solve_decision. Defined.

(** HDST_*: how far into the header a connection in CNST_HEADERS is. *)
Inductive header_state : Type :=
| HDST_LINE1_PROTOCOL | HDST_LINE1_WHITESPACE | HDST_LINE1_STATUS
| HDST_BOL | HDST_TEXT | HDST_LF | HDST_CR | HDST_CRLF | HDST_CRLFCR
| HDST_C | HDST_CO | HDST_CON | HDST_CONT | HDST_CONTE | HDST_CONTEN | HDST_CONTENT
| HDST_CONTENT_ | HDST_CONTENT_L | HDST_CONTENT_LE | HDST_CONTENT_LEN
| HDST_CONTENT_LENG | HDST_CONTENT_LENGT | HDST_CONTENT_LENGTH
| HDST_CONTENT_LENGTH_COLON | HDST_CONTENT_LENGTH_COLON_WHITESPACE
| HDST_CONTENT_LENGTH_COLON_WHITESPACE_NUM.
#[export] Instance header_state_dec : EqDecision header_state.
Proof. solve_decision. Defined.

(** The fields of a connection that the header loop reads and writes. *)
Record hdr := Hdr {
  h_conn : conn_state;
  h_state : header_state;
  h_status : Z;
  h_length : Z
}.

(** The assignments the cases of the switch make. *)
Definition to (st : header_state) (h : hdr) : hdr := Hdr (h_conn h) st (h_status h) (h_length h).
Definition body (h : hdr) : hdr := Hdr CNST_READING (h_state h) (h_status h) (h_length h).
Definition set_status (v : Z) (h : hdr) : hdr := Hdr (h_conn h) (h_state h) v (h_length h).
Definition set_length (v : Z) (h : hdr) : hdr := Hdr (h_conn h) (h_state h) (h_status h) v.

(** [case ' ': case '\t':] and the like. *)
Definition blank (c : ascii) : bool := one_of c [SP; HT].

(** The status line: HDST_LINE1_PROTOCOL, _WHITESPACE and _STATUS. *)
Definition step_line1_protocol (c : ascii) (h : hdr) : hdr :=
  if blank c then to HDST_LINE1_WHITESPACE h
  else if c =c LF then to HDST_LF h
  else if c =c CR then to HDST_CR h
  else h.
Definition step_line1_whitespace (c : ascii) (h : hdr) : hdr :=
  if blank c then h
  else if isdigit c then to HDST_LINE1_STATUS (set_status (uchar c - 48) h)
  else if c =c LF then to HDST_LF h
  else if c =c CR then to HDST_CR h
  else to HDST_TEXT h.
Definition step_line1_status (c : ascii) (h : hdr) : hdr :=
  if isdigit c then set_status (i32 (h_status h * 10 + uchar c - 48)) h
  else if c =c LF then to HDST_LF h
  else if c =c CR then to HDST_CR h
  else to HDST_TEXT h.

(** Line ends: HDST_BOL, _TEXT, _LF, _CR, _CRLF and _CRLFCR. *)
Definition step_bol (c : ascii) (h : hdr) : hdr :=
  if c =c LF then to HDST_LF h
  else if c =c CR then to HDST_CR h
  else if one_of c ["C"; "c"]%char then to HDST_C h
  else to HDST_TEXT h.
Definition step_text (c : ascii) (h : hdr) : hdr :=
  if c =c LF then to HDST_LF h
  else if c =c CR then to HDST_CR h
  else h.
Definition step_lf (c : ascii) (h : hdr) : hdr :=
  if c =c LF then body h
  else if c =c CR then to HDST_CR h
  else if one_of c ["C"; "c"]%char then to HDST_C h
  else to HDST_TEXT h.
Definition step_cr (c : ascii) (h : hdr) : hdr :=
  if c =c LF then to HDST_CRLF h
  else if c =c CR then body h
  else if one_of c ["C"; "c"]%char then to HDST_C h
  else to HDST_TEXT h.
Definition step_crlf (c : ascii) (h : hdr) : hdr :=
  if c =c LF then body h
  else if c =c CR then to HDST_CRLFCR h
  else if one_of c ["C"; "c"]%char then to HDST_C h
  else to HDST_TEXT h.
Definition step_crlfcr (c : ascii) (h : hdr) : hdr :=
  if one_of c [LF; CR] then body h
  else if one_of c ["C"; "c"]%char then to HDST_C h
  else to HDST_TEXT h.

(** One letter of "content-length": the states from HDST_C to
    HDST_CONTENT_LENGTH, each with the character it waits for (in either case)
    and the state that follows. *)
Definition expect (l : list ascii) (nxt : header_state) (c : ascii) (h : hdr) : hdr :=
  if one_of c l then to nxt h
  else if c =c LF then to HDST_LF h
  else if c =c CR then to HDST_CR h
  else to HDST_TEXT h.
Definition step_content (st : header_state) : ascii -> hdr -> hdr :=
  match st with
  | HDST_C => expect ["O"; "o"]%char HDST_CO
  | HDST_CO => expect ["N"; "n"]%char HDST_CON
  | HDST_CON => expect ["T"; "t"]%char HDST_CONT
  | HDST_CONT => expect ["E"; "e"]%char HDST_CONTE
  | HDST_CONTE => expect ["N"; "n"]%char HDST_CONTEN
  | HDST_CONTEN => expect ["T"; "t"]%char HDST_CONTENT
  | HDST_CONTENT => expect ["-"]%char HDST_CONTENT_
  | _ => fun _ h => h
  end.
Definition step_length (st : header_state) : ascii -> hdr -> hdr :=
  match st with
  | HDST_CONTENT_ => expect ["L"; "l"]%char HDST_CONTENT_L
  | HDST_CONTENT_L => expect ["E"; "e"]%char HDST_CONTENT_LE
  | HDST_CONTENT_LE => expect ["N"; "n"]%char HDST_CONTENT_LEN
  | HDST_CONTENT_LEN => expect ["G"; "g"]%char HDST_CONTENT_LENG
  | HDST_CONTENT_LENG => expect ["T"; "t"]%char HDST_CONTENT_LENGT
  | HDST_CONTENT_LENGT => expect ["H"; "h"]%char HDST_CONTENT_LENGTH
  | HDST_CONTENT_LENGTH => expect [":"]%char HDST_CONTENT_LENGTH_COLON
  | HDST_CONTENT_LENGTH_COLON => expect [SP; HT] HDST_CONTENT_LENGTH_COLON_WHITESPACE
  | _ => fun _ h => h
  end.
Definition step_length_whitespace (c : ascii) (h : hdr) : hdr :=
  if blank c then h
  else if isdigit c then to HDST_CONTENT_LENGTH_COLON_WHITESPACE_NUM (set_length (uchar c - 48) h)
  else if c =c LF then to HDST_LF h
  else if c =c CR then to HDST_CR h
  else to HDST_TEXT h.
Definition step_length_num (c : ascii) (h : hdr) : hdr :=
  if isdigit c then set_length (i64 (h_length h * 10 + uchar c - 48)) h
  else if c =c LF then to HDST_LF h
  else if c =c CR then to HDST_CR h
  else to HDST_TEXT h.

(** The body of the header loop: the switch on the header state. *)
Definition header_step (c : ascii) (h : hdr) : hdr :=
  match h_state h with
  | HDST_LINE1_PROTOCOL => step_line1_protocol c h
  | HDST_LINE1_WHITESPACE => step_line1_whitespace c h
  | HDST_LINE1_STATUS => step_line1_status c h
  | HDST_BOL => step_bol c h
  | HDST_TEXT => step_text c h
  | HDST_LF => step_lf c h
  | HDST_CR => step_cr c h
  | HDST_CRLF => step_crlf c h
  | HDST_CRLFCR => step_crlfcr c h
  | HDST_C | HDST_CO | HDST_CON | HDST_CONT | HDST_CONTE | HDST_CONTEN | HDST_CONTENT =>
      step_content (h_state h) c h
  | HDST_CONTENT_ | HDST_CONTENT_L | HDST_CONTENT_LE | HDST_CONTENT_LEN
  | HDST_CONTENT_LENG | HDST_CONTENT_LENGT | HDST_CONTENT_LENGTH | HDST_CONTENT_LENGTH_COLON =>
      step_length (h_state h) c h
  | HDST_CONTENT_LENGTH_COLON_WHITESPACE => step_length_whitespace c h
  | HDST_CONTENT_LENGTH_COLON_WHITESPACE_NUM => step_length_num c h
  end.

(** The header loop: over the buffer, while the connection is in CNST_HEADERS;
    gives the bytes it did not handle. *)
Fixpoint header_loop (buf : list ascii) (h : hdr) : hdr * list ascii :=
  match buf with
  | [] => (h, [])
  | c :: buf' =>
      if decide (h_conn h = CNST_HEADERS) then header_loop buf' (header_step c h) else (h, buf)
  end.

(** What [handle_connect] leaves in a connection that has sent its request,
    with the fields [start_socket] has set. *)
Definition hdr_start : hdr := Hdr CNST_HEADERS HDST_LINE1_PROTOCOL (-1) (-1).

(** The checksum loop over the body bytes of a buffer, on the low 16 bits. *)
Definition checksum_step (checksum : Z) (c : ascii) : Z :=
  let r := if Z.odd checksum then Z.shiftr checksum 1 + 32768 else Z.shiftr checksum 1 in
  Z.land (r + schar c) 65535.
Definition checksum_loop (buf : list ascii) (checksum : Z) : Z := fold_left checksum_step buf checksum.
