(* ===== verification/HttpHeaderThm.v ===== *)
(** What the header state machine recognises: where it says a header ends, and
    the status and content length it reads from a response. *)
From S2P Require Import Prelude CStr HttpHeader.
Local Open Scope Z_scope.
Implicit Types (c : ascii) (h : hdr) (l : list ascii).

(** * Where a header ends *)

(** A text that ends a header: with an empty line, in any of the styles the
    machine accepts. *)
Definition ends_header (w : list ascii) : Prop :=
  [LF; LF] `suffix_of` w \/ [CR; CR] `suffix_of` w \/ [CR; LF; CR; LF] `suffix_of` w.

(** The same on the text so far, last character first. *)
Definition ends_rev (r : list ascii) : Prop :=
  (r !! 0%nat = Some LF /\ r !! 1%nat = Some LF) \/ (r !! 0%nat = Some CR /\ r !! 1%nat = Some CR) \/
  (r !! 0%nat = Some LF /\ r !! 1%nat = Some CR /\ r !! 2%nat = Some LF /\ r !! 3%nat = Some CR).

(** What a header state says of the text so far. *)
Definition seen (st : header_state) (r : list ascii) : Prop :=
  match st with
  | HDST_LF => r !! 0%nat = Some LF /\ r !! 1%nat <> Some CR
  | HDST_CR => r !! 0%nat = Some CR /\ ~ (r !! 1%nat = Some LF /\ r !! 2%nat = Some CR)
  | HDST_CRLF => r !! 0%nat = Some LF /\ r !! 1%nat = Some CR
  | HDST_CRLFCR => r !! 0%nat = Some CR /\ r !! 1%nat = Some LF /\ r !! 2%nat = Some CR
  | _ => r !! 0%nat <> Some LF /\ r !! 0%nat <> Some CR
  end.

Lemma suffix_rev (s w : list ascii) : s `suffix_of` w <-> reverse s `prefix_of` reverse w.
Proof. apply suffix_prefix_reverse. Qed.

Lemma ends_header_rev w : ends_header w <-> ends_rev (reverse w).
Proof.
  unfold ends_header, ends_rev. rewrite !suffix_rev. generalize (reverse w). intros r. cbv [reverse rev_append].
  assert (Hp : forall a b : ascii, [a; b] `prefix_of` r <-> r !! 0%nat = Some a /\ r !! 1%nat = Some b).
  { intros a b. split; [by intros [k ->] |]. destruct r as [|x [|y r]]; simpl; intros [[=] [=]]; subst. by exists r. }
  rewrite !Hp. do 2 f_equiv. split; [by intros [k ->] |].
  destruct r as [|x [|y [|z [|t r]]]]; simpl; intros ([=] & [=] & [=] & [=]); subst. by exists r.
Qed.

Lemma LF_ne_CR : LF <> CR.
Proof. done. Qed.

Ltac char_cases c :=
  repeat match goal with
  | |- context [c =c ?x] => destruct (Ascii.eqb_spec c x)
  | |- context [one_of c ?x] => let E := fresh "E" in destruct (one_of c x) eqn:E
  | |- context [blank c] => let E := fresh "E" in destruct (blank c) eqn:E
  | |- context [isdigit c] => let E := fresh "E" in destruct (isdigit c) eqn:E
  end.

(** The characters the tests of the machine can hold of. *)
Lemma blank_eol c : blank c = true -> c <> LF /\ c <> CR.
Proof. unfold blank. rewrite one_of_In, !elem_of_cons, elem_of_nil. intros [->|[->|[]]]; done. Qed.
Lemma isdigit_eol c : isdigit c = true -> c <> LF /\ c <> CR.
Proof. intros Hd. split; intros ->; discriminate Hd. Qed.
Lemma one_of_eol c p : one_of c p = true -> LF ∉ p -> CR ∉ p -> c <> LF /\ c <> CR.
Proof. rewrite one_of_In. split; intros ->; done. Qed.

(** A step on a character that does not end a line. *)
Lemma header_step_other c h :
  h_conn h = CNST_HEADERS -> c <> LF -> c <> CR ->
  h_conn (header_step c h) = CNST_HEADERS /\
  h_state (header_step c h) <> HDST_LF /\ h_state (header_step c h) <> HDST_CR /\
  h_state (header_step c h) <> HDST_CRLF /\ h_state (header_step c h) <> HDST_CRLFCR.
Proof.
  destruct h as [cn st s n]. simpl. intros -> Hlf Hcr.
  assert (Hl : c =c LF = false) by (by apply Ascii.eqb_neq).
  assert (Hc : c =c CR = false) by (by apply Ascii.eqb_neq).
  assert (Hlc : one_of c [LF; CR] = false) by (unfold one_of; simpl; by rewrite Hl, Hc).
  destruct st; unfold header_step; cbn [h_state step_content step_length];
    unfold step_line1_protocol, step_line1_whitespace, step_line1_status, step_bol, step_text, step_lf,
      step_cr, step_crlf, step_crlfcr, expect, step_length_whitespace, step_length_num;
    rewrite ?Hlc, ?Hl, ?Hc; char_cases c; done.
Qed.

(** States in the middle of a line. *)
Definition inline (st : header_state) : bool :=
  match st with HDST_LF | HDST_CR | HDST_CRLF | HDST_CRLFCR => false | _ => true end.

(** A step on a line end from the middle of a line. *)
Lemma header_step_inline h :
  inline (h_state h) = true -> header_step LF h = to HDST_LF h /\ header_step CR h = to HDST_CR h.
Proof. destruct h as [cn st s n]. destruct st; done. Qed.

Lemma seen_inline st r : inline st = true -> seen st r <-> r !! 0%nat <> Some LF /\ r !! 0%nat <> Some CR.
Proof. destruct st; done. Qed.

Lemma header_step_seen c h r :
  h_conn h = CNST_HEADERS -> seen (h_state h) r ->
  (ends_rev (c :: r) /\ h_conn (header_step c h) = CNST_READING) \/
  (~ ends_rev (c :: r) /\ h_conn (header_step c h) = CNST_HEADERS /\ seen (h_state (header_step c h)) (c :: r)).
Proof.
  intros Hc Hs. destruct (decide (c = LF)) as [->|Hlf]; [|destruct (decide (c = CR)) as [->|Hcr]].
  - destruct (inline (h_state h)) eqn:Hi.
    + destruct (header_step_inline h Hi) as [-> _]. apply (seen_inline _ _ Hi) in Hs. right.
      unfold ends_rev. simpl. naive_solver.
    + destruct h as [cn [] s n]; try done; simpl in *; subst cn; unfold ends_rev; simpl;
        first [left; naive_solver | right; naive_solver].
  - destruct (inline (h_state h)) eqn:Hi.
    + destruct (header_step_inline h Hi) as [_ ->]. apply (seen_inline _ _ Hi) in Hs. right.
      unfold ends_rev. simpl. naive_solver.
    + destruct h as [cn [] s n]; try done; simpl in *; subst cn; unfold ends_rev; simpl;
        first [left; naive_solver | right; naive_solver].
  - right. destruct (header_step_other c h Hc Hlf Hcr) as (Hc' & H1 & H2 & H3 & H4).
    split; [unfold ends_rev; simpl; naive_solver |]. split; [done |].
    apply seen_inline; [by destruct (h_state (header_step c h)) | simpl; naive_solver].
Qed.

Lemma header_loop_seen w r h :
  h_conn h = CNST_HEADERS -> seen (h_state h) r ->
  exists pre, w = pre ++ (header_loop w h).2 /\
    (forall p, p `prefix_of` pre -> p <> pre -> p <> [] -> ~ ends_rev (reverse p ++ r)) /\
    ((h_conn (header_loop w h).1 = CNST_READING /\ pre <> [] /\ ends_rev (reverse pre ++ r)) \/
     (h_conn (header_loop w h).1 = CNST_HEADERS /\ (header_loop w h).2 = [] /\
      (pre <> [] -> ~ ends_rev (reverse pre ++ r)))).
Proof.
  revert r h. induction w as [|c w IH]; intros r h Hc Hs; simpl.
  { exists []. split; [done |]. split; [|by right]. intros p Hp%prefix_nil_inv. done. }
  rewrite decide_True by done.
  destruct (header_step_seen c h r Hc Hs) as [[He Hc']|(He & Hc' & Hs')].
  - exists [c]. assert (Hl : header_loop w (header_step c h) = (header_step c h, w)).
    { destruct w; simpl; [done |]. rewrite decide_False; [done | by rewrite Hc']. }
    rewrite Hl. simpl. split; [done |]. split; [|by left].
    intros p Hp Hne Hn. destruct p as [|x p]; [done |]. apply prefix_cons_inv_1 in Hp as Hx. subst x.
    apply prefix_cons_inv_2, prefix_nil_inv in Hp. by subst p.
  - destruct (IH (c :: r) _ Hc' Hs') as (pre & Hw & Hnone & Hend). exists (c :: pre).
    assert (Hrev : forall p : list ascii, reverse (c :: p) ++ r = reverse p ++ c :: r).
    { intros p. by rewrite reverse_cons, <- app_assoc. }
    split; [simpl; by rewrite <- Hw |]. split.
    + intros p Hp Hne Hn. destruct p as [|x p]; [done |]. apply prefix_cons_inv_1 in Hp as Hx. subst x.
      apply prefix_cons_inv_2 in Hp. rewrite Hrev. destruct p as [|y p]; [done |].
      apply Hnone; [done | congruence | done].
    + rewrite Hrev. destruct Hend as [(? & ? & ?)|(? & ? & Hn)]; [by left | right].
      split; [done |]. split; [done |]. intros _. destruct pre as [|x pre]; [done | by apply Hn].
Qed.

(** The machine leaves CNST_HEADERS exactly at the first place where the
    text so far ends with LF LF, CR CR or CR LF CR LF; the bytes after it are
    left for the body, and without such a place all bytes are consumed and the
    connection stays in CNST_HEADERS. *)
Theorem header_end text :
  exists pre rest h, header_loop text hdr_start = (h, rest) /\ text = pre ++ rest /\
    (forall p, p `prefix_of` pre -> p <> pre -> ~ ends_header p) /\
    ((h_conn h = CNST_READING /\ ends_header pre) \/
     (h_conn h = CNST_HEADERS /\ rest = [] /\ ~ ends_header pre)).
Proof.
  destruct (header_loop_seen text [] hdr_start) as (pre & Hw & Hnone & Hend); [done | done |].
  assert (Hnil : ~ ends_header []) by (rewrite ends_header_rev; unfold ends_rev; simpl; naive_solver).
  destruct (header_loop text hdr_start) as [h rest]. simpl in *. exists pre, rest, h.
  split; [done |]. split; [done |]. split.
  - intros p Hp Hne. destruct (decide (p = [])) as [->|Hn]; [done |].
    rewrite ends_header_rev. specialize (Hnone p Hp Hne Hn). by rewrite app_nil_r in Hnone.
  - rewrite ends_header_rev, app_nil_r in *. destruct Hend as [(? & ? & ?)|(? & ? & Hn)]; [by left | right].
    split; [done |]. split; [done |]. destruct pre; [|by apply Hn]. unfold ends_rev. simpl. naive_solver.
Qed.

(** * Reading in parts *)

Lemma header_loop_app b1 b2 h :
  header_loop (b1 ++ b2) h =
    match header_loop b1 h with
    | (h1, []) => header_loop b2 h1
    | (h1, r1) => (h1, r1 ++ b2)
    end.
Proof.
  revert h. induction b1 as [|c b1 IH]; intros h; simpl; [done |].
  case_decide; [apply IH | done].
Qed.

(** The loop leaves the connection in CNST_HEADERS, with nothing left over, or
    in CNST_READING. *)
Lemma header_step_conn c h : h_conn (header_step c h) = h_conn h \/ h_conn (header_step c h) = CNST_READING.
Proof.
  destruct h as [cn st s n]. destruct st; unfold header_step; cbn [h_state step_content step_length];
    unfold step_line1_protocol, step_line1_whitespace, step_line1_status, step_bol, step_text, step_lf,
      step_cr, step_crlf, step_crlfcr, expect, step_length_whitespace, step_length_num;
    char_cases c; first [by left | by right].
Qed.

Lemma header_loop_conn buf h :
  h_conn h = CNST_HEADERS ->
  (h_conn (header_loop buf h).1 = CNST_HEADERS /\ (header_loop buf h).2 = []) \/
  h_conn (header_loop buf h).1 = CNST_READING.
Proof.
  revert h. induction buf as [|c buf IH]; intros h Hh; simpl; [by left |]. rewrite decide_True by done.
  destruct (header_step_conn c h) as [Hc|Hc]; [apply IH; by rewrite Hc |]. right.
  destruct buf; simpl; [done |]. by rewrite decide_False; [| rewrite Hc].
Qed.

(** * What is read from a response *)

(** A number as the machine reads it: its first digit, then [v * 10 + d] at
    the width of the field, up to the first character that is no digit. *)
Fixpoint num_from (wrap : Z -> Z) (v : Z) (s : list ascii) : Z :=
  match s with
  | c :: s => if isdigit c then num_from wrap (wrap (v * 10 + uchar c - 48)) s else v
  | [] => v
  end.
Definition num (wrap : Z -> Z) (s : list ascii) : option Z :=
  match s with
  | c :: s => if isdigit c then Some (num_from wrap (uchar c - 48) s) else None
  | [] => None
  end.

Fixpoint skip_while (f : ascii -> bool) (s : list ascii) : list ascii :=
  match s with c :: s' => if f c then skip_while f s' else s | [] => [] end.

(** The status of a status line: the number after the first white space. *)
Definition status_of (line : list ascii) : option Z :=
  num i32 (skip_while blank (skip_while (fun c => negb (blank c)) line)).

(** The name of the one header field the machine knows, a set of characters for each letter. *)
Definition field_name : list (list ascii) :=
  [["C"; "c"]; ["O"; "o"]; ["N"; "n"]; ["T"; "t"]; ["E"; "e"]; ["N"; "n"]; ["T"; "t"]; ["-"];
   ["L"; "l"]; ["E"; "e"]; ["N"; "n"]; ["G"; "g"]; ["T"; "t"]; ["H"; "h"]; [":"]; [SP; HT]]%char.
Fixpoint strip (ps : list (list ascii)) (s : list ascii) : option (list ascii) :=
  match ps, s with
  | [], _ => Some s
  | p :: ps, c :: s => if one_of c p then strip ps s else None
  | _ :: _, [] => None
  end.

(** The content length a header line gives. *)
Definition length_of (line : list ascii) : option Z :=
  rest ← strip field_name line; num i64 (skip_while blank rest).

(** A line of a header, and a response: status line, header lines, empty line, body. *)
Definition plain (line : list ascii) : Prop := LF ∉ line /\ CR ∉ line.
Definition eol : list ascii := [CR; LF].
Definition response (status_line : list ascii) (lines : list (list ascii)) (bdy : list ascii) : list ascii :=
  status_line ++ eol ++ concat (map (fun l => l ++ eol) lines) ++ eol ++ bdy.

(** The fields after the header: those of the last line that gives one. *)
Definition last_length (lines : list (list ascii)) (n : Z) : Z :=
  fold_left (fun n l => default n (length_of l)) lines n.

(** ** One line *)

Definition run (w : list ascii) (h : hdr) : hdr := fold_left (fun h c => header_step c h) w h.

Lemma run_cons c w h : run (c :: w) h = run w (header_step c h).
Proof. done. Qed.

Lemma header_loop_run w w' h :
  h_conn h = CNST_HEADERS -> plain w ->
  header_loop (w ++ w') h = header_loop w' (run w h) /\ h_conn (run w h) = CNST_HEADERS.
Proof.
  revert h. induction w as [|c w IH]; intros h Hc [Hlf Hcr]; simpl; [done |].
  rewrite decide_True by done. apply IH; [|split; set_solver].
  apply header_step_other; [done | set_solver..].
Qed.

Lemma text_run s h : plain s -> h_state h = HDST_TEXT -> run s h = h.
Proof.
  revert h. induction s as [|c s IH]; intros h [Hlf Hcr] Hst; simpl; [done |].
  assert (Hstep : header_step c h = h).
  { unfold header_step. rewrite Hst. unfold step_text.
    rewrite (proj2 (Ascii.eqb_neq c LF)), (proj2 (Ascii.eqb_neq c CR)); [done | set_solver..]. }
  rewrite Hstep. apply IH; [split; set_solver | done].
Qed.

(** A character that the current state has no use for leads to HDST_TEXT. *)
Lemma run_to_text c s h :
  plain (c :: s) -> header_step c h = to HDST_TEXT h -> run (c :: s) h = to HDST_TEXT h.
Proof.
  intros Hp Hstep. simpl. rewrite Hstep. apply text_run; [|done]. unfold plain in *. set_solver.
Qed.

Lemma plain_cons c s : plain (c :: s) -> c =c LF = false /\ c =c CR = false /\ plain s.
Proof.
  unfold plain. intros Hp. rewrite !Ascii.eqb_neq. set_solver.
Qed.

Lemma status_digits_run s v n :
  plain s -> exists st, inline st = true /\
    run s (Hdr CNST_HEADERS HDST_LINE1_STATUS v n) = Hdr CNST_HEADERS st (num_from i32 v s) n.
Proof.
  revert v. induction s as [|c s IH]; intros v Hp; [by exists HDST_LINE1_STATUS |].
  destruct (plain_cons _ _ Hp) as (Hlf & Hcr & Hs). destruct (isdigit c) eqn:Hd.
  - simpl num_from. rewrite Hd, run_cons. unfold header_step at 1. cbn [h_state]. unfold step_line1_status. rewrite Hd. by apply IH.
  - exists HDST_TEXT. split; [done |]. simpl num_from. rewrite Hd. apply run_to_text; [done |].
    unfold header_step. simpl. unfold step_line1_status. by rewrite Hd, Hlf, Hcr.
Qed.

Lemma length_digits_run s v n :
  plain s -> exists st, inline st = true /\
    run s (Hdr CNST_HEADERS HDST_CONTENT_LENGTH_COLON_WHITESPACE_NUM n v) =
      Hdr CNST_HEADERS st n (num_from i64 v s).
Proof.
  revert v. induction s as [|c s IH]; intros v Hp.
  { by exists HDST_CONTENT_LENGTH_COLON_WHITESPACE_NUM. }
  destruct (plain_cons _ _ Hp) as (Hlf & Hcr & Hs). destruct (isdigit c) eqn:Hd.
  - simpl num_from. rewrite Hd, run_cons. unfold header_step at 1. cbn [h_state]. unfold step_length_num. rewrite Hd. by apply IH.
  - exists HDST_TEXT. split; [done |]. simpl num_from. rewrite Hd. apply run_to_text; [done |].
    unfold header_step. simpl. unfold step_length_num. by rewrite Hd, Hlf, Hcr.
Qed.

(** The status line. *)
Lemma status_line_run s n :
  plain s -> exists st, inline st = true /\
    run s (Hdr CNST_HEADERS HDST_LINE1_PROTOCOL (-1) n) =
      Hdr CNST_HEADERS st (default (-1) (status_of s)) n.
Proof.
  assert (Hws : forall s, plain s -> exists st, inline st = true /\
    run s (Hdr CNST_HEADERS HDST_LINE1_WHITESPACE (-1) n) =
      Hdr CNST_HEADERS st (default (-1) (num i32 (skip_while blank s))) n).
  { clear s. induction s as [|c s IH]; intros Hp; [by exists HDST_LINE1_WHITESPACE |].
    destruct (plain_cons _ _ Hp) as (Hlf & Hcr & Hs). simpl skip_while. destruct (blank c) eqn:Hb.
    - rewrite run_cons. unfold header_step at 1. cbn [h_state]. unfold step_line1_whitespace. rewrite Hb. by apply IH.
    - simpl num. destruct (isdigit c) eqn:Hd; simpl default.
      + rewrite run_cons. unfold header_step at 1. cbn [h_state]. unfold step_line1_whitespace. rewrite Hb, Hd.
        by apply status_digits_run.
      + exists HDST_TEXT. split; [done |]. apply run_to_text; [done |].
        unfold header_step. simpl. unfold step_line1_whitespace. by rewrite Hb, Hd, Hlf, Hcr. }
  unfold status_of. induction s as [|c s IH]; intros Hp; [by exists HDST_LINE1_PROTOCOL |].
  destruct (plain_cons _ _ Hp) as (Hlf & Hcr & Hs). simpl skip_while. destruct (blank c) eqn:Hb; simpl negb.
  - simpl skip_while. rewrite Hb. rewrite run_cons. unfold header_step at 1. cbn [h_state]. unfold step_line1_protocol. rewrite Hb.
    by apply Hws.
  - rewrite run_cons. unfold header_step at 1. cbn [h_state]. unfold step_line1_protocol. rewrite Hb, Hlf, Hcr. by apply IH.
Qed.

(** The letters still to come from a state. *)
Inductive spells : header_state -> list (list ascii) -> Prop :=
| spells_end : spells HDST_CONTENT_LENGTH_COLON_WHITESPACE []
| spells_letter st p nxt ps :
    inline st = true ->
    (forall c h, h_state h = st -> header_step c h = expect p nxt c h) ->
    spells nxt ps -> spells st (p :: ps).

Lemma spells_name : spells HDST_C (tail field_name).
Proof.
  unfold field_name. simpl.
  repeat (eapply spells_letter;
    [| intros c h Hh; unfold header_step; rewrite Hh; cbn [step_content step_length]; reflexivity |]; [done |]).
  constructor.
Qed.

Lemma length_ws_run s n m :
  plain s -> exists st, inline st = true /\
    run s (Hdr CNST_HEADERS HDST_CONTENT_LENGTH_COLON_WHITESPACE n m) =
      Hdr CNST_HEADERS st n (default m (num i64 (skip_while blank s))).
Proof.
  induction s as [|c s IH]; intros Hp; [by exists HDST_CONTENT_LENGTH_COLON_WHITESPACE |].
  destruct (plain_cons _ _ Hp) as (Hlf & Hcr & Hs). simpl skip_while. destruct (blank c) eqn:Hb.
  - rewrite run_cons. unfold header_step at 1. cbn [h_state]. unfold step_length_whitespace. rewrite Hb. by apply IH.
  - simpl num. destruct (isdigit c) eqn:Hd; simpl default.
    + rewrite run_cons. unfold header_step at 1. cbn [h_state]. unfold step_length_whitespace. rewrite Hb, Hd.
      by apply length_digits_run.
    + exists HDST_TEXT. split; [done |]. apply run_to_text; [done |].
      unfold header_step. simpl. unfold step_length_whitespace. by rewrite Hb, Hd, Hlf, Hcr.
Qed.

Lemma name_run st ps s n m :
  spells st ps -> plain s -> exists st', inline st' = true /\
    run s (Hdr CNST_HEADERS st n m) =
      Hdr CNST_HEADERS st' n (default m (rest ← strip ps s; num i64 (skip_while blank rest))).
Proof.
  intros Hsp. revert s. induction Hsp as [|st p nxt ps Hin Hstep Hsp IH]; intros s Hp; [by apply length_ws_run |].
  destruct s as [|c s]; [by exists st |]. destruct (plain_cons _ _ Hp) as (Hlf & Hcr & Hs).
  simpl strip. destruct (one_of c p) eqn:Hc.
  - rewrite run_cons, Hstep by done. unfold expect. rewrite Hc. by apply IH.
  - exists HDST_TEXT. split; [done |]. apply run_to_text; [done |].
    rewrite Hstep by done. unfold expect. by rewrite Hc, Hlf, Hcr.
Qed.

(** A header line, from the end of the line before. *)
Lemma line_run s n m :
  plain s -> s <> [] -> exists st, inline st = true /\
    run s (Hdr CNST_HEADERS HDST_CRLF n m) = Hdr CNST_HEADERS st n (default m (length_of s)).
Proof.
  intros Hp Hne. destruct s as [|c s]; [done |]. destruct (plain_cons _ _ Hp) as (Hlf & Hcr & Hs).
  change (length_of (c :: s)) with
    (rest ← (if one_of c ["C"; "c"]%char then strip (tail field_name) s else None);
     num i64 (skip_while blank rest)).
  destruct (one_of c ["C"; "c"]%char) eqn:Hc.
  - rewrite run_cons. unfold header_step at 1. cbn [h_state]. unfold step_crlf. rewrite Hlf, Hcr, Hc.
    apply (name_run HDST_C (tail field_name)); [apply spells_name | done].
  - exists HDST_TEXT. split; [done |]. apply run_to_text; [done |].
    unfold header_step. simpl. unfold step_crlf. by rewrite Hlf, Hcr, Hc.
Qed.

Lemma eol_run st n m w :
  inline st = true -> header_loop (eol ++ w) (Hdr CNST_HEADERS st n m) = header_loop w (Hdr CNST_HEADERS HDST_CRLF n m).
Proof. by destruct st. Qed.

Lemma lines_run lines n m w :
  Forall (fun l => plain l /\ l <> []) lines ->
  header_loop (concat (map (fun l => l ++ eol) lines) ++ w) (Hdr CNST_HEADERS HDST_CRLF n m) =
    header_loop w (Hdr CNST_HEADERS HDST_CRLF n (last_length lines m)).
Proof.
  revert m. induction lines as [|l lines IH]; intros m Hl; [done |].
  inversion Hl as [|?? [Hp Hne] Hl']; subst. simpl concat. rewrite <- !app_assoc.
  destruct (line_run l n m Hp Hne) as (st & Hst & Hrun).
  destruct (header_loop_run l (eol ++ concat (map (fun l => l ++ eol) lines) ++ w)
    (Hdr CNST_HEADERS HDST_CRLF n m)) as [-> _]; [done | done |].
  rewrite Hrun, eol_run by done. by apply IH.
Qed.

Lemma response_loop status_line lines bdy :
  plain status_line -> Forall (fun l => plain l /\ l <> []) lines ->
  header_loop (response status_line lines bdy) hdr_start =
    (Hdr CNST_READING HDST_CRLFCR (default (-1) (status_of status_line)) (last_length lines (-1)), bdy).
Proof.
  intros Hp Hl. unfold response.
  destruct (status_line_run status_line (-1) Hp) as (st & Hst & Hrun).
  match goal with |- header_loop (_ ++ ?w) _ = _ =>
    destruct (header_loop_run status_line w hdr_start eq_refl Hp) as [-> _] end.
  unfold hdr_start. rewrite Hrun, eol_run, lines_run by done. simpl. by destruct bdy.
Qed.

(** C20: from any well-formed response (CR LF line ends, non-empty header
    lines) the machine reads the number after the white space of the status
    line as the status, the number of the last content-length line as the
    content length (-1 without one), and leaves exactly the body. *)
Theorem header_reads_response status_line lines bdy :
  plain status_line -> Forall (fun l => plain l /\ l <> []) lines ->
  header_loop (response status_line lines bdy) hdr_start =
    (Hdr CNST_READING HDST_CRLFCR (default (-1) (status_of status_line)) (last_length lines (-1)), bdy).
Proof. apply response_loop. Qed.

(** ** Numbers in range *)

Lemma num_from_digits w v s :
  1 < w -> 0 <= v -> (v + 1) * 10 ^ Z.of_nat (length s) <= 2 ^ (w - 1) ->
  num_from (wrap_s w) v s = digits v s.
Proof.
  intros Hw. revert v. induction s as [|c s IH]; intros v Hv Hb; [done |].
  simpl length in Hb. rewrite Nat2Z.inj_succ, Z.pow_succ_r in Hb by lia. simpl.
  destruct (isdigit c) eqn:Hd; [|done]. unfold isdigit in Hd.
  apply andb_prop in Hd as [?%Z.leb_le ?%Z.leb_le].
  pose proof (Z.pow_pos_nonneg 10 (Z.of_nat (length s)) ltac:(lia) ltac:(lia)).
  rewrite wrap_s_small; [|lia | unfold in_s; nia].
  replace (v * 10 + uchar c - 48) with (v * 10 + (uchar c - 48)) by lia. apply IH; [lia | nia].
Qed.

(** A status of at most 9 digits and a content length of at most 18 are
    read without overflow, as the decimal numbers they are. *)
Theorem header_numbers s :
  ((length s <= 9)%nat -> forall v, num i32 s = Some v -> v = digits 0 s) /\
  ((length s <= 18)%nat -> forall v, num i64 s = Some v -> v = digits 0 s).
Proof.
  destruct s as [|c s]; simpl; [done |]. destruct (isdigit c) eqn:Hd; [|done].
  unfold isdigit in Hd. apply andb_prop in Hd as [?%Z.leb_le ?%Z.leb_le].
  replace (0 * 10 + (uchar c - 48)) with (uchar c - 48) by lia.
  assert (Hpow : forall k, (length s <= k)%nat -> (uchar c - 48 + 1) * 10 ^ Z.of_nat (length s) <= 10 ^ Z.of_nat (S k)).
  { intros k Hk. rewrite Nat2Z.inj_succ, Z.pow_succ_r by lia.
    pose proof (Z.pow_le_mono_r 10 (Z.of_nat (length s)) (Z.of_nat k)). nia. }
  split; intros Hlen v [= <-]; apply num_from_digits; try lia.
  - etrans; [apply (Hpow 8%nat); lia | by apply Z.leb_le].
  - etrans; [apply (Hpow 17%nat); lia | by apply Z.leb_le].
Qed.


(** * The body checksum *)

(** The checksum stays a 16-bit number, and taking a body in two parts
    gives the same checksum as taking it whole. *)
Theorem checksum_range_parts b1 b2 checksum :
  0 <= checksum < 65536 ->
  0 <= checksum_loop (b1 ++ b2) checksum < 65536 /\
  checksum_loop (b1 ++ b2) checksum = checksum_loop b2 (checksum_loop b1 checksum).
Proof.
  intros Hc. split; [|by apply fold_left_app].
  assert (Hstep : forall v c, 0 <= checksum_step v c < 65536).
  { intros v c. unfold checksum_step. change 65535 with (Z.ones 16). rewrite Z.land_ones by lia.
    apply Z.mod_pos_bound. lia. }
  revert checksum Hc. induction (b1 ++ b2) as [|c b IH]; intros v Hv; [done |]. simpl. by apply IH.
Qed.
