(* ===== verification/HttpHeaderDemo.v ===== *)
(** A response on which the theorems about the header state machine are
    instantiated. *)
From S2P Require Import Prelude CStr HttpHeader HttpHeaderThm.
Local Open Scope Z_scope.

Definition demo_status : list ascii := lit "HTTP/1.0 200 OK".
Definition demo_lines : list (list ascii) := [lit "Server: x"; lit "CONTENT-length: 3"].

(** Decidable form of "no line end inside", for closed texts. *)
Lemma plain_dec (l : list ascii) : one_of LF l = false -> one_of CR l = false -> plain l.
Proof.
  intros H1 H2. unfold plain. split; rewrite <- one_of_In; congruence.
Qed.

Lemma header_reads_response_witness :
  header_loop (response demo_status demo_lines (lit "abc")) hdr_start =
    (Hdr CNST_READING HDST_CRLFCR 200 3, lit "abc").
Proof.
  apply (header_reads_response demo_status demo_lines (lit "abc")).
  - by apply plain_dec.
  - repeat constructor; try (by apply plain_dec); done.
Defined.

Lemma header_numbers_witness : num i32 (lit "200 OK") = Some 200 /\ 200 = digits 0 (lit "200 OK").
Proof.
  split; [reflexivity |]. apply (proj1 (header_numbers (lit "200 OK"))); [vm_compute; lia | reflexivity].
Defined.

Lemma checksum_range_parts_witness :
  0 <= checksum_loop (lit "ab" ++ lit "c") 0 < 65536 /\
  checksum_loop (lit "ab" ++ lit "c") 0 = checksum_loop (lit "c") (checksum_loop (lit "ab") 0).
Proof. apply (checksum_range_parts (lit "ab") (lit "c") 0). lia. Defined.
