(* ===== verification/HttpLoad.v ===== *)
(** The load generator proper (http_load/http_load.c): its tables, the
    operations on connections, the timer procedures and the main loop. *)
From S2P Require Import Prelude CStr CFloat Timers HttpHeader.
From Stdlib Require Import SpecFloat.
From stdpp Require Import pretty.
Local Open Scope Z_scope.

(** * Data *)

(** [url]; the address fields that [lookup_address] fills in are one value of
    the system's address type. *)
Record url (addr : Type) := Url {
  url_str : list ascii;
  hostname : list ascii;
  port : Z;
  u_sa : addr;
  filename : list ascii;
  got_bytes : bool;
  u_bytes : Z;
  got_checksum : bool;
  u_checksum : Z
}.
Arguments Url {addr}.
Arguments url_str {addr}.
Arguments hostname {addr}.
Arguments port {addr}.
Arguments u_sa {addr}.
Arguments filename {addr}.
Arguments got_bytes {addr}.
Arguments u_bytes {addr}.
Arguments got_checksum {addr}.
Arguments u_checksum {addr}.

(** [connection]; [c_hdr] holds conn_state, header_state, http_status and
    content_length, the fields of the header state machine. *)
Record connection (addr : Type) := Connection {
  url_num : nat;
  c_sa : addr;
  conn_fd : Z;
  c_hdr : hdr;
  did_connect : bool;
  did_response : bool;
  started_at : timeval;
  connect_at : timeval;
  request_at : timeval;
  response_at : timeval;
  idle_timer : option loc;
  wakeup_timer : option loc;
  c_bytes : Z;
  c_checksum : Z
}.
Arguments Connection {addr}.
Arguments url_num {addr}.
Arguments c_sa {addr}.
Arguments conn_fd {addr}.
Arguments c_hdr {addr}.
Arguments did_connect {addr}.
Arguments did_response {addr}.
Arguments started_at {addr}.
Arguments connect_at {addr}.
Arguments request_at {addr}.
Arguments response_at {addr}.
Arguments idle_timer {addr}.
Arguments wakeup_timer {addr}.
Arguments c_bytes {addr}.
Arguments c_checksum {addr}.

(** The timer procedures the program registers. *)
Inductive TimerProc : Type :=
| idle_connection_p | wakeup_connection_p | progress_report_p | start_timer_p | end_timer_p.
#[export] Instance TimerProc_dec : EqDecision TimerProc.
Proof. solve_decision. Defined.

(** The counters of the statistics. *)
Record stats := Stats {
  fetches_started : Z;
  connects_completed : Z;
  responses_completed : Z;
  fetches_completed : Z;
  total_bytes : Z;
  total_connect_usecs : Z;
  max_connect_usecs : Z;
  min_connect_usecs : Z;
  total_response_usecs : Z;
  max_response_usecs : Z;
  min_response_usecs : Z;
  total_timeouts : Z;
  total_badbytes : Z;
  total_badchecksums : Z;
  http_status_counts : list Z
}.

(** What the program prints, a line for each call of a print function. *)
Inductive msg : Type :=
| m_perror (what : list ascii)
| m_unknown_connect_error (what : list ascii)
| m_connect_error (what : list ascii) (err : Z)
| m_timed_out (what : list ascii)
| m_checksum_wrong (what : list ascii)
| m_byte_count_wrong (what : list ascii)
| m_no_slots
| m_progress (elapsed : spec_float) (started completed current : Z)
| m_fetches (fetches parallel : Z) (bytes elapsed : spec_float)
| m_mean (mean : spec_float)
| m_rates (fetches bytes : spec_float)
| m_connects (mean max min : spec_float)
| m_responses (mean max min : spec_float)
| m_timeouts (n : Z)
| m_badchecksums (n : Z)
| m_badbytes (n : Z)
| m_codes
| m_code (code count : Z).

Inductive start_spec : Type := START_NONE | START_PARALLEL (n : Z) | START_RATE (n : Z).
Inductive end_spec : Type := END_NONE | END_FETCHES (n : Z) | END_SECONDS (n : Z).

(** What the arguments fix for the whole run. *)
Record config (addr : Type) := Config {
  do_checksum : bool;
  do_throttle : bool;
  do_verbose : bool;
  do_jitter : bool;
  do_proxy : bool;
  throttle : spec_float;
  idle_secs : Z;
  max_connections : nat;
  start : start_spec;
  end_ : end_spec;
  sips : list addr
}.
Arguments Config {addr}.
Arguments do_checksum {addr}.
Arguments do_throttle {addr}.
Arguments do_verbose {addr}.
Arguments do_jitter {addr}.
Arguments do_proxy {addr}.
Arguments throttle {addr}.
Arguments idle_secs {addr}.
Arguments max_connections {addr}.
Arguments start {addr}.
Arguments end_ {addr}.
Arguments sips {addr}.

(** errno values (Linux) that the program tells apart. *)
Definition EINVAL : Z := 22.
Definition EISCONN : Z := 106.
Definition EINPROGRESS : Z := 115.
(** [O_NDELAY] and the number of descriptors an fd_set has room for. *)
Definition O_NDELAY : Z := 2048.
Definition FD_SETSIZE : Z := 1024.
(** [sizeof(struct sockaddr_in)], the room a connection has for an address. *)
Definition SA_IN_SIZE : Z := 16.

(** The system: its state [K] and what each call of the program answers.
    [sa_len] is the size of an address. A failing call gives -1; where the program looks at errno, its value comes
    with the answer; a read gives [None] for an error. *)
Class Kernel (K addr : Type) := {
  sa_len : addr -> Z;
  k_gettimeofday : K -> timeval * K;
  k_random : K -> Z * K;
  k_socket : addr -> K -> Z * K;
  k_getfl : Z -> K -> Z * K;
  k_setfl : Z -> Z -> K -> Z * K;
  k_bind : Z -> addr -> K -> Z * K;
  k_connect : Z -> addr -> K -> (Z * Z) * K;
  k_so_error : Z -> K -> option Z * K;
  k_write : Z -> list ascii -> K -> Z * K;
  k_read : Z -> Z -> K -> option (list ascii) * K;
  k_close : Z -> K -> unit * K;
  k_select : list Z -> list Z -> option timeval -> K -> (Z * (list Z * list Z)) * K;
  k_malloc_ok : nat -> bool;
  k_junk : Timer TimerProc nat
}.

(** The program's variables. *)
Record load (K addr : Type) := Load {
  connections : list (connection addr);
  num_connections : Z;
  max_parallel : Z;
  urls : list (url addr);
  st : stats;
  tmrs : tstate TimerProc nat;
  start_at : timeval;
  now : timeval;
  kern : K;
  out : list msg
}.
Arguments Load {K addr}.
Arguments connections {K addr}.
Arguments num_connections {K addr}.
Arguments max_parallel {K addr}.
Arguments urls {K addr}.
Arguments st {K addr}.
Arguments tmrs {K addr}.
Arguments start_at {K addr}.
Arguments now {K addr}.
Arguments kern {K addr}.
Arguments out {K addr}.

(** * Field updates *)

Section Updates.
Context {K addr : Type}.
Abbreviation conn_t := (connection addr).
Abbreviation load_t := (load K addr).

Definition c_put_fd v (c : conn_t) : conn_t := Connection (url_num c) (c_sa c) v (c_hdr c) (did_connect c)
  (did_response c) (started_at c) (connect_at c) (request_at c) (response_at c) (idle_timer c) (wakeup_timer c)
  (c_bytes c) (c_checksum c).
Definition c_put_hdr v (c : conn_t) : conn_t := Connection (url_num c) (c_sa c) (conn_fd c) v (did_connect c)
  (did_response c) (started_at c) (connect_at c) (request_at c) (response_at c) (idle_timer c) (wakeup_timer c)
  (c_bytes c) (c_checksum c).
Definition c_put_state v (c : conn_t) : conn_t :=
  c_put_hdr (Hdr v (h_state (c_hdr c)) (h_status (c_hdr c)) (h_length (c_hdr c))) c.
Definition c_put_connect_at sa v (c : conn_t) : conn_t := Connection (url_num c) sa (conn_fd c) (c_hdr c)
  (did_connect c) (did_response c) (started_at c) v (request_at c) (response_at c) (idle_timer c) (wakeup_timer c)
  (c_bytes c) (c_checksum c).
Definition c_put_did_connect v (c : conn_t) : conn_t := Connection (url_num c) (c_sa c) (conn_fd c) (c_hdr c) v
  (did_response c) (started_at c) (connect_at c) (request_at c) (response_at c) (idle_timer c) (wakeup_timer c)
  (c_bytes c) (c_checksum c).
Definition c_put_request_at v (c : conn_t) : conn_t := Connection (url_num c) (c_sa c) (conn_fd c) (c_hdr c)
  (did_connect c) (did_response c) (started_at c) (connect_at c) v (response_at c) (idle_timer c) (wakeup_timer c)
  (c_bytes c) (c_checksum c).
Definition c_put_response_at v (c : conn_t) : conn_t := Connection (url_num c) (c_sa c) (conn_fd c) (c_hdr c)
  (did_connect c) true (started_at c) (connect_at c) (request_at c) v (idle_timer c) (wakeup_timer c)
  (c_bytes c) (c_checksum c).
Definition c_put_idle v (c : conn_t) : conn_t := Connection (url_num c) (c_sa c) (conn_fd c) (c_hdr c)
  (did_connect c) (did_response c) (started_at c) (connect_at c) (request_at c) (response_at c) v (wakeup_timer c)
  (c_bytes c) (c_checksum c).
Definition c_put_wakeup v (c : conn_t) : conn_t := Connection (url_num c) (c_sa c) (conn_fd c) (c_hdr c)
  (did_connect c) (did_response c) (started_at c) (connect_at c) (request_at c) (response_at c) (idle_timer c) v
  (c_bytes c) (c_checksum c).
Definition c_put_bytes v (c : conn_t) : conn_t := Connection (url_num c) (c_sa c) (conn_fd c) (c_hdr c)
  (did_connect c) (did_response c) (started_at c) (connect_at c) (request_at c) (response_at c) (idle_timer c)
  (wakeup_timer c) v (c_checksum c).
Definition c_put_checksum v (c : conn_t) : conn_t := Connection (url_num c) (c_sa c) (conn_fd c) (c_hdr c)
  (did_connect c) (did_response c) (started_at c) (connect_at c) (request_at c) (response_at c) (idle_timer c)
  (wakeup_timer c) (c_bytes c) v.

Definition u_put_bytes v (u : url addr) : url addr :=
  Url (url_str u) (hostname u) (port u) (u_sa u) (filename u) true v (got_checksum u) (u_checksum u).
Definition u_put_checksum v (u : url addr) : url addr :=
  Url (url_str u) (hostname u) (port u) (u_sa u) (filename u) (got_bytes u) (u_bytes u) true v.

Definition put_connections v (s : load_t) : load_t := Load v (num_connections s) (max_parallel s) (urls s) (st s)
  (tmrs s) (start_at s) (now s) (kern s) (out s).
Definition put_num v m (s : load_t) : load_t := Load (connections s) v m (urls s) (st s)
  (tmrs s) (start_at s) (now s) (kern s) (out s).
Definition put_urls v (s : load_t) : load_t := Load (connections s) (num_connections s) (max_parallel s) v (st s)
  (tmrs s) (start_at s) (now s) (kern s) (out s).
Definition put_st v (s : load_t) : load_t := Load (connections s) (num_connections s) (max_parallel s) (urls s) v
  (tmrs s) (start_at s) (now s) (kern s) (out s).
Definition put_tmrs v (s : load_t) : load_t := Load (connections s) (num_connections s) (max_parallel s) (urls s) (st s)
  v (start_at s) (now s) (kern s) (out s).
Definition put_start_at v (s : load_t) : load_t := Load (connections s) (num_connections s) (max_parallel s) (urls s) (st s)
  (tmrs s) v (now s) (kern s) (out s).
Definition put_now v (s : load_t) : load_t := Load (connections s) (num_connections s) (max_parallel s) (urls s) (st s)
  (tmrs s) (start_at s) v (kern s) (out s).
Definition put_kern v (s : load_t) : load_t := Load (connections s) (num_connections s) (max_parallel s) (urls s) (st s)
  (tmrs s) (start_at s) (now s) v (out s).
Definition put_out v (s : load_t) : load_t := Load (connections s) (num_connections s) (max_parallel s) (urls s) (st s)
  (tmrs s) (start_at s) (now s) (kern s) v.
End Updates.

(** * Counting *)

Definition st_started (t : stats) : stats := Stats (i32 (fetches_started t + 1)) (connects_completed t)
  (responses_completed t) (fetches_completed t) (total_bytes t) (total_connect_usecs t) (max_connect_usecs t)
  (min_connect_usecs t) (total_response_usecs t) (max_response_usecs t) (min_response_usecs t) (total_timeouts t)
  (total_badbytes t) (total_badchecksums t) (http_status_counts t).
Definition st_completed (bytes : Z) (t : stats) : stats := Stats (fetches_started t) (connects_completed t)
  (responses_completed t) (i32 (fetches_completed t + 1)) (i64 (total_bytes t + bytes)) (total_connect_usecs t)
  (max_connect_usecs t) (min_connect_usecs t) (total_response_usecs t) (max_response_usecs t) (min_response_usecs t)
  (total_timeouts t) (total_badbytes t) (total_badchecksums t) (http_status_counts t).
Definition st_connected (us : Z) (t : stats) : stats := Stats (fetches_started t) (i32 (connects_completed t + 1))
  (responses_completed t) (fetches_completed t) (total_bytes t) (i64 (total_connect_usecs t + us))
  (Z.max (max_connect_usecs t) us) (Z.min (min_connect_usecs t) us) (total_response_usecs t) (max_response_usecs t)
  (min_response_usecs t) (total_timeouts t) (total_badbytes t) (total_badchecksums t) (http_status_counts t).
Definition st_responded (us : Z) (t : stats) : stats := Stats (fetches_started t) (connects_completed t)
  (i32 (responses_completed t + 1)) (fetches_completed t) (total_bytes t) (total_connect_usecs t)
  (max_connect_usecs t) (min_connect_usecs t) (i64 (total_response_usecs t + us)) (Z.max (max_response_usecs t) us)
  (Z.min (min_response_usecs t) us) (total_timeouts t) (total_badbytes t) (total_badchecksums t)
  (http_status_counts t).
Definition st_status (code : Z) (t : stats) : stats := Stats (fetches_started t) (connects_completed t)
  (responses_completed t) (fetches_completed t) (total_bytes t) (total_connect_usecs t) (max_connect_usecs t)
  (min_connect_usecs t) (total_response_usecs t) (max_response_usecs t) (min_response_usecs t) (total_timeouts t)
  (total_badbytes t) (total_badchecksums t)
  (alter (fun n => i32 (n + 1)) (Z.to_nat code) (http_status_counts t)).
Definition st_timeout (t : stats) : stats := Stats (fetches_started t) (connects_completed t)
  (responses_completed t) (fetches_completed t) (total_bytes t) (total_connect_usecs t) (max_connect_usecs t)
  (min_connect_usecs t) (total_response_usecs t) (max_response_usecs t) (min_response_usecs t)
  (i32 (total_timeouts t + 1)) (total_badbytes t) (total_badchecksums t) (http_status_counts t).
Definition st_badbyte (t : stats) : stats := Stats (fetches_started t) (connects_completed t)
  (responses_completed t) (fetches_completed t) (total_bytes t) (total_connect_usecs t) (max_connect_usecs t)
  (min_connect_usecs t) (total_response_usecs t) (max_response_usecs t) (min_response_usecs t)
  (total_timeouts t) (i32 (total_badbytes t + 1)) (total_badchecksums t) (http_status_counts t).
Definition st_badchecksum (t : stats) : stats := Stats (fetches_started t) (connects_completed t)
  (responses_completed t) (fetches_completed t) (total_bytes t) (total_connect_usecs t) (max_connect_usecs t)
  (min_connect_usecs t) (total_response_usecs t) (max_response_usecs t) (min_response_usecs t)
  (total_timeouts t) (total_badbytes t) (i32 (total_badchecksums t + 1)) (http_status_counts t).

(** The values main gives the statistics before the main loop. *)
Definition stats0 : stats := Stats 0 0 0 0 0 0 0 1000000000 0 0 1000000000 0 0 0 (replicate 1000 0).

Definition delta_timeval (start end_ : timeval) : Z :=
  let delta_secs := tv_sec end_ - tv_sec start in
  let delta_usecs := tv_usec end_ - tv_usec start in
  i64 (delta_secs * 1000000 + delta_usecs).

(** [delta_timeval( start, end ) / 1000000.0], assigned to a float. *)
Definition elapsed_secs (start end_ : timeval) : spec_float :=
  f32_of_f64 (f64_div (f64_of_Z (delta_timeval start end_)) (f64_of_Z 1000000)).

(** * Formatting the request *)

(** [snprintf( &buf[pos], sizeof(buf) - pos, ... )] with the text the format
    makes: the size is unsigned, so beyond the end of the buffer it is huge. The
    value is the length of the whole text; [None] when bytes outside the buffer
    are written. *)
Definition BUF_SIZE : Z := 600.
Definition snprintf (buf : list ascii) (pos : Z) (text : list ascii) : option (list ascii * Z) :=
  let room := u64 (BUF_SIZE - pos) in
  let w := if room =? 0 then [] else take (Z.to_nat (room - 1)) text ++ [NUL] in
  if pos + Z.of_nat (length w) >? BUF_SIZE then None
  else Some (take (Z.to_nat pos) buf ++ w ++ drop (Z.to_nat pos + length w) buf, Z.of_nat (length text)).

(** [%d] and [%.500s]. *)
Definition fmt_d (n : Z) : list ascii := lit (pretty n).
Definition fmt_500s (s : list ascii) : list ascii := take 500 s.
Definition crlf : list ascii := [CR; LF].
Definition HTTP_LOAD_VERSION : list ascii := lit "http_load 09Mar2016".

(** The texts of the four calls. *)
Definition request_line {addr} (do_proxy : bool) (u : url addr) : list ascii :=
  if do_proxy
  then lit "GET http://" ++ fmt_500s (hostname u) ++ lit ":" ++ fmt_d (port u) ++ fmt_500s (filename u)
         ++ lit " HTTP/1.0" ++ crlf
  else lit "GET " ++ fmt_500s (filename u) ++ lit " HTTP/1.0" ++ crlf.
Definition request_parts {addr} (do_proxy : bool) (u : url addr) : list (list ascii) :=
  [request_line do_proxy u; lit "Host: " ++ hostname u ++ crlf;
   lit "User-Agent: " ++ HTTP_LOAD_VERSION ++ crlf; crlf].

(** [bytes += snprintf( &buf[bytes], ... )] for each text; the first call writes at 0. *)
Fixpoint format_parts (buf : list ascii) (bytes : Z) (parts : list (list ascii)) : option (list ascii * Z) :=
  match parts with
  | [] => Some (buf, bytes)
  | p :: parts =>
      match snprintf buf bytes p with
      | None => None
      | Some (buf', n) => format_parts buf' (bytes + n) parts
      end
  end.

(** What the [write] after it sends: [bytes] bytes from the buffer. *)
Definition format_request {addr} (do_proxy : bool) (junk : list ascii) (u : url addr) : option (list ascii) :=
  match format_parts junk 0 (request_parts do_proxy u) with
  | None => None
  | Some (buf, bytes) => if bytes >? BUF_SIZE then None else Some (take (Z.to_nat bytes) buf)
  end.

(** * Operations *)

Section Ops.
Context {K addr : Type} {KC : Kernel K addr} (cfg : config addr) (junk_buf : list ascii).
Abbreviation load_t := (load K addr).
Abbreviation M := (CM load_t).

(** A call of the system, and a print. *)
Definition sys {A} (f : K -> A * K) : M A := fun s => let (a, k) := f (kern s) in Ret a (put_kern k s).
Definition print (m : msg) : M unit := modify (fun s => put_out (out s ++ [m]) s).

(** [connections[cnum]], [urls[url_num]], and the timers package. *)
Definition conn (cnum : nat) : M (connection addr) := get_or_undef (fun s => connections s !! cnum).
Definition upd (cnum : nat) (f : connection addr -> connection addr) : M unit :=
  c <- conn cnum ;;
  modify (fun s => put_connections (<[cnum := f c]> (connections s)) s).
Definition url_at (n : nat) : M (url addr) := get_or_undef (fun s => urls s !! n).
Definition upd_url (n : nat) (f : url addr -> url addr) : M unit :=
  u <- url_at n ;;
  modify (fun s => put_urls (<[n := f u]> (urls s)) s).
Definition count (f : stats -> stats) : M unit := modify (fun s => put_st (f (st s)) s).
Definition tm {A} (m : CM (tstate TimerProc nat) A) : M A := zoom tmrs put_tmrs m.
Definition create (pr : TimerProc) (cd : nat) (ms : Z) (per : bool) : M (option loc) :=
  t <- gets now ;;
  tm (tmr_create k_malloc_ok k_junk t (Some t) pr cd ms per).
Definition cancel_if (t : option loc) : M unit :=
  match t with Some t => tm (tmr_cancel t) | None => ret tt end.

(** The length of the connections table, and the intervals main sets up. *)
Definition table_size : nat :=
  match start cfg with START_PARALLEL n => Z.to_nat n | _ => max_connections cfg end.
Definition start_interval : Z := match start cfg with START_RATE r => Z.quot 1000 r | _ => 0 end.
Definition low_interval : Z := Z.quot (start_interval * 9) 10.
Definition high_interval : Z := Z.quot (start_interval * 11) 10.
Definition range_interval : Z := high_interval - low_interval + 1.

(** The check of the checksum or byte count against the first fetch of the URL. *)
Definition check_fetch (cnum : nat) : M unit :=
  c <- conn cnum ;;
  let n := url_num c in
  u <- url_at n ;;
  if do_checksum cfg then
    if negb (got_checksum u) then upd_url n (u_put_checksum (c_checksum c))
    else if negb (c_checksum c =? u_checksum u) then
      print (m_checksum_wrong (url_str u)) ;;; count st_badchecksum
    else ret tt
  else
    if negb (got_bytes u) then upd_url n (u_put_bytes (c_bytes c))
    else if negb (c_bytes c =? u_bytes u) then
      print (m_byte_count_wrong (url_str u)) ;;; count st_badbyte
    else ret tt.

Definition close_connection (cnum : nat) : M unit :=
  c <- conn cnum ;;
  sys (k_close (conn_fd c)) ;;;
  upd cnum (c_put_state CNST_FREE) ;;;
  cancel_if (idle_timer c) ;;;
  cancel_if (wakeup_timer c) ;;;
  modify (fun s => put_num (i32 (num_connections s - 1)) (max_parallel s) s) ;;;
  count (st_completed (c_bytes c)) ;;;
  (if did_connect c then count (st_connected (delta_timeval (connect_at c) (request_at c))) else ret tt) ;;;
  (if did_response c then count (st_responded (delta_timeval (request_at c) (response_at c))) else ret tt) ;;;
  let code := h_status (c_hdr c) in
  (if (0 <=? code) && (code <=? 999) then count (st_status code) else ret tt) ;;;
  check_fetch cnum.

(** After the connection is known to be there: format and send the request. *)
Definition send_request (cnum : nat) : M unit :=
  c <- conn cnum ;;
  u <- url_at (url_num c) ;;
  upd cnum (c_put_did_connect true) ;;;
  req <- get_or_undef (fun _ => format_request (do_proxy cfg) junk_buf u) ;;
  t <- gets now ;;
  upd cnum (c_put_request_at t) ;;;
  r <- sys (k_write (conn_fd c) req) ;;
  if r <? 0 then print (m_perror (url_str u)) ;;; close_connection cnum
  else
    upd cnum (fun c => c_put_hdr
      (Hdr CNST_HEADERS HDST_LINE1_PROTOCOL (h_status (c_hdr c)) (h_length (c_hdr c))) c).

Definition handle_connect (cnum : nat) (double_check : bool) : M unit :=
  c <- conn cnum ;;
  u <- url_at (url_num c) ;;
  if double_check then
    r <- sys (k_connect (conn_fd c) (c_sa c)) ;;
    if r.1 <? 0 then
      if r.2 =? EISCONN then send_request cnum
      else if r.2 =? EINVAL then
        e <- sys (k_so_error (conn_fd c)) ;;
        print (match e with
               | None => m_unknown_connect_error (url_str u)
               | Some err => m_connect_error (url_str u) err
               end) ;;;
        close_connection cnum
      else print (m_perror (url_str u)) ;;; close_connection cnum
    else send_request cnum
  else send_request cnum.

(** The fields [start_socket] fills in before it makes the socket. *)
Definition c_fill (url : nat) (t : timeval) (idle : option loc) (c : connection addr) : connection addr :=
  Connection url (c_sa c) (conn_fd c)
    (Hdr (h_conn (c_hdr c)) (h_state (c_hdr c)) (-1) (-1))
    false false t (connect_at c) (request_at c) (response_at c) idle None 0 0.

(** The connect of [start_socket], once the socket is set up. *)
Definition start_connect (url_num cnum : nat) (fd : Z) : M unit :=
  u <- url_at url_num ;;
  t <- gets now ;;
  (if sa_len (u_sa u) >? SA_IN_SIZE then undef else ret tt) ;;;
  upd cnum (c_put_connect_at (u_sa u) t) ;;;
  r <- sys (k_connect fd (u_sa u)) ;;
  if r.1 <? 0 then
    if r.2 =? EINPROGRESS then upd cnum (c_put_state CNST_CONNECTING)
    else print (m_perror (url_str u)) ;;; sys (k_close fd)
  else
    t' <- sys k_gettimeofday ;;
    modify (put_now t') ;;;
    handle_connect cnum false.

Definition start_socket (url_num cnum : nat) : M unit :=
  t <- gets now ;;
  idle <- create idle_connection_p cnum (idle_secs cfg * 1000) false ;;
  upd cnum (c_fill url_num t idle) ;;;
  u <- url_at url_num ;;
  fd <- sys (k_socket (u_sa u)) ;;
  upd cnum (c_put_fd fd) ;;;
  if fd <? 0 then print (m_perror (url_str u)) else
  flags <- sys (k_getfl fd) ;;
  if flags =? -1 then print (m_perror (url_str u)) ;;; sys (k_close fd) else
  r <- sys (k_setfl fd (Z.lor flags O_NDELAY)) ;;
  if r <? 0 then print (m_perror (url_str u)) ;;; sys (k_close fd) else
  match sips cfg with
  | [] => start_connect url_num cnum fd
  | sips =>
      x <- sys k_random ;;
      sa <- get_or_undef (fun _ => sips !! Z.to_nat (u64 x mod Z.of_nat (length sips))) ;;
      r <- sys (k_bind fd sa) ;;
      if r <? 0 then print (m_perror (lit "binding local address")) ;;; sys (k_close fd)
      else start_connect url_num cnum fd
  end.

(** The first free slot of the table. *)
Fixpoint find_free (cs : list (connection addr)) (cnum : nat) : option nat :=
  match cs with
  | [] => None
  | c :: cs => if decide (h_conn (c_hdr c) = CNST_FREE) then Some cnum else find_free cs (S cnum)
  end.

(** The statistics [finish] prints; [float] arithmetic as in the code. *)
Definition per_sec (n : Z) (elapsed : spec_float) : spec_float := f32_div (f32_of_Z n) elapsed.
Definition mean (total count : Z) : spec_float := f32_div (f32_of_Z total) (f32_of_Z count).
Definition millis (x : spec_float) : spec_float := f64_div (f64_of_f32 x) (f64_of_Z 1000).
Definition code_msgs (counts : list Z) : list msg :=
  omap (fun '(i, n) => if n >? 0 then Some (m_code (Z.of_nat i) n) else None) (imap pair counts).
Definition final_msgs (maxp : Z) (elapsed : spec_float) (t : stats) : list msg :=
  m_fetches (fetches_completed t) maxp (f32_of_Z (total_bytes t)) elapsed ::
  (if fetches_completed t >? 0 then [m_mean (mean (total_bytes t) (fetches_completed t))] else []) ++
  (if f_gt (f64_of_f32 elapsed) (f64_lit 1 100)
   then [m_rates (per_sec (fetches_completed t) elapsed) (per_sec (total_bytes t) elapsed)] else []) ++
  (if connects_completed t >? 0
   then [m_connects (millis (mean (total_connect_usecs t) (connects_completed t)))
           (millis (f32_of_Z (max_connect_usecs t))) (millis (f32_of_Z (min_connect_usecs t)))] else []) ++
  (if responses_completed t >? 0
   then [m_responses (millis (mean (total_response_usecs t) (responses_completed t)))
           (millis (f32_of_Z (max_response_usecs t))) (millis (f32_of_Z (min_response_usecs t)))] else []) ++
  (if negb (total_timeouts t =? 0) then [m_timeouts (total_timeouts t)] else []) ++
  (if do_checksum cfg
   then (if negb (total_badchecksums t =? 0) then [m_badchecksums (total_badchecksums t)] else [])
   else (if negb (total_badbytes t =? 0) then [m_badbytes (total_badbytes t)] else [])) ++
  m_codes :: code_msgs (http_status_counts t).

Definition finish {A} : M A :=
  s <- gets id ;;
  modify (put_out (out s ++ final_msgs (max_parallel s) (elapsed_secs (start_at s) (now s)) (st s))) ;;;
  tm tmr_destroy ;;;
  exit 0.

Definition start_connection : M unit :=
  cs <- gets connections ;;
  match find_free cs 0 with
  | Some cnum =>
      x <- sys k_random ;;
      us <- gets urls ;;
      let url_num := Z.to_nat (u64 x mod Z.of_nat (length us)) in
      start_socket url_num cnum ;;;
      c <- conn cnum ;;
      (if decide (h_conn (c_hdr c) = CNST_FREE) then ret tt
       else modify (fun s =>
         let n := i32 (num_connections s + 1) in
         put_num n (if n >? max_parallel s then n else max_parallel s) s)) ;;;
      count st_started
  | None => print m_no_slots ;;; finish
  end.

(** The check of the throttle: whether the connection is reading too fast. *)
Definition too_fast (c : connection addr) (t : timeval) : bool :=
  let elapsed := elapsed_secs (started_at c) t in
  f_gt (f64_of_f32 elapsed) (f64_lit 1 100) &&
  f_gt (f32_div (f32_of_Z (c_bytes c)) elapsed) (throttle cfg).

(** The case CNST_READING of [handle_read], on the bytes not handled yet. *)
Definition read_body (cnum : nat) (buf : list ascii) : M unit :=
  upd cnum (fun c => c_put_bytes (i64 (c_bytes c + Z.of_nat (length buf))) c) ;;;
  c <- conn cnum ;;
  t <- gets now ;;
  (if do_throttle cfg && too_fast c t then
     upd cnum (c_put_state CNST_PAUSING) ;;;
     w <- create wakeup_connection_p cnum 1000 false ;;
     upd cnum (c_put_wakeup w)
   else ret tt) ;;;
  (if do_checksum cfg then upd cnum (fun c => c_put_checksum (checksum_loop buf (c_checksum c)) c) else ret tt) ;;;
  c <- conn cnum ;;
  if negb (h_length (c_hdr c) =? -1) && (h_length (c_hdr c) <=? c_bytes c)
  then close_connection cnum
  else ret tt.

(** The loop over what was read: [buf] is the part from [bytes_handled] on. *)
Fixpoint handle_read_loop (fuel : nat) (cnum : nat) (buf : list ascii) : M unit :=
  match buf with
  | [] => ret tt
  | _ =>
      match fuel with
      | O => nofuel
      | S fuel =>
          c <- conn cnum ;;
          match h_conn (c_hdr c) with
          | CNST_HEADERS =>
              let (h, rest) := header_loop buf (c_hdr c) in
              upd cnum (c_put_hdr h) ;;;
              handle_read_loop fuel cnum rest
          | CNST_READING => read_body cnum buf
          | _ => handle_read_loop fuel cnum buf
          end
      end
  end.

(** The size of [buf], and [bytes_to_read]. *)
Definition READ_BUF_SIZE : Z := 30000.
Definition bytes_to_read : option Z :=
  if do_throttle cfg then int_of_f64 (f64_div (f64_of_f32 (throttle cfg)) (f64_of_Z 2)) else Some READ_BUF_SIZE.

Definition handle_read (cnum : nat) : M unit :=
  c <- conn cnum ;;
  t <- gets now ;;
  idle <- get_or_undef (fun _ => idle_timer c) ;;
  tm (tmr_reset t idle) ;;;
  n <- get_or_undef (fun _ => bytes_to_read) ;;
  (if did_response c then ret tt else upd cnum (c_put_response_at t)) ;;;
  r <- sys (k_read (conn_fd c) (u64 n)) ;;
  match r with
  | None | Some [] => close_connection cnum
  | Some buf =>
      if Z.of_nat (length buf) >? READ_BUF_SIZE then undef else handle_read_loop 2 cnum buf
  end.

(** ** The timer procedures *)

Definition idle_connection (cnum : nat) : M unit :=
  upd cnum (c_put_idle None) ;;;
  c <- conn cnum ;;
  u <- url_at (url_num c) ;;
  print (m_timed_out (url_str u)) ;;;
  close_connection cnum ;;;
  count st_timeout.

Definition wakeup_connection (cnum : nat) : M unit :=
  upd cnum (c_put_wakeup None) ;;;
  upd cnum (c_put_state CNST_READING).

Definition progress_report : M unit :=
  s <- gets id ;;
  print (m_progress (elapsed_secs (start_at s) (now s)) (fetches_started (st s)) (fetches_completed (st s))
           (num_connections s)).

(** JunkClientData; nothing looks at its value. *)
Definition JunkClientData : nat := 0%nat.

Definition start_timer : M unit :=
  start_connection ;;;
  if do_jitter cfg then
    x <- sys k_random ;;
    create start_timer_p JunkClientData (Z.rem x range_interval + low_interval) false ;;;
    ret tt
  else ret tt.

Definition end_timer : M unit := finish.

#[local] Instance load_client : TimerClient load_t TimerProc nat := {
  tmr_get := tmrs;
  tmr_put := put_tmrs;
  nowP := now;
  timer_call p cnum :=
    match p with
    | idle_connection_p => idle_connection cnum
    | wakeup_connection_p => wakeup_connection cnum
    | progress_report_p => progress_report
    | start_timer_p => start_timer
    | end_timer_p => end_timer
    end
}.

(** * main, after the arguments are parsed and the files read *)

Definition PROGRESS_SECS : Z := 60.

(** [junk] is what malloc leaves in the connections table. *)
Definition main_init (junk : nat -> connection addr) : M unit :=
  modify (put_connections (map (fun i => c_put_state CNST_FREE (junk i)) (seq 0 table_size))) ;;;
  modify (put_num 0 0) ;;;
  modify (put_st stats0) ;;;
  tm tmr_init ;;;
  t <- sys k_gettimeofday ;;
  modify (put_now t) ;;;
  modify (put_start_at t) ;;;
  (if do_verbose cfg then create progress_report_p JunkClientData (PROGRESS_SECS * 1000) true else ret None) ;;;
  (match start cfg with
   | START_RATE _ => create start_timer_p JunkClientData start_interval (negb (do_jitter cfg))
   | _ => ret None
   end) ;;;
  (match end_ cfg with
   | END_SECONDS n => create end_timer_p JunkClientData (n * 1000) false
   | _ => ret None
   end) ;;;
  ret tt.

(** With -parallel: start new connections, at most 10; [fuel] is for [tmr_run]. *)
Fixpoint start_new (fuel : nat) (i : nat) (start_parallel : Z) : M unit :=
  match i with
  | O => ret tt
  | S i =>
      b <- gets (fun s => (num_connections s <? start_parallel) &&
        match end_ cfg with END_FETCHES e => fetches_started (st s) <? e | _ => true end) ;;
      if b : bool then
        start_connection ;;;
        t <- sys k_gettimeofday ;;
        modify (put_now t) ;;;
        tmr_run fuel ;;;
        start_new fuel i start_parallel
      else ret tt
  end.

(** The sets for select; a descriptor beyond the size of an fd_set is outside the array. *)
Definition fd_ok (fd : Z) : bool := (0 <=? fd) && (fd <? FD_SETSIZE).
Definition FD_SET (fd : Z) (set : list Z) : M (list Z) := if fd_ok fd then ret (fd :: set) else undef.
Definition FD_ISSET (fd : Z) (set : list Z) : M bool :=
  if fd_ok fd then ret (bool_decide (fd ∈ set)) else undef.
Fixpoint build_fdsets (cnums : list nat) (rfdset wfdset : list Z) : M (list Z * list Z) :=
  match cnums with
  | [] => ret (rfdset, wfdset)
  | cnum :: cnums =>
      c <- conn cnum ;;
      match h_conn (c_hdr c) with
      | CNST_CONNECTING => w <- FD_SET (conn_fd c) wfdset ;; build_fdsets cnums rfdset w
      | CNST_HEADERS | CNST_READING => r <- FD_SET (conn_fd c) rfdset ;; build_fdsets cnums r wfdset
      | _ => build_fdsets cnums rfdset wfdset
      end
  end.

(** Service the connections select found ready. *)
Definition service_one (cnum : nat) (rfdset wfdset : list Z) : M unit :=
  c <- conn cnum ;;
  match h_conn (c_hdr c) with
  | CNST_CONNECTING =>
      b <- FD_ISSET (conn_fd c) wfdset ;; if b : bool then handle_connect cnum true else ret tt
  | CNST_HEADERS | CNST_READING =>
      b <- FD_ISSET (conn_fd c) rfdset ;; if b : bool then handle_read cnum else ret tt
  | _ => ret tt
  end.
Fixpoint service (cnums : list nat) (rfdset wfdset : list Z) : M unit :=
  match cnums with
  | [] => ret tt
  | cnum :: cnums => service_one cnum rfdset wfdset ;;; service cnums rfdset wfdset
  end.

(** One pass of the main loop. *)
Definition main_iter (fuel : nat) : M unit :=
  b <- gets (fun s => match end_ cfg with END_FETCHES e => e <=? fetches_completed (st s) | _ => false end) ;;
  (if b : bool then finish else ret tt) ;;;
  (match start cfg with START_PARALLEL n => start_new fuel 10 n | _ => ret tt end) ;;;
  sets <- build_fdsets (seq 0 table_size) [] [] ;;
  t <- gets now ;;
  timeout <- tm (tmr_timeout t) ;;
  r <- sys (k_select sets.1 sets.2 timeout) ;;
  if r.1 <? 0 then print (m_perror (lit "select")) ;;; exit 1 else
  t' <- sys k_gettimeofday ;;
  modify (put_now t') ;;;
  service (seq 0 table_size) r.2.1 r.2.2 ;;;
  tmr_run fuel.

(** The main loop, [n] passes of it at most. *)
Fixpoint main_loop (fuel n : nat) : M unit :=
  match n with
  | O => nofuel
  | S n => main_iter fuel ;;; main_loop fuel n
  end.
End Ops.
