(* ===== verification/HttpLoadInv.v ===== *)
(** The invariant of the load generator: what its connections table, its timers
    and its counters say about each other; and how closing a connection, which
    almost every error path ends in, acts on them. *)
From S2P Require Import Prelude CStr CFloat Timers TimersSpec TimersThm TimersRun TimersClient HttpHeader HttpLoad.
Local Open Scope Z_scope.

(** Fields of an updated state. *)
Ltac fields :=
  cbn [connections num_connections max_parallel urls st tmrs start_at now kern out
       put_connections put_num put_urls put_st put_tmrs put_start_at put_now put_kern put_out].

Section Inv.
Context {K addr : Type} {KC : Kernel K addr} (cfg : config addr) (junk_buf : list ascii).
Abbreviation tinfo := (@TimersThm.tinfo TimerProc nat).
Abbreviation load_t := (load K addr).
Implicit Types (s : load_t) (A : gmap loc tinfo) (i : tinfo) (c : connection addr) (cs : list (connection addr))
  (cnum : nat) (u : url addr).

(** * The invariant *)

Definition free c : Prop := h_conn (c_hdr c) = CNST_FREE.
#[global] Instance free_dec c : Decision (free c).
Proof. unfold free. apply _. Defined.
Definition busy cs : Z := Z.of_nat (length (filter (fun c => ~ free c) cs)).

(** The timers of a connection. *)
Definition idle_info cnum tm : tinfo := TInfo idle_connection_p cnum (idle_secs cfg * 1000) false tm.
Definition wakeup_info cnum tm : tinfo := TInfo wakeup_connection_p cnum 1000 false tm.

(** A slot in use: an idle timer runs for it, and a wakeup timer exactly while
    it pauses, which goes off first. *)
Record live (nurls : nat) A cnum c : Prop := {
  live_url : (url_num c < nurls)%nat;
  live_fd : fd_ok (conn_fd c) = true;
  live_idle : exists t tm, idle_timer c = Some t /\ A !! t = Some (idle_info cnum tm) /\
    match wakeup_timer c with
    | None => h_conn (c_hdr c) <> CNST_PAUSING
    | Some w => h_conn (c_hdr c) = CNST_PAUSING /\
        exists tw, A !! w = Some (wakeup_info cnum tw) /\ tv_leb tm tw = false
    end
}.

(** Every pending timer is one of a connection in use, or one of main's. *)
Definition of_conn i : bool :=
  match i_proc i with idle_connection_p | wakeup_connection_p => true | _ => false end.
Definition owns c (t : loc) i : Prop :=
  ~ free c /\
  match i_proc i with
  | idle_connection_p => idle_timer c = Some t
  | wakeup_connection_p => wakeup_timer c = Some t
  | _ => False
  end.
Definition timer_ok cs (t : loc) i : Prop :=
  match i_proc i with
  | idle_connection_p | wakeup_connection_p => exists c, cs !! i_data i = Some c /\ owns c t i
  | progress_report_p => i_periodic i = true /\ i_msecs i = PROGRESS_SECS * 1000
  | start_timer_p => (exists r, start cfg = START_RATE r) /\ i_periodic i = negb (do_jitter cfg) /\ 1 <= i_msecs i
  | end_timer_p => i_periodic i = false
  end.

(** A URL whose request fits the buffer and whose address fits a connection. *)
Definition request u : list ascii := concat (request_parts (do_proxy cfg) u).
Definition url_ok u : Prop := Z.of_nat (length (request u)) < BUF_SIZE /\ sa_len (u_sa u) <= SA_IN_SIZE.

(** Arguments under which the generator works: at least two seconds of idle
    time, a throttle whose reads fit the buffer, a start rate that leaves time
    between two connections. *)
Record good_config : Prop := {
  gc_idle : 2 <= idle_secs cfg;
  gc_read : exists n, bytes_to_read cfg = Some n /\ 0 <= n <= READ_BUF_SIZE;
  gc_start : match start cfg with
    | START_NONE => False
    | START_PARALLEL n => 1 <= n < 2 ^ 31
    | START_RATE r => 1 <= r <= 1000 /\ (do_jitter cfg = true -> r <= 500)
    end;
  gc_jitter : do_jitter cfg = true -> exists r, start cfg = START_RATE r;
  gc_end : match end_ cfg with END_SECONDS n => 1 <= n | END_FETCHES n => 0 <= n < 2 ^ 31 | END_NONE => True end;
  gc_size : Z.of_nat (table_size cfg) < 2 ^ 31
}.

(** What the generator relies on of the system: malloc succeeds, gettimeofday
    gives a normal time, a socket can be made and prepared and has a descriptor
    an fd_set has room for, a non-blocking connect is still in progress when it
    returns, and a read gives no more than it was asked for. [fresh k fd]: the
    descriptor [fd] is a new socket that no connect was called on yet. *)
Class KernelLaws (fresh : K -> Z -> Prop) : Prop := {
  kl_malloc n : k_malloc_ok n = true;
  kl_gettimeofday (k : K) : normal (k_gettimeofday k).1;
  kl_random (k : K) : 0 <= (k_random k).1 < 2 ^ 31;
  kl_fresh_random (k : K) fd : fresh k fd -> fresh (k_random k).2 fd;
  kl_socket (k : K) sa : fd_ok (k_socket sa k).1 = true /\ fresh (k_socket sa k).2 (k_socket sa k).1;
  kl_getfl (k : K) fd : fresh k fd -> 0 <= (k_getfl fd k).1 /\ fresh (k_getfl fd k).2 fd;
  kl_setfl (k : K) fd fl : fresh k fd -> (k_setfl fd fl k).1 = 0 /\ fresh (k_setfl fd fl k).2 fd;
  kl_bind (k : K) fd sa : fresh k fd -> (k_bind fd sa k).1 = 0 /\ fresh (k_bind fd sa k).2 fd;
  kl_connect (k : K) fd sa : fresh k fd -> (k_connect fd sa k).1 = (-1, EINPROGRESS);
  kl_read (k : K) fd n buf : (k_read fd n k).1 = Some buf -> Z.of_nat (length buf) <= n
}.

Record Inv s A : Prop := {
  inv_len : length (connections s) = table_size cfg;
  inv_slots : forall cnum c, connections s !! cnum = Some c -> ~ free c -> live (length (urls s)) A cnum c;
  inv_timers : forall t i, A !! t = Some i -> timer_ok (connections s) t i;
  inv_num : num_connections s = busy (connections s);
  inv_max : num_connections s <= max_parallel s <= Z.of_nat (table_size cfg);
  inv_started : fetches_started (st s) = i32 (fetches_completed (st s) + num_connections s);
  inv_codes : length (http_status_counts (st s)) = 1000%nat;
  inv_run : runnable A;
  inv_now : normal (now s);
  inv_urls : urls s <> [] /\ Z.of_nat (length (urls s)) < 2 ^ 32 /\ Forall url_ok (urls s);
  inv_limit : match start cfg, end_ cfg with
    | START_PARALLEL _, END_FETCHES e => fetches_started (st s) <= e
    | _, _ => True
    end
}.

Lemma inv_put_tmrs t s A : Inv s A -> Inv (put_tmrs t s) A.
Proof. intros []. by constructor. Qed.
Lemma inv_put_kern k s A : Inv s A -> Inv (put_kern k s) A.
Proof. intros []. by constructor. Qed.
Lemma inv_put_out o s A : Inv s A -> Inv (put_out o s) A.
Proof. intros []. by constructor. Qed.
Lemma inv_put_now t s A : normal t -> Inv s A -> Inv (put_now t s) A.
Proof. intros ? []. by constructor. Qed.

(** ** Updating one slot *)

Lemma busy_insert cs cnum c c' :
  cs !! cnum = Some c ->
  busy (<[cnum := c']> cs) = busy cs - (if decide (free c) then 0 else 1) + (if decide (free c') then 0 else 1).
Proof.
  intros Hc. unfold busy. pose proof (take_drop_middle _ _ _ Hc) as Hcs.
  rewrite insert_take_drop by (by eapply lookup_lt_Some). rewrite <- Hcs at 3.
  rewrite !filter_app, !filter_cons, !length_app.
  destruct (decide (free c)), (decide (free c')); repeat case_decide; simpl; try done; lia.
Qed.

Lemma busy_bound cs : 0 <= busy cs <= Z.of_nat (length cs).
Proof. unfold busy. pose proof (length_filter (fun c => ~ free c) cs). lia. Qed.

(** What stays true of the table and the timers when one slot changes, with
    the timers that belong to it. *)
Definition mine cnum i : Prop := of_conn i = true /\ i_data i = cnum.

Lemma tables_update cs A A' cnum c c' nurls :
  (forall n c, cs !! n = Some c -> ~ free c -> live nurls A n c) ->
  (forall t i, A !! t = Some i -> timer_ok cs t i) ->
  cs !! cnum = Some c ->
  (forall t i, A !! t = Some i -> ~ mine cnum i -> A' !! t = Some i) ->
  (forall t i, A' !! t = Some i ->
     (~ mine cnum i /\ (A !! t = Some i \/ timer_ok cs t i)) \/ (mine cnum i /\ owns c' t i)) ->
  (~ free c' -> live nurls A' cnum c') ->
  (forall n c, <[cnum := c']> cs !! n = Some c -> ~ free c -> live nurls A' n c) /\
  (forall t i, A' !! t = Some i -> timer_ok (<[cnum := c']> cs) t i).
Proof.
  intros Hs Ht Hc Hkeep Hnew Hlive. assert (Hlt : (cnum < length cs)%nat) by (by eapply lookup_lt_Some).
  split.
  - intros n c1 Hn Hf. destruct (decide (n = cnum)) as [->|Hne].
    + rewrite list_lookup_insert_eq in Hn by done. injection Hn as <-. by apply Hlive.
    + rewrite list_lookup_insert_ne in Hn by done. destruct (Hs n c1 Hn Hf) as [? ? (t & tm & Hi & HA & Hw)].
      split; [done | done |]. exists t, tm. split; [done |].
      split; [apply Hkeep; [done | intros [_ Hm]; simpl in Hm; congruence] |].
      destruct (wakeup_timer c1); [|done]. destruct Hw as [? (tw & HAw & ?)]. split; [done |]. exists tw.
      split; [apply Hkeep; [done | intros [_ Hm]; simpl in Hm; congruence] | done].
  - assert (Hframe : forall t i, ~ mine cnum i -> timer_ok cs t i -> timer_ok (<[cnum := c']> cs) t i).
    { intros t i Hm Hok. unfold timer_ok, mine, of_conn in *.
      destruct (i_proc i); try done; destruct Hok as (c1 & Hc1 & Ho); exists c1; (split; [|done]);
        rewrite list_lookup_insert_ne; [done | naive_solver | done | naive_solver]. }
    intros t i Hi. destruct (Hnew t i Hi) as [[Hm Hold]|[[Hof Hd] Ho]].
    + apply Hframe; [done |]. destruct Hold as [Hold|?]; [by apply Ht | done].
    + assert (Hex : exists c, <[cnum:=c']> cs !! i_data i = Some c /\ owns c t i).
      { exists c'. by rewrite Hd, list_lookup_insert_eq. }
      unfold timer_ok, of_conn in *. by destruct (i_proc i).
Qed.

(** A change of a slot in use that keeps its timers, URL and descriptor. *)
Lemma inv_upd s A cnum c c' :
  Inv s A -> connections s !! cnum = Some c -> ~ free c -> ~ free c' ->
  url_num c' = url_num c -> conn_fd c' = conn_fd c ->
  idle_timer c' = idle_timer c -> wakeup_timer c' = wakeup_timer c ->
  (h_conn (c_hdr c') = CNST_PAUSING <-> h_conn (c_hdr c) = CNST_PAUSING) ->
  Inv (put_connections (<[cnum := c']> (connections s)) s) A.
Proof.
  intros HI Hc Hf Hf' Hu Hfd Hi Hw Hp.
  assert (Hown : forall t i, owns c t i -> owns c' t i).
  { intros t i [_ Ho]. split; [done |]. by rewrite Hi, Hw. }
  destruct (tables_update (connections s) A A cnum c c' (length (urls s)) (inv_slots _ _ HI) (inv_timers _ _ HI) Hc)
    as [Hslots Htimers].
  - done.
  - intros t i Ht. destruct (decide (of_conn i = true /\ i_data i = cnum)) as [Hm|Hm]; [right | left].
    + split; [done |]. apply Hown. pose proof (inv_timers _ _ HI t i Ht) as Hok. destruct Hm as [Hof <-].
      unfold timer_ok, of_conn in *. destruct (i_proc i); try done; destruct Hok as (c1 & Hc1 & ?); by simplify_eq.
    + split; [done | by left].
  - intros _. destruct (inv_slots _ _ HI _ _ Hc Hf) as [Hlu Hlf (t & tm & Ht & HA & Hwk)].
    constructor; [by rewrite Hu | by rewrite Hfd |]. exists t, tm. rewrite Hi, Hw. do 2 (split; [done |]).
    destruct (wakeup_timer c); tauto.
  - assert (Hb := busy_insert (connections s) cnum c c' Hc). rewrite !decide_False in Hb by done.
    destruct HI. constructor; simpl; rewrite ?length_insert; try done; lia.
Qed.

(** Timers of main's that come, and that are fired. *)
Lemma inv_add_main s A t i :
  Inv s A -> A !! t = None -> of_conn i = false -> timer_ok (connections s) t i ->
  normal (i_time i) -> (i_periodic i = true -> 1 <= i_msecs i) -> Inv s (<[t := i]> A).
Proof.
  intros HI Ht Hof Hok Hn Hp. destruct HI as [? Hslots Htimers ? ? ? ? Hrun ? ? ?]. constructor; try done.
  - intros cnum c Hc Hf. destruct (Hslots cnum c Hc Hf) as [? ? (t0 & tm & ? & HA & Hw)]. constructor; [done | done |].
    exists t0, tm. rewrite lookup_insert_ne by congruence. do 2 (split; [done |]).
    destruct (wakeup_timer c) as [w|]; [|done]. destruct Hw as (? & tw & ? & ?). split; [done |]. exists tw.
    by rewrite lookup_insert_ne by congruence.
  - intros t' i'. rewrite lookup_insert_Some. intros [[<- <-]|[_ Hi']]; auto.
  - intros t' i'. rewrite lookup_insert_Some. intros [[<- <-]|[_ Hi']]; eauto.
Qed.

Lemma inv_fire_main s A p i :
  Inv s A -> A !! p = Some i -> of_conn i = false -> Inv s (fire_one p i A).
Proof.
  intros HI Hp Hof. pose proof (fire_one_runnable p i A (inv_run _ _ HI) Hp) as Hrun'.
  assert (Hother : forall t j, A !! t = Some j -> of_conn j = true -> fire_one p i A !! t = Some j).
  { intros t j Hj Hoj. rewrite fire_one_ne; [done |]. intros ->. rewrite Hp in Hj. injection Hj as <-. congruence. }
  destruct HI as [? Hslots Htimers ? ? ? ? Hrun ? ? ?]. constructor; try done.
  - intros cnum c Hc Hf. destruct (Hslots cnum c Hc Hf) as [? ? (t0 & tm & ? & HA & Hw)]. constructor; [done | done |].
    exists t0, tm. split; [done |]. split; [by apply Hother |].
    destruct (wakeup_timer c) as [w|]; [|done]. destruct Hw as (? & tw & ? & ?). split; [done |]. exists tw.
    split; [by apply Hother | done].
  - intros t j. destruct (decide (t = p)) as [->|Hne]; [|rewrite fire_one_ne by done; apply Htimers].
    pose proof (Htimers p i Hp) as Hok. unfold fire_one. destruct (i_periodic i) eqn:Hper.
    + rewrite lookup_insert_eq. intros [= <-]. unfold timer_ok, of_conn in *. simpl. by destruct (i_proc i).
    + by rewrite lookup_delete_eq.
Qed.

(** A pausing slot whose wakeup timer went off reads again. *)
Lemma inv_wakes s A cnum c c' p tw :
  Inv s A -> connections s !! cnum = Some c -> wakeup_timer c = Some p -> A !! p = Some (wakeup_info cnum tw) ->
  ~ free c -> url_num c' = url_num c -> conn_fd c' = conn_fd c -> idle_timer c' = idle_timer c ->
  wakeup_timer c' = None -> h_conn (c_hdr c') = CNST_READING ->
  Inv (put_connections (<[cnum := c']> (connections s)) s) (delete p A).
Proof.
  intros HI Hc Hw HAp Hf Hu Hfd Hi Hw' Hst.
  assert (Hf' : ~ free c') by (unfold free; by rewrite Hst).
  destruct (inv_slots _ _ HI _ _ Hc Hf) as [? ? (t & tm & Ht & HA & Hwk)].
  destruct (tables_update (connections s) A (delete p A) cnum c c' (length (urls s))
    (inv_slots _ _ HI) (inv_timers _ _ HI) Hc) as [Hslots Htimers].
  - intros t' i Hi' Hm. rewrite lookup_delete_ne; [done |]. intros <-. rewrite HAp in Hi'. injection Hi' as <-. by destruct Hm.
  - intros t' i. rewrite lookup_delete_Some. intros [Hne Hi'].
    destruct (decide (of_conn i = true /\ i_data i = cnum)) as [Hm|Hm]; [right | left; split; [done | by left]].
    split; [done |]. pose proof (inv_timers _ _ HI t' i Hi') as Hok. destruct Hm as [Hof <-].
    unfold timer_ok, of_conn, owns in *. rewrite Hi, Hw'.
    destruct (i_proc i); try done; destruct Hok as (c1 & Hc1 & ? & ?); simplify_eq; done.
  - intros _. constructor; [by rewrite Hu | by rewrite Hfd |]. exists t, tm. rewrite Hi, Hw', Hst.
    split; [done |]. split; [|done]. rewrite lookup_delete_ne; [done |]. intros <-. rewrite HAp in HA. discriminate HA.
  - assert (Hb := busy_insert (connections s) cnum c c' Hc). rewrite !decide_False in Hb by done.
    destruct HI. constructor; simpl; rewrite ?length_insert; try done; [lia |].
    intros t' i. rewrite lookup_delete_Some. intros [_ ?]. eauto.
Qed.

(** ** A slot that becomes free *)

(** The part of closing a connection that the invariant sees, from the state
    [s] to [s']. *)
Record closes cnum s s' : Prop := {
  cs_conns : exists c', connections s' = <[cnum := c']> (connections s) /\ free c';
  cs_num : num_connections s' = i32 (num_connections s - 1) /\ max_parallel s' = max_parallel s;
  cs_urls : length (urls s') = length (urls s) /\ (Forall url_ok (urls s) -> Forall url_ok (urls s'));
  cs_fetches : fetches_started (st s') = fetches_started (st s) /\
    fetches_completed (st s') = i32 (fetches_completed (st s) + 1);
  cs_codes : length (http_status_counts (st s')) = length (http_status_counts (st s));
  cs_now : now s' = now s
}.

Definition del (t : option loc) A : gmap loc tinfo := match t with Some t => delete t A | None => A end.

Lemma del_lookup o A (t : loc) i : del o A !! t = Some i <-> o <> Some t /\ A !! t = Some i.
Proof. destruct o; simpl; [rewrite lookup_delete_Some | ]; naive_solver. Qed.

(** The timers of main's are never those of a slot; those of a slot in use are
    its idle timer and its wakeup timer. *)
Lemma mine_owned s A cnum c t i :
  Inv s A -> connections s !! cnum = Some c -> A !! t = Some i -> mine cnum i -> owns c t i.
Proof.
  intros HI Hc Hi [Hof <-]. pose proof (inv_timers _ _ HI t i Hi) as Hok. unfold timer_ok, of_conn in *.
  destruct (i_proc i); try done; destruct Hok as (c' & Hc' & ?); by simplify_eq.
Qed.

Lemma owned_timers c (t : loc) i : owns c t i -> idle_timer c = Some t \/ wakeup_timer c = Some t.
Proof. unfold owns. destruct (i_proc i); intuition. Qed.

Lemma live_timers s A cnum c :
  Inv s A -> connections s !! cnum = Some c -> ~ free c ->
  exists t tm, idle_timer c = Some t /\ A !! t = Some (idle_info cnum tm) /\
    match wakeup_timer c with
    | None => h_conn (c_hdr c) <> CNST_PAUSING
    | Some w => h_conn (c_hdr c) = CNST_PAUSING /\ w <> t /\
        exists tw, A !! w = Some (wakeup_info cnum tw) /\ tv_leb tm tw = false
    end.
Proof.
  intros HI Hc Hf. destruct (inv_slots _ _ HI _ _ Hc Hf) as [_ _ (t & tm & Ht & HA & Hw)].
  exists t, tm. do 2 (split; [done |]). destruct (wakeup_timer c) as [w|]; [|done].
  destruct Hw as (? & tw & HAw & ?). split; [done |]. split; [|by exists tw]. intros ->. rewrite HA in HAw. discriminate HAw.
Qed.

Lemma inv_closes s A cnum c s' :
  good_config -> Inv s A -> connections s !! cnum = Some c -> ~ free c -> closes cnum s s' ->
  Inv s' (del (wakeup_timer c) (del (idle_timer c) A)).
Proof.
  intros Hg HI Hc Hf [(c' & Hcs & Hf') [Hnum Hmax] [Hul Huf] [Hst Hco] Hcodes Hnow].
  assert (Hup := tables_update (connections s) A (del (wakeup_timer c) (del (idle_timer c) A)) cnum c c'
    (length (urls s)) (inv_slots _ _ HI) (inv_timers _ _ HI) Hc).
  destruct Hup as [Hslots Htimers].
  - intros t i Hi Hm. destruct (live_timers s A cnum c HI Hc Hf) as (t0 & tm & Ht0 & HA0 & Hw).
    rewrite !del_lookup. split; [|split; [|done]].
    + intros Hwt. rewrite Hwt in Hw. destruct Hw as (_ & _ & tw & HAw & _). simplify_eq. by destruct Hm.
    + intros Hit. simplify_eq. by destruct Hm.
  - intros t i. rewrite !del_lookup. intros (Hnw & Hni & Hi). left. split; [|by left].
    intros Hm. destruct (owned_timers c t i); [by eapply mine_owned | done | done].
  - done.
  - assert (Hb := busy_insert (connections s) cnum c c' Hc).
    rewrite decide_False, decide_True in Hb by done.
    pose proof (inv_num _ _ HI) as Hn. pose proof (inv_max _ _ HI) as Hm. pose proof (gc_size Hg).
    pose proof (busy_bound (<[cnum := c']> (connections s))).
    assert (Hnum' : num_connections s' = num_connections s - 1) by (rewrite Hnum; apply i32_small; lia).
    constructor; rewrite ?Hcs, ?Hul, ?Hnow; try done.
    + rewrite length_insert. apply HI.
    + lia.
    + rewrite Hmax. lia.
    + rewrite Hst, Hco, Hnum', i32_add_l, (inv_started _ _ HI). f_equal. lia.
    + rewrite Hcodes. apply HI.
    + intros t i. rewrite !del_lookup. intros (_ & _ & Hi). by apply (inv_run _ _ HI t i).
    + apply HI.
    + destruct (inv_urls _ _ HI) as (Hne & Hlt & Hok). split; [|split; [lia | by apply Huf]].
      intros He. rewrite He in Hul. by destruct (urls s).
    + pose proof (inv_limit _ _ HI) as Hl. by rewrite Hst.
Qed.
End Inv.
