(* ===== verification/HttpLoadThm.v ===== *)
(** The operations of the load generator on one connection: what closing,
    connecting and reading do, and that they keep the invariant. *)
From S2P Require Import Prelude CStr CFloat Timers TimersSpec TimersThm TimersRun TimersClient HttpHeader HttpHeaderThm HttpLoad HttpLoadInv.
Local Open Scope Z_scope.

Section Thm.
Context {K addr : Type} {KC : Kernel K addr} (cfg : config addr) (junk_buf : list ascii).
Abbreviation tinfo := (@TimersThm.tinfo TimerProc nat).
Abbreviation load_t := (load K addr).
Abbreviation Inv := (Inv cfg).
Implicit Types (s : load_t) (A : gmap loc tinfo) (i : tinfo) (c : connection addr) (cs : list (connection addr))
  (cnum : nat) (u : url addr).

(** * Rules for the accesses *)

Lemma wp_conn cnum s c (Q : connection addr -> load_t -> Prop) :
  connections s !! cnum = Some c -> Q c s -> wp (conn cnum) s Q.
Proof. apply (wp_get_or_undef (fun s => connections s !! cnum)). Qed.
Lemma wp_upd cnum f s c (Q : unit -> load_t -> Prop) :
  connections s !! cnum = Some c ->
  Q tt (put_connections (<[cnum := f c]> (connections s)) s) -> wp (upd cnum f) s Q.
Proof. intros Hc HQ. unfold upd. wp_step. eapply wp_conn; [done |]. by wp_step. Qed.
Lemma wp_url_at n s u (Q : url addr -> load_t -> Prop) : urls s !! n = Some u -> Q u s -> wp (url_at n) s Q.
Proof. apply (wp_get_or_undef (fun s => urls s !! n)). Qed.
Lemma wp_upd_url n f s u (Q : unit -> load_t -> Prop) :
  urls s !! n = Some u -> Q tt (put_urls (<[n := f u]> (urls s)) s) -> wp (upd_url n f) s Q.
Proof. intros Hu HQ. unfold upd_url. wp_step. eapply wp_url_at; [done |]. by wp_step. Qed.
Lemma wp_sys {R} (f : K -> R * K) s (Q : R -> load_t -> Prop) :
  Q (f (kern s)).1 (put_kern (f (kern s)).2 s) -> wp (sys f) s Q.
Proof. unfold wp, sys. by destruct (f (kern s)). Qed.
Lemma wp_print m s (Q : unit -> load_t -> Prop) : Q tt (put_out (out s ++ [m]) s) -> wp (print m) s Q.
Proof. done. Qed.
Lemma wp_count f s (Q : unit -> load_t -> Prop) : Q tt (put_st (f (st s)) s) -> wp (count f) s Q.
Proof. done. Qed.

Lemma cancel_if_wp t s A fl (Q : unit -> load_t -> Prop) :
  rep (tmrs s) A fl [] -> match t with Some t => is_Some (A !! t) | None => True end ->
  (forall ts fl', rep ts (del t A) fl' [] -> Q tt (put_tmrs ts s)) -> wp (cancel_if t) s Q.
Proof.
  intros Hrep Ht HQ. unfold cancel_if. destruct t as [t|]; simpl in *.
  - destruct Ht as [i Hi]. unfold tm. wp_step. eapply wp_mono; [by eapply tmr_cancel_wp |].
    cbv beta. intros [] ts Hts. by eapply HQ.
  - wp_step. assert (Hs : put_tmrs (tmrs s) s = s) by (by destruct s). rewrite <- Hs. by eapply HQ.
Qed.

(** * Formatting the request *)

Lemma snprintf_fits buf (pos : nat) text :
  Z.of_nat (length buf) = BUF_SIZE -> Z.of_nat (pos + length text) < BUF_SIZE ->
  exists buf', snprintf buf (Z.of_nat pos) text = Some (buf', Z.of_nat (length text)) /\
    Z.of_nat (length buf') = BUF_SIZE /\ take (pos + length text) buf' = take pos buf ++ text.
Proof.
  unfold BUF_SIZE. intros Hb Hfit. unfold snprintf, BUF_SIZE.
  assert (Hu : u64 (600 - Z.of_nat pos) = 600 - Z.of_nat pos) by (apply u64_small; lia). rewrite Hu. cbv zeta.
  destruct (_ =? 0) eqn:E; [lia |].
  rewrite take_ge by lia. rewrite length_app. simpl length.
  destruct (_ >? 600) eqn:E2; [apply Z.gtb_lt in E2; lia |]. rewrite Nat2Z.id. eexists. split; [done |].
  rewrite !length_app, length_take, length_drop. simpl. split; [lia |].
  rewrite (assoc_L (++)), (assoc_L (++)), <- (assoc_L (++)). rewrite take_app_length'; [done |].
  rewrite length_app, length_take. lia.
Qed.

Lemma format_parts_fits parts buf (pos : nat) :
  Z.of_nat (length buf) = BUF_SIZE -> Z.of_nat (pos + length (concat parts)) < BUF_SIZE ->
  exists buf', format_parts buf (Z.of_nat pos) parts = Some (buf', Z.of_nat (pos + length (concat parts))) /\
    Z.of_nat (length buf') = BUF_SIZE /\ take (pos + length (concat parts)) buf' = take pos buf ++ concat parts.
Proof.
  revert buf pos. induction parts as [|p parts IH]; intros buf pos Hb Hfit; simpl in *.
  - exists buf. rewrite Nat.add_0_r, app_nil_r. done.
  - rewrite length_app in *. destruct (snprintf_fits buf pos p) as (buf1 & -> & Hb1 & Ht1); [done | lia |].
    rewrite <- Nat2Z.inj_add. destruct (IH buf1 (pos + length p)%nat) as (buf' & -> & ? & Ht); [done | lia |].
    exists buf'. rewrite Nat.add_assoc. do 2 (split; [done |]). by rewrite Ht, Ht1, <- (assoc_L (++)).
Qed.

Lemma format_request_fits u :
  Z.of_nat (length junk_buf) = BUF_SIZE -> Z.of_nat (length (request cfg u)) < BUF_SIZE ->
  format_request (do_proxy cfg) junk_buf u = Some (request cfg u).
Proof.
  intros Hb Hfit. unfold format_request, request in *.
  destruct (format_parts_fits (request_parts (do_proxy cfg) u) junk_buf 0 Hb Hfit) as (buf' & Hf & _ & Ht).
  change (Z.of_nat 0) with 0 in Hf. rewrite Hf.
  unfold BUF_SIZE in *. destruct (_ >? 600) eqn:E; [apply Z.gtb_lt in E; lia |]. rewrite Nat2Z.id.
  by rewrite Ht.
Qed.

(** * Closing a connection *)

(** Whether the check against the first fetch of the URL fails, and what the
    URL's entry holds afterwards. *)
Definition bad_fetch c u : bool :=
  if do_checksum cfg then got_checksum u && negb (c_checksum c =? u_checksum u)
  else got_bytes u && negb (c_bytes c =? u_bytes u).
Definition noted c u : url addr :=
  if do_checksum cfg then (if got_checksum u then u else u_put_checksum (c_checksum c) u)
  else (if got_bytes u then u else u_put_bytes (c_bytes c) u).

Record closed cnum c u s s' : Prop := {
  cl_conns : connections s' = <[cnum := c_put_state CNST_FREE c]> (connections s);
  cl_num : num_connections s' = i32 (num_connections s - 1) /\ max_parallel s' = max_parallel s;
  cl_urls : urls s' = <[url_num c := noted c u]> (urls s);
  cl_fetches : fetches_started (st s') = fetches_started (st s) /\
    fetches_completed (st s') = i32 (fetches_completed (st s) + 1) /\
    total_bytes (st s') = i64 (total_bytes (st s) + c_bytes c);
  cl_connects : let us := delta_timeval (connect_at c) (request_at c) in
    if did_connect c
    then connects_completed (st s') = i32 (connects_completed (st s) + 1) /\
      total_connect_usecs (st s') = i64 (total_connect_usecs (st s) + us) /\
      max_connect_usecs (st s') = Z.max (max_connect_usecs (st s)) us /\
      min_connect_usecs (st s') = Z.min (min_connect_usecs (st s)) us
    else connects_completed (st s') = connects_completed (st s) /\
      total_connect_usecs (st s') = total_connect_usecs (st s);
  cl_responses : let us := delta_timeval (request_at c) (response_at c) in
    if did_response c
    then responses_completed (st s') = i32 (responses_completed (st s) + 1) /\
      total_response_usecs (st s') = i64 (total_response_usecs (st s) + us) /\
      max_response_usecs (st s') = Z.max (max_response_usecs (st s)) us /\
      min_response_usecs (st s') = Z.min (min_response_usecs (st s)) us
    else responses_completed (st s') = responses_completed (st s) /\
      total_response_usecs (st s') = total_response_usecs (st s);
  cl_codes : length (http_status_counts (st s')) = length (http_status_counts (st s)) /\
    forall k, http_status_counts (st s') !! k =
      (if decide (0 <= h_status (c_hdr c) <= 999 /\ Z.of_nat k = h_status (c_hdr c))
       then (fun n => i32 (n + 1)) <$> http_status_counts (st s) !! k
       else http_status_counts (st s) !! k);
  cl_bad : total_timeouts (st s') = total_timeouts (st s) /\
    total_badchecksums (st s') = (if do_checksum cfg && bad_fetch c u
      then i32 (total_badchecksums (st s) + 1) else total_badchecksums (st s)) /\
    total_badbytes (st s') = (if negb (do_checksum cfg) && bad_fetch c u
      then i32 (total_badbytes (st s) + 1) else total_badbytes (st s));
  cl_rest : now s' = now s /\ start_at s' = start_at s
}.

Lemma check_fetch_wp cnum s c u (Q : unit -> load_t -> Prop) :
  connections s !! cnum = Some c -> urls s !! url_num c = Some u ->
  (forall s', connections s' = connections s -> tmrs s' = tmrs s -> num_connections s' = num_connections s ->
     max_parallel s' = max_parallel s -> now s' = now s -> start_at s' = start_at s ->
     urls s' = <[url_num c := noted c u]> (urls s) ->
     st s' = (if bad_fetch c u then (if do_checksum cfg then st_badchecksum (st s) else st_badbyte (st s)) else st s) ->
     Q tt s') ->
  wp (check_fetch cfg cnum) s Q.
Proof.
  intros Hc Hu HQ. unfold check_fetch. wp_step. eapply wp_conn; [done |]. wp_step. eapply wp_url_at; [done |].
  assert (Hid : <[url_num c := u]> (urls s) = urls s) by (by apply list_insert_id).
  unfold bad_fetch, noted in *. destruct (do_checksum cfg).
  - destruct (got_checksum u); simpl negb; cbv iota; [destruct (c_checksum c =? u_checksum u); simpl negb; cbv iota|].
    + wp_step. by apply HQ.
    + wp_step. apply wp_print, wp_count. by apply HQ.
    + eapply wp_upd_url; [done |]. by apply HQ.
  - destruct (got_bytes u); simpl negb; cbv iota; [destruct (c_bytes c =? u_bytes u); simpl negb; cbv iota|].
    + wp_step. by apply HQ.
    + wp_step. apply wp_print, wp_count. by apply HQ.
    + eapply wp_upd_url; [done |]. by apply HQ.
Qed.

Lemma codes_lookup (l : list Z) code (k : nat) :
  (if bool_decide (0 <= code <= 999) then alter (fun n => i32 (n + 1)) (Z.to_nat code) l else l) !! k =
  if decide (0 <= code <= 999 /\ Z.of_nat k = code) then (fun n => i32 (n + 1)) <$> l !! k else l !! k.
Proof.
  case_bool_decide as Hd; case_decide as Hk; try done.
  - destruct Hk as [_ <-]. by rewrite Nat2Z.id, list_lookup_alter_eq.
  - rewrite list_lookup_alter_ne; [done |]. intros <-. apply Hk. split; [done | lia].
  - tauto.
Qed.

Lemma close_connection_wp cnum s A fl c u :
  rep (tmrs s) A fl [] -> connections s !! cnum = Some c -> urls s !! url_num c = Some u ->
  match idle_timer c with Some t => is_Some (A !! t) | None => True end ->
  match wakeup_timer c with Some w => is_Some (A !! w) /\ idle_timer c <> Some w | None => True end ->
  wp (close_connection cfg cnum) s (fun _ s' =>
    closed cnum c u s s' /\ exists fl', rep (tmrs s') (del (wakeup_timer c) (del (idle_timer c) A)) fl' []).
Proof.
  intros Hrep Hc Hu Hi Hw. assert (Hlt : (cnum < length (connections s))%nat) by (by eapply lookup_lt_Some).
  unfold close_connection. wp_step. eapply wp_conn; [done |]. wp_step. apply wp_sys. wp_step.
  eapply wp_upd; [done |]. simpl. wp_step. eapply cancel_if_wp; [done | done |]. intros ts1 fl1 Hr1. wp_step.
  eapply cancel_if_wp; [done | |].
  { destruct (wakeup_timer c) as [w|]; [|done]. destruct Hw as [Hw Hne]. destruct (idle_timer c) as [t|]; simpl; [|done].
    rewrite lookup_delete_ne by congruence. done. }
  intros ts2 fl2 Hr2. do 3 wp_step. apply wp_count. simpl.
  assert (Hif : forall (b : bool) f s (Q : unit -> load_t -> Prop),
    Q tt (put_st (if b then f (st s) else st s) s) -> wp (if b then count f else ret tt) s Q).
  { intros [] f s0 Q HQ; [done |]. by destruct s0. }
  wp_step. apply Hif. wp_step. apply Hif. wp_step. apply Hif.
  eapply check_fetch_wp; [fields; by rewrite list_lookup_insert_eq | done |]. fields.
  intros s' H1 H2 H3 H4 H5 H6 H7 H8. split; [|rewrite H2; by exists fl2].
  set (code := h_status (c_hdr c)) in *.
  assert (Hcode : (0 <=? code) && (code <=? 999) = bool_decide (0 <= code <= 999)).
  { apply eq_bool_prop_intro. rewrite bool_decide_spec, andb_True, !Is_true_true, !Z.leb_le. done. }
  assert (Hbad : bad_fetch (c_put_state CNST_FREE c) u = bad_fetch c u) by done. rewrite Hbad in H8.
  constructor; [done | done | done | | | | | | done]; rewrite H8;
    destruct (do_checksum cfg), (bad_fetch c u), (did_connect c), (did_response c); simpl; rewrite ?Hcode;
    first [done | case_bool_decide as Hd; simpl; (done || (split; [by rewrite ?length_alter |]))];
    intros k; rewrite <- codes_lookup;
    first [by rewrite bool_decide_eq_true_2 | by rewrite bool_decide_eq_false_2].
Qed.

Lemma noted_ok c u : url_ok cfg (noted c u) <-> url_ok cfg u.
Proof. unfold noted. by destruct (do_checksum cfg), (got_checksum u), (got_bytes u). Qed.

(** Closing, as the invariant sees it: from the state [s0] of which [s] differs
    only in the timers of the slot. *)
Lemma closed_closes cnum c u s s' s0 :
  closed cnum c u s s' -> urls s !! url_num c = Some u ->
  (exists c0, connections s = <[cnum := c0]> (connections s0)) ->
  num_connections s = num_connections s0 -> max_parallel s = max_parallel s0 -> urls s = urls s0 ->
  st s = st s0 -> now s = now s0 -> closes cfg cnum s0 s'.
Proof.
  intros [Hcs [Hn Hm] Hu (Hst & Hco & _) _ _ [Hcodes _] _ [Hnow _]] Hlu [c0 Hc0] En Em Eu Es Enow.
  constructor; rewrite ?Hn, ?Hm, ?Hu, ?Hst, ?Hco, ?Hcodes, ?Hnow, ?En, ?Em, ?Eu, ?Es, ?Enow; try done.
  - exists (c_put_state CNST_FREE c). by rewrite Hcs, Hc0, list_insert_insert_eq.
  - split; [apply length_insert |]. intros Hok. apply Forall_insert; [done |]. apply noted_ok.
    rewrite Forall_lookup in Hok. apply (Hok (url_num c)). by rewrite <- Eu.
Qed.

(** Where the invariant holds afterwards, with the clock where it was. *)
Definition kept s s' : Prop :=
  now s' = now s /\ exists A' fl', rep (tmrs s') A' fl' [] /\ Inv s' A'.

Context (Hgood : good_config cfg).

Lemma inv_url s A cnum c :
  Inv s A -> connections s !! cnum = Some c -> ~ free c ->
  exists u, urls s !! url_num c = Some u /\ url_ok cfg u.
Proof.
  intros HI Hc Hf. destruct (inv_slots _ _ _ HI _ _ Hc Hf) as [Hu _ _].
  apply lookup_lt_is_Some_2 in Hu as [u Hu]. exists u. split; [done |].
  destruct (inv_urls _ _ _ HI) as (_ & _ & Hok). rewrite Forall_lookup in Hok. eauto.
Qed.

Lemma close_kept cnum s A fl c :
  rep (tmrs s) A fl [] -> Inv s A -> connections s !! cnum = Some c -> ~ free c ->
  wp (close_connection cfg cnum) s (fun _ s' => kept s s').
Proof.
  intros Hrep HI Hc Hf. destruct (inv_url _ _ _ _ HI Hc Hf) as (u & Hu & _).
  destruct (live_timers _ _ _ _ _ HI Hc Hf) as (t & tm & Ht & HA & Hw).
  eapply wp_mono; [eapply close_connection_wp; [done | done | done | |] |].
  - rewrite Ht. by eexists.
  - destruct (wakeup_timer c) as [w|]; [|done]. destruct Hw as (_ & ? & tw & ? & _).
    split; [by eexists | congruence].
  - cbv beta. intros _ s' [Hcl [fl' Hrep']]. split; [apply Hcl |].
    exists (del (wakeup_timer c) (del (idle_timer c) A)), fl'. split; [done |].
    eapply inv_closes; [done..|]. eapply closed_closes; [done | done | | done..].
    exists c. by rewrite list_insert_id.
Qed.

(** * Connecting *)

Context (Hbuf : Z.of_nat (length junk_buf) = BUF_SIZE).

Lemma send_request_wp cnum s A fl c :
  rep (tmrs s) A fl [] -> Inv s A -> connections s !! cnum = Some c -> h_conn (c_hdr c) = CNST_CONNECTING ->
  wp (send_request cfg junk_buf cnum) s (fun _ s' => kept s s').
Proof.
  intros Hrep HI Hc Hst. assert (Hf : ~ free c) by (unfold free; by rewrite Hst).
  assert (Hlt : (cnum < length (connections s))%nat) by (by eapply lookup_lt_Some).
  destruct (inv_url _ _ _ _ HI Hc Hf) as (u & Hu & [Hfit _]).
  unfold send_request. wp_step. eapply wp_conn; [done |]. wp_step. eapply wp_url_at; [done |]. wp_step.
  eapply wp_upd; [done |]. wp_step. eapply wp_get_or_undef; [by apply format_request_fits |]. do 3 wp_step.
  eapply wp_upd; [fields; by rewrite list_lookup_insert_eq |]. fields. rewrite list_insert_insert_eq.
  wp_step. apply wp_sys. fields.
  set (c1 := c_put_request_at (now s) (c_put_did_connect true c)).
  assert (HI1 : Inv (put_connections (<[cnum := c1]> (connections s)) s) A) by (by eapply inv_upd).
  destruct (_ <? 0).
  - wp_step. apply wp_print. eapply wp_mono; [eapply (close_kept cnum _ A fl c1)|].
    + done.
    + by apply inv_put_out, inv_put_kern.
    + fields. by rewrite list_lookup_insert_eq.
    + done.
    + done.
  - eapply wp_upd; [fields; by rewrite list_lookup_insert_eq |]. split; [done |]. exists A, fl. split; [done |].
    eapply (inv_upd cfg (put_kern _ (put_connections (<[cnum:=c1]> (connections s)) s)) A cnum c1).
    + by apply inv_put_kern.
    + fields. by rewrite list_lookup_insert_eq.
    + done.
    + done.
    + done.
    + done.
    + done.
    + done.
    + simpl. by rewrite Hst.
Qed.

Lemma handle_connect_wp cnum s A fl c :
  rep (tmrs s) A fl [] -> Inv s A -> connections s !! cnum = Some c -> h_conn (c_hdr c) = CNST_CONNECTING ->
  wp (handle_connect cfg junk_buf cnum true) s (fun _ s' => kept s s').
Proof.
  intros Hrep HI Hc Hst. assert (Hf : ~ free c) by (unfold free; by rewrite Hst).
  destruct (inv_url _ _ _ _ HI Hc Hf) as (u & Hu & _).
  unfold handle_connect. wp_step. eapply wp_conn; [done |]. wp_step. eapply wp_url_at; [done |]. wp_step. apply wp_sys.
  set (s1 := put_kern _ s). assert (HI1 : Inv s1 A) by (by apply inv_put_kern).
  assert (Hclose : forall k o, wp (close_connection cfg cnum) (put_out o (put_kern k s1)) (fun _ s' => kept s s')).
  { intros k o. eapply wp_mono; [eapply (close_kept cnum _ A fl c); [done | by apply inv_put_out, inv_put_kern | done | done] | done]. }
  assert (Hsend : wp (send_request cfg junk_buf cnum) s1 (fun _ s' => kept s s')).
  { eapply wp_mono; [by eapply send_request_wp | done]. }
  destruct (_ <? 0); [|done]. destruct (_ =? EISCONN); [done |]. destruct (_ =? EINVAL).
  - wp_step. apply wp_sys. wp_step. apply wp_print. apply Hclose.
  - wp_step. apply wp_print. apply (Hclose (kern s1)).
Qed.

(** * Starting *)

Context (fresh : K -> Z -> Prop) {KL : KernelLaws fresh}.

Lemma create_wp pr cd ms per s A fl (Q : option loc -> load_t -> Prop) :
  rep (tmrs s) A fl [] ->
  (forall t ts fl', A !! t = None -> rep ts (<[t := TInfo pr cd ms per (time_plus (now s) ms)]> A) fl' [] ->
     Q (Some t) (put_tmrs ts s)) ->
  wp (create pr cd ms per) s Q.
Proof.
  intros Hrep HQ. unfold create, tm. do 3 wp_step.
  eapply wp_mono; [by apply tmr_create_wp |]. cbv beta. intros [t|] ts Hts; simpl in Hts.
  - destruct Hts as (? & _ & ?). by eapply HQ.
  - destruct Hts as (_ & Hm & _). by rewrite kl_malloc in Hm.
Qed.

(** The slot after [start_socket], with its idle timer; the rest of the state
    is left alone but for the system. *)
Record started cnum (n : nat) c s s' A : Prop := {
  sd_conns : exists c' t fl', connections s' = <[cnum := c']> (connections s) /\
    url_num c' = n /\ fd_ok (conn_fd c') = true /\ idle_timer c' = Some t /\ wakeup_timer c' = None /\
    h_conn (c_hdr c') = CNST_CONNECTING /\ started_at c' = now s /\ A !! t = None /\
    rep (tmrs s') (<[t := idle_info cfg cnum (time_plus (now s) (idle_secs cfg * 1000))]> A) fl' [];
  sd_rest : num_connections s' = num_connections s /\ max_parallel s' = max_parallel s /\ urls s' = urls s /\
    st s' = st s /\ now s' = now s /\ start_at s' = start_at s
}.

Lemma start_connect_wp cnum n fd s c u (Q : unit -> load_t -> Prop) :
  connections s !! cnum = Some c -> urls s !! n = Some u -> sa_len (u_sa u) <= SA_IN_SIZE ->
  fresh (kern s) fd ->
  (forall k, Q tt (put_kern k (put_connections
     (<[cnum := c_put_state CNST_CONNECTING (c_put_connect_at (u_sa u) (now s) c)]> (connections s)) s))) ->
  wp (start_connect cfg junk_buf n cnum fd) s Q.
Proof.
  intros Hc Hu Hsa Hfr HQ. assert (Hlt : (cnum < length (connections s))%nat) by (by eapply lookup_lt_Some).
  unfold start_connect. wp_step. eapply wp_url_at; [done |]. do 3 wp_step.
  destruct (_ >? _) eqn:E; [apply Z.gtb_lt in E; lia |]. do 2 wp_step. eapply wp_upd; [done |]. wp_step.
  apply wp_sys. fields. rewrite kl_connect by done. simpl.
  eapply wp_upd; [fields; by rewrite list_lookup_insert_eq |]. fields. rewrite list_insert_insert_eq. apply HQ.
Qed.

Lemma start_socket_wp cnum n s A fl c u :
  rep (tmrs s) A fl [] -> connections s !! cnum = Some c -> urls s !! n = Some u ->
  sa_len (u_sa u) <= SA_IN_SIZE ->
  wp (start_socket cfg junk_buf n cnum) s (fun _ s' => started cnum n c s s' A).
Proof.
  intros Hrep Hc Hu Hsa. assert (Hlt : (cnum < length (connections s))%nat) by (by eapply lookup_lt_Some).
  unfold start_socket. do 3 wp_step. eapply create_wp; [done |]. intros t ts fl' Ht Hts. wp_step.
  eapply wp_upd; [done |]. wp_step. eapply wp_url_at; [done |]. wp_step. apply wp_sys. fields.
  destruct (kl_socket (kern s) (u_sa u)) as [Hfd Hfr].
  destruct (k_socket (u_sa u) (kern s)) as [fd k1]. simpl in *. wp_step.
  eapply wp_upd; [fields; by rewrite list_lookup_insert_eq |]. fields. rewrite list_insert_insert_eq.
  assert (Hpos : fd <? 0 = false) by (unfold fd_ok in Hfd; lia). rewrite Hpos.
  wp_step. apply wp_sys. fields. destruct (kl_getfl k1 fd Hfr) as [Hfl Hfr1].
  destruct (k_getfl fd k1) as [flags k2]. simpl in *.
  destruct (flags =? -1) eqn:E; [lia |]. wp_step. apply wp_sys. fields.
  destruct (kl_setfl k2 fd (Z.lor flags O_NDELAY) Hfr1) as [Hset Hfr2].
  destruct (k_setfl fd (Z.lor flags O_NDELAY) k2) as [r k3]. simpl in *. subst r. change (0 <? 0) with false. cbv iota.
  set (c1 := c_put_fd fd (c_fill n (now s) (Some t) c)).
  assert (Hconn : forall k, fresh k fd ->
    wp (start_connect cfg junk_buf n cnum fd)
      (put_kern k (put_kern k3 (put_connections (<[cnum := c1]> (connections s))
        (put_kern k1 (put_connections (<[cnum := c_fill n (now s) (Some t) c]> (connections s)) (put_tmrs ts s))))))
      (fun _ s' => started cnum n c s s' A)).
  { intros k Hk. eapply start_connect_wp; [fields; by rewrite list_lookup_insert_eq | done | done | done |].
    intros k'. fields. rewrite list_insert_insert_eq. split; [|done].
    by exists (c_put_state CNST_CONNECTING (c_put_connect_at (u_sa u) (now s) c1)), t, fl'. }
  destruct (sips cfg) as [|sa0 sas] eqn:Hsips.
  - specialize (Hconn k3 Hfr2). by apply Hconn.
  - wp_step. apply wp_sys. fields. pose proof (kl_fresh_random k3 fd Hfr2) as Hfr3. pose proof (kl_random k3) as Hx.
    destruct (k_random k3) as [x k4]. simpl in Hfr3, Hx.
    assert (Hin : (Z.to_nat (u64 x mod Z.of_nat (length (sa0 :: sas))) < length (sa0 :: sas))%nat).
    { pose proof (Z.mod_pos_bound (u64 x) (Z.of_nat (length (sa0 :: sas)))). simpl length in *. lia. }
    apply lookup_lt_is_Some_2 in Hin as [sa Hsa']. wp_step. eapply wp_get_or_undef; [done |]. wp_step.
    apply wp_sys. fields. destruct (kl_bind k4 fd sa Hfr3) as [Hb Hfr4].
    cbn [fst snd]. destruct (k_bind fd sa k4) as [b k5]. simpl in Hb, Hfr4 |- *. subst b. simpl.
    by apply Hconn.
Qed.

(** How the program may exit: through [finish], which destroys the timers, or
    because select failed. *)
Definition exit_ok (code : Z) s : Prop := (code = 0 /\ theap (tmrs s) = ∅) \/ code = 1.

Lemma finish_wpe {R} s A fl (Q : R -> load_t -> Prop) :
  rep (tmrs s) A fl [] -> wpe (finish cfg) s Q exit_ok.
Proof.
  intros Hrep. unfold finish, tm. do 6 wp_step. apply wpe_of_wp. eapply wp_mono; [by eapply tmr_destroy_wp |].
  cbv beta. intros _ ts [_ Hts]. apply wpe_exit. by left.
Qed.

Lemma find_free_spec cs k :
  match find_free cs k with
  | Some n => exists j c, n = (k + j)%nat /\ cs !! j = Some c /\ free c
  | None => Forall (fun c => ~ free c) cs
  end.
Proof.
  revert k. induction cs as [|c cs IH]; intros k; simpl; [constructor |]. case_decide as Hd.
  - exists 0%nat, c. split; [lia | done].
  - specialize (IH (S k)). destruct (find_free cs (S k)).
    + destruct IH as (j & c' & -> & ? & ?). exists (S j), c'. split; [lia | done].
    + by constructor.
Qed.

(** The invariant when a slot went from free to in use. *)
Lemma inv_starts s A cnum c s' c' t :
  Inv s A -> connections s !! cnum = Some c -> free c ->
  connections s' = <[cnum := c']> (connections s) ->
  (url_num c' < length (urls s))%nat -> fd_ok (conn_fd c') = true -> idle_timer c' = Some t -> wakeup_timer c' = None ->
  h_conn (c_hdr c') = CNST_CONNECTING -> A !! t = None -> urls s' = urls s -> now s' = now s ->
  num_connections s' = i32 (num_connections s + 1) ->
  max_parallel s' = Z.max (num_connections s') (max_parallel s) ->
  st s' = st_started (st s) ->
  match start cfg, end_ cfg with START_PARALLEL _, END_FETCHES e => fetches_started (st s) < e < 2 ^ 31 | _, _ => True end ->
  Inv s' (<[t := idle_info cfg cnum (time_plus (now s) (idle_secs cfg * 1000))]> A).
Proof.
  intros HI Hc Hf Hcs Hu Hfd Hi Hw Hst Ht Hul Hnow Hnum Hmax Hstats Hlim.
  set (i0 := idle_info cfg cnum (time_plus (now s) (idle_secs cfg * 1000))).
  assert (Hf' : ~ free c') by (unfold free; by rewrite Hst).
  destruct (tables_update cfg (connections s) A (<[t := i0]> A) cnum c c' (length (urls s))
    (inv_slots _ _ _ HI) (inv_timers _ _ _ HI) Hc) as [Hslots Htimers].
  - intros t' i Hi' Hm. rewrite lookup_insert_ne; [done | congruence].
  - intros t' i. rewrite lookup_insert_Some. intros [[<- <-]|[Hne Hi']]; [right | left].
    + done.
    + split; [|by left]. intros Hm. pose proof (mine_owned _ _ _ _ _ _ _ HI Hc Hi' Hm) as [Hnf _]. done.
  - intros _. constructor; [done | done |]. exists t, (time_plus (now s) (idle_secs cfg * 1000)).
    rewrite Hw, Hst. split; [done |]. by rewrite lookup_insert_eq.
  - assert (Hb := busy_insert (connections s) cnum c c' Hc). rewrite decide_True, decide_False in Hb by done.
    pose proof (busy_bound (<[cnum := c']> (connections s))) as Hbb. rewrite length_insert, (inv_len _ _ _ HI) in Hbb.
    pose proof (inv_num _ _ _ HI) as Hn. pose proof (inv_max _ _ _ HI) as Hm. pose proof (gc_size _ Hgood).
    pose proof (busy_bound (connections s)).
    assert (Hnum' : num_connections s' = num_connections s + 1) by (rewrite Hnum; apply i32_small; lia).
    constructor; rewrite ?Hcs, ?Hul, ?Hnow, ?Hstats; try done.
    + rewrite length_insert. apply HI.
    + lia.
    + lia.
    + simpl. rewrite (inv_started _ _ _ HI), i32_add_l, Hnum'. f_equal. lia.
    + apply HI.
    + intros t' i. rewrite lookup_insert_Some. intros [[<- <-]|[_ Hi']]; [|by apply (inv_run _ _ _ HI t' i)].
      split; [|done]. apply time_plus_spec; [apply HI | pose proof (gc_idle _ Hgood); lia].
    + apply HI.
    + apply HI.
    + destruct (start cfg); try done. destruct (end_ cfg) as [|e|]; try done. simpl.
      pose proof (inv_started _ _ _ HI) as Hs. pose proof (i32_range (fetches_completed (st s) + num_connections s)).
      rewrite i32_small; lia.
Qed.

(** What [start_connection] adds to the timers. *)
Definition grew s A s' : Prop :=
  now s' = now s /\ exists t i fl', A !! t = None /\ rep (tmrs s') (<[t := i]> A) fl' [] /\ Inv s' (<[t := i]> A) /\
    total_backlog (now s) (<[t := i]> A) = total_backlog (now s) A /\
    fetches_started (st s') = i32 (fetches_started (st s) + 1).

Lemma start_connection_wpe s A fl :
  rep (tmrs s) A fl [] -> Inv s A ->
  match start cfg, end_ cfg with START_PARALLEL _, END_FETCHES e => fetches_started (st s) < e < 2 ^ 31 | _, _ => True end ->
  wpe (start_connection cfg junk_buf) s (fun _ s' => grew s A s') exit_ok.
Proof.
  intros Hrep HI Hlim. unfold start_connection. do 2 wp_step. pose proof (find_free_spec (connections s) 0) as Hff.
  destruct (find_free (connections s) 0) as [cnum|].
  2: { wp_step. apply wpe_of_wp, wp_print. by eapply finish_wpe. }
  destruct Hff as (j & c & Hj & Hc & Hf). simpl in Hj. subst j.
  wp_step. apply wpe_of_wp, wp_sys. do 2 wp_step. fields. cbv zeta.
  destruct (inv_urls _ _ _ HI) as (Hne & Hlt & Hok).
  set (n := Z.to_nat _). assert (Hn : (n < length (urls s))%nat).
  { pose proof (Z.mod_pos_bound (u64 (k_random (kern s)).1) (Z.of_nat (length (urls s)))).
    assert (length (urls s) <> 0%nat) by (by destruct (urls s)). unfold n. lia. }
  destruct (lookup_lt_is_Some_2 _ _ Hn) as [u Hu].
  assert (Hsa : sa_len (u_sa u) <= SA_IN_SIZE) by (rewrite Forall_lookup in Hok; by apply (Hok n u)).
  wp_step. apply wpe_of_wp. eapply wp_mono; [by eapply (start_socket_wp cnum n _ A fl c u) |]. cbv beta. fields.
  intros _ s1 [(c' & t & fl' & Hcs & Hn' & Hfd & Hi & Hw & Hst & _ & Ht & Hrep') (Hnum & Hmax & Hurls & Hstats & Hnow & _)].
  assert (Hlen : (cnum < length (connections s))%nat) by (by eapply lookup_lt_Some).
  wp_step. apply wpe_of_wp. eapply wp_conn; [rewrite Hcs; by rewrite list_lookup_insert_eq |].
  rewrite decide_False by (unfold free; by rewrite Hst). do 2 wp_step. apply wpe_of_wp, wp_count. split; [done |].
  fields. exists t, (idle_info cfg cnum (time_plus (now s) (idle_secs cfg * 1000))), fl'.
  do 2 (split; [done |]). split; [|split].
  - eapply (inv_starts s A cnum c _ c' t); fields; rewrite ?Hnum, ?Hmax, ?Hstats; try done; [congruence |].
    fields. destruct (_ >? _) eqn:E; rewrite Z.gtb_ltb in E; lia.
  - apply new_timer_backlog; [apply HI | pose proof (gc_idle _ Hgood); lia | done].
  - rewrite Hstats. done.
Qed.

(** * Reading *)

(** The invariant when the idle timer of a slot was reset. *)
Lemma inv_reset s A cnum c t tm :
  Inv s A -> connections s !! cnum = Some c -> ~ free c -> h_conn (c_hdr c) <> CNST_PAUSING ->
  idle_timer c = Some t -> normal tm -> Inv s (<[t := idle_info cfg cnum tm]> A).
Proof.
  intros HI Hc Hf Hp Ht Htm. set (i0 := idle_info cfg cnum tm).
  destruct (live_timers _ _ _ _ _ HI Hc Hf) as (t0 & tm0 & Ht0 & HA0 & Hw). simplify_eq.
  destruct (tables_update cfg (connections s) A (<[t := i0]> A) cnum c c (length (urls s))
    (inv_slots _ _ _ HI) (inv_timers _ _ _ HI) Hc) as [Hslots Htimers].
  - intros t' i Hi Hm. rewrite lookup_insert_ne; [done |]. intros <-. simplify_eq. by destruct Hm.
  - intros t' i. rewrite lookup_insert_Some. intros [[<- <-]|[Hne Hi]].
    + by right.
    + destruct (decide (of_conn i = true /\ i_data i = cnum)) as [Hm|Hm]; [right | left; split; [done | by left]].
      split; [done | by eapply mine_owned].
  - intros _. destruct (inv_slots _ _ _ HI _ _ Hc Hf) as [? ? _]. constructor; [done | done |].
    exists t, tm. rewrite lookup_insert_eq. do 2 (split; [done |]). destruct (wakeup_timer c); [naive_solver | done].
  - rewrite list_insert_id in Hslots, Htimers by done. destruct HI. constructor; try done.
    intros t' i. rewrite lookup_insert_Some. intros [[<- <-]|[_ Hi]]; [split; done | eauto].
Qed.

(** The invariant when a slot begins to pause. *)
Lemma inv_pauses s A cnum c c' t w :
  Inv s A -> connections s !! cnum = Some c -> ~ free c -> h_conn (c_hdr c) <> CNST_PAUSING ->
  idle_timer c = Some t -> A !! t = Some (idle_info cfg cnum (time_plus (now s) (idle_secs cfg * 1000))) ->
  A !! w = None -> url_num c' = url_num c -> conn_fd c' = conn_fd c -> idle_timer c' = Some t ->
  wakeup_timer c' = Some w -> h_conn (c_hdr c') = CNST_PAUSING ->
  Inv (put_connections (<[cnum := c']> (connections s)) s) (<[w := wakeup_info cnum (time_plus (now s) 1000)]> A).
Proof.
  intros HI Hc Hf Hp Ht HAt Hw Hu Hfd Ht' Hw' Hp'. set (i0 := wakeup_info cnum (time_plus (now s) 1000)).
  assert (Hf' : ~ free c') by (unfold free; by rewrite Hp').
  assert (Hne : w <> t) by congruence. pose proof (gc_idle _ Hgood).
  assert (Hn : normal (now s)) by apply HI.
  destruct (time_plus_spec (now s) 1000) as [Hn1 Hu1]; [done | lia |].
  destruct (time_plus_spec (now s) (idle_secs cfg * 1000)) as [Hn2 Hu2]; [done | lia |].
  destruct (tables_update cfg (connections s) A (<[w := i0]> A) cnum c c' (length (urls s))
    (inv_slots _ _ _ HI) (inv_timers _ _ _ HI) Hc) as [Hslots Htimers].
  - intros t' i Hi Hm. rewrite lookup_insert_ne; [done | congruence].
  - intros t' i. rewrite lookup_insert_Some. intros [[<- <-]|[Hne' Hi]]; [by right |].
    destruct (decide (of_conn i = true /\ i_data i = cnum)) as [Hm|Hm]; [right | left; split; [done | by left]].
    split; [done |]. destruct (mine_owned _ _ _ _ _ _ _ HI Hc Hi Hm) as [_ Ho]. split; [done |].
    destruct (live_timers _ _ _ _ _ HI Hc Hf) as (t0 & tm0 & Ht0 & HA0 & Hwk).
    destruct (i_proc i); try done; [congruence |]. rewrite Ho in Hwk. naive_solver.
  - intros _. destruct (inv_slots _ _ _ HI _ _ Hc Hf) as [? ? _]. constructor; [by rewrite Hu | by rewrite Hfd |].
    exists t, (time_plus (now s) (idle_secs cfg * 1000)). rewrite Hw', Hp'. split; [done |].
    rewrite lookup_insert_ne by done. do 2 (split; [done |]). exists (time_plus (now s) 1000).
    rewrite lookup_insert_eq. split; [done |]. apply not_true_is_false. rewrite tv_leb_usecs by done. lia.
  - assert (Hb := busy_insert (connections s) cnum c c' Hc). rewrite !decide_False in Hb by done.
    destruct HI. constructor; fields; rewrite ?length_insert; try done; [lia |].
    intros t' i. rewrite lookup_insert_Some. intros [[<- <-]|[_ Hi]]; [split; done | eauto].
Qed.

(** A slot that is being read, its idle timer just reset. *)
Record reading s A fl cnum c : Prop := {
  rd_rep : rep (tmrs s) A fl [];
  rd_inv : Inv s A;
  rd_conn : connections s !! cnum = Some c;
  rd_state : h_conn (c_hdr c) = CNST_HEADERS \/ h_conn (c_hdr c) = CNST_READING;
  rd_idle : exists t, idle_timer c = Some t /\
    A !! t = Some (idle_info cfg cnum (time_plus (now s) (idle_secs cfg * 1000)))
}.

Lemma reading_upd s A fl cnum c c' :
  reading s A fl cnum c -> (h_conn (c_hdr c') = CNST_HEADERS \/ h_conn (c_hdr c') = CNST_READING) ->
  url_num c' = url_num c -> conn_fd c' = conn_fd c -> idle_timer c' = idle_timer c -> wakeup_timer c' = wakeup_timer c ->
  reading (put_connections (<[cnum := c']> (connections s)) s) A fl cnum c'.
Proof.
  intros [Hrep HI Hc Hst Hidle] Hst' Hu Hfd Hi Hw. assert ((cnum < length (connections s))%nat) by (by eapply lookup_lt_Some).
  constructor; [done | | fields; by rewrite list_lookup_insert_eq | done | by rewrite Hi].
  eapply inv_upd; [done | done | | | done | done | done | done |]; unfold free; intuition congruence.
Qed.

Lemma read_body_wp cnum buf s A fl c :
  reading s A fl cnum c -> h_conn (c_hdr c) = CNST_READING ->
  wp (read_body cfg cnum buf) s (fun _ s' => kept s s').
Proof.
  intros Hr Hst. unfold read_body. wp_step. eapply wp_upd; [apply Hr |]. wp_step.
  set (c1 := c_put_bytes _ c).
  assert (Hr1 : reading (put_connections (<[cnum := c1]> (connections s)) s) A fl cnum c1).
  { eapply reading_upd; [done | by right | done..]. }
  set (s1 := put_connections _ s) in *. eapply wp_conn; [apply Hr1 |]. do 3 wp_step.
  assert (Hlt : (cnum < length (connections s1))%nat) by (eapply lookup_lt_Some; apply Hr1).
  (* what follows the throttle check *)
  assert (Hrest : forall s2 A2 fl2 c2, rep (tmrs s2) A2 fl2 [] -> Inv s2 A2 -> connections s2 !! cnum = Some c2 -> ~ free c2 ->
    now s2 = now s -> wp ((if do_checksum cfg then upd cnum (fun c => c_put_checksum (checksum_loop buf (c_checksum c)) c)
      else ret tt) ;;; c <- conn cnum ;;
      if negb (h_length (c_hdr c) =? -1) && (h_length (c_hdr c) <=? c_bytes c) then close_connection cfg cnum else ret tt)
      s2 (fun _ s' => kept s s')).
  { intros s2 A2 fl2 c2 Hrep2 HI2 Hc2 Hf2 Hn2. assert ((cnum < length (connections s2))%nat) by (by eapply lookup_lt_Some).
    assert (Hend : forall s3 c3, rep (tmrs s3) A2 fl2 [] -> Inv s3 A2 -> connections s3 !! cnum = Some c3 -> ~ free c3 ->
      now s3 = now s -> wp (c <- conn cnum ;;
      if negb (h_length (c_hdr c) =? -1) && (h_length (c_hdr c) <=? c_bytes c) then close_connection cfg cnum else ret tt)
      s3 (fun _ s' => kept s s')).
    { intros s3 c3 Hrep3 HI3 Hc3 Hf3 Hn3. wp_step. eapply wp_conn; [done |]. destruct (_ && _).
      - eapply wp_mono; [by eapply (close_kept cnum s3 A2 fl2 c3) |]. cbv beta. intros _ s' [? ?]. split; [congruence | done].
      - wp_step. split; [done |]. by exists A2, fl2. }
    wp_step. destruct (do_checksum cfg); [|wp_step; by eapply Hend].
    eapply wp_upd; [done |]. eapply Hend; [done | by eapply inv_upd | fields; by rewrite list_lookup_insert_eq | done | done]. }
  destruct (do_throttle cfg && too_fast cfg c1 (now s1)).
  - wp_step. eapply wp_upd; [apply Hr1 |]. wp_step. eapply create_wp; [apply Hr1 |]. intros w ts fl' Hw Hts. fields.
    eapply wp_upd; [fields; by rewrite list_lookup_insert_eq |]. fields. rewrite list_insert_insert_eq.
    destruct Hr1 as [Hrep1 HI1 Hc1 Hst1 (t & Ht & HAt)].
    eapply (Hrest _ _ fl' (c_put_wakeup (Some w) (c_put_state CNST_PAUSING c1))).
    + exact Hts.
    + apply (inv_put_tmrs cfg ts (put_connections _ s1)). apply (inv_pauses s1 A cnum c1 _ t w); try done.
      * unfold free. destruct Hst1; congruence.
      * destruct Hst1; congruence.
    + fields. by rewrite list_lookup_insert_eq.
    + done.
    + done.
  - wp_step. destruct Hr1. eapply Hrest; try done. unfold free. simpl. by rewrite Hst.
Qed.

Lemma handle_read_loop_wp cnum buf s A fl c :
  reading s A fl cnum c -> wp (handle_read_loop cfg 2 cnum buf) s (fun _ s' => kept s s').
Proof.
  intros Hr. assert (Hdone : kept s s) by (split; [done |]; exists A, fl; split; apply Hr).
  destruct buf as [|b buf]; [by apply wp_ret |]. cbn [handle_read_loop]. wp_step. eapply wp_conn; [apply Hr |].
  destruct (rd_state _ _ _ _ _ Hr) as [Hst|Hst]; rewrite Hst; [|by eapply read_body_wp].
  pose proof (header_loop_conn (b :: buf) (c_hdr c) Hst) as Hloop.
  destruct (header_loop (b :: buf) (c_hdr c)) as [h rest]. simpl in Hloop. wp_step. eapply wp_upd; [apply Hr |].
  assert (Hr' : reading (put_connections (<[cnum := c_put_hdr h c]> (connections s)) s) A fl cnum (c_put_hdr h c)).
  { eapply reading_upd; [done | | done..]. simpl. tauto. }
  assert (Hk : kept s (put_connections (<[cnum := c_put_hdr h c]> (connections s)) s)).
  { split; [done |]. exists A, fl. split; apply Hr'. }
  destruct rest as [|b' rest]; [by apply wp_ret |]. destruct Hloop as [[_ [=]]|Hrd].
  wp_step. eapply wp_conn; [apply Hr' |]. simpl h_conn. rewrite Hrd.
  eapply wp_mono; [by eapply read_body_wp |]. cbv beta. intros _ s' [? ?]. split; [done | done].
Qed.

Lemma handle_read_wp cnum s A fl c :
  rep (tmrs s) A fl [] -> Inv s A -> connections s !! cnum = Some c ->
  h_conn (c_hdr c) = CNST_HEADERS \/ h_conn (c_hdr c) = CNST_READING ->
  wp (handle_read cfg cnum) s (fun _ s' => kept s s').
Proof.
  intros Hrep HI Hc Hst. assert (Hf : ~ free c) by (unfold free; destruct Hst; congruence).
  assert (Hp : h_conn (c_hdr c) <> CNST_PAUSING) by (destruct Hst; congruence).
  assert (Hlt : (cnum < length (connections s))%nat) by (by eapply lookup_lt_Some).
  destruct (live_timers _ _ _ _ _ HI Hc Hf) as (t & tm0 & Ht & HA & _). pose proof (gc_idle _ Hgood).
  unfold handle_read, tm. wp_step. eapply wp_conn; [done |]. do 3 wp_step. eapply wp_get_or_undef; [done |]. do 2 wp_step.
  eapply wp_mono; [by eapply tmr_reset_wp |]. cbv beta. intros _ ts Hts. unfold i_with_time in Hts. simpl in Hts.
  destruct (gc_read _ Hgood) as (n & Hn & Hrange). wp_step. eapply wp_get_or_undef; [done |]. wp_step.
  set (A1 := <[t := _]> A) in *.
  assert (HI1 : Inv (put_tmrs ts s) A1).
  { apply inv_put_tmrs. eapply inv_reset; try done. apply time_plus_spec; [apply HI | lia]. }
  assert (Hr0 : reading (put_tmrs ts s) A1 fl cnum c).
  { constructor; [done | done | done | done |]. exists t. split; [done |]. fields. unfold A1. by rewrite lookup_insert_eq. }
  assert (Hread : forall s1 c1, reading s1 A1 fl cnum c1 -> now s1 = now s ->
    wp (r <- sys (k_read (conn_fd c) (u64 n)) ;;
        match r with
        | None | Some [] => close_connection cfg cnum
        | Some buf => if Z.of_nat (length buf) >? READ_BUF_SIZE then undef else handle_read_loop cfg 2 cnum buf
        end) s1 (fun _ s' => kept s s')).
  { intros s1 c1 Hr1 Hn1. wp_step. apply wp_sys.
    assert (Hr2 : forall k, reading (put_kern k s1) A1 fl cnum c1).
    { intros k. destruct Hr1. constructor; try done. by apply inv_put_kern. }
    assert (Hcl : forall k, wp (close_connection cfg cnum) (put_kern k s1) (fun _ s' => kept s s')).
    { intros k. destruct (Hr2 k) as [? ? ? Hst1 _].
      eapply wp_mono; [eapply (close_kept cnum _ A1 fl c1); try done; unfold free; destruct Hst1; congruence |].
      cbv beta. intros _ s' [? ?]. split; [simpl in *; congruence | done]. }
    pose proof (kl_read (kern s1) (conn_fd c) (u64 n)) as Hrd.
    destruct (k_read (conn_fd c) (u64 n) (kern s1)) as [[[|b buf]|] k]; cbn [fst snd] in *; [done | | done].
    specialize (Hrd _ eq_refl). assert (Hu : u64 n = n) by (apply u64_small; unfold READ_BUF_SIZE in *; lia).
    rewrite Hu in Hrd. destruct (_ >? _) eqn:E; [apply Z.gtb_lt in E; lia |].
    eapply wp_mono; [by eapply handle_read_loop_wp |]. cbv beta. intros _ s' [? ?]. split; [simpl in *; congruence | done]. }
  destruct (did_response c).
  - wp_step. by eapply Hread.
  - eapply wp_upd; [done |]. eapply Hread; [|done]. by eapply (reading_upd (put_tmrs ts s)).
Qed.
End Thm.
