(* ===== verification/HttpMain.v ===== *)
(** The load generator as a whole: its timer procedures meet the contract of
    [tmr_run], and every pass of the main loop ends and keeps the invariant. *)
From S2P Require Import Prelude CStr CFloat Timers TimersSpec TimersThm TimersRun TimersClient HttpHeader HttpHeaderThm HttpLoad HttpLoadInv HttpLoadThm.
Local Open Scope Z_scope.

Section Main.
Context {K addr : Type} {KC : Kernel K addr} (cfg : config addr) (junk_buf : list ascii).
Context (Hgood : good_config cfg) (Hbuf : Z.of_nat (length junk_buf) = BUF_SIZE)
  (fresh : K -> Z -> Prop) {KL : KernelLaws fresh}.
Abbreviation tinfo := (@TimersThm.tinfo TimerProc nat).
Abbreviation load_t := (load K addr).
Abbreviation Inv := (Inv cfg).
Implicit Types (s : load_t) (A : gmap loc tinfo) (i : tinfo) (c : connection addr) (cnum : nat).

(** * The timer procedures *)

(** What a call of the procedure of the timer [p] owes to [tmr_run]. *)
Definition called s A (p : loc) i s1 : Prop :=
  exists A1 fl1, rep (tmrs s1) A1 fl1 [] /\ A1 !! p = Some i /\ Inv s1 (fire_one p i A1) /\ now s1 = now s /\
    (total_backlog (now s) A1 <= total_backlog (now s) A)%nat /\
    (forall q j, A !! q = Some j -> q <> p -> tv_leb (i_time i) (i_time j) = true -> is_Some (A1 !! q)).

Lemma del_backlog nw o A : (total_backlog nw (del o A) <= total_backlog nw A)%nat.
Proof.
  destruct o as [t|]; simpl; [|done]. destruct (A !! t) as [i|] eqn:Hi.
  - rewrite (total_backlog_delete nw A t i Hi). lia.
  - by rewrite delete_id.
Qed.

Lemma idle_called s A fl p i :
  rep (tmrs s) A fl [] -> Inv s A -> A !! p = Some i -> i_proc i = idle_connection_p ->
  wp (idle_connection cfg (i_data i)) s (fun _ s1 => called s A p i s1).
Proof.
  intros Hrep HI Hp Hpr. pose proof (inv_timers _ _ _ HI p i Hp) as Hok. unfold timer_ok in Hok. rewrite Hpr in Hok.
  destruct Hok as (c & Hc & Hf & Hown). rewrite Hpr in Hown. set (cnum := i_data i) in *.
  destruct (live_timers _ _ _ _ _ HI Hc Hf) as (t & tm & Ht & HA & Hw). rewrite Hown in Ht. injection Ht as <-.
  assert (Hi : i = idle_info cfg cnum tm) by congruence.
  destruct (inv_url _ _ _ _ _ HI Hc Hf) as (u & Hu & _).
  assert (Hlt : (cnum < length (connections s))%nat) by (by eapply lookup_lt_Some).
  unfold idle_connection. wp_step. eapply wp_upd; [done |]. wp_step.
  eapply wp_conn; [fields; by rewrite list_lookup_insert_eq |]. wp_step. eapply wp_url_at; [done |]. wp_step.
  apply wp_print. wp_step. set (c1 := c_put_idle None c). fields.
  eapply wp_mono; [eapply (close_connection_wp cfg cnum _ A fl c1 u)|].
  - done.
  - fields. by rewrite list_lookup_insert_eq.
  - done.
  - done.
  - simpl. destruct (wakeup_timer c) as [w|]; [|done]. destruct Hw as (_ & _ & tw & ? & _). split; [by eexists | done].
  - cbv beta. intros _ s' [Hcl [fl' Hrep']]. apply wp_count. simpl in Hrep'.
    assert (Hne : wakeup_timer c <> Some p) by (intros E; rewrite E in Hw; naive_solver).
    exists (del (wakeup_timer c) A), fl'. split; [exact Hrep' |]. split; [by apply del_lookup |].
    split; [|split; [apply Hcl | split; [apply del_backlog |]]].
    + assert (Hfire : fire_one p i (del (wakeup_timer c) A) = del (wakeup_timer c) (del (idle_timer c) A)).
      { unfold fire_one. rewrite Hi. simpl. rewrite Hown. simpl. destruct (wakeup_timer c); simpl; [|done].
        apply delete_delete. }
      rewrite Hfire. eapply inv_closes; [done..|]. 
      eapply (closed_closes cfg cnum c1 u _ s' s) in Hcl; try done; [|by eexists].
      destruct Hcl. by constructor.
    + intros q j Hq Hqp Hle. exists j. apply del_lookup. split; [|done]. intros E. rewrite E in Hw.
      destruct Hw as (_ & _ & tw & HAw & Hlater). rewrite HAw in Hq. injection Hq as <-.
      rewrite Hi in Hle. simpl in Hle. congruence.
Qed.

Lemma wakeup_called s A fl p i :
  rep (tmrs s) A fl [] -> Inv s A -> A !! p = Some i -> i_proc i = wakeup_connection_p ->
  wp (wakeup_connection (i_data i)) s (fun _ s1 => called s A p i s1).
Proof.
  intros Hrep HI Hp Hpr. pose proof (inv_timers _ _ _ HI p i Hp) as Hok. unfold timer_ok in Hok. rewrite Hpr in Hok.
  destruct Hok as (c & Hc & Hf & Hown). rewrite Hpr in Hown. set (cnum := i_data i) in *.
  destruct (live_timers _ _ _ _ _ HI Hc Hf) as (t & tm & Ht & HA & Hw). rewrite Hown in Hw.
  destruct Hw as (Hst & Hne & tw & HAw & _). assert (Hi : i = wakeup_info cnum tw) by congruence.
  assert (Hlt : (cnum < length (connections s))%nat) by (by eapply lookup_lt_Some).
  unfold wakeup_connection. wp_step. eapply wp_upd; [done |].
  eapply wp_upd; [fields; by rewrite list_lookup_insert_eq |]. fields. rewrite list_insert_insert_eq.
  exists A, fl. split; [done |]. split; [done |]. split; [|split; [done | split; [done | by eexists]]].
  assert (Hfire : fire_one p i A = delete p A) by (unfold fire_one; by rewrite Hi). rewrite Hfire.
  by eapply (inv_wakes cfg s A cnum c _ p tw); try done; rewrite <- Hi.
Qed.

Lemma progress_called s A fl p i :
  rep (tmrs s) A fl [] -> Inv s A -> A !! p = Some i -> i_proc i = progress_report_p ->
  wp progress_report s (fun _ s1 => called s A p i s1).
Proof.
  intros Hrep HI Hp Hpr. unfold progress_report. do 2 wp_step. apply wp_print.
  exists A, fl. split; [done |]. split; [done |]. split; [|split; [done | split; [done | by eexists]]].
  apply inv_put_out. apply inv_fire_main; [done | done |]. unfold of_conn. by rewrite Hpr.
Qed.

(** With -rate the jittered interval is at least a millisecond. *)
Lemma jitter_interval r x :
  start cfg = START_RATE r -> do_jitter cfg = true -> 0 <= x ->
  1 <= Z.rem x (range_interval cfg) + low_interval cfg.
Proof.
  intros Hs Hj Hx. pose proof (gc_start _ Hgood) as Hr. rewrite Hs in Hr. destruct Hr as [Hr Hr'].
  specialize (Hr' Hj). unfold range_interval, high_interval, low_interval, start_interval. rewrite Hs.
  assert (2 <= 1000 ÷ r <= 1000) by (Z.to_euclidean_division_equations; nia).
  set (n := 1000 ÷ r) in *. clearbody n. Z.to_euclidean_division_equations; nia.
Qed.

Lemma start_called s A fl p i :
  rep (tmrs s) A fl [] -> Inv s A -> A !! p = Some i -> i_proc i = start_timer_p ->
  wpe (start_timer cfg junk_buf) s (fun _ s1 => called s A p i s1) exit_ok.
Proof.
  intros Hrep HI Hp Hpr. pose proof (inv_timers _ _ _ HI p i Hp) as Hok. unfold timer_ok in Hok. rewrite Hpr in Hok.
  destruct Hok as ((r & Hr) & Hper & Hms). assert (Hof : of_conn i = false) by (unfold of_conn; by rewrite Hpr).
  unfold start_timer. wp_step.
  eapply wpe_mono; [apply (start_connection_wpe cfg junk_buf Hgood fresh s A fl Hrep HI); by rewrite Hr | | done].
  cbv beta. intros _ s1 (Hnow & t & i1 & fl1 & Ht & Hrep1 & HI1 & Hback & _).
  assert (Hp1 : <[t := i1]> A !! p = Some i) by (rewrite lookup_insert_ne by congruence; done).
  assert (Hsurv : forall q j, A !! q = Some j -> is_Some (<[t := i1]> A !! q)).
  { intros q j Hq. rewrite lookup_insert_ne by congruence. by eexists. }
  destruct (do_jitter cfg) eqn:Hj.
  - wp_step. apply wpe_of_wp, wp_sys. do 1 wp_step. apply wpe_of_wp. pose proof (kl_random (kern s1)) as Hx.
    eapply (create_wp fresh); [done |]. fields. intros t2 ts fl2 Ht2 Hrep2. wp_step.
    assert (Hms2 : 1 <= Z.rem (k_random (kern s1)).1 (range_interval cfg) + low_interval cfg) by (eapply jitter_interval; [done | done | apply Hx]).
    set (ms2 := _ + _) in *. set (i2 := TInfo start_timer_p _ _ _ _) in *.
    assert (Hp2 : <[t2 := i2]> (<[t := i1]> A) !! p = Some i) by (rewrite lookup_insert_ne by congruence; done).
    exists (<[t2 := i2]> (<[t := i1]> A)), fl2. split; [done |]. split; [done |]. split; [|split; [done | split]].
    + apply inv_fire_main; [|done | done]. apply inv_put_tmrs, inv_add_main; [by apply inv_put_kern | done | done | | |].
      * split; [by exists r |]. simpl. by rewrite Hj.
      * apply time_plus_spec; [apply (inv_now _ _ _ HI1) | lia].
      * done.
    + rewrite <- Hnow. unfold i2. rewrite new_timer_backlog; [by rewrite Hnow, Hback | apply (inv_now _ _ _ HI1) | done | done].
    + intros q j Hq _ _. rewrite lookup_insert_ne; [by eapply Hsurv |]. intros <-.
      destruct (Hsurv _ _ Hq). congruence.
  - wp_step. exists (<[t := i1]> A), fl1. split; [done |]. split; [done |].
    split; [by apply inv_fire_main | split; [done | split; [by rewrite Hback | intros; by eapply Hsurv]]].
Qed.

#[local] Instance load_active : ActiveClient (TC := load_client cfg junk_buf) Inv exit_ok.
Proof.
  split.
  - done.
  - intros s. by destruct s.
  - done.
  - intros. by apply inv_put_tmrs.
  - intros s A HI. split; apply HI.
  - intros s A fl p i Hrep HI Hp _. simpl in *. destruct (i_proc i) eqn:Hpr.
    + apply wpe_of_wp. by eapply idle_called.
    + apply wpe_of_wp. by eapply wakeup_called.
    + apply wpe_of_wp. by eapply progress_called.
    + by eapply start_called.
    + by eapply finish_wpe.
Qed.

(** * The main loop *)

(** The state between two operations: the invariant, for some pending timers. *)
Definition sound s : Prop := exists A fl, rep (tmrs s) A fl [] /\ Inv s A.

Lemma sound_kern k s : sound s -> sound (put_kern k s).
Proof. intros (A & fl & ? & ?). exists A, fl. split; [done | by apply inv_put_kern]. Qed.
Lemma sound_now t s : normal t -> sound s -> sound (put_now t s).
Proof. intros ? (A & fl & ? & ?). exists A, fl. split; [done | by apply inv_put_now]. Qed.

Lemma tick_sound s Q :
  sound s -> (forall s', sound s' -> Q tt s') ->
  wp (t <- sys k_gettimeofday ;; modify (put_now t)) s Q.
Proof.
  intros Hs HQ. wp_step. apply wp_sys. wp_step. apply HQ. apply sound_now; [|by apply sound_kern].
  apply kl_gettimeofday.
Qed.








(** * From the start *)

(** Adding one of main's timers. *)
Lemma create_main_sound pr ms per s (Q : option loc -> load_t -> Prop) :
  sound s -> 1 <= ms ->
  (forall tm, timer_ok cfg (connections s) 1%positive (TInfo pr JunkClientData ms per tm)) ->
  of_conn (TInfo pr JunkClientData ms per (now s)) = false ->
  (forall t ts, sound (put_tmrs ts s) -> Q t (put_tmrs ts s)) -> wp (create pr JunkClientData ms per) s Q.
Proof.
  intros (A & fl & Hrep & HI) Hms Hok Hof HQ. eapply (create_wp fresh); [done |]. intros t ts fl' Ht Hrep'.
  apply HQ. eexists _, fl'. split; [exact Hrep' |]. apply inv_put_tmrs, inv_add_main; try done.
  - specialize (Hok (time_plus (now s) ms)). unfold timer_ok, of_conn in *. simpl in *. by destruct pr.
  - apply time_plus_spec; [apply (inv_now _ _ _ HI) | lia].
Qed.

Lemma init_sound junk s0 old n t :
  tmrs s0 = TState ∅ old None n -> urls s0 <> [] -> Z.of_nat (length (urls s0)) < 2 ^ 32 ->
  Forall (url_ok cfg) (urls s0) -> normal t ->
  forall ts k, rep ts ∅ [] [] ->
  sound (put_start_at t (put_now t (put_kern k (put_tmrs ts (put_st stats0 (put_num 0 0
    (put_connections (map (fun j => c_put_state CNST_FREE (junk j)) (seq 0 (table_size cfg))) s0))))))).
Proof.
  intros Ht Hne Hlen Hok Hn ts k Hrep. exists ∅, []. split; [exact Hrep |].
  assert (Hfree : Forall free (map (fun j => c_put_state CNST_FREE (junk j)) (seq 0 (table_size cfg)))).
  { rewrite Forall_forall. intros c (j & -> & _)%list_elem_of_fmap. done. }
  constructor; fields; try done; try (intros t' i; by rewrite lookup_empty).
  - by rewrite length_map, length_seq.
  - intros cnum c Hc Hf. rewrite Forall_lookup in Hfree. by apply Hfree in Hc.
  - unfold busy. induction Hfree as [|c cs Hc Hcs IH]; [done |]. rewrite filter_cons_False; [done | tauto].
  - lia.
  - pose proof (gc_end _ Hgood). destruct (start cfg), (end_ cfg); try done. simpl. lia.
Qed.

Lemma main_init_sound junk s0 old n :
  tmrs s0 = TState ∅ old None n -> urls s0 <> [] -> Z.of_nat (length (urls s0)) < 2 ^ 32 ->
  Forall (url_ok cfg) (urls s0) -> wp (main_init cfg junk) s0 (fun _ s => sound s).
Proof.
  intros Ht Hne Hlen Hok.
  unfold main_init, tm. do 8 wp_step. fields. rewrite Ht. eapply wp_mono; [apply tmr_init_wp |].
  cbv beta. intros _ ts Hts. wp_step. apply wp_sys. do 4 wp_step.
  assert (Hs : forall k, sound (put_start_at (k_gettimeofday (kern s0)).1 (put_now (k_gettimeofday (kern s0)).1
    (put_kern k (put_tmrs ts (put_st stats0 (put_num 0 0 (put_connections
      (map (fun j => c_put_state CNST_FREE (junk j)) (seq 0 (table_size cfg))) s0)))))))).
  { intros k. eapply init_sound; try done. apply kl_gettimeofday. }
  fields. specialize (Hs (k_gettimeofday (kern s0)).2). revert Hs. generalize (put_start_at (addr := addr) (K := K)).
  intros f. set (s1 := f _ _). clearbody s1. clear f. intros Hs1.
  wp_step. eapply (wp_mono _ _ (fun _ s => sound s)).
  { destruct (do_verbose cfg); [|by wp_step]. apply create_main_sound; try done; try lia; by intros. }
  clear s1 Hs1. cbv beta. intros _ s1 Hs1. wp_step. eapply (wp_mono _ _ (fun _ s => sound s)).
  { pose proof (gc_start _ Hgood) as Hr. destruct (start cfg) as [| |r] eqn:Hst; try (by wp_step).
    assert (1 <= start_interval cfg) by (unfold start_interval; rewrite Hst; Z.to_euclidean_division_equations; nia).
    apply create_main_sound; try done. intros tm. split; [by exists r | done]. }
  clear s1 Hs1. cbv beta. intros _ s1 Hs1. wp_step. eapply (wp_mono _ _ (fun _ s => sound s)); [|intros _ s' Hs'; by wp_step].
  pose proof (gc_end _ Hgood) as He. destruct (end_ cfg) as [| |e]; try (by wp_step).
  apply create_main_sound; try done; lia.
Qed.

(** After main has set up the table, the statistics and its timers, the
    invariant holds: every slot is free, and exactly main's timers run. *)
Theorem main_init_establishes junk s0 old n :
  tmrs s0 = TState ∅ old None n -> urls s0 <> [] -> Z.of_nat (length (urls s0)) < 2 ^ 32 ->
  Forall (url_ok cfg) (urls s0) ->
  exists s, main_init cfg junk s0 = Ret tt s /\ sound s.
Proof.
  intros Ht Hne Hlen Hok. pose proof (main_init_sound junk s0 old n Ht Hne Hlen Hok) as Hwp.
  apply wp_run in Hwp as ([] & s & ? & ?). by exists s.
Qed.


(** ** Reachable states *)



End Main.
