(* ===== verification/HttpRead.v ===== *)
(** What the load generator sends and counts: the text of a request, the
    bookkeeping of a close, the reading of a response in any pieces, and the
    final report. *)
From S2P Require Import Prelude CStr CFloat Timers TimersSpec TimersThm TimersRun HttpHeader HttpHeaderThm HttpLoad HttpLoadInv HttpLoadThm.
Local Open Scope Z_scope.

Section Read.
Context {K addr : Type} {KC : Kernel K addr} (cfg : config addr).
Abbreviation load_t := (load K addr).
Implicit Types (s : load_t) (c : connection addr) (u : url addr) (buf : list ascii).

(** * The request *)

(** When the whole request is shorter than the buffer, the bytes sent are
    exactly the request: the GET line, Host, User-Agent and an empty line. *)
Theorem format_request_exact (junk_buf : list ascii) u :
  Z.of_nat (length junk_buf) = BUF_SIZE -> Z.of_nat (length (concat (request_parts (do_proxy cfg) u))) < BUF_SIZE ->
  format_request (do_proxy cfg) junk_buf u = Some (concat (request_parts (do_proxy cfg) u)).
Proof. apply format_request_fits. Qed.

Lemma snprintf_beyond buf pos text : BUF_SIZE < pos < 2 ^ 31 -> snprintf buf pos text = None.
Proof.
  unfold snprintf, BUF_SIZE. intros Hpos. cbv zeta.
  destruct (_ >? 600) eqn:E; [done |]. rewrite Z.gtb_ltb in E. apply Z.ltb_ge in E. lia.
Qed.

(** A GET line and Host line that are together longer than the buffer (a
    host name of some 80 characters and a path of 500 are enough) make the third
    snprintf write outside it. *)
Theorem format_request_overflows (junk_buf : list ascii) u :
  Z.of_nat (length junk_buf) = BUF_SIZE -> Z.of_nat (length (request_line (do_proxy cfg) u)) < BUF_SIZE ->
  BUF_SIZE < Z.of_nat (length (request_line (do_proxy cfg) u) + length (lit "Host: " ++ hostname u ++ crlf)) < 2 ^ 31 ->
  format_request (do_proxy cfg) junk_buf u = None.
Proof.
  intros Hb H1 H2. unfold format_request, request_parts. cbn [format_parts].
  destruct (snprintf_fits junk_buf 0 (request_line (do_proxy cfg) u)) as (b1 & E1 & _ & _); [done | simpl; lia |].
  change (Z.of_nat 0) with 0 in E1. rewrite E1.
  destruct (snprintf b1 (0 + _) _) as [[b2 n2]|] eqn:E2; [|done].
  assert (Hn2 : n2 = Z.of_nat (length (lit "Host: " ++ hostname u ++ crlf))).
  { unfold snprintf in E2. cbv zeta in E2. destruct (_ >? BUF_SIZE) in E2; [done |]. by injection E2. }
  rewrite snprintf_beyond; [done |]. rewrite Hn2. lia.
Qed.

(** * Closing *)

(** Closing a connection frees its slot, takes it off the connection count
    and adds it to the statistics exactly once: one completed fetch with its
    bytes, one connect and one response time (sum, maximum, minimum) when there
    were any, one count for a status of up to three digits, and a bad checksum
    or byte count exactly when it differs from the first fetch of the URL. *)
Theorem close_connection_counts cnum s A fl c u :
  rep (tmrs s) A fl [] -> connections s !! cnum = Some c -> urls s !! url_num c = Some u ->
  match idle_timer c with Some t => is_Some (A !! t) | None => True end ->
  match wakeup_timer c with Some w => is_Some (A !! w) /\ idle_timer c <> Some w | None => True end ->
  exists s' fl', close_connection cfg cnum s = Ret tt s' /\ closed cfg cnum c u s s' /\
    rep (tmrs s') (del (wakeup_timer c) (del (idle_timer c) A)) fl' [].
Proof.
  intros. pose proof (close_connection_wp cfg cnum s A fl c u) as Hwp.
  apply wp_run in Hwp as ([] & s' & ? & ? & fl' & ?); [|done..]. by exists s', fl'.
Qed.

(** * Reading in pieces *)






(** ** The pieces do not matter *)









Section Response.
Context (status_line : list ascii) (lines : list (list ascii)) (bdy : list ascii) (c0 : connection addr).
Hypothesis Hplain : plain status_line.
Hypothesis Hlines : Forall (fun l => plain l /\ l <> []) lines.
Hypothesis Hlen : last_length lines (-1) = Z.of_nat (length bdy) /\ bdy <> [] /\ Z.of_nat (length bdy) < 2 ^ 63.
Hypothesis Hc0 : c_hdr c0 = hdr_start /\ c_bytes c0 = 0 /\ c_checksum c0 = 0.




End Response.


(** * The final report *)

Lemma code_msgs_spec (counts : list Z) m :
  m ∈ code_msgs counts <-> exists k n, m = m_code (Z.of_nat k) n /\ counts !! k = Some n /\ 0 < n.
Proof.
  unfold code_msgs. rewrite list_elem_of_omap. split.
  - intros ([k n] & Hin & Hm). apply list_elem_of_lookup in Hin as [j Hj]. rewrite list_lookup_imap in Hj.
    destruct (counts !! j) as [n'|] eqn:E; [|done]. simpl in Hj. injection Hj as <- <-.
    destruct (n' >? 0) eqn:En; [|done]. apply Z.gtb_lt in En. exists j, n'. by injection Hm as <-.
  - intros (k & n & -> & Hk & Hn). exists (k, n). split.
    + apply list_elem_of_lookup. exists k. by rewrite list_lookup_imap, Hk.
    + destruct (n >? 0) eqn:En; [done |]. rewrite Z.gtb_ltb in En. apply Z.ltb_ge in En. lia.
Qed.

Lemma elem_of_if {T} (b : bool) (x m : T) : m ∈ (if b then [x] else []) <-> b = true /\ m = x.
Proof. destruct b; rewrite ?list_elem_of_singleton, ?elem_of_nil; naive_solver. Qed.

(** The lines of the report, each with its condition. *)
Lemma final_msgs_in maxp e t m :
  m ∈ final_msgs cfg maxp e t <->
    m = m_fetches (fetches_completed t) maxp (f32_of_Z (total_bytes t)) e \/
    (0 < fetches_completed t /\ m = m_mean (mean (total_bytes t) (fetches_completed t))) \/
    (f_gt (f64_of_f32 e) (f64_lit 1 100) = true /\
       m = m_rates (per_sec (fetches_completed t) e) (per_sec (total_bytes t) e)) \/
    (0 < connects_completed t /\ m = m_connects (millis (mean (total_connect_usecs t) (connects_completed t)))
       (millis (f32_of_Z (max_connect_usecs t))) (millis (f32_of_Z (min_connect_usecs t)))) \/
    (0 < responses_completed t /\ m = m_responses (millis (mean (total_response_usecs t) (responses_completed t)))
       (millis (f32_of_Z (max_response_usecs t))) (millis (f32_of_Z (min_response_usecs t)))) \/
    (total_timeouts t <> 0 /\ m = m_timeouts (total_timeouts t)) \/
    (if do_checksum cfg then total_badchecksums t <> 0 /\ m = m_badchecksums (total_badchecksums t)
     else total_badbytes t <> 0 /\ m = m_badbytes (total_badbytes t)) \/
    m = m_codes \/
    (exists k n, m = m_code (Z.of_nat k) n /\ http_status_counts t !! k = Some n /\ 0 < n).
Proof.
  unfold final_msgs. rewrite elem_of_cons, !elem_of_app, !elem_of_if, elem_of_cons, code_msgs_spec.
  assert (Hgt : forall x, x >? 0 = true <-> 0 < x) by (intros; rewrite Z.gtb_ltb; apply Z.ltb_lt).
  assert (Hne : forall x, negb (x =? 0) = true <-> x <> 0) by (intros; rewrite negb_true_iff; apply Z.eqb_neq).
  rewrite !Hgt, !Hne. destruct (do_checksum cfg); rewrite elem_of_if, Hne; done.
Qed.

Ltac report_cases H :=
  destruct (do_checksum cfg); destruct_or! H;
  first [ by destruct H as [? [=]] | done
        | destruct H as (?k & ?n & [= E] & ? & ?); first [done | apply Nat2Z.inj in E as ->; by subst] ].

(** [finish] exits with 0 and every timer freed; what it prints has the
    totals first, a mean exactly when a fetch was completed, connect and
    response times exactly when there were some, the timeouts exactly when there
    were some, and a line for exactly the statuses that were counted. *)
Theorem finish_reports s A fl :
  rep (tmrs s) A fl [] ->
  exists s' ms, finish (A := unit) cfg s = Exit 0 s' /\ theap (tmrs s') = ∅ /\ out s' = out s ++ ms /\
    (exists e, head ms = Some (m_fetches (fetches_completed (st s)) (max_parallel s) (f32_of_Z (total_bytes (st s))) e)) /\
    ((exists x, m_mean x ∈ ms) <-> 0 < fetches_completed (st s)) /\
    ((exists a b d, m_connects a b d ∈ ms) <-> 0 < connects_completed (st s)) /\
    ((exists a b d, m_responses a b d ∈ ms) <-> 0 < responses_completed (st s)) /\
    ((exists n, m_timeouts n ∈ ms) <-> total_timeouts (st s) <> 0) /\
    (forall k n, m_code (Z.of_nat k) n ∈ ms <-> http_status_counts (st s) !! k = Some n /\ 0 < n).
Proof.
  intros Hrep. pose proof (tmr_destroy_wp (tmrs s) A fl Hrep) as Hd. apply wp_run in Hd as ([] & ts & Hts & _ & Hheap).
  set (ms := final_msgs cfg (max_parallel s) (elapsed_secs (start_at s) (now s)) (st s)).
  exists (put_tmrs ts (put_out (out s ++ ms) s)), ms.
  split; [unfold finish, tm, zoom, bind, gets, modify, id; fields; by rewrite Hts |].
  split; [done |]. split; [done |]. split; [by eexists |].
  assert (Hin : forall m, m ∈ ms <-> _) by (intros m; apply final_msgs_in).
  split; [|split; [|split; [|split]]].
  - split; [intros (x & Hx); apply Hin in Hx; report_cases Hx |]. intros H. eexists. apply Hin. right. by left.
  - split; [intros (x & y & z & Hx); apply Hin in Hx; report_cases Hx |].
    intros H. do 3 eexists. apply Hin. do 3 right. by left.
  - split; [intros (x & y & z & Hx); apply Hin in Hx; report_cases Hx |].
    intros H. do 3 eexists. apply Hin. do 4 right. by left.
  - split; [intros (x & Hx); apply Hin in Hx; report_cases Hx |]. intros H. eexists. apply Hin. do 5 right. by left.
  - intros k n. split; [intros Hx; apply Hin in Hx; report_cases Hx |].
    intros H. apply Hin. do 8 right. by exists k, n.
Qed.
End Read.
