(* ===== verification/HttpLoadDemo.v ===== *)
(** A small system on which the load generator runs to its end, and on which the
    theorems about it are instantiated; and the two known ways its books stop
    balancing when a system call fails. *)
From S2P Require Import Prelude CStr CFloat Timers TimersSpec TimersThm TimersRun HttpHeader HttpHeaderThm HttpLoad HttpLoadInv HttpLoadThm HttpMain HttpRead.
Local Open Scope Z_scope.

(** A system with a clock that moves a second at each look, one new socket at a
    time, and a text the server sends. *)
Record dk := DK { dk_sec : Z; dk_new : bool; dk_data : list ascii }.

Definition dk_read (n : Z) (k : dk) : option (list ascii) * dk :=
  if n <? 0 then (None, k)
  else (Some (take (Z.to_nat n) (dk_data k)), DK (dk_sec k) (dk_new k) (drop (Z.to_nat n) (dk_data k))).
Definition dk_junk : Timer TimerProc nat :=
  MkTimer idle_connection_p 0%nat 0 false (Timeval 0 0) None None 0.

(** [sock] is the descriptor a call of socket gives. *)
Definition demo_kernel (sock : Z) : Kernel dk unit := {|
  sa_len _ := 16;
  k_gettimeofday k := (Timeval (dk_sec k) 0, DK (dk_sec k + 1) (dk_new k) (dk_data k));
  k_random k := (0, k);
  k_socket _ k := (sock, DK (dk_sec k) true (dk_data k));
  k_getfl _ k := (0, k);
  k_setfl _ _ k := (0, k);
  k_bind _ _ k := (0, k);
  k_connect _ _ k := (if dk_new k then (-1, EINPROGRESS) else (0, 0), DK (dk_sec k) false (dk_data k));
  k_so_error _ k := (None, k);
  k_write _ b k := (Z.of_nat (length b), k);
  k_read _ n k := dk_read n k;
  k_close _ k := (tt, k);
  k_select r w _ k := ((1, (r, w)), k);
  k_malloc_ok _ := true;
  k_junk := dk_junk
|}.
#[local] Instance good_kernel : Kernel dk unit := demo_kernel 5.

#[local] Instance good_laws : KernelLaws (K := dk) (fun k _ => dk_new k = true).
Proof.
  split; try done; simpl.
  - intros k fd sa Hk. by rewrite Hk.
  - intros k fd n buf. unfold dk_read. destruct (n <? 0) eqn:E; [done |]. intros [= <-].
    rewrite length_take. apply Z.ltb_ge in E. lia.
Qed.

Definition demo_cfg : config unit := Config false false false false false (f32_of_Z 3360) 60 61%nat
  (START_PARALLEL 1) (END_FETCHES 1) [].
Definition demo_buf : list ascii := replicate 600 NUL.

Lemma demo_buf_len : Z.of_nat (length demo_buf) = BUF_SIZE.
Proof. vm_compute. reflexivity. Qed.

Lemma demo_good : good_config demo_cfg.
Proof.
  constructor; simpl; try done; try lia. exists 30000. split; [reflexivity |]. unfold READ_BUF_SIZE. lia.
Qed.

Definition demo_url : url unit := Url (lit "http://h/") (lit "h") 80 tt (lit "/") false 0 false 0.
Definition demo_text : list ascii := response (lit "HTTP/1.0 200 OK") [lit "Content-length: 3"] (lit "abc").
Definition demo_s0 : load dk unit := Load [] 0 0 [demo_url] stats0 (TState ∅ [] None 0) (Timeval 0 0) (Timeval 0 0)
  (DK 100 false demo_text) [].
Definition demo_conn : connection unit := Connection 0 tt 0 hdr_start false false (Timeval 0 0) (Timeval 0 0)
  (Timeval 0 0) (Timeval 0 0) None None 0 0.

Lemma demo_urls : urls demo_s0 <> [] /\ Z.of_nat (length (urls demo_s0)) < 2 ^ 32 /\ Forall (url_ok demo_cfg) (urls demo_s0).
Proof. split; [done |]. split; [done |]. repeat constructor; vm_compute; done. Qed.

Lemma main_init_establishes_witness :
  exists s, main_init demo_cfg (fun _ => demo_conn) demo_s0 = Ret tt s /\ sound demo_cfg s.
Proof.
  destruct demo_urls as (H1 & H2 & H3).
  apply (main_init_establishes demo_cfg demo_buf demo_good (fun k _ => dk_new k = true) (fun _ => demo_conn) demo_s0 [] 0);
    [reflexivity | exact H1 | exact H2 | exact H3].
Defined.

Definition state_of (o : outcome (load dk unit) unit) : load dk unit :=
  match o with Ret _ s => s | Exit _ s => s | _ => demo_s0 end.
Definition demo_s1 : load dk unit := state_of (main_init demo_cfg (fun _ => demo_conn) demo_s0).





(** The whole run: one fetch of the three bytes, then [finish]. *)
Example demo_run :
  match main_loop demo_cfg demo_buf 10 10 demo_s1 with
  | Exit code s => code = 0 /\ fetches_completed (st s) = 1 /\ total_bytes (st s) = 3 /\ num_connections s = 0 /\
      In (m_code 200 1) (out s)
  | _ => False
  end.
Proof. vm_compute. repeat split. tauto. Qed.

Lemma format_request_exact_witness :
  format_request false demo_buf demo_url = Some (concat (request_parts false demo_url)).
Proof. apply (format_request_exact demo_cfg); [exact demo_buf_len | vm_compute; reflexivity]. Defined.

(** A host name of 90 characters with a path of 500. *)
Definition long_url : url unit := Url [] (replicate 90 "h"%char) 80 tt (replicate 500 "p"%char) false 0 false 0.
Lemma format_request_overflows_witness : format_request false demo_buf long_url = None.
Proof.
  apply (format_request_overflows demo_cfg); [exact demo_buf_len | vm_compute; reflexivity |].
  split; vm_compute; reflexivity.
Defined.

(** A connection that sent its request, with its idle timer. *)
Definition demo_s2 : load dk unit :=
  state_of (main_iter demo_cfg demo_buf 10 (put_kern (DK 100 false demo_text) demo_s1)).
Definition demo_c2 : connection unit := default demo_conn (connections demo_s2 !! 0%nat).
Definition demo_A2 : gmap loc (@tinfo TimerProc nat) :=
  {[1%positive := TInfo idle_connection_p 0%nat 60000 false (time_plus (started_at demo_c2) 60000)]}.

Lemma demo_s2_rep : rep (tmrs demo_s2) demo_A2 [] [].
Proof.
  pose proof (tmr_create_wp (fun _ => true) dk_junk (Timeval 0 0) (Some (started_at demo_c2)) idle_connection_p 0%nat 60000
    false (tmrs demo_s1) ∅ []) as H.
  assert (H0 : rep (tmrs demo_s1) ∅ [] []).
  { replace (tmrs demo_s1) with (TState (∅ : gmap loc (Timer TimerProc nat)) (replicate HASH_SIZE None) None 0)
      by (vm_compute; reflexivity).
    exact (tmr_init_wp (replicate HASH_SIZE None) 0). }
  specialize (H H0). unfold wp in H.
  match type of H with match ?o with _ => _ end =>
    replace o with (Ret (Some 1%positive) (tmrs demo_s2)) in H by (vm_compute; reflexivity) end.
  destruct H as (_ & _ & H). exact H.
Qed.

Lemma close_connection_counts_witness :
  exists s' fl', close_connection demo_cfg 0 demo_s2 = Ret tt s' /\ closed demo_cfg 0 demo_c2 demo_url demo_s2 s' /\
    rep (tmrs s') (del (wakeup_timer demo_c2) (del (idle_timer demo_c2) demo_A2)) fl' [].
Proof.
  apply (close_connection_counts demo_cfg 0 demo_s2 demo_A2 [] demo_c2 demo_url).
  - exact demo_s2_rep.
  - vm_compute. reflexivity.
  - vm_compute. reflexivity.
  - vm_compute. eexists. reflexivity.
  - vm_compute. exact I.
Defined.


Lemma finish_reports_witness :
  exists s' ms, finish (A := unit) demo_cfg demo_s2 = Exit 0 s' /\ theap (tmrs s') = ∅ /\ out s' = out demo_s2 ++ ms /\
    ((exists n, m_timeouts n ∈ ms) <-> total_timeouts (st demo_s2) <> 0).
Proof.
  destruct (finish_reports demo_cfg demo_s2 demo_A2 [] demo_s2_rep) as (s' & ms & H1 & H2 & H3 & _ & _ & _ & _ & H4 & _).
  exists s', ms. repeat split; try assumption; apply H4.
Defined.

(** * When a socket cannot be made *)

(** A start that fails in socket leaves its slot free, but its idle timer
    pending and the fetch counted as started; when the timer goes off, the free
    slot is closed once more and the number of connections becomes negative. *)
Definition bad_kernel : Kernel dk unit := demo_kernel (-1).
Definition bad_s1 : load dk unit := state_of (@start_connection dk unit bad_kernel demo_cfg demo_buf demo_s1).
Definition bad_s2 : load dk unit :=
  state_of (@tmr_run _ _ _ (@load_client dk unit bad_kernel demo_cfg demo_buf) 10 (put_now (Timeval 161 0) bad_s1)).

Theorem failed_start_unbalances :
  num_connections bad_s1 = 0 /\ fetches_started (st bad_s1) = 1 /\ tmr_mstimeout (Timeval 100 0) (tmrs bad_s1) = Ret 60000 (tmrs bad_s1) /\
  num_connections bad_s2 = -1 /\ fetches_completed (st bad_s2) = 1 /\ total_timeouts (st bad_s2) = 1.
Proof. vm_compute. repeat split. Qed.
