(* ===== verification/HttpArgs.v ===== *)
(** How the load generator starts (http_load/http_load.c): its arguments, the
    file of URLs, the look-up of addresses and the file of source addresses. *)
From S2P Require Import Prelude CStr CFloat HttpHeader HttpLoad.
From Stdlib Require Import SpecFloat.
Local Open Scope Z_scope.

(** * Arguments *)

Definition IDLE_SECS : Z := 60.
Definition THROTTLE : Z := 3360.
Definition RESERVED_FDS : Z := 3.

(** What the arguments set: [opt_start] and [opt_end] are start with start_parallel
    or start_rate, and end with end_fetches or end_seconds. *)
Record options := Options {
  opt_checksum : bool;
  opt_throttle : bool;
  opt_verbose : bool;
  opt_jitter : bool;
  opt_rate_limit : spec_float;
  opt_idle : Z;
  opt_start : start_spec;
  opt_end : end_spec;
  opt_sip : option (list ascii);
  opt_proxy : option (list ascii * Z)
}.
Definition options0 : options :=
  Options false false false false (f32_of_Z THROTTLE) IDLE_SECS START_NONE END_NONE None None.

Definition set_checksum o := Options true (opt_throttle o) (opt_verbose o) (opt_jitter o) (opt_rate_limit o) (opt_idle o) (opt_start o) (opt_end o) (opt_sip o) (opt_proxy o).
Definition set_throttle v o := Options (opt_checksum o) true (opt_verbose o) (opt_jitter o) v (opt_idle o) (opt_start o) (opt_end o) (opt_sip o) (opt_proxy o).
Definition set_verbose o := Options (opt_checksum o) (opt_throttle o) true (opt_jitter o) (opt_rate_limit o) (opt_idle o) (opt_start o) (opt_end o) (opt_sip o) (opt_proxy o).
Definition set_jitter o := Options (opt_checksum o) (opt_throttle o) (opt_verbose o) true (opt_rate_limit o) (opt_idle o) (opt_start o) (opt_end o) (opt_sip o) (opt_proxy o).
Definition set_idle v o := Options (opt_checksum o) (opt_throttle o) (opt_verbose o) (opt_jitter o) (opt_rate_limit o) v (opt_start o) (opt_end o) (opt_sip o) (opt_proxy o).
Definition set_start_spec v o := Options (opt_checksum o) (opt_throttle o) (opt_verbose o) (opt_jitter o) (opt_rate_limit o) (opt_idle o) v (opt_end o) (opt_sip o) (opt_proxy o).
Definition set_end_spec v o := Options (opt_checksum o) (opt_throttle o) (opt_verbose o) (opt_jitter o) (opt_rate_limit o) (opt_idle o) (opt_start o) v (opt_sip o) (opt_proxy o).
Definition set_sip v o := Options (opt_checksum o) (opt_throttle o) (opt_verbose o) (opt_jitter o) (opt_rate_limit o) (opt_idle o) (opt_start o) (opt_end o) (Some v) (opt_proxy o).
Definition set_proxy v o := Options (opt_checksum o) (opt_throttle o) (opt_verbose o) (opt_jitter o) (opt_rate_limit o) (opt_idle o) (opt_start o) (opt_end o) (opt_sip o) (Some v).

(** What the program says on standard error before it exits with 1. *)
Inductive complaint :=
| e_usage
| e_parallel_min
| e_parallel_max (max_connections : Z)
| e_rate_min
| e_rate_max
| e_fetches_min
| e_seconds_min
| e_perror (file : list ascii)
| e_unknown_protocol (line : list ascii)
| e_getaddrinfo (hostname : list ascii)
| e_sockaddr_small (hostname : list ascii)
| e_no_address (hostname : list ascii)
| e_source_address (line : list ascii)
| e_out_of_memory.

(** max_connections from getrlimit: the current and the greatest number of
    descriptors; nothing when getrlimit fails. setrlimit's result is not looked at. *)
Definition RLIM_INFINITY : Z := 2 ^ 64 - 1.
Definition connection_limit (limits : option (Z * Z)) : Z :=
  match limits with
  | None => 64 - RESERVED_FDS
  | Some (rlim_cur, rlim_max) =>
      let rlim_cur :=
        if negb (rlim_cur =? rlim_max) then
          if rlim_max =? RLIM_INFINITY then 8192
          else if rlim_max >? rlim_cur then rlim_max else rlim_cur
        else rlim_cur in
      i32 (u64 (rlim_cur - RESERVED_FDS))
  end.

(** An option given in full or by the letters it starts with. *)
Definition opt_is (arg : list ascii) (name : string) : bool := strncmp arg (lit name) (length arg) =? 0.
Definition is_option (arg : list ascii) : bool :=
  match arg with c :: _ :: _ => c =c "-"%char | _ => false end.

(** The host and the port of -proxy. *)
Fixpoint parse_proxy (s : list ascii) : list ascii * Z :=
  match s with
  | [] => ([], 80)
  | c :: s => if c =c ":"%char then ([], u16 (atoi s)) else let (h, p) := parse_proxy s in (c :: h, p)
  end.

(** One option, with the argument after it when there is one: the options after
    it, and whether it took that argument. *)
Definition parse_arg (max_connections : Z) (o : options) (arg : list ascii) (next : option (list ascii)) : complaint + options * bool :=
  let flag o := inr (o, false) in
  let value o := inr (o, true) in
  if opt_is arg "-checksum" then flag (set_checksum o)
  else if opt_is arg "-throttle" then flag (set_throttle (opt_rate_limit o) o)
  else match opt_is arg "-Throttle", next with
  | true, Some v => value (set_throttle (f32_of_f64 (f64_div (f64_of_Z (atoi v)) (f64_of_Z 10))) o)
  | _, _ =>
  if opt_is arg "-verbose" then flag (set_verbose o)
  else match opt_is arg "-timeout", next with
  | true, Some v => value (set_idle (atoi v) o)
  | _, _ =>
  if opt_is arg "-jitter" then flag (set_jitter o)
  else match next with
  | None => inl e_usage
  | Some v =>
      if opt_is arg "-parallel" then
        if atoi v <? 1 then inl e_parallel_min
        else if atoi v >? max_connections then inl (e_parallel_max max_connections)
        else value (set_start_spec (START_PARALLEL (atoi v)) o)
      else if opt_is arg "-rate" then
        if atoi v <? 1 then inl e_rate_min
        else if atoi v >? 1000 then inl e_rate_max
        else value (set_start_spec (START_RATE (atoi v)) o)
      else if opt_is arg "-fetches" then
        if atoi v <? 1 then inl e_fetches_min else value (set_end_spec (END_FETCHES (atoi v)) o)
      else if opt_is arg "-seconds" then
        if atoi v <? 1 then inl e_seconds_min else value (set_end_spec (END_SECONDS (atoi v)) o)
      else if opt_is arg "-sip" then value (set_sip v o)
      else if opt_is arg "-proxy" then value (set_proxy (parse_proxy v) o)
      else inl e_usage
  end end end.

Fixpoint parse_args (max_connections : Z) (o : options) (args : list (list ascii)) : complaint + options * list (list ascii) :=
  match args with
  | [] => inr (o, [])
  | arg :: rest =>
      if is_option arg then
        match parse_arg max_connections o arg (head rest) with
        | inl e => inl e
        | inr (o, false) => parse_args max_connections o rest
        | inr (o, true) => match rest with _ :: rest => parse_args max_connections o rest | [] => inl e_usage end
        end
      else inr (o, args)
  end.

(** The checks after the loop: the options and the name of the URL file. *)
Definition check_args (r : options * list (list ascii)) : complaint + options * list ascii :=
  let (o, rest) := r in
  match rest with
  | [url_file] =>
      match opt_start o, opt_end o with
      | START_NONE, _ | _, END_NONE => inl e_usage
      | start, _ => if opt_jitter o && (match start with START_RATE _ => false | _ => true end) then inl e_usage else inr (o, url_file)
      end
  | _ => inl e_usage
  end.
Definition read_args (max_connections : Z) (args : list (list ascii)) : complaint + options * list ascii :=
  match parse_args max_connections options0 args with inl e => inl e | inr r => check_args r end.

(** * Files *)

Section Files.
Context {addr : Type}.

(** [struct sockaddr_in6], the room in a url for an address. *)
Definition SA_IN6_SIZE : Z := 28.
Inductive ai_family := AF_INET | AF_INET6 | AF_OTHER.

(** The tables being filled, the number of allocations made, and the complaint. *)
Record tables := Tables {
  t_urls : list (url addr);
  max_urls : Z;
  t_sips : list addr;
  max_sips : Z;
  t_mallocs : nat;
  t_said : option complaint
}.
Definition tables0 : tables := Tables [] 0 [] 0 0 None.
Definition put_urls v m t := Tables v m (t_sips t) (max_sips t) (t_mallocs t) (t_said t).
Definition put_sips v m t := Tables (t_urls t) (max_urls t) v m (t_mallocs t) (t_said t).
Definition complain {A} (e : complaint) : CM tables A :=
  modify (fun t => Tables (t_urls t) (max_urls t) (t_sips t) (max_sips t) (t_mallocs t) (Some e)) ;;; exit 1.

(** The system: whether the [n]-th allocation succeeds, the files, the addresses
    of a host, the size of an address, the address that a text stands for. *)
Context (malloc_ok : nat -> bool) (fopen : list ascii -> option (list ascii))
  (getaddrinfo : list ascii -> Z -> option (list (ai_family * addr))) (ai_addrlen : addr -> Z)
  (inet_aton : list ascii -> option addr).

(** malloc_check, realloc_check and strdup_check. *)
Definition check (ok : bool) : CM tables unit := if ok then ret tt else complain e_out_of_memory.
Definition malloc_check : CM tables unit :=
  n <- gets t_mallocs ;;
  modify (fun t => Tables (t_urls t) (max_urls t) (t_sips t) (max_sips t) (S n) (t_said t)) ;;;
  check (malloc_ok n).
Definition realloc_check : CM tables unit := malloc_check.
Definition strdup_check (s : list ascii) : CM tables (list ascii) := malloc_check ;;; ret (cstr s).

(** fgets with room for [n] characters and the NUL. *)
Fixpoint fgets_line (n : nat) (s : list ascii) : list ascii * list ascii :=
  match n, s with
  | O, _ => ([], s)
  | S n, [] => ([], [])
  | S n, c :: s => if c =c LF then ([LF], s) else let (l, r) := fgets_line n s in (c :: l, r)
  end.
Definition fgets (n : nat) (s : list ascii) : option (list ascii * list ascii) :=
  match s with [] => None | _ => Some (fgets_line n s) end.
(** The trailing newline nuked; a line that starts with NUL is looked at before its start. *)
Definition nuke_newline (line : list ascii) : option (list ascii) :=
  match cstr line with
  | [] => None
  | s => Some (if match last s with Some c => c =c LF | None => false end then removelast s else s)
  end.

(** The text after the protocol: the host, the port and the file. *)
Fixpoint split_host (s : list ascii) : list ascii * list ascii :=
  match s with
  | [] => ([], [])
  | c :: s' => if (c =c ":"%char) || (c =c "/"%char) then ([], s) else let (h, r) := split_host s' in (c :: h, r)
  end.
Fixpoint skip_port (s : list ascii) : list ascii :=
  match s with [] => [] | c :: s' => if c =c "/"%char then s else skip_port s' end.
Definition http : list ascii := lit "http://".
Definition parse_url (line : list ascii) : option (list ascii * Z * list ascii) :=
  if strncmp http line (length http) =? 0 then
    let (hostname, cp) := split_host (drop (length http) line) in
    let '(port, cp) := match cp with
      | c :: cp' => if c =c ":"%char then (u16 (atoi cp'), skip_port cp') else (80, cp)
      | [] => (80, cp)
      end in
    Some (hostname, port, match cp with [] => lit "/" | _ => cp end)
  else None.

(** [lookup_address]: the first IPv4 address, else the first IPv6 one. *)
Definition first_of (f : ai_family) (l : list (ai_family * addr)) : option addr :=
  snd <$> List.find (fun a => match f, a.1 with AF_INET, AF_INET | AF_INET6, AF_INET6 => true | _, _ => false end) l.
Definition lookup_address (do_proxy : option (list ascii * Z)) (hostname : list ascii) (port : Z) : CM tables addr :=
  let (hostname, port) := match do_proxy with Some p => p | None => (hostname, port) end in
  match getaddrinfo hostname port with
  | None => complain (e_getaddrinfo hostname)
  | Some ai =>
      match first_of AF_INET ai, first_of AF_INET6 ai with
      | Some a, _ | None, Some a => if SA_IN6_SIZE <? ai_addrlen a then complain (e_sockaddr_small hostname) else ret a
      | None, None => complain (e_no_address hostname)
      end
  end.

(** A table with room for [max] entries that holds [num] of them grows to twice its size. *)
Definition grow (num max : Z) : CM tables Z :=
  if num >=? max then realloc_check ;;; ret (i32 (max * 2)) else ret max.

Definition add_url (do_proxy : option (list ascii * Z)) (line : list ascii) : CM tables unit :=
  us <- gets t_urls ;;
  max <- gets max_urls ;;
  max <- grow (Z.of_nat (length us)) max ;;
  modify (put_urls us max) ;;;
  url_str <- strdup_check line ;;
  match parse_url line with
  | None => complain (e_unknown_protocol line)
  | Some (host, port, file) =>
      hostname <- strdup_check host ;;
      filename <- strdup_check file ;;
      sa <- lookup_address do_proxy hostname port ;;
      modify (put_urls (us ++ [Url url_str hostname port sa filename false 0 false 0]) max)
  end.
Fixpoint read_urls (fuel : nat) (do_proxy : option (list ascii * Z)) (s : list ascii) : CM tables unit :=
  match fgets 4999 s with
  | None => ret tt
  | Some (line, s) =>
      match fuel with
      | O => nofuel
      | S fuel =>
          match nuke_newline line with
          | None => undef
          | Some line => add_url do_proxy line ;;; read_urls fuel do_proxy s
          end
      end
  end.
Definition read_url_file (do_proxy : option (list ascii * Z)) (url_file : list ascii) : CM tables unit :=
  match fopen url_file with
  | None => complain (e_perror url_file)
  | Some s =>
      malloc_check ;;;
      modify (put_urls [] 100) ;;;
      read_urls (length s) do_proxy s
  end.

Definition add_sip (line : list ascii) : CM tables unit :=
  ss <- gets t_sips ;;
  max <- gets max_sips ;;
  max <- grow (Z.of_nat (length ss)) max ;;
  modify (put_sips ss max) ;;;
  str <- strdup_check line ;;
  match inet_aton str with
  | None => complain (e_source_address str)
  | Some sa => modify (put_sips (ss ++ [sa]) max)
  end.
Fixpoint read_sips (fuel : nat) (s : list ascii) : CM tables unit :=
  match fgets 4999 s with
  | None => ret tt
  | Some (line, s) =>
      match fuel with
      | O => nofuel
      | S fuel =>
          match nuke_newline line with
          | None => undef
          | Some line => add_sip line ;;; read_sips fuel s
          end
      end
  end.
Definition read_sip_file (sip_file : list ascii) : CM tables unit :=
  match fopen sip_file with
  | None => complain (e_perror sip_file)
  | Some s =>
      malloc_check ;;;
      modify (put_sips [] 100) ;;;
      read_sips (length s) s
  end.

(** Up to the initialisation of the connections: what the arguments fix. *)
Definition main_start (limits : option (Z * Z)) (args : list (list ascii)) : CM tables (config addr) :=
  let max := connection_limit limits in
  match read_args max args with
  | inl e => complain e
  | inr (o, url_file) =>
      read_url_file (opt_proxy o) url_file ;;;
      (match opt_sip o with Some f => read_sip_file f | None => ret tt end) ;;;
      sips <- gets t_sips ;;
      (* the connections: more than the address space when the number is negative *)
      (if (match opt_start o with START_PARALLEL n => n | _ => max end) <? 0 then complain e_out_of_memory else malloc_check) ;;;
      ret (Config (opt_checksum o) (opt_throttle o) (opt_verbose o) (opt_jitter o) (bool_decide (is_Some (opt_proxy o)))
        (opt_rate_limit o) (opt_idle o) (Z.to_nat max) (opt_start o) (opt_end o) sips)
  end.
End Files.
