(* ===== verification/HttpArgsThm.v ===== *)
(** The start of the load generator: arguments and URLs are read back as they
    were written, and what is accepted suits the main loop. *)
From S2P Require Import Prelude CStr CDec CFloat HttpHeader HttpLoad HttpLoadInv HttpArgs.
From Stdlib Require Import SpecFloat.
Local Open Scope Z_scope.

(** * URLs *)

(** A URL as one writes it: the port and the file may be left out. *)
Definition show_url (host : list ascii) (port : option Z) (file : list ascii) : list ascii :=
  http ++ host ++ (match port with Some n => ":"%char :: dec n | None => [] end) ++ file.

Lemma split_host_spec host rest :
  ":"%char ∉ host -> "/"%char ∉ host -> (match rest with c :: _ => c = ":"%char \/ c = "/"%char | [] => True end) ->
  split_host (host ++ rest) = (host, rest).
Proof.
  intros Hc Hs Hr. induction host as [|c host IH]; simpl.
  - destruct rest as [|c rest]; [done |]. simpl. destruct Hr as [-> | ->]; done.
  - rewrite not_elem_of_cons in Hc, Hs. destruct (Ascii.eqb_spec c ":"); [naive_solver |].
    destruct (Ascii.eqb_spec c "/"); [naive_solver |]. simpl. by rewrite IH by tauto.
Qed.
Lemma skip_port_spec s file :
  "/"%char ∉ s -> (match file with c :: _ => c = "/"%char | [] => True end) -> skip_port (s ++ file) = file.
Proof.
  intros Hs Hf. induction s as [|c s IH]; simpl.
  - destruct file as [|c file]; [done |]. subst c. done.
  - rewrite not_elem_of_cons in Hs. destruct (Ascii.eqb_spec c "/"); [naive_solver |]. apply IH. tauto.
Qed.


Lemma dec_no_slash n : 0 <= n -> "/"%char ∉ dec n.
Proof.
  intros Hn Hin. pose proof (dec_go_digits 10 n [] Hn eq_refl) as Hd. fold (dec n) in Hd.
  rewrite forallb_forall in Hd. apply list_elem_of_In in Hin. apply Hd in Hin. vm_compute in Hin. done.
Qed.

Lemma parse_show_url host port file :
  ":"%char ∉ host -> "/"%char ∉ host -> (match port with Some n => 0 <= n < 65536 | None => True end) ->
  (match file with c :: _ => c = "/"%char | [] => True end) ->
  parse_url (show_url host port file) =
    Some (host, match port with Some n => n | None => 80 end, match file with [] => lit "/" | _ => file end).
Proof.
  intros Hc Hs Hp Hf. unfold parse_url, show_url, strncmp. rewrite take_app_length, strcmp_refl, drop_app_length.
  change (0 =? 0) with true. cbv iota.
  rewrite split_host_spec; [|done | done |].
  - destruct port as [n|]; cbn [app].
    + rewrite Ascii.eqb_refl. rewrite atoi_dec; [|lia | destruct file; [done | by subst]].
      rewrite skip_port_spec by (done || apply dec_no_slash; lia). rewrite u16_small by lia. done.
    + destruct file as [|c file]; [done |]. subst c. done.
  - destruct port as [n|]; [by left |]. destruct file; [done | by right].
Qed.

(** A URL is taken apart into the host, the port (80 when there is none) and
    the file (a slash when there is none) it was written with. *)
Theorem url_roundtrip host port file :
  ":"%char ∉ host -> "/"%char ∉ host -> (match port with Some n => 0 <= n < 65536 | None => True end) ->
  (match file with c :: _ => c = "/"%char | [] => True end) ->
  parse_url (show_url host port file) =
    Some (host, match port with Some n => n | None => 80 end, match file with [] => lit "/" | _ => file end).
Proof. apply parse_show_url. Qed.

(** * Arguments *)

(** The options in full, with what each sets. *)
Inductive setting :=
| S_checksum | S_throttle | S_Throttle (n : Z) | S_verbose | S_timeout (n : Z) | S_jitter
| S_parallel (n : Z) | S_rate (n : Z) | S_fetches (n : Z) | S_seconds (n : Z)
| S_sip (file : list ascii) | S_proxy (host : list ascii) (port : option Z).
Definition show (x : setting) : list (list ascii) :=
  match x with
  | S_checksum => [lit "-checksum"]
  | S_throttle => [lit "-throttle"]
  | S_Throttle n => [lit "-Throttle"; dec n]
  | S_verbose => [lit "-verbose"]
  | S_timeout n => [lit "-timeout"; dec n]
  | S_jitter => [lit "-jitter"]
  | S_parallel n => [lit "-parallel"; dec n]
  | S_rate n => [lit "-rate"; dec n]
  | S_fetches n => [lit "-fetches"; dec n]
  | S_seconds n => [lit "-seconds"; dec n]
  | S_sip f => [lit "-sip"; f]
  | S_proxy h p => [lit "-proxy"; h ++ match p with Some n => ":"%char :: dec n | None => [] end]
  end.
Definition apply_setting (o : options) (x : setting) : options :=
  match x with
  | S_checksum => set_checksum o
  | S_throttle => set_throttle (opt_rate_limit o) o
  | S_Throttle n => set_throttle (f32_of_f64 (f64_div (f64_of_Z n) (f64_of_Z 10))) o
  | S_verbose => set_verbose o
  | S_timeout n => set_idle n o
  | S_jitter => set_jitter o
  | S_parallel n => set_start_spec (START_PARALLEL n) o
  | S_rate n => set_start_spec (START_RATE n) o
  | S_fetches n => set_end_spec (END_FETCHES n) o
  | S_seconds n => set_end_spec (END_SECONDS n) o
  | S_sip f => set_sip f o
  | S_proxy h p => set_proxy (h, match p with Some n => n | None => 80 end) o
  end.
Definition setting_ok (max : Z) (x : setting) : Prop :=
  match x with
  | S_Throttle n | S_timeout n => 0 <= n < 2 ^ 31
  | S_parallel n => 1 <= n <= max /\ n < 2 ^ 31
  | S_rate n => 1 <= n <= 1000
  | S_fetches n | S_seconds n => 1 <= n < 2 ^ 31
  | S_proxy h p => ":"%char ∉ h /\ (match p with Some n => 0 <= n < 65536 | None => True end)
  | _ => True
  end.

Lemma parse_proxy_spec h p :
  ":"%char ∉ h -> (match p with Some n => 0 <= n < 65536 | None => True end) ->
  parse_proxy (h ++ match p with Some n => ":"%char :: dec n | None => [] end) = (h, match p with Some n => n | None => 80 end).
Proof.
  intros Hh Hp. induction h as [|c h IH]; simpl.
  - destruct p as [n|]; [|done]. simpl. rewrite atoi_dec_all by lia. by rewrite u16_small by lia.
  - rewrite not_elem_of_cons in Hh. destruct (Ascii.eqb_spec c ":"); [naive_solver |]. by rewrite IH by tauto.
Qed.

(** One option in full is read as what it sets. *)
Lemma parse_valued max o arg v o' rest :
  is_option arg = true -> parse_arg max o arg (Some v) = inr (o', true) ->
  parse_args max o (arg :: v :: rest) = parse_args max o' rest.
Proof. intros Ha Hp. cbn [parse_args head]. by rewrite Ha, Hp. Qed.

Lemma parse_shown max o x rest :
  setting_ok max x -> parse_args max o (show x ++ rest) = parse_args max (apply_setting o x) rest.
Proof.
  intros Hok. destruct x as [| |n| |n| |n|n|n|n|f|h p]; cbn [show app setting_ok] in *; try reflexivity;
    apply parse_valued; try reflexivity.
  - change (parse_arg max o (lit "-Throttle") (Some (dec n))) with
      (@inr complaint _ (set_throttle (f32_of_f64 (f64_div (f64_of_Z (atoi (dec n))) (f64_of_Z 10))) o, true)).
    by rewrite atoi_dec_all.
  - change (parse_arg max o (lit "-timeout") (Some (dec n))) with (@inr complaint _ (set_idle (atoi (dec n)) o, true)).
    by rewrite atoi_dec_all.
  - change (parse_arg max o (lit "-parallel") (Some (dec n))) with
      (if atoi (dec n) <? 1 then inl e_parallel_min else if atoi (dec n) >? max then inl (e_parallel_max max)
       else inr (set_start_spec (START_PARALLEL (atoi (dec n))) o, true)).
    rewrite atoi_dec_all by lia. rewrite (proj2 (Z.ltb_ge _ _)) by lia. rewrite Z.gtb_ltb, (proj2 (Z.ltb_ge _ _)) by lia. done.
  - change (parse_arg max o (lit "-rate") (Some (dec n))) with
      (if atoi (dec n) <? 1 then inl e_rate_min else if atoi (dec n) >? 1000 then inl e_rate_max
       else inr (set_start_spec (START_RATE (atoi (dec n))) o, true)).
    rewrite atoi_dec_all by lia. rewrite (proj2 (Z.ltb_ge _ _)) by lia. rewrite Z.gtb_ltb, (proj2 (Z.ltb_ge _ _)) by lia. done.
  - change (parse_arg max o (lit "-fetches") (Some (dec n))) with
      (if atoi (dec n) <? 1 then inl e_fetches_min else inr (set_end_spec (END_FETCHES (atoi (dec n))) o, true)).
    rewrite atoi_dec_all by lia. by rewrite (proj2 (Z.ltb_ge _ _)) by lia.
  - change (parse_arg max o (lit "-seconds") (Some (dec n))) with
      (if atoi (dec n) <? 1 then inl e_seconds_min else inr (set_end_spec (END_SECONDS (atoi (dec n))) o, true)).
    rewrite atoi_dec_all by lia. by rewrite (proj2 (Z.ltb_ge _ _)) by lia.
  - destruct Hok as [Hh Hp].
    change (parse_arg max o (lit "-proxy") (Some ?v)) with (@inr complaint _ (set_proxy (parse_proxy v) o, true)).
    by rewrite parse_proxy_spec.
Qed.

(** C21: settings written out in full, in any number and order, are read back as
    exactly their effects, the later over the earlier. *)
Theorem args_roundtrip max o settings rest :
  Forall (setting_ok max) settings -> (match rest with arg :: _ => is_option arg = false | [] => True end) ->
  parse_args max o (flat_map show settings ++ rest) = inr (fold_left apply_setting settings o, rest).
Proof.
  intros Hok Hr. revert o. induction Hok as [|x settings Hx _ IH]; intros o; simpl.
  - destruct rest as [|arg rest]; [done |]. simpl. by rewrite Hr.
  - by rewrite <- app_assoc, parse_shown, IH.
Qed.

(** ** What is accepted *)

Definition start_ok (max : Z) (x : start_spec) : Prop :=
  match x with START_NONE => True | START_PARALLEL n => 1 <= n <= max | START_RATE n => 1 <= n <= 1000 end.
Definition end_ok (x : end_spec) : Prop :=
  match x with END_NONE => True | END_FETCHES n | END_SECONDS n => 1 <= n < 2 ^ 31 end.
Definition opts_ok (max : Z) (o : options) : Prop := start_ok max (opt_start o) /\ end_ok (opt_end o).

Lemma atoi_range s : atoi s < 2 ^ 31.
Proof.
  change (2 ^ 31) with 2147483648. unfold atoi. destruct (skip_space s) as [|c s']; [lia |].
  destruct (c =c _); [|destruct (c =c _)]; match goal with |- i32 ?x < _ => pose proof (i32_range x); lia end.
Qed.

Lemma parse_arg_ok max o arg next o' b :
  opts_ok max o -> parse_arg max o arg next = inr (o', b) -> opts_ok max o'.
Proof.
  intros [Hs He] Hp. unfold parse_arg in Hp.
  repeat match type of Hp with
  | (if ?c then _ else _) = _ => destruct c eqn:?
  | match ?c with _ => _ end = _ => destruct c eqn:?
  end; try discriminate; injection Hp as <- <-; split; simpl; try done.
  all: match goal with H : (atoi ?v <? 1) = false |- _ => apply Z.ltb_ge in H; pose proof (atoi_range v) end; try done.
  all: match goal with H : (atoi _ >? _) = false |- _ => rewrite Z.gtb_ltb in H; apply Z.ltb_ge in H end; lia.
Qed.

Lemma parse_args_ok max o args o' rest :
  opts_ok max o -> parse_args max o args = inr (o', rest) -> opts_ok max o'.
Proof.
  revert o. remember (length args) as n eqn:En. assert (Hn : (length args <= n)%nat) by lia. clear En. revert args Hn.
  induction n as [|n IH]; intros args Hn o Ho Hp.
  - destruct args; [|simpl in Hn; lia]. by injection Hp as <- <-.
  - destruct args as [|arg args]; [by injection Hp as <- <- |]. cbn [parse_args] in Hp. simpl in Hn.
    destruct (is_option arg); [|by injection Hp as <- <-].
    destruct (parse_arg max o arg (head args)) as [e|[o1 b]] eqn:Ea; [done |]. pose proof (parse_arg_ok _ _ _ _ _ _ Ho Ea) as Ho1.
    destruct b; [destruct args as [|v args]; [done |]; simpl in Hn; eapply (IH args); (lia || done) | eapply (IH args); (lia || done)].
Qed.

Lemma read_args_ok max args o file :
  read_args max args = inr (o, file) ->
  opts_ok max o /\ opt_start o <> START_NONE /\ opt_end o <> END_NONE /\
  (opt_jitter o = true -> exists r, opt_start o = START_RATE r).
Proof.
  unfold read_args. destruct (parse_args max options0 args) as [e|[o' rest]] eqn:Ep; [done |]. unfold check_args.
  destruct rest as [|f [|]]; try done. intros H.
  assert (Hok : opts_ok max o') by (eapply parse_args_ok; [|exact Ep]; done).
  destruct (opt_start o') as [|n|r] eqn:Es; [done | |]; destruct (opt_end o') eqn:Ee; try done;
    destruct (opt_jitter o') eqn:Ej; simpl in H; try done; injection H as <- <-; rewrite Es, Ee, Ej;
    (split; [done |]); (split; [done |]); (split; [done |]); try done; intros _; by eexists.
Qed.

(** Arguments that main accepts make a configuration the main loop is
    correct for, once the idle time, the throttle and the rate with jitter are
    in the range that main does not check. *)
Theorem accepted_config_good {addr : Type} malloc_ok fopen getaddrinfo ai_addrlen inet_aton limits args
    (t t' : @tables addr) (cfg : config addr) :
  main_start malloc_ok fopen getaddrinfo ai_addrlen inet_aton limits args t = Ret cfg t' ->
  2 <= idle_secs cfg -> (exists n, bytes_to_read cfg = Some n /\ 0 <= n <= READ_BUF_SIZE) ->
  (forall r, start cfg = START_RATE r -> do_jitter cfg = true -> r <= 500) ->
  good_config cfg.
Proof.
  unfold main_start. destruct (read_args (connection_limit limits) args) as [e|[o file]] eqn:Er; [done |].
  intros Hrun Hidle Hread Hrate. destruct (read_args_ok _ _ _ _ Er) as ([Hs He] & Hs0 & He0 & Hj).
  apply bind_ret_inv in Hrun as (_ & t1 & _ & Hrun). apply bind_ret_inv in Hrun as (_ & t2 & _ & Hrun).
  apply bind_ret_inv in Hrun as (ss & t3 & _ & Hrun). apply bind_ret_inv in Hrun as (_ & t4 & _ & Hrun).
  injection Hrun as <- _. simpl in *.
  assert (Hmax : connection_limit limits < 2 ^ 31).
  { unfold connection_limit. destruct limits as [[c m]|]; [|reflexivity]. apply i32_range. }
  constructor; simpl; try done.
  - destruct (opt_start o) as [|n|r] eqn:Es; [done | simpl in Hs; lia |]. split; [exact Hs | by apply Hrate].
  - destruct (opt_end o) as [|n|n]; [done | simpl in He; lia | simpl in He; lia].
  - unfold table_size. simpl. destruct (opt_start o) as [|n|r]; simpl in *; change (2 ^ 31) with 2147483648 in *; lia.
Qed.

(** * The file of URLs *)

Section Urls.
Context {addr : Type} (malloc_ok : nat -> bool) (fopen : list ascii -> option (list ascii))
  (getaddrinfo : list ascii -> Z -> option (list (ai_family * addr))) (ai_addrlen : addr -> Z).
Context (enough_memory : forall n, malloc_ok n = true).
Implicit Types (t : @tables addr) (l s : list ascii).

Lemma fgets_line_spec n l s : LF ∉ l -> (length l < n)%nat -> fgets_line n (l ++ LF :: s) = (l ++ [LF], s).
Proof.
  revert n. induction l as [|c l IH]; intros n Hl Hn; destruct n as [|n]; simpl in *; try lia; [done |].
  rewrite not_elem_of_cons in Hl. destruct (Ascii.eqb_spec c LF) as [->|]; [tauto |]. by rewrite IH by (tauto || lia).
Qed.
Lemma nuke_newline_spec l : NUL ∉ l -> nuke_newline (l ++ [LF]) = Some l.
Proof.
  intros Hl. unfold nuke_newline. rewrite cstr_id.
  - destruct (l ++ [LF]) as [|c s] eqn:E; [by destruct l |]. rewrite <- E, last_snoc, Ascii.eqb_refl. f_equal. apply removelast_last.
  - rewrite not_elem_of_app, list_elem_of_singleton. done.
Qed.

(** A line of the file: the host, port and file it is written with, and its address. *)
Record entry := Entry { e_host : list ascii; e_port : option Z; e_file : list ascii; e_addr : addr }.
Definition line_of (e : entry) : list ascii := show_url (e_host e) (e_port e) (e_file e).
Definition port_of (e : entry) : Z := match e_port e with Some n => n | None => 80 end.
Definition file_of (e : entry) : list ascii := match e_file e with [] => lit "/" | _ => e_file e end.
Definition url_of (e : entry) : url addr := Url (line_of e) (e_host e) (port_of e) (e_addr e) (file_of e) false 0 false 0.
Record entry_ok (e : entry) : Prop := {
  eo_host : ":"%char ∉ e_host e /\ "/"%char ∉ e_host e;
  eo_port : match e_port e with Some n => 0 <= n < 65536 | None => True end;
  eo_file : match e_file e with c :: _ => c = "/"%char | [] => True end;
  eo_text : LF ∉ line_of e /\ NUL ∉ line_of e;
  eo_length : (length (line_of e) < 4999)%nat;
  eo_addr : exists ai, getaddrinfo (e_host e) (port_of e) = Some ai /\ first_of AF_INET ai = Some (e_addr e) /\
    ai_addrlen (e_addr e) <= SA_IN6_SIZE
}.

Lemma wp_malloc_check t Q :
  (forall t', t_urls t' = t_urls t -> max_urls t' = max_urls t -> Q tt t') -> wp (malloc_check malloc_ok) t Q.
Proof.
  intros HQ. unfold malloc_check. apply wp_bind, wp_gets, wp_bind, wp_modify. rewrite enough_memory. apply wp_ret, HQ; done.
Qed.
Lemma wp_strdup s t Q :
  NUL ∉ s -> (forall t', t_urls t' = t_urls t -> max_urls t' = max_urls t -> Q s t') -> wp (strdup_check malloc_ok s) t Q.
Proof.
  intros Hs HQ. unfold strdup_check. apply wp_bind, wp_malloc_check. intros t' H1 H2. apply wp_ret. rewrite cstr_id by done. by apply HQ.
Qed.

(** The table has room: as many entries as [max_urls] at most. *)
Definition room t : Prop := Z.of_nat (length (t_urls t)) <= max_urls t < 2 ^ 30 /\ 1 <= max_urls t.

Lemma add_url_spec e t Q :
  entry_ok e -> room t -> Z.of_nat (length (t_urls t)) < 2 ^ 29 ->
  (forall t', t_urls t' = t_urls t ++ [url_of e] -> room t' -> Q tt t') ->
  wp (add_url malloc_ok getaddrinfo ai_addrlen None (line_of e)) t Q.
Proof.
  intros [[Hh1 Hh2] Hp Hf [_ Hnul] _ (ai & Hai & Hfirst & Hlen)] [[Hr1 Hr2] Hr3] Hsmall HQ.
  change (2 ^ 30) with 1073741824 in Hr2. change (2 ^ 29) with 536870912 in Hsmall.
  pose proof (parse_show_url (e_host e) (e_port e) (e_file e) Hh1 Hh2 Hp Hf) as Hparse. fold (line_of e) (port_of e) (file_of e) in Hparse.
  assert (Hnul' : NUL ∉ e_host e /\ NUL ∉ file_of e).
  { unfold line_of, show_url in Hnul. rewrite !not_elem_of_app in Hnul. destruct Hnul as (_ & ? & _ & ?). split; [done |].
    unfold file_of. destruct (e_file e); [by apply (bool_decide_unpack (NUL ∉ lit "/")) | done]. }
  unfold add_url. apply wp_bind, wp_gets, wp_bind, wp_gets, wp_bind.
  assert (Hgrow : forall Q', (forall m t', t_urls t' = t_urls t -> Z.of_nat (length (t_urls t)) < m < 2 ^ 30 -> Q' m t') ->
    wp (grow malloc_ok (Z.of_nat (length (t_urls t))) (max_urls t)) t Q').
  { intros Q' HQ'. unfold grow. change (2 ^ 30) with 1073741824 in HQ'. destruct (Z.geb_spec (Z.of_nat (length (t_urls t))) (max_urls t)).
    - apply wp_bind, wp_malloc_check. intros t' H1 _. apply wp_ret, HQ'; [done |]. rewrite i32_small by lia. lia.
    - apply wp_ret, HQ'; [done | lia]. }
  apply Hgrow. intros m t1 Hu1 Hm. apply wp_bind, wp_modify, wp_bind, wp_strdup; [done |]. intros t2 Hu2 Hm2. simpl in Hu2, Hm2.
  rewrite Hparse. apply wp_bind, wp_strdup; [tauto |]. intros t3 Hu3 Hm3. apply wp_bind, wp_strdup; [tauto |]. intros t4 Hu4 Hm4.
  apply wp_bind. unfold lookup_address. rewrite Hai, Hfirst. rewrite (proj2 (Z.ltb_ge _ _)) by done. apply wp_ret, wp_modify, HQ; [done |].
  unfold room. simpl. rewrite length_app. simpl. lia.
Qed.

Lemma read_urls_spec fuel es t :
  Forall entry_ok es -> room t -> Z.of_nat (length (t_urls t)) + Z.of_nat (length es) < 2 ^ 29 ->
  (length es <= fuel)%nat ->
  wp (read_urls malloc_ok getaddrinfo ai_addrlen fuel None (flat_map (fun e => line_of e ++ [LF]) es)) t (fun _ t' =>
    t_urls t' = t_urls t ++ map url_of es /\ room t').
Proof.
  intros Hes. revert fuel t. induction Hes as [|e es He _ IH]; intros fuel t Hr Hn Hf; cbn [flat_map].
  { destruct fuel; apply wp_ret; by rewrite app_nil_r. }
  simpl in Hf, Hn. destruct fuel as [|fuel]; [lia |]. cbn [read_urls].
  assert (Hg : fgets 4999 ((line_of e ++ [LF]) ++ flat_map (fun e => line_of e ++ [LF]) es) =
    Some (line_of e ++ [LF], flat_map (fun e => line_of e ++ [LF]) es)).
  { unfold fgets. rewrite <- app_assoc. cbn [app]. rewrite fgets_line_spec by (by destruct He as [_ _ _ [? _] ? _]).
    by destruct (line_of e). }
  rewrite Hg, nuke_newline_spec by (by destruct He as [_ _ _ [_ ?] _ _]).
  apply wp_bind, add_url_spec; [done | done | lia |]. intros t1 Hu1 Hr1.
  eapply wp_mono; [apply IH; [done | rewrite Hu1, length_app; simpl; lia | lia] |].
  intros u t2 [Hu2 Hr2]. split; [|done]. rewrite Hu2, Hu1, <- app_assoc. done.
Qed.

(** A file of well-formed URLs whose hosts have an IPv4 address is read
    whole: one entry for each line, in order, each with the parts it is written
    with; and the table, which grows as it fills, always has room for them. *)
Theorem read_url_file_reads url_file es t :
  Forall entry_ok es -> Z.of_nat (length es) < 2 ^ 29 ->
  fopen url_file = Some (flat_map (fun e => line_of e ++ [LF]) es) ->
  exists t', read_url_file malloc_ok fopen getaddrinfo ai_addrlen None url_file t = Ret tt t' /\
    t_urls t' = map url_of es /\ Z.of_nat (length es) <= max_urls t'.
Proof.
  intros Hes Hn Hopen.
  enough (wp (read_url_file malloc_ok fopen getaddrinfo ai_addrlen None url_file) t (fun _ t' =>
    t_urls t' = map url_of es /\ room t')) as Hwp.
  { apply wp_run in Hwp as ([] & t' & Hrun & Hu & [[Hr _] _]). exists t'. split; [done |]. split; [done |].
    by rewrite Hu, length_map in Hr. }
  unfold read_url_file. rewrite Hopen. apply wp_bind, wp_malloc_check. intros t1 _ _. apply wp_bind, wp_modify.
  eapply wp_mono; [apply read_urls_spec; [done | split; simpl; lia | simpl; lia |] |].
  - clear. induction es as [|e es IH]; cbn [flat_map length]; [lia |]. rewrite !length_app. cbn [length]. lia.
  - intros u t2 [Hu Hr]. simpl in Hu. done.
Qed.
End Urls.

(** * Runs *)

Definition demo_args : list (list ascii) := [lit "-p"; lit "5"; lit "-fetches"; lit "20"; lit "urls"].
Definition demo_entries : list (entry (addr := Z)) :=
  [Entry (lit "a.b") None (lit "/x") 7; Entry (lit "c") (Some 8080) [] 7].
Definition demo_open (f : list ascii) : option (list ascii) :=
  if bool_decide (f = lit "urls") then Some (flat_map (fun e => line_of e ++ [LF]) demo_entries) else None.
Definition demo_hosts (h : list ascii) (p : Z) : option (list (ai_family * Z)) := Some [(AF_INET, 7)].

Lemma url_roundtrip_witness : parse_url (lit "http://c:8080") = Some (lit "c", 8080, lit "/").
Proof.
  apply (url_roundtrip (lit "c") (Some 8080) []);
    [by apply (bool_decide_unpack (":"%char ∉ lit "c")) | by apply (bool_decide_unpack ("/"%char ∉ lit "c")) | lia | done].
Defined.

Lemma args_roundtrip_witness :
  parse_args 61 options0 [lit "-parallel"; lit "5"; lit "-jitter"; lit "-fetches"; lit "20"; lit "urls"] =
  inr (fold_left apply_setting [S_parallel 5; S_jitter; S_fetches 20] options0, [lit "urls"]).
Proof.
  apply (args_roundtrip 61 options0 [S_parallel 5; S_jitter; S_fetches 20] [lit "urls"]); [|reflexivity].
  repeat constructor; simpl; lia.
Defined.

Lemma demo_entry_ok (e : entry (addr := Z)) :
  bool_decide (":"%char ∉ e_host e /\ "/"%char ∉ e_host e /\ LF ∉ line_of e /\ NUL ∉ line_of e) &&
  (match e_port e with Some n => (0 <=? n) && (n <? 65536) | None => true end) &&
  (match e_file e with c :: _ => c =c "/"%char | [] => true end) &&
  (length (line_of e) <? 4999)%nat && (e_addr e =? 7) = true ->
  entry_ok demo_hosts (fun _ => 16) e.
Proof.
  rewrite !andb_true_iff, bool_decide_eq_true, Nat.ltb_lt, Z.eqb_eq. intros [[[[(H1 & H2 & H3 & H4) Hp] Hf] Hl] Ha].
  constructor; [done | | | done | exact Hl |].
  - destruct (e_port e); [lia | done].
  - destruct (e_file e); [done | by apply Ascii.eqb_eq].
  - exists [(AF_INET, 7)]. rewrite Ha. split; [done |]. split; [done |]. unfold SA_IN6_SIZE. lia.
Qed.
Lemma demo_entries_ok : Forall (entry_ok demo_hosts (fun _ => 16)) demo_entries.
Proof.
  apply Forall_cons. split; [apply demo_entry_ok; vm_compute; reflexivity |].
  apply Forall_cons. split; [apply demo_entry_ok; vm_compute; reflexivity | apply Forall_nil; done].
Qed.

Lemma read_url_file_reads_witness :
  exists t', read_url_file (fun _ => true) demo_open demo_hosts (fun _ => 16) None (lit "urls") tables0 = Ret tt t' /\
    t_urls t' = map url_of demo_entries /\ 2 <= max_urls t'.
Proof.
  apply (read_url_file_reads (fun _ => true) demo_open demo_hosts (fun _ => 16) (fun _ => eq_refl) (lit "urls") demo_entries tables0);
    [apply demo_entries_ok | reflexivity | reflexivity].
Defined.

Definition demo_start := main_start (fun _ => true) demo_open demo_hosts (fun _ => 16) (fun _ => Some 0) (Some (1024, 4096)) demo_args tables0.
Lemma accepted_config_good_witness : exists cfg t', demo_start = Ret cfg t' /\ good_config cfg.
Proof.
  eexists _, _. split; [vm_compute; reflexivity |].
  eapply (accepted_config_good (fun _ => true) demo_open demo_hosts (fun _ => 16) (fun _ => Some 0) (Some (1024, 4096)) demo_args tables0).
  - vm_compute. reflexivity.
  - vm_compute. discriminate.
  - eexists. split; [vm_compute; reflexivity |]. vm_compute. split; discriminate.
  - discriminate.
Defined.
