(* ===== verification/ThreadPool.v ===== *)
(** The thread pool (threadpool.c and threadpool.h): the pool's data, the bodies
    of its critical sections, and the threads that run them, as steps between
    calls of pthreads. *)
From S2P Require Import Prelude.
Local Open Scope Z_scope.

(** Addresses of [task_t] cells. *)
Abbreviation task_loc := positive.

Section Pool.
Context {Fn Arg : Type}.

(** * Data *)

(** [task_t]; the dummy head has no function. *)
Record task_t := MkTask { func : option Fn; arg : option Arg; t_next : option task_loc }.

(** [threadpool_sd_t] and the error codes. *)
Definition immediate_shutdown : Z := 1.
Definition graceful_shutdown : Z := 2.
Definition tp_invalid : Z := -1.
Definition tp_already_shutdown : Z := -3.

(** [threadpool_t], with the heap its tasks are in; the lock, the condition
    variable and the threads are part of the state of the threads below. *)
Record threadpool_t := MkPool {
  cells : gmap task_loc task_t;
  p_head : task_loc;
  thread_count : Z;
  queue_size : Z;
  shutdown : Z;
  start_size : Z;
  allocs : nat
}.

Definition set_cells v p := MkPool v (p_head p) (thread_count p) (queue_size p) (shutdown p) (start_size p) (allocs p).
Definition set_queue v p := MkPool (cells p) (p_head p) (thread_count p) v (shutdown p) (start_size p) (allocs p).
Definition set_shutdown v p := MkPool (cells p) (p_head p) (thread_count p) (queue_size p) v (start_size p) (allocs p).
Definition set_start v p := MkPool (cells p) (p_head p) (thread_count p) (queue_size p) (shutdown p) v (allocs p).

Definition load_task (t : task_loc) : CM threadpool_t task_t := get_or_undef (fun p => cells p !! t).
Definition store_next (t : task_loc) (n : option task_loc) : CM threadpool_t unit :=
  c <- load_task t ;;
  modify (fun p => set_cells (<[t := MkTask (func c) (arg c) n]> (cells p)) p).

(** [malloc] of a task, and the assignments to its fields. *)
Definition new_task (f : Fn) (a : Arg) (n : option task_loc) : CM threadpool_t task_loc := fun p =>
  let t := Pos.of_succ_nat (allocs p) in
  Ret t (MkPool (<[t := MkTask (Some f) (Some a) n]> (cells p)) (p_head p) (thread_count p) (queue_size p) (shutdown p)
           (start_size p) (S (allocs p))).

(** * The critical sections *)

(** [threadpool_add] between lock and unlock: goto out with an error, or return
    at once without unlocking, or a task added and the condition signalled. *)
Inductive add_verdict := A_out (err : Z) | A_leave (r : Z) | A_signal.
Definition threadpool_add (malloc_ok : bool) (f : Fn) (a : Arg) : CM threadpool_t add_verdict :=
  sd <- gets shutdown ;;
  if negb (sd =? 0) then ret (A_out tp_already_shutdown)
  else if negb malloc_ok then ret (A_leave (-1))
  else
    h <- gets p_head ;;
    c <- load_task h ;;
    t <- new_task f a (t_next c) ;;
    store_next h (Some t) ;;;
    modify (fun p => set_queue (i32 (queue_size p + 1)) p) ;;;
    ret A_signal.

(** [threadpool_worker] from the test of its inner while loop to the unlock:
    wait, leave the loop, unlock and go on, or a task taken off the list. *)
Inductive worker_verdict := V_wait | V_break | V_again | V_take (t : task_loc).
Definition take_task : CM threadpool_t worker_verdict :=
  h <- gets p_head ;;
  c <- load_task h ;;
  match t_next c with
  | None => ret V_again
  | Some t =>
      ct <- load_task t ;;
      store_next h (t_next ct) ;;;
      modify (fun p => set_queue (i32 (queue_size p - 1)) p) ;;;
      ret (V_take t)
  end.
Definition threadpool_worker : CM threadpool_t worker_verdict :=
  q <- gets queue_size ;;
  sd <- gets shutdown ;;
  if (q =? 0) && (sd =? 0) then ret V_wait
  else if sd =? immediate_shutdown then ret V_break
  else if (sd =? graceful_shutdown) && (q =? 0) then ret V_break
  else take_task.

(** What a worker that left the loop does before it unlocks and ends. *)
Definition worker_end : CM threadpool_t unit := modify (fun p => set_start (i32 (start_size p - 1)) p).

(** The call of a task's function and the free of the task: the call made. *)
Definition run_task (t : task_loc) : CM threadpool_t (Fn * Arg) :=
  c <- load_task t ;;
  match func c, arg c with
  | Some f, Some a => modify (fun p => set_cells (delete t (cells p)) p) ;;; ret (f, a)
  | _, _ => undef
  end.

(** [threadpool_destroy] after lock: whether it goes on to broadcast, or breaks
    out with [tp_already_shutdown], the lock still held. *)
Definition threadpool_destroy (graceful : bool) : CM threadpool_t bool :=
  sd <- gets shutdown ;;
  if negb (sd =? 0) then ret false
  else modify (set_shutdown (if graceful then graceful_shutdown else immediate_shutdown)) ;;; ret true.

(** [threadpool_free]: the list is freed from its front. *)
Fixpoint free_tasks (fuel : nat) : CM threadpool_t unit :=
  h <- gets p_head ;;
  c <- load_task h ;;
  match t_next c with
  | None => ret tt
  | Some old =>
      match fuel with
      | O => nofuel
      | S fuel =>
          co <- load_task old ;;
          store_next h (t_next co) ;;;
          modify (fun p => set_cells (delete old (cells p)) p) ;;;
          free_tasks fuel
      end
  end.
Definition threadpool_free : CM threadpool_t Z :=
  n <- gets start_size ;;
  if n >? 0 then ret (-1)
  else fuel <- gets (fun p => size (cells p)) ;; free_tasks fuel ;;; ret 0.

(** [threadpool_init] up to the creation of the threads: the calls that can
    fail are the arguments. On an error path [threadpool_free] looks at the
    dummy head: null when its malloc failed, not initialised when only the
    malloc of [threads] failed. *)
Definition threadpool_init (thread_num : Z) (pool_ok threads_ok head_ok mutex_ok cond_ok : bool) :
    outcome unit (option threadpool_t) :=
  if thread_num <=? 0 then Ret None tt
  else if negb pool_ok then Ret None tt
  else if negb (threads_ok && head_ok) then Undef
  else
    let p := MkPool {[1%positive := MkTask None None None]} 1%positive 0 0 0 0 1 in
    if negb mutex_ok || negb cond_ok then
      match threadpool_free p with
      | Ret _ _ => Ret None tt
      | _ => Undef
      end
    else Ret (Some p) tt.

(** After [n] successful calls of pthread_create. *)
Definition threads_created (n : nat) (p : threadpool_t) : threadpool_t :=
  MkPool (cells p) (p_head p) (Z.of_nat n) (queue_size p) (shutdown p) (Z.of_nat n) (allocs p).

(** * Threads *)

(** Where a worker is. *)
Inductive wpc :=
| WLock                     (* before pthread_mutex_lock *)
| WTest                     (* has the lock, before the test of the inner loop *)
| WWait                     (* in pthread_cond_wait *)
| WRelock                   (* woken, before it has the lock again *)
| WUnlock (t : task_loc)    (* has the lock and a task *)
| WRun (t : task_loc)       (* before the call of the task *)
| WBreak                    (* has the lock, out of the loop *)
| WDone.

(** Where a thread that uses the pool is. *)
Inductive cpc :=
| CIdle
| CAddLock (f : Fn) (a : Arg)
| CAddBody (f : Fn) (a : Arg)
| CUnlock (err : Z)
| CDesLock (graceful : bool)
| CDesBody (graceful : bool)
| CDesUnlock
| CJoin (i : nat)
| CRet (r : Z).

Inductive agent := W (n : nat) | C (n : nat).

(** The state of all threads; [submitted], [executed] and [dropped] record the
    tasks accepted, called, and freed without a call. *)
Record sys := Sys {
  pl : threadpool_t;
  owner : option agent;
  workers : list wpc;
  clients : list cpc;
  submitted : list (Fn * Arg);
  executed : list (Fn * Arg);
  dropped : list (Fn * Arg);
  destroyed : bool
}.

Definition at_worker (w : nat) (pc : wpc) (p : threadpool_t) (o : option agent) (ran : list (Fn * Arg)) (s : sys) : sys :=
  Sys p o (<[w := pc]> (workers s)) (clients s) (submitted s) (executed s ++ ran) (dropped s) (destroyed s).
Definition at_client (c : nat) (pc : cpc) (p : threadpool_t) (o : option agent) (ws : list wpc)
    (subm drop : list (Fn * Arg)) (d : bool) (s : sys) : sys :=
  Sys p o ws (<[c := pc]> (clients s)) (submitted s ++ subm) (executed s) (dropped s ++ drop) d.

(** pthread_cond_signal: at least one of the waiting threads wakes up. *)
Definition woken (a b : wpc) : Prop := b = a \/ (a = WWait /\ b = WRelock).
Definition signalled (ws ws' : list wpc) : Prop :=
  Forall2 woken ws ws' /\ (WWait ∈ ws -> exists i, ws !! i = Some WWait /\ ws' !! i = Some WRelock).
Definition broadcast (ws : list wpc) : list wpc := map (fun pc => match pc with WWait => WRelock | _ => pc end) ws.

(** The tasks still on the list, as [threadpool_free] frees them. *)
Definition payload (p : threadpool_t) (t : task_loc) : option (Fn * Arg) :=
  match cells p !! t with Some (MkTask (Some f) (Some a) _) => Some (f, a) | _ => None end.
Definition freed (p p' : threadpool_t) : list (Fn * Arg) :=
  omap (fun t => if decide (cells p' !! t = None) then payload p t else None) (map fst (map_to_list (cells p))).

(** One step of one thread. [malloc_ok] tells whether malloc can only succeed. *)
Inductive step (malloc_ok : bool) (s : sys) : sys -> Prop :=
| st_lock w pc :
    workers s !! w = Some pc -> pc = WLock \/ pc = WRelock -> owner s = None ->
    step malloc_ok s (at_worker w WTest (pl s) (Some (W w)) [] s)
| st_spurious w :
    workers s !! w = Some WWait -> step malloc_ok s (at_worker w WRelock (pl s) (owner s) [] s)
| st_wait w p :
    workers s !! w = Some WTest -> threadpool_worker (pl s) = Ret V_wait p ->
    step malloc_ok s (at_worker w WWait p None [] s)
| st_again w p :
    workers s !! w = Some WTest -> threadpool_worker (pl s) = Ret V_again p ->
    step malloc_ok s (at_worker w WLock p None [] s)
| st_break w p :
    workers s !! w = Some WTest -> threadpool_worker (pl s) = Ret V_break p ->
    step malloc_ok s (at_worker w WBreak p (owner s) [] s)
| st_take w t p :
    workers s !! w = Some WTest -> threadpool_worker (pl s) = Ret (V_take t) p ->
    step malloc_ok s (at_worker w (WUnlock t) p (owner s) [] s)
| st_unlock w t :
    workers s !! w = Some (WUnlock t) -> step malloc_ok s (at_worker w (WRun t) (pl s) None [] s)
| st_run w t fa p :
    workers s !! w = Some (WRun t) -> run_task t (pl s) = Ret fa p ->
    step malloc_ok s (at_worker w WLock p (owner s) [fa] s)
| st_end w p :
    workers s !! w = Some WBreak -> worker_end (pl s) = Ret tt p ->
    step malloc_ok s (at_worker w WDone p None [] s)
| st_add_call c f a :
    clients s !! c = Some CIdle ->
    step malloc_ok s (at_client c (CAddLock f a) (pl s) (owner s) (workers s) [] [] (destroyed s) s)
| st_add_lock c f a :
    clients s !! c = Some (CAddLock f a) -> owner s = None -> destroyed s = false ->
    step malloc_ok s (at_client c (CAddBody f a) (pl s) (Some (C c)) (workers s) [] [] false s)
| st_add_out c f a err p :
    clients s !! c = Some (CAddBody f a) -> threadpool_add true f a (pl s) = Ret (A_out err) p ->
    step malloc_ok s (at_client c (CUnlock err) p (owner s) (workers s) [] [] (destroyed s) s)
| st_add_leave c f a r p :
    malloc_ok = false ->
    clients s !! c = Some (CAddBody f a) -> threadpool_add false f a (pl s) = Ret (A_leave r) p ->
    step malloc_ok s (at_client c (CRet r) p (owner s) (workers s) [] [] (destroyed s) s)
| st_add_push c f a p ws :
    clients s !! c = Some (CAddBody f a) -> threadpool_add true f a (pl s) = Ret A_signal p ->
    signalled (workers s) ws ->
    step malloc_ok s (at_client c (CUnlock 0) p (owner s) ws [(f, a)] [] (destroyed s) s)
| st_unlock_out c err :
    clients s !! c = Some (CUnlock err) ->
    step malloc_ok s (at_client c (CRet err) (pl s) None (workers s) [] [] (destroyed s) s)
| st_return c r :
    clients s !! c = Some (CRet r) ->
    step malloc_ok s (at_client c CIdle (pl s) (owner s) (workers s) [] [] (destroyed s) s)
| st_des_call c g :
    clients s !! c = Some CIdle ->
    step malloc_ok s (at_client c (CDesLock g) (pl s) (owner s) (workers s) [] [] (destroyed s) s)
| st_des_lock c g :
    clients s !! c = Some (CDesLock g) -> owner s = None -> destroyed s = false ->
    step malloc_ok s (at_client c (CDesBody g) (pl s) (Some (C c)) (workers s) [] [] false s)
| st_des_already c g p :
    clients s !! c = Some (CDesBody g) -> threadpool_destroy g (pl s) = Ret false p ->
    step malloc_ok s (at_client c (CRet tp_already_shutdown) p (owner s) (workers s) [] [] (destroyed s) s)
| st_des_go c g p :
    clients s !! c = Some (CDesBody g) -> threadpool_destroy g (pl s) = Ret true p ->
    step malloc_ok s (at_client c CDesUnlock p (owner s) (broadcast (workers s)) [] [] (destroyed s) s)
| st_des_unlock c :
    clients s !! c = Some CDesUnlock ->
    step malloc_ok s (at_client c (CJoin 0) (pl s) None (workers s) [] [] (destroyed s) s)
| st_join c i :
    clients s !! c = Some (CJoin i) -> workers s !! i = Some WDone ->
    step malloc_ok s (at_client c (CJoin (S i)) (pl s) (owner s) (workers s) [] [] (destroyed s) s)
| st_free c i r p :
    clients s !! c = Some (CJoin i) -> Z.of_nat i = thread_count (pl s) -> threadpool_free (pl s) = Ret r p ->
    step malloc_ok s (at_client c (CRet 0) p (owner s) (workers s) [] (freed (pl s) p) true s).

(** The states after [threadpool_init] with [n] workers and [m] threads that use the pool. *)
Definition sys0 (p : threadpool_t) (n m : nat) : sys :=
  Sys (threads_created n p) None (replicate n WLock) (replicate m CIdle) [] [] [] false.
Inductive reach (malloc_ok : bool) (s0 : sys) : sys -> Prop :=
| reach_start : reach malloc_ok s0 s0
| reach_step s s' : reach malloc_ok s0 s -> step malloc_ok s s' -> reach malloc_ok s0 s'.
End Pool.
