(* ===== verification/ThreadPoolThm.v ===== *)
(** Correctness of the thread pool: its critical sections on the task list, and
    the invariants of all interleavings of its threads. *)
From S2P Require Import Prelude ThreadPool.
Local Open Scope Z_scope.

Section Thm.
Context {Fn Arg : Type}.
Abbreviation pool := (@threadpool_t Fn Arg).
Abbreviation sys := (@sys Fn Arg).
Abbreviation task := (@task_t Fn Arg).
Implicit Types (p : pool) (s : sys) (t : task_loc) (ts fl : list task_loc) (f : Fn) (a : Arg) (w c : nat).

(** * The task list *)

(** A task that can be called. *)
Definition ready p t : Prop := exists f a n, cells p !! t = Some (MkTask (Some f) (Some a) n).

Fixpoint qseg p (hd : option task_loc) ts : Prop :=
  match ts with
  | [] => hd = None
  | t :: ts => hd = Some t /\ exists f a n, cells p !! t = Some (MkTask (Some f) (Some a) n) /\ qseg p n ts
  end.

(** The pool holds the tasks [ts] on its list, and [fl] in the hands of workers. *)
Record queue_ok p ts fl : Prop := {
  q_head : exists n, cells p !! p_head p = Some (MkTask None None n) /\ qseg p n ts;
  q_nodup : NoDup (p_head p :: ts ++ fl);
  q_dom : forall t, is_Some (cells p !! t) <-> t ∈ p_head p :: ts ++ fl;
  q_fl : forall t, t ∈ fl -> ready p t;
  q_size : queue_size p = i32 (Z.of_nat (length ts));
  q_fresh : forall t, is_Some (cells p !! t) -> (Pos.to_nat t <= allocs p)%nat
}.

(** What an operation on the list leaves alone. *)
Definition same_rest p p' : Prop :=
  p_head p' = p_head p /\ thread_count p' = thread_count p /\ shutdown p' = shutdown p /\ start_size p' = start_size p.

Lemma qseg_frame p p' hd ts : (forall t, t ∈ ts -> cells p' !! t = cells p !! t) -> qseg p hd ts -> qseg p' hd ts.
Proof.
  revert hd. induction ts as [|t ts IH]; intros hd Hf; simpl; [done |]. intros (-> & f & a & n & Ht & Hs).
  split; [done |]. exists f, a, n. split; [rewrite Hf by set_solver; done |]. apply IH; [|done]. intros t' Ht'. apply Hf. set_solver.
Qed.

Lemma qseg_ready p hd ts t : qseg p hd ts -> t ∈ ts -> ready p t.
Proof.
  revert hd. induction ts as [|t' ts IH]; intros hd; simpl; [set_solver |].
  intros (-> & f & a & n & Ht & Hs) [->|Hin]%elem_of_cons; [by exists f, a, n | by eapply IH].
Qed.

Lemma queue_ok_perm p ts fl fl' : fl ≡ₚ fl' -> queue_ok p ts fl -> queue_ok p ts fl'.
Proof.
  intros Hp []. constructor; try done.
  - by rewrite <- Hp.
  - intros t. by rewrite <- Hp.
  - intros t. rewrite <- Hp. auto.
Qed.

Lemma payload_ready p t : ready p t -> is_Some (payload p t).
Proof. intros (f & a & n & Ht). unfold payload. rewrite Ht. by eexists. Qed.

Lemma payload_agree p p' t : cells p' !! t = cells p !! t -> payload p' t = payload p t.
Proof. unfold payload. by intros ->. Qed.

(** [threadpool_add], the pool not shut down. *)
Lemma add_spec p ts fl f a :
  queue_ok p ts fl -> shutdown p = 0 ->
  wp (threadpool_add true f a) p (fun v p' => v = A_signal /\ same_rest p p' /\
    exists t, queue_ok p' (t :: ts) fl /\ cells p !! t = None /\ payload p' t = Some (f, a) /\
      forall t', t' ∈ ts ++ fl -> payload p' t' = payload p t').
Proof.
  intros [(n & Hh & Hq) Hnd Hdom Hfl Hsz Hfr] Hsd. unfold threadpool_add. do 2 wp_step. rewrite Hsd. simpl.
  do 3 wp_step. eapply wp_get_or_undef; [exact Hh |]. set (t := Pos.of_succ_nat (allocs p)).
  assert (Ht : cells p !! t = None).
  { apply eq_None_not_Some. intros Hs%Hfr. unfold t in Hs. lia. }
  assert (Hne : p_head p <> t) by congruence.
  wp_step. unfold wp at 1, new_task. cbn [t_next]. fold t. unfold store_next. wp_step. wp_step.
  eapply wp_get_or_undef; [cbn; rewrite lookup_insert_ne by (by apply not_eq_sym); exact Hh |]. do 4 wp_step. split; [done |]. split; [done |].
  exists t. cbn. assert (Hnin : t ∉ p_head p :: ts ++ fl) by (rewrite <- Hdom, Ht; by intros [? ?]).
  assert (Hother : forall t', t' ∈ ts ++ fl ->
    <[p_head p := MkTask None None (Some t)]> (<[t := MkTask (Some f) (Some a) n]> (cells p)) !! t' = cells p !! t').
  { intros t' Ht'. rewrite !lookup_insert_ne; [done | set_solver |]. inversion Hnd; subst. set_solver. }
  split; [constructor; cbn|split; [done | split]].
  - exists (Some t). split; [by rewrite lookup_insert_eq |]. simpl. split; [done |]. exists f, a, n.
    split; [rewrite lookup_insert_ne, lookup_insert_eq by done; done |].
    eapply qseg_frame; [|exact Hq]. intros t' Ht'. cbn. apply Hother. set_solver.
  - inversion Hnd as [|?? Hnh Hnd']; subst. apply NoDup_cons. split; [set_solver |]. simpl. apply NoDup_cons. split; [set_solver | done].
  - intros t'. rewrite !lookup_insert_is_Some'. rewrite Hdom. set_solver.
  - intros t' Ht'. destruct (Hfl t' Ht') as (f' & a' & n' & E). exists f', a', n'. cbn. rewrite Hother; [done | set_solver].
  - rewrite Hsz, i32_add_l. f_equal. simpl length. lia.
  - intros t'. rewrite !lookup_insert_is_Some'. intros [<-|[<-|Hs]]; [|unfold t; lia|].
    + assert (is_Some (cells p !! p_head p)) as H%Hfr by (by eexists). lia.
    + apply Hfr in Hs. lia.
  - unfold payload. cbn. by rewrite lookup_insert_ne, lookup_insert_eq by done.
  - intros t' Ht'. apply payload_agree. cbn. by apply Hother.
Qed.

(** The first task taken off the list. *)
Lemma take_spec p ts fl :
  queue_ok p ts fl -> Z.of_nat (length ts) < 2 ^ 31 ->
  wp take_task p (fun v p' =>
    match ts with
    | [] => v = V_again /\ p' = p
    | t :: ts' => v = V_take t /\ same_rest p p' /\ queue_ok p' ts' (t :: fl) /\
        forall t', t' ∈ ts ++ fl -> payload p' t' = payload p t'
    end).
Proof.
  intros [(n & Hh & Hq) Hnd Hdom Hfl Hsz Hfr] Hlen. unfold take_task. do 3 wp_step.
  eapply wp_get_or_undef; [exact Hh |]. cbn [t_next]. destruct ts as [|t ts].
  { simpl in Hq. subst n. by wp_step. }
  destruct Hq as (-> & f & a & n' & Ht & Hq). wp_step. eapply wp_get_or_undef; [exact Ht |]. cbn [t_next].
  unfold store_next. do 2 wp_step. eapply wp_get_or_undef; [exact Hh |]. do 4 wp_step. split; [done |]. split; [done |].
  apply NoDup_cons in Hnd as [Hnh Hnd].
  assert (Hother : forall t', t' ∈ (t :: ts) ++ fl -> <[p_head p := MkTask None None n']> (cells p) !! t' = cells p !! t').
  { intros t' Ht'. rewrite lookup_insert_ne; [done |]. set_solver. }
  split; [constructor; cbn |].
  - exists n'. split; [by rewrite lookup_insert_eq |]. eapply qseg_frame; [|exact Hq]. intros t' Ht'. apply Hother. set_solver.
  - rewrite <- Permutation_middle. by apply NoDup_cons.
  - intros t'. rewrite lookup_insert_is_Some', Hdom. set_solver.
  - intros t' [->|Ht']%elem_of_cons.
    + exists f, a, n'. cbn. rewrite Hother; [done | set_solver].
    + destruct (Hfl t' Ht') as (f' & a' & m & E). exists f', a', m. cbn. rewrite Hother; [done | set_solver].
  - rewrite Hsz. unfold Z.sub. rewrite i32_add_l. f_equal. simpl length. lia.
  - intros t'. rewrite lookup_insert_is_Some'. intros [<-|Hs]; [|by apply Hfr]. apply Hfr. by eexists.
  - intros t' Ht'. apply payload_agree. cbn. by apply Hother.
Qed.

Lemma queue_zero p ts fl : queue_ok p ts fl -> Z.of_nat (length ts) < 2 ^ 31 -> queue_size p = 0 <-> ts = [].
Proof.
  intros [_ _ _ _ Hsz _] Hlen. rewrite Hsz, i32_small by (change (2 ^ 31) with 2147483648 in Hlen; lia).
  destruct ts; simpl; [done |]. split; [lia | done].
Qed.

(** The worker's critical section. *)
Lemma worker_spec p ts fl :
  queue_ok p ts fl -> Z.of_nat (length ts) < 2 ^ 31 ->
  wp threadpool_worker p (fun v p' => same_rest p p' /\
    match v with
    | V_wait => p' = p /\ ts = [] /\ shutdown p = 0
    | V_break => p' = p /\ (shutdown p = 1 \/ (shutdown p = 2 /\ ts = []))
    | V_again => p' = p /\ ts = [] /\ shutdown p <> 0 /\ shutdown p <> 1 /\ shutdown p <> 2
    | V_take t => shutdown p <> 1 /\ exists ts', ts = t :: ts' /\ queue_ok p' ts' (t :: fl) /\
        forall t', t' ∈ ts ++ fl -> payload p' t' = payload p t'
    end).
Proof.
  intros Hq Hlen. pose proof (queue_zero p ts fl Hq Hlen) as Hz. pose proof (take_spec p ts fl Hq Hlen) as Ht.
  unfold threadpool_worker, immediate_shutdown, graceful_shutdown. do 4 wp_step.
  destruct (Z.eqb_spec (queue_size p) 0) as [E|E], (Z.eqb_spec (shutdown p) 0) as [E0|E0],
    (Z.eqb_spec (shutdown p) 1) as [E1|E1], (Z.eqb_spec (shutdown p) 2) as [E2|E2]; simpl; try lia;
    try (wp_step; split; [done |]; tauto).
  all: eapply wp_mono; [exact Ht |]; cbv beta; intros v p' Hv; destruct ts as [|t ts];
    try (destruct E; by apply Hz); try (by destruct Hz as [Hz _]; specialize (Hz E)).
  all: try (destruct Hv as (-> & Hr & Hq' & Hp); split; [done |]; split; [done |]; by exists ts).
  destruct Hv as [-> ->]. done.
Qed.

(** A task called and freed. *)
Lemma run_spec p ts fl t :
  queue_ok p ts (t :: fl) ->
  wp (run_task t) p (fun fa p' => payload p t = Some fa /\ same_rest p p' /\ queue_ok p' ts fl /\
    forall t', t' ∈ ts ++ fl -> payload p' t' = payload p t').
Proof.
  intros [(n & Hh & Hq) Hnd Hdom Hfl Hsz Hfr]. destruct (Hfl t) as (f & a & m & Ht); [set_solver |].
  unfold run_task. wp_step. eapply wp_get_or_undef; [exact Ht |]. cbn [func arg]. do 3 wp_step.
  rewrite <- Permutation_middle in Hnd. apply NoDup_cons in Hnd as [Hnh Hnd]. apply NoDup_cons in Hnd as [Hnt Hnd].
  assert (Hother : forall t', t' ∈ p_head p :: ts ++ fl -> delete t (cells p) !! t' = cells p !! t').
  { intros t' Ht'. rewrite lookup_delete_ne; [done |]. intros ->. set_solver. }
  split; [unfold payload; by rewrite Ht |]. split; [done |]. split; [constructor; cbn |].
  - exists n. split; [rewrite Hother by set_solver; done |]. eapply qseg_frame; [|exact Hq]. intros. apply Hother. set_solver.
  - apply NoDup_cons. split; [set_solver | done].
  - intros t'. rewrite lookup_delete_is_Some, Hdom. split; [set_solver |]. intros Hin. split; [|set_solver]. intros ->. set_solver.
  - intros t' Ht'. destruct (Hfl t') as (f' & a' & m' & E); [set_solver |]. exists f', a', m'. cbn. rewrite Hother; [done | set_solver].
  - done.
  - intros t'. rewrite lookup_delete_is_Some. intros [_ Hs]. by apply Hfr.
  - intros t' Ht'. apply payload_agree. cbn. apply Hother. set_solver.
Qed.

(** The list freed at the end. *)
Lemma free_tasks_spec fuel p n ts :
  cells p !! p_head p = Some (MkTask None None n) -> qseg p n ts -> NoDup (p_head p :: ts) -> (length ts <= fuel)%nat ->
  wp (free_tasks fuel) p (fun _ p' => same_rest p p' /\
    (forall t, t ∈ ts -> cells p' !! t = None) /\
    (forall t, t ∉ p_head p :: ts -> cells p' !! t = cells p !! t) /\ is_Some (cells p' !! p_head p)).
Proof.
  revert p n ts. induction fuel as [|fuel IH]; intros p n ts Hh Hq Hnd Hf; cbn [free_tasks]; do 3 wp_step;
    (eapply wp_get_or_undef; [exact Hh |]); cbn [t_next].
  - destruct ts; [|simpl in Hf; lia]. simpl in Hq. subst n. wp_step. split; [done |]. split; [set_solver |]. split; [done | by eexists].
  - destruct ts as [|t ts].
    + simpl in Hq. subst n. wp_step. split; [done |]. split; [set_solver |]. split; [done | by eexists].
    + destruct Hq as (-> & f & a & n' & Ht & Hq). apply NoDup_cons in Hnd as [Hnh Hnd]. apply NoDup_cons in Hnd as [Hnt Hnd].
      assert (Hne : t <> p_head p) by set_solver.
      wp_step. eapply wp_get_or_undef; [exact Ht |]. cbn [t_next]. unfold store_next. do 2 wp_step.
      eapply wp_get_or_undef; [exact Hh |]. do 3 wp_step. cbn [func arg].
      eapply wp_mono; [eapply (IH _ n' ts); cbn|].
      * rewrite lookup_delete_ne by done. by rewrite lookup_insert_eq.
      * eapply qseg_frame; [|exact Hq]. intros t' Ht'. cbn. rewrite lookup_delete_ne, lookup_insert_ne by set_solver. done.
      * apply NoDup_cons. split; [set_solver | done].
      * simpl in Hf. lia.
      * cbn. intros _ p' (Hr & Hgone & Hother & Hhd). split; [done |]. split; [|split; [|done]].
        -- intros t' [->|Ht']%elem_of_cons; [|by apply Hgone]. rewrite Hother by set_solver. by rewrite lookup_delete_eq.
        -- intros t' Ht'. rewrite Hother by set_solver. rewrite lookup_delete_ne, lookup_insert_ne by set_solver. done.
Qed.

Lemma free_spec p ts :
  queue_ok p ts [] -> start_size p <= 0 ->
  wp threadpool_free p (fun r p' => r = 0 /\ same_rest p p' /\ freed p p' ≡ₚ omap (payload p) ts).
Proof.
  intros [(n & Hh & Hq) Hnd Hdom _ _ _] Hst. rewrite app_nil_r in Hnd, Hdom. unfold threadpool_free. do 2 wp_step.
  destruct (_ >? 0) eqn:E; [apply Z.gtb_lt in E; lia |]. do 3 wp_step.
  eapply wp_mono; [eapply free_tasks_spec; [exact Hh | exact Hq | exact Hnd |]|].
  - apply NoDup_cons in Hnd as [_ Hnd]. rewrite <- size_dom, <- (size_list_to_set (C := gset positive) ts) by done.
    apply subseteq_size. intros t. rewrite elem_of_list_to_set, elem_of_dom, Hdom. set_solver.
  - cbv beta. intros _ p' (Hr & Hgone & _ & Hhd). wp_step. split; [done |]. split; [done |]. unfold freed.
    assert (Hkeys : map fst (map_to_list (cells p)) ≡ₚ p_head p :: ts).
    { apply NoDup_Permutation; [apply NoDup_fst_map_to_list | done |]. intros t. rewrite <- Hdom.
      change (map fst (map_to_list (cells p))) with (fst <$> map_to_list (cells p)). rewrite list_elem_of_fmap. split.
      - intros ([k v] & -> & Hin%elem_of_map_to_list). by eexists.
      - intros [v Hv]. exists (t, v). split; [done | by apply elem_of_map_to_list]. }
    rewrite Hkeys. simpl. rewrite decide_False by (intros Hn; rewrite Hn in Hhd; by destruct Hhd).
    assert (Heq : omap (fun t => if decide (cells p' !! t = None) then payload p t else None) ts = omap (payload p) ts).
    { clear -Hgone. induction ts as [|t ts IH]; [done |]. simpl. rewrite decide_True by (apply Hgone; set_solver).
      destruct (payload p t); [f_equal|]; apply IH; intros; apply Hgone; set_solver. }
    by rewrite <- Heq.
Qed.

(** * Workers *)

Definition wloc (pc : wpc) : option task_loc := match pc with WUnlock t | WRun t => Some t | _ => None end.
Definition inflight (ws : list wpc) : list task_loc := omap wloc ws.
Definition ended (pc : wpc) : bool := match pc with WBreak | WDone => true | _ => false end.
#[global] Instance wpc_dec : EqDecision wpc.
Proof. solve_decision. Defined.
Definition alive (ws : list wpc) : nat := length (filter (fun pc => pc <> WDone) ws).

Lemma inflight_insert ws w pc :
  ws !! w = Some pc -> exists rest, inflight ws ≡ₚ option_list (wloc pc) ++ rest /\
    forall pc', inflight (<[w := pc']> ws) ≡ₚ option_list (wloc pc') ++ rest.
Proof.
  intros Hw. exists (inflight (take w ws) ++ inflight (drop (S w) ws)).
  assert (Hgen : forall pc', inflight (take w ws ++ pc' :: drop (S w) ws) ≡ₚ
    option_list (wloc pc') ++ inflight (take w ws) ++ inflight (drop (S w) ws)).
  { intros pc'. unfold inflight. rewrite omap_app. simpl. destruct (wloc pc'); simpl; [|done]. by rewrite Permutation_middle. }
  split.
  - rewrite <- (take_drop_middle ws w pc Hw) at 1. apply Hgen.
  - intros pc'. rewrite insert_take_drop by (by eapply lookup_lt_Some). apply Hgen.
Qed.

Lemma alive_insert ws w pc pc' :
  ws !! w = Some pc ->
  Z.of_nat (alive (<[w := pc']> ws)) =
    Z.of_nat (alive ws) - (if decide (pc = WDone) then 0 else 1) + (if decide (pc' = WDone) then 0 else 1).
Proof.
  intros Hw. unfold alive. rewrite insert_take_drop by (by eapply lookup_lt_Some).
  rewrite <- (take_drop_middle ws w pc Hw) at 3. rewrite !filter_app, !filter_cons, !length_app.
  destruct (decide (pc = WDone)), (decide (pc' = WDone)); repeat case_decide; simpl; try done; lia.
Qed.

Lemma inflight_cons pc ws : inflight (pc :: ws) = option_list (wloc pc) ++ inflight ws.
Proof. unfold inflight. simpl. by destruct (wloc pc). Qed.
Lemma alive_cons pc ws : alive (pc :: ws) = ((if decide (pc = WDone) then 0 else 1) + alive ws)%nat.
Proof. unfold alive. rewrite filter_cons. destruct (decide (pc = WDone)); case_decide; try done; tauto. Qed.

Lemma woken_same ws ws' :
  Forall2 woken ws ws' -> length ws' = length ws /\ inflight ws' = inflight ws /\ alive ws' = alive ws /\
    (forall w pc, ws' !! w = Some pc -> pc <> WRelock -> ws !! w = Some pc) /\
    (forall w pc, ws !! w = Some pc -> pc <> WWait -> ws' !! w = Some pc).
Proof.
  induction 1 as [|a b ws ws' [->|[-> ->]] _ (Hl & Hi & Ha & H1 & H2)]; [done | |];
    rewrite !inflight_cons, !alive_cons, Hi, Ha.
  - split; [simpl; lia |]. do 2 (split; [done |]). split; intros [|w] pc; simpl; auto.
  - split; [simpl; lia |]. do 2 (split; [done |]). split; intros [|w] pc; simpl; auto; by intros [= <-].
Qed.

Lemma broadcast_woken ws : Forall2 woken ws (broadcast ws) /\ WWait ∉ broadcast ws.
Proof.
  unfold woken. induction ws as [|pc ws [IH1 IH2]]; simpl; [split; [done | set_solver] |]. split.
  - constructor; [destruct pc; auto | done].
  - rewrite not_elem_of_cons. split; [by destruct pc | done].
Qed.
End Thm.
