(* ===== verification/ThreadPoolSys.v ===== *)
(** All interleavings of the pool's threads: mutual exclusion, conservation of
    tasks, no lost wakeup, graceful shutdown; and the two ways the lock is lost. *)
From S2P Require Import Prelude ThreadPool ThreadPoolThm.
Local Open Scope Z_scope.

Section Sys.
Context {Fn Arg : Type}.
Abbreviation pool := (@threadpool_t Fn Arg).
Abbreviation sys := (@ThreadPool.sys Fn Arg).
Abbreviation cpc := (@ThreadPool.cpc Fn Arg).
Implicit Types (p : pool) (s : sys) (t : positive) (ts fl : list positive) (f : Fn) (a : Arg) (w c : nat) (pc : wpc) (k : cpc).

(** * Mutual exclusion *)

Definition wholds pc : bool := match pc with WTest | WUnlock _ | WBreak => true | _ => false end.
Definition cholds k : bool := match k with CAddBody _ _ | CUnlock _ | CDesBody _ | CDesUnlock => true | _ => false end.

Record excl s : Prop := {
  ex_worker : forall w pc, workers s !! w = Some pc -> wholds pc = true -> owner s = Some (W w);
  ex_client : forall c k, clients s !! c = Some k -> cholds k = true -> owner s = Some (C c)
}.

Lemma lookup_insert_cases {A} (l : list A) i j x y :
  <[i := x]> l !! j = Some y -> (j = i /\ y = x) \/ (j <> i /\ l !! j = Some y).
Proof. rewrite list_lookup_insert_Some. naive_solver. Qed.

(** A worker that moves, the lock taken by it, kept, or released by it. *)
Lemma excl_worker s w pc pc' p o ran :
  excl s -> workers s !! w = Some pc ->
  (o = owner s \/ (owner s = None /\ o = Some (W w)) \/ (wholds pc = true /\ o = None)) ->
  (wholds pc' = true -> o = Some (W w)) -> excl (at_worker w pc' p o ran s).
Proof.
  intros [Hw Hc] Hpc Ho Hh. constructor; simpl.
  - intros w' q [[-> ->]|[Hne Hq]]%lookup_insert_cases Hold; [auto |]. pose proof (Hw w' q Hq Hold) as Hown.
    destruct Ho as [->|[[E ->]|[Hp ->]]]; [done | congruence |]. pose proof (Hw w pc Hpc Hp). congruence.
  - intros c k Hk Hold. pose proof (Hc c k Hk Hold) as Hown.
    destruct Ho as [->|[[E ->]|[Hp ->]]]; [done | congruence |]. pose proof (Hw w pc Hpc Hp). congruence.
Qed.

(** A thread that uses the pool moves; some waiting workers may wake up. *)
Lemma excl_client s c k k' p o ws subm drop d :
  excl s -> clients s !! c = Some k -> Forall2 woken (workers s) ws ->
  (o = owner s \/ (owner s = None /\ o = Some (C c)) \/ (cholds k = true /\ o = None)) ->
  (cholds k' = true -> o = Some (C c)) -> excl (at_client c k' p o ws subm drop d s).
Proof.
  intros [Hw Hc] Hk Hwk Ho Hh. destruct (woken_same _ _ Hwk) as (_ & _ & _ & Hback & _). constructor; simpl.
  - intros w q Hq Hold. assert (Hown : owner s = Some (W w)) by (eapply Hw; [apply Hback; [exact Hq | by intros ->] | done]).
    destruct Ho as [->|[[E ->]|[Hp ->]]]; [done | congruence |]. pose proof (Hc c k Hk Hp). congruence.
  - intros c' q [[-> ->]|[Hne Hq]]%lookup_insert_cases Hold; [auto |]. pose proof (Hc c' q Hq Hold) as Hown.
    destruct Ho as [->|[[E ->]|[Hp ->]]]; [done | congruence |]. pose proof (Hc c k Hk Hp). congruence.
Qed.

Lemma woken_refl ws : Forall2 woken ws ws.
Proof. apply Forall_Forall2_diag, Forall_forall. intros pc _. by left. Qed.

Lemma excl_step m s s' : excl s -> step m s s' -> excl s'.
Proof.
  intros He Hst. pose proof (woken_refl (workers s)) as Hrefl. pose proof (broadcast_woken (workers s)) as [Hbr _].
  pose proof (ex_worker _ He) as HW. pose proof (ex_client _ He) as HC.
  inversion Hst; subst; clear Hst;
    try match goal with H : signalled _ _ |- _ => destruct H as [Hsig _] end;
    first [ eapply excl_worker; [exact He | eassumption | |]
          | eapply excl_client; [exact He | eassumption | eassumption | |]];
    simpl; try done; try (by auto); try (intros _; by eauto); naive_solver.
Qed.

(** Two threads that are in a critical section are the same thread. *)
Definition in_section s (g : agent) : Prop :=
  match g with
  | W w => exists pc, workers s !! w = Some pc /\ wholds pc = true
  | C c => exists k, clients s !! c = Some k /\ cholds k = true
  end.

Lemma excl_reach m p n users s : reach m (sys0 p n users) s -> excl s.
Proof.
  induction 1 as [|s s' _ IH Hst]; [|by eapply excl_step]. constructor; simpl.
  - intros w pc Hw Hh. apply lookup_replicate in Hw as [-> _]. done.
  - intros c q Hc Hh. apply lookup_replicate in Hc as [-> _]. done.
Qed.

(** C13: in every interleaving, also when malloc fails, at most one thread is in
    a critical section of the pool, and it is the owner of the lock. *)
Theorem mutual_exclusion m p n users s g g' :
  reach m (sys0 p n users) s -> in_section s g -> in_section s g' -> g = g' /\ owner s = Some g.
Proof.
  intros Hr Hg Hg'. pose proof (excl_reach _ _ _ _ _ Hr) as [Hw Hc].
  assert (Hown : forall g, in_section s g -> owner s = Some g) by (intros [x|x] (y & ? & ?); eauto).
  pose proof (Hown g Hg). pose proof (Hown g' Hg'). split; [congruence | done].
Qed.

(** * The state of the pool *)

(** A thread between its shutdown of the pool and the end of its joins. *)
Definition joining k : bool := match k with CDesUnlock | CJoin _ => true | _ => false end.

(** The tasks: on the list [ts], with the workers, called. *)
Record tasks_ok s ts : Prop := {
  tk_queue : queue_ok (pl s) ts (inflight (workers s));
  tk_count : submitted s ≡ₚ executed s ++ omap (payload (pl s)) (inflight (workers s) ++ ts);
  tk_awake : shutdown (pl s) = 0 -> ts <> [] -> exists w pc, workers s !! w = Some pc /\ pc <> WWait;
  tk_drained : shutdown (pl s) = 2 -> forall w pc, workers s !! w = Some pc -> ended pc = true -> ts = []
}.

Record sinv s : Prop := {
  si_sd : shutdown (pl s) = 0 \/ shutdown (pl s) = 1 \/ shutdown (pl s) = 2;
  si_count : thread_count (pl s) = Z.of_nat (length (workers s)) /\ 0 < thread_count (pl s) < 2 ^ 31;
  si_start : start_size (pl s) = Z.of_nat (alive (workers s));
  si_nowait : shutdown (pl s) <> 0 -> forall w, workers s !! w <> Some WWait;
  si_live : shutdown (pl s) = 0 -> forall w pc, workers s !! w = Some pc -> ended pc = false;
  si_join : forall c k, clients s !! c = Some k -> joining k = true ->
    shutdown (pl s) <> 0 /\ destroyed s = false /\
    (forall i, k = CJoin i -> forall j, (j < i)%nat -> workers s !! j = Some WDone);
  si_uniq : forall c c' k k', clients s !! c = Some k -> clients s !! c' = Some k' ->
    joining k = true -> joining k' = true -> c = c';
  si_dead : destroyed s = true -> shutdown (pl s) <> 0 /\
    (forall w pc, workers s !! w = Some pc -> pc = WDone) /\
    submitted s ≡ₚ executed s ++ dropped s /\ (shutdown (pl s) = 2 -> dropped s = []);
  si_tasks : destroyed s = false -> dropped s = [] /\ exists ts, tasks_ok s ts
}.

Lemma omap_agree p p' (l : list positive) :
  (forall t, t ∈ l -> payload p' t = payload p t) -> omap (payload p') l = omap (payload p) l.
Proof.
  induction l as [|t l IH]; intros Hl; [done |]. simpl. rewrite Hl by set_solver.
  destruct (payload p t); [f_equal|]; apply IH; intros; apply Hl; set_solver.
Qed.

Lemma omap_ready p (l : list positive) : (forall t, t ∈ l -> ready p t) -> length (omap (payload p) l) = length l.
Proof.
  induction l as [|t l IH]; intros Hl; [done |]. simpl.
  destruct (payload_ready p t) as [fa ->]; [apply Hl; set_solver |]. simpl. f_equal. apply IH. intros. apply Hl. set_solver.
Qed.

Lemma queue_ready p ts fl t : queue_ok p ts fl -> t ∈ fl ++ ts -> ready p t.
Proof. intros [(n & _ & Hq) _ _ Hfl _ _] [Ht|Ht]%elem_of_app; [by apply Hfl | by eapply qseg_ready]. Qed.

Lemma tasks_small s ts : tasks_ok s ts -> Z.of_nat (length (submitted s)) < 2 ^ 31 -> Z.of_nat (length ts) < 2 ^ 31.
Proof.
  intros [Hq Hc _ _] Hlen. rewrite Hc, length_app, omap_ready, length_app in Hlen; [lia |].
  intros t Ht. by eapply queue_ready.
Qed.

(** ** A worker moves *)

Lemma sinv_worker s w pc pc' p o ran :
  sinv s -> workers s !! w = Some pc -> pc <> WDone ->
  shutdown p = shutdown (pl s) -> thread_count p = thread_count (pl s) ->
  start_size p = start_size (pl s) - (if decide (pc' = WDone) then 1 else 0) ->
  (pc' = WWait -> shutdown (pl s) = 0) -> (ended pc' = true -> shutdown (pl s) <> 0) ->
  (forall ts, tasks_ok s ts -> exists ts', tasks_ok (at_worker w pc' p o ran s) ts') ->
  sinv (at_worker w pc' p o ran s).
Proof.
  intros [Hsd Hcount Hstart Hnw Hlive Hjoin Huniq Hdead Htasks] Hw Hpc Es Et Est Hwait Hend Hts.
  constructor; simpl; rewrite ?Es, ?Et; try done.
  - by rewrite length_insert.
  - pose proof (alive_insert _ _ _ pc' Hw) as Ha. rewrite decide_False in Ha by done. rewrite Est, Hstart, Ha.
    destruct (decide (pc' = WDone)); lia.
  - intros Hne w' [[_ E]|[_ E]]%lookup_insert_cases; [by apply Hne, Hwait | by eapply Hnw].
  - intros Hz w' q [[_ ->]|[_ E]]%lookup_insert_cases; [|by eapply Hlive].
    destruct (ended pc'); [by destruct Hend | done].
  - intros c k Hk Hj. destruct (Hjoin c k Hk Hj) as (? & ? & Hdone). split; [done |]. split; [done |].
    intros i Hi j Hlt. pose proof (Hdone i Hi j Hlt) as Hd. rewrite list_lookup_insert_ne; [done |]. congruence.
  - intros Hd. destruct (Hdead Hd) as (_ & Hall & _). destruct Hpc. by eapply Hall.
  - intros Hd. destruct (Htasks Hd) as (Hdrop & ts & Hok). split; [done |]. by apply (Hts ts).
Qed.

(** ... without touching the list. *)
Lemma tasks_keep s w pc pc' p o ts :
  tasks_ok s ts -> workers s !! w = Some pc -> wloc pc' = wloc pc -> p = pl s \/ (exists v, p = set_start v (pl s)) ->
  (pc' = WWait -> shutdown (pl s) = 0 -> ts = []) -> (ended pc' = true -> shutdown (pl s) = 2 -> ts = []) ->
  tasks_ok (at_worker w pc' p o [] s) ts.
Proof.
  intros [Hq Hc Ha Hd] Hw Hloc Hp Hwait Hend.
  destruct (inflight_insert _ _ _ Hw) as (rest & Hr & Hins). specialize (Hins pc'). rewrite Hloc, <- Hr in Hins.
  assert (Hpay : forall t, payload p t = payload (pl s) t) by (destruct Hp as [->|[v ->]]; done).
  assert (Hsd : shutdown p = shutdown (pl s)) by (destruct Hp as [->|[v ->]]; done).
  constructor; simpl; rewrite ?Hsd.
  - apply (queue_ok_perm _ _ (inflight (workers s))); [done |]. destruct Hp as [->|[v ->]]; [done |].
    destruct Hq as [(n & Hh & Hs) ? ? Hfl ? ?]. constructor; try done. exists n. split; [done |]. by eapply qseg_frame; [|exact Hs].
  - rewrite app_nil_r, (omap_agree (pl s) p) by auto. by rewrite Hins.
  - intros Hz Hne. exists w, pc'. split; [by rewrite list_lookup_insert_eq by (by eapply lookup_lt_Some) |].
    intros ->. by apply Hne, Hwait.
  - intros Hz w' q [[_ ->]|[_ E]]%lookup_insert_cases He; [by apply Hend | by eapply Hd].
Qed.

Lemma sinv_take s w t p o :
  sinv s -> Z.of_nat (length (submitted s)) < 2 ^ 31 -> workers s !! w = Some WTest ->
  threadpool_worker (pl s) = Ret (V_take t) p -> sinv (at_worker w (WUnlock t) p o [] s).
Proof.
  intros Hs Hlen Hw Hrun.
  assert (Hspec : forall ts, tasks_ok s ts -> exists ts', ts = t :: ts' /\ same_rest (pl s) p /\
    queue_ok p ts' (t :: inflight (workers s)) /\
    forall t', t' ∈ ts ++ inflight (workers s) -> payload p t' = payload (pl s) t').
  { intros ts Hok. pose proof (worker_spec (pl s) ts _ (tk_queue _ _ Hok) (tasks_small _ _ Hok Hlen)) as Hwp.
    unfold wp in Hwp. rewrite Hrun in Hwp. destruct Hwp as (Hr & _ & ts' & -> & Hq & Hp). by exists ts'. }
  assert (Hdes : destroyed s = false).
  { destruct (destroyed s) eqn:E; [|done]. destruct (si_dead _ Hs E) as (_ & Hall & _). by apply Hall in Hw. }
  destruct (si_tasks _ Hs Hdes) as (_ & ts & Hok). destruct (Hspec ts Hok) as (ts' & _ & (_ & E1 & E2 & E3) & _).
  eapply sinv_worker; try done; [simpl; lia |]. clear ts ts' Hok. intros ts Hok.
  destruct (Hspec ts Hok) as (ts' & -> & _ & Hq & Hpay). exists ts'.
  destruct (inflight_insert _ _ _ Hw) as (rest & Hr & Hins). specialize (Hins (WUnlock t)). simpl in Hr, Hins. rewrite <- Hr in Hins.
  destruct Hok as [_ Hc _ Hd]. constructor; simpl; rewrite ?E2.
  - by apply (queue_ok_perm _ _ (t :: inflight (workers s))).
  - rewrite app_nil_r, (omap_agree (pl s) p), Hins.
    + rewrite Hc. simpl. by rewrite <- (Permutation_middle (inflight (workers s)) ts' t).
    + intros t' Ht'. apply Hpay. rewrite Hins in Ht'. set_solver.
  - intros _ _. exists w, (WUnlock t). by rewrite list_lookup_insert_eq by (by eapply lookup_lt_Some).
  - intros Hz w' q [[_ ->]|[_ E]]%lookup_insert_cases He; [done |]. by specialize (Hd Hz w' q E He).
Qed.

Lemma sinv_run s w t fa p o :
  sinv s -> workers s !! w = Some (WRun t) -> run_task t (pl s) = Ret fa p -> sinv (at_worker w WLock p o [fa] s).
Proof.
  intros Hs Hw Hrun.
  destruct (inflight_insert _ _ _ Hw) as (rest & Hr & Hins). specialize (Hins WLock). simpl in Hr, Hins.
  assert (Hspec : forall ts, tasks_ok s ts -> payload (pl s) t = Some fa /\ same_rest (pl s) p /\ queue_ok p ts rest /\
    forall t', t' ∈ ts ++ rest -> payload p t' = payload (pl s) t').
  { intros ts Hok. pose proof (queue_ok_perm _ _ _ _ Hr (tk_queue _ _ Hok)) as Hq.
    pose proof (run_spec _ _ _ _ Hq) as Hwp. unfold wp in Hwp. by rewrite Hrun in Hwp. }
  assert (Hdes : destroyed s = false).
  { destruct (destroyed s) eqn:E; [|done]. destruct (si_dead _ Hs E) as (_ & Hall & _). by apply Hall in Hw. }
  destruct (si_tasks _ Hs Hdes) as (_ & ts & Hok). destruct (Hspec ts Hok) as (_ & (_ & E1 & E2 & E3) & _).
  eapply sinv_worker; try done; [simpl; lia |]. clear ts Hok. intros ts Hok. exists ts.
  destruct (Hspec ts Hok) as (Hfa & _ & Hq & Hpay). destruct Hok as [_ Hc _ Hd].
  constructor; simpl; rewrite ?E2.
  - by apply (queue_ok_perm _ _ rest).
  - rewrite (omap_agree (pl s) p), Hins.
    + rewrite Hc, Hr. simpl. rewrite Hfa. by rewrite <- app_assoc.
    + intros t' Ht'. apply Hpay. rewrite Hins in Ht'. set_solver.
  - intros _ _. exists w, WLock. by rewrite list_lookup_insert_eq by (by eapply lookup_lt_Some).
  - intros Hz w' q [[_ ->]|[_ E]]%lookup_insert_cases He; [done |]. by specialize (Hd Hz w' q E He).
Qed.

(** ** A thread that uses the pool moves *)

Lemma add_cases m f a p v p' :
  threadpool_add m f a p = Ret v p' ->
  (shutdown p <> 0 /\ v = A_out tp_already_shutdown /\ p' = p) \/
  (shutdown p = 0 /\ m = false /\ v = A_leave (-1) /\ p' = p) \/ (shutdown p = 0 /\ m = true /\ v = A_signal).
Proof.
  unfold threadpool_add. rewrite (bind_eq _ _ p (shutdown p) p) by done.
  destruct (Z.eqb_spec (shutdown p) 0) as [E|E]; simpl; [|intros [= <- <-]; naive_solver].
  destruct m; simpl; [|intros [= <- <-]; naive_solver]. intros (h & p1 & _ & H)%bind_ret_inv.
  apply bind_ret_inv in H as (c & p2 & _ & H). apply bind_ret_inv in H as (t & p3 & _ & H).
  apply bind_ret_inv in H as (u & p4 & _ & H). apply bind_ret_inv in H as (u' & p5 & _ & H). injection H as <- _. naive_solver.
Qed.

Lemma destroy_cases g p v p' :
  threadpool_destroy g p = Ret v p' ->
  if v then shutdown p = 0 /\ p' = set_shutdown (if g then graceful_shutdown else immediate_shutdown) p
  else shutdown p <> 0 /\ p' = p.
Proof.
  unfold threadpool_destroy. rewrite (bind_eq _ _ p (shutdown p) p) by done.
  destruct (Z.eqb_spec (shutdown p) 0) as [E|E]; simpl; intros [= <- <-]; done.
Qed.

Lemma sinv_client s c k k' o :
  sinv s -> clients s !! c = Some k -> joining k = joining k' -> (forall i, k' = CJoin i -> k = CJoin i) ->
  sinv (at_client c k' (pl s) o (workers s) [] [] (destroyed s) s).
Proof.
  intros [Hsd Hcount Hstart Hnw Hlive Hjoin Huniq Hdead Htasks] Hk Hj Hi.
  constructor; simpl; rewrite ?app_nil_r; try done.
  - intros c' q [[-> ->]|[_ Hq]]%lookup_insert_cases Hjq; [|by eapply Hjoin]. rewrite <- Hj in Hjq.
    destruct (Hjoin _ _ Hk Hjq) as (? & ? & Hd). split; [done |]. split; [done |]. intros i E. by apply Hd, Hi.
  - intros c1 c2 q1 q2 H1 H2 J1 J2.
    assert (Hold : forall c' q, <[c:=k']> (clients s) !! c' = Some q -> joining q = true ->
      exists q0, clients s !! c' = Some q0 /\ joining q0 = true).
    { intros c' q [[-> ->]|[_ Hq]]%lookup_insert_cases Hjq; [exists k; by rewrite Hj | by exists q]. }
    destruct (Hold _ _ H1 J1) as (? & ? & ?), (Hold _ _ H2 J2) as (? & ? & ?). by eapply Huniq.
  - intros Hd. destruct (Htasks Hd) as (Hdrop & ts & []). split; [done |]. exists ts. constructor; simpl; rewrite ?app_nil_r; done.
Qed.

Lemma sinv_push s c f a p ws :
  sinv s -> clients s !! c = Some (CAddBody f a) -> threadpool_add true f a (pl s) = Ret A_signal p ->
  signalled (workers s) ws -> forall o, sinv (at_client c (CUnlock 0) p o ws [(f, a)] [] (destroyed s) s).
Proof.
  intros Hs Hk Hadd [Hwk Hsig] o. destruct (add_cases _ _ _ _ _ _ Hadd) as [(_ & [=] & _)|[(_ & [=] & _)|(Hz & _)]].
  assert (Hdes : destroyed s = false).
  { destruct (destroyed s) eqn:E; [|done]. by destruct (si_dead _ Hs E) as (? & _). }
  assert (Hadds : forall ts, tasks_ok s ts -> same_rest (pl s) p /\ exists t, queue_ok p (t :: ts) (inflight (workers s)) /\
    payload p t = Some (f, a) /\ forall t', t' ∈ ts ++ inflight (workers s) -> payload p t' = payload (pl s) t').
  { intros ts Hok. pose proof (add_spec (pl s) ts _ f a (tk_queue _ _ Hok) Hz) as Hwp. unfold wp in Hwp. rewrite Hadd in Hwp.
    destruct Hwp as (_ & ? & t & ? & _ & ? & ?). split; [done |]. by exists t. }
  destruct (woken_same _ _ Hwk) as (Hl & Hi & Ha & Hback & Hfwd).
  destruct (si_tasks _ Hs Hdes) as (Hdrop & ts & Hok). destruct (Hadds ts Hok) as ((_ & E1 & E2 & E3) & t & Hq & Hpay & Hold).
  destruct Hs as [Hsd Hcount Hstart Hnw Hlive Hjoin Huniq Hdead Htasks].
  assert (Hcl : forall c' q, <[c:=CUnlock 0]> (clients s) !! c' = Some q -> joining q = true -> clients s !! c' = Some q).
  { intros c' q [[-> ->]|[_ Hc']]%lookup_insert_cases Hj; done. }
  constructor; simpl; rewrite ?E1, ?E2, ?E3, ?Hl, ?Ha; try done.
  - intros Hz' w pc Hw. destruct (decide (pc = WRelock)) as [->|Hne]; [done |]. eapply Hlive; [done | by apply Hback].
  - intros c' q Hc' Hj. destruct (Hjoin c' q (Hcl _ _ Hc' Hj) Hj) as (? & _). done.
  - intros c1 c2 q1 q2 H1 H2 J1 J2. eapply Huniq; eauto.
  - intros Hd. congruence.
  - intros _. rewrite app_nil_r. split; [done |]. exists (t :: ts). constructor; simpl; rewrite ?E2, ?Hi.
    + done.
    + rewrite (tk_count _ _ Hok), <- (Permutation_middle (inflight (workers s)) ts t). simpl. rewrite Hpay.
      rewrite (omap_agree (pl s) p) by (intros t' Ht'; apply Hold; set_solver).
      rewrite <- app_assoc. apply Permutation_app_head. by rewrite Permutation_app_comm.
    + intros _ _. destruct (decide (WWait ∈ workers s)) as [Hin|Hnin].
      * destruct (Hsig Hin) as (i & _ & Hr). by exists i, WRelock.
      * destruct (lookup_lt_is_Some_2 ws 0) as [pc Hpc]; [lia |]. exists 0%nat, pc. split; [done |]. intros ->.
        apply Hnin. apply list_elem_of_lookup. exists 0%nat. by apply Hback.
    + intros Hz'. congruence.
Qed.

(** The shutdown itself: all waiting workers are woken. *)
Lemma sinv_shutdown s c g o v :
  sinv s -> clients s !! c = Some (CDesBody g) -> shutdown (pl s) = 0 -> v = 1 \/ v = 2 ->
  sinv (at_client c CDesUnlock (set_shutdown v (pl s)) o (broadcast (workers s)) [] [] (destroyed s) s).
Proof.
  intros Hs Hk Hz Hv. assert (Hdes : destroyed s = false).
  { destruct (destroyed s) eqn:E; [|done]. by destruct (si_dead _ Hs E) as (? & _). }
  destruct (broadcast_woken (workers s)) as [Hwk Hnw']. destruct (woken_same _ _ Hwk) as (Hl & Hi & Ha & Hback & Hfwd).
  destruct Hs as [Hsd Hcount Hstart Hnw Hlive Hjoin Huniq Hdead Htasks].
  assert (Hnj : forall c' q, <[c:=CDesUnlock]> (clients s) !! c' = Some q -> joining q = true -> c' = c /\ q = CDesUnlock).
  { intros c' q [[-> ->]|[_ Hc']]%lookup_insert_cases Hj; [done |]. by destruct (Hjoin c' q Hc' Hj) as (? & _). }
  constructor; simpl; rewrite ?Hl, ?Ha; try done.
  - lia.
  - intros _ w Hw. apply Hnw'. apply list_elem_of_lookup. by exists w.
  - intros Hz' w pc Hw. lia.
  - intros c' q Hc' Hj. destruct (Hnj c' q Hc' Hj) as [-> ->]. split; [lia |]. split; [done |]. done.
  - intros c1 c2 q1 q2 H1 H2 J1 J2. destruct (Hnj _ _ H1 J1), (Hnj _ _ H2 J2). congruence.
  - intros Hd. congruence.
  - intros _. rewrite app_nil_r. destruct (Htasks Hdes) as (Hdrop & ts & [Hq Hc Haw Hd]). split; [done |]. exists ts.
    constructor; simpl; rewrite ?app_nil_r, ?Hi; try done.
    + destruct Hq as [(n & Hh & Hseg) ? ? Hfl ? ?]. constructor; try done. exists n. split; [done |]. by eapply qseg_frame; [|exact Hseg].
    + lia.
    + intros _ w pc Hw He. assert (Hold : workers s !! w = Some pc) by (apply Hback; [done | by intros ->]).
      specialize (Hlive Hz w pc Hold). congruence.
Qed.

Lemma sinv_joins s c k k' o :
  sinv s -> clients s !! c = Some k -> joining k = true -> joining k' = true ->
  (forall i, k' = CJoin i -> forall j, (j < i)%nat -> workers s !! j = Some WDone) ->
  sinv (at_client c k' (pl s) o (workers s) [] [] (destroyed s) s).
Proof.
  intros [Hsd Hcount Hstart Hnw Hlive Hjoin Huniq Hdead Htasks] Hk Hj Hj' Hdone.
  constructor; simpl; rewrite ?app_nil_r; try done.
  - intros c' q [[-> ->]|[_ Hq]]%lookup_insert_cases Hjq; [|by eapply Hjoin].
    destruct (Hjoin _ _ Hk Hj) as (? & ? & _). done.
  - intros c1 c2 q1 q2 H1 H2 J1 J2.
    assert (Hold : forall c' q, <[c:=k']> (clients s) !! c' = Some q -> joining q = true ->
      exists q0, clients s !! c' = Some q0 /\ joining q0 = true).
    { intros c' q [[-> ->]|[_ Hq]]%lookup_insert_cases Hjq; [by exists k | by exists q]. }
    destruct (Hold _ _ H1 J1) as (? & ? & ?), (Hold _ _ H2 J2) as (? & ? & ?). by eapply Huniq.
  - intros Hd. destruct (Htasks Hd) as (Hdrop & ts & []). split; [done |]. exists ts. constructor; simpl; rewrite ?app_nil_r; done.
Qed.

(** The end of a destroy. *)
Lemma sinv_free s c i r p o :
  sinv s -> clients s !! c = Some (CJoin i) -> Z.of_nat i = thread_count (pl s) -> threadpool_free (pl s) = Ret r p ->
  sinv (at_client c (CRet 0) p o (workers s) [] (freed (pl s) p) true s).
Proof.
  intros [Hsd Hcount Hstart Hnw Hlive Hjoin Huniq Hdead Htasks] Hk Hi Hfree.
  destruct (Hjoin c _ Hk eq_refl) as (Hne & Hdes & Hdone). specialize (Hdone i eq_refl).
  destruct (Htasks Hdes) as (Hdrop & ts & [Hq Hc Haw Hd]).
  assert (Hall : forall w pc, workers s !! w = Some pc -> pc = WDone).
  { intros w pc Hw. pose proof (lookup_lt_Some _ _ _ Hw). assert (workers s !! w = Some WDone) by (apply Hdone; lia). congruence. }
  assert (Hws : workers s = replicate (length (workers s)) WDone).
  { apply list_eq. intros w. destruct (workers s !! w) as [pc|] eqn:Hw.
    - rewrite (Hall w pc Hw). symmetry. apply lookup_replicate. split; [done |]. by eapply lookup_lt_Some.
    - symmetry. apply lookup_ge_None. rewrite length_replicate. by apply lookup_ge_None. }
  assert (Hinf : inflight (workers s) = []) by (rewrite Hws; generalize (length (workers s)); induction n; done).
  assert (Hal : alive (workers s) = 0%nat).
  { rewrite Hws. generalize (length (workers s)). induction n as [|n IH]; [done |]. simpl replicate. by rewrite alive_cons, IH. }
  rewrite Hinf in Hq, Hc. assert (Hst0 : start_size (pl s) <= 0) by (rewrite Hstart, Hal; done).
  pose proof (free_spec (pl s) ts Hq Hst0) as Hwp. unfold wp in Hwp. rewrite Hfree in Hwp.
  destruct Hwp as (_ & (_ & E1 & E2 & E3) & Hfr). simpl in Hc.
  assert (Hnj : forall c' q, <[c:=CRet 0]> (clients s) !! c' = Some q -> joining q = false).
  { intros c' q [[-> ->]|[Hne' Hc']]%lookup_insert_cases; [done |]. destruct (joining q) eqn:Hj; [|done].
    destruct Hne'. by eapply (Huniq c' c q (CJoin i)). }
  constructor; simpl; rewrite ?E1, ?E2, ?E3; try done.
  - intros c' q Hc' Hj. apply Hnj in Hc'. congruence.
  - intros c1 c2 q1 q2 H1 H2 J1 J2. apply Hnj in H1. congruence.
  - intros _. split; [done |]. split; [done |]. rewrite app_nil_r, Hdrop. simpl. split; [by rewrite Hc, Hfr |].
    intros Hg. destruct (lookup_lt_is_Some_2 (workers s) 0) as [pc Hpc]; [lia |].
    assert (ts = []) as -> by (eapply (Hd Hg 0%nat pc Hpc); by rewrite (Hall _ _ Hpc)). simpl in Hfr.
    by apply Permutation_nil_r in Hfr.
Qed.

(** ** Every step *)

Lemma worker_verdict s v p ts :
  tasks_ok s ts -> Z.of_nat (length (submitted s)) < 2 ^ 31 -> threadpool_worker (pl s) = Ret v p ->
  match v with
  | V_wait => p = pl s /\ ts = [] /\ shutdown (pl s) = 0
  | V_break => p = pl s /\ (shutdown (pl s) = 1 \/ (shutdown (pl s) = 2 /\ ts = []))
  | V_again => p = pl s /\ shutdown (pl s) <> 0 /\ shutdown (pl s) <> 1 /\ shutdown (pl s) <> 2
  | V_take _ => True
  end.
Proof.
  intros Hok Hlen Hrun. pose proof (worker_spec (pl s) ts _ (tk_queue _ _ Hok) (tasks_small _ _ Hok Hlen)) as Hwp.
  unfold wp in Hwp. rewrite Hrun in Hwp. destruct v; naive_solver.
Qed.

Lemma working_tasks s w pc : sinv s -> workers s !! w = Some pc -> pc <> WDone -> exists ts, tasks_ok s ts.
Proof.
  intros Hs Hw Hpc. destruct (destroyed s) eqn:E; [|by destruct (si_tasks _ Hs E)].
  destruct (si_dead _ Hs E) as (_ & Hall & _). by apply Hall in Hw.
Qed.

Lemma sinv_test s w v p o pc' :
  sinv s -> Z.of_nat (length (submitted s)) < 2 ^ 31 -> workers s !! w = Some WTest ->
  threadpool_worker (pl s) = Ret v p ->
  (v = V_wait /\ pc' = WWait) \/ (v = V_again /\ pc' = WLock) \/ (v = V_break /\ pc' = WBreak) ->
  sinv (at_worker w pc' p o [] s).
Proof.
  intros Hs Hlen Hw Hrun Hv. destruct (working_tasks s w WTest Hs Hw) as [ts Hok]; [done |].
  assert (Hall : forall ts, tasks_ok s ts -> _) by (intros ts' Hok'; exact (worker_verdict s v p ts' Hok' Hlen Hrun)).
  assert (Hp : p = pl s) by (specialize (Hall ts Hok); destruct Hv as [[-> _]|[[-> _]|[-> _]]]; tauto). subst p.
  specialize (Hall ts Hok) as Hts.
  eapply sinv_worker; try done.
  - destruct Hv as [[_ ->]|[[_ ->]|[_ ->]]]; simpl; lia.
  - intros ->. destruct Hv as [[-> _]|[[_ [=]]|[_ [=]]]]. tauto.
  - intros He. destruct Hv as [[_ ->]|[[_ ->]|[-> _]]]; [done | done |]. destruct Hts as (_ & [->|[-> _]]); done.
  - intros ts' Hok'. specialize (Hall ts' Hok'). exists ts'. eapply tasks_keep; [done | done | | by left | |].
    + by destruct Hv as [[_ ->]|[[_ ->]|[_ ->]]].
    + intros -> _. destruct Hv as [[-> _]|[[_ [=]]|[_ [=]]]]. tauto.
    + intros He Hz. destruct Hv as [[_ ->]|[[_ ->]|[-> _]]]; [done | done |]. destruct Hall as (_ & [E|[_ E]]); [congruence | done].
Qed.

(** Moves that leave the pool as it is. *)
Lemma sinv_move s w pc pc' o :
  sinv s -> workers s !! w = Some pc -> wloc pc' = wloc pc -> ended pc = false -> ended pc' = false -> pc' <> WWait ->
  sinv (at_worker w pc' (pl s) o [] s).
Proof.
  intros Hs Hw Hl He He' Hnw. eapply sinv_worker; try done.
  - by intros ->.
  - rewrite decide_False by (by intros ->). lia.
  - congruence.
  - intros ts Hok. exists ts. eapply tasks_keep; [done | done | done | by left | done | congruence].
Qed.

Lemma sinv_end s w p o :
  sinv s -> workers s !! w = Some WBreak -> worker_end (pl s) = Ret tt p -> sinv (at_worker w WDone p o [] s).
Proof.
  intros Hs Hw [= <-]. assert (Hne : shutdown (pl s) <> 0).
  { intros Hz. by pose proof (si_live _ Hs Hz _ _ Hw). }
  eapply sinv_worker; try done.
  - simpl. pose proof (alive_insert _ _ _ WDone Hw) as Ha. rewrite decide_False, decide_True in Ha by done.
    rewrite (si_start _ Hs). pose proof (si_count _ Hs) as [Hc1 Hc2].
    assert (alive (workers s) <= length (workers s))%nat by apply length_filter.
    apply i32_small. change (2 ^ 31) with 2147483648 in *. lia.
  - intros ts Hok. exists ts. eapply tasks_keep; [done | done | done | by right; eexists | done |].
    intros _ Hz. by eapply (tk_drained _ _ Hok Hz w WBreak).
Qed.

Lemma sinv_step m s s' : sinv s -> Z.of_nat (length (submitted s)) < 2 ^ 31 -> step m s s' -> sinv s'.
Proof.
  intros Hs Hlen Hst. destruct Hst.
  - eapply sinv_move; try done; by destruct H0 as [->| ->].
  - by eapply sinv_move.
  - eapply sinv_test; naive_solver.
  - eapply sinv_test; naive_solver.
  - eapply sinv_test; naive_solver.
  - by eapply sinv_take.
  - by eapply sinv_move.
  - by eapply sinv_run.
  - by eapply sinv_end.
  - by eapply sinv_client.
  - rewrite <- H1. by eapply sinv_client.
  - destruct (add_cases _ _ _ _ _ _ H0) as [(_ & _ & ->)|[(_ & [=] & _)|(_ & _ & [=])]]. by eapply sinv_client.
  - destruct (add_cases _ _ _ _ _ _ H1) as [(_ & [=] & _)|[(_ & _ & _ & ->)|(_ & [=] & _)]]. by eapply sinv_client.
  - by eapply sinv_push.
  - by eapply sinv_client.
  - by eapply sinv_client.
  - by eapply sinv_client.
  - rewrite <- H1. by eapply sinv_client.
  - destruct (destroy_cases _ _ _ _ H0) as [_ ->]. by eapply sinv_client.
  - destruct (destroy_cases _ _ _ _ H0) as [Hz ->]. eapply sinv_shutdown; [done | done | done |]. destruct g; auto.
  - eapply sinv_joins; try done. intros i [= <-] j Hj. lia.
  - eapply sinv_joins; try done. intros i' [= <-] j Hj.
    destruct (decide (j = i)) as [->|]; [done |]. destruct (si_join _ Hs _ _ H eq_refl) as (_ & _ & Hd). apply (Hd i eq_refl). lia.
  - by eapply sinv_free.
Qed.

Lemma submitted_grows m s s' : step m s s' -> (length (submitted s) <= length (submitted s'))%nat.
Proof. destruct 1; simpl; rewrite ?length_app; lia. Qed.

Lemma sinv_reach m s0 s : sinv s0 -> reach m s0 s -> Z.of_nat (length (submitted s)) < 2 ^ 31 -> sinv s.
Proof.
  intros H0. induction 1 as [|s s' _ IH Hst]; intros Hlen; [done |].
  pose proof (submitted_grows _ _ _ Hst). eapply sinv_step; [apply IH; lia | lia | done].
Qed.

(** * From the start *)

(** The pool as [threadpool_init] leaves it, before the threads. *)
Definition pool0 : pool := MkPool {[1%positive := MkTask None None None]} 1%positive 0 0 0 0 1.

Lemma pool0_queue n : queue_ok (threads_created n pool0) [] [].
Proof.
  constructor; simpl; try done.
  - by exists None.
  - apply NoDup_cons. split; [set_solver | constructor].
  - intros t. rewrite lookup_singleton_is_Some. set_solver.
  - set_solver.
  - intros t. rewrite lookup_singleton_is_Some. intros <-. lia.
Qed.

Lemma sinv_start n users : (0 < n)%nat -> Z.of_nat n < 2 ^ 31 -> sinv (sys0 pool0 n users).
Proof.
  intros Hn Hlt.
  assert (Hw : forall w pc, replicate n WLock !! w = Some pc -> pc = WLock) by (intros w pc Hw; by apply lookup_replicate in Hw as [-> _]).
  assert (Hc : forall c k, replicate users (CIdle : cpc) !! c = Some k -> k = CIdle) by (intros c k Hc; by apply lookup_replicate in Hc as [-> _]).
  assert (Hinf : inflight (replicate n WLock) = []) by (clear; induction n; done).
  assert (Hal : alive (replicate n WLock) = n).
  { clear. induction n as [|n IH]; [done |]. simpl replicate. rewrite alive_cons, IH. done. }
  constructor; simpl; rewrite ?Hal; try done.
  - by left.
  - rewrite length_replicate. split; [done | lia].
  - intros _ w pc E. by rewrite (Hw _ _ E).
  - intros c k E Hj. rewrite (Hc _ _ E) in Hj. done.
  - intros c c' k k' E _ Hj. rewrite (Hc _ _ E) in Hj. done.
  - intros _. split; [done |]. exists []. constructor; simpl; rewrite ?Hinf; try done. apply pool0_queue.
Qed.
End Sys.
