(* ===== verification/ThreadPoolProps.v ===== *)
(** What the thread pool promises its users, and the ways its lock is lost; with
    runs on which the theorems are instantiated. *)
From S2P Require Import Prelude ThreadPool ThreadPoolThm ThreadPoolSys.
Local Open Scope Z_scope.

Section Props.
Context {Fn Arg : Type}.
Abbreviation pool := (@threadpool_t Fn Arg).
Abbreviation sys := (@ThreadPool.sys Fn Arg).
Implicit Types (p : pool) (s : sys) (t : positive) (ts fl : list positive) (f : Fn) (a : Arg) (w c : nat).

(** * The tasks *)

(** C12: as long as the pool is not destroyed, queue_size is the number of tasks
    on the list, and every task accepted by threadpool_add has either been
    called, is in the hands of one worker, or is on the list, exactly once; also
    when malloc fails. *)
Theorem tasks_conserved m n users s :
  (0 < n)%nat -> Z.of_nat n < 2 ^ 31 -> reach m (sys0 pool0 n users) s ->
  Z.of_nat (length (submitted s)) < 2 ^ 31 -> destroyed s = false ->
  dropped s = [] /\ exists ts,
    (exists hd, cells (pl s) !! p_head (pl s) = Some (MkTask None None hd) /\ qseg (pl s) hd ts) /\
    NoDup (ts ++ inflight (workers s)) /\ queue_size (pl s) = Z.of_nat (length ts) /\
    submitted s ≡ₚ executed s ++ omap (payload (pl s)) (inflight (workers s) ++ ts).
Proof.
  intros Hn Hlt Hr Hlen Hd. pose proof (sinv_reach _ _ _ (sinv_start n users Hn Hlt) Hr Hlen) as Hs.
  destruct (si_tasks _ Hs Hd) as (? & ts & Hok). split; [done |]. exists ts.
  pose proof (tasks_small _ _ Hok Hlen) as Hsm. destruct Hok as [[Hh Hnd _ _ Hsz _] Hc _ _].
  split; [done |]. split; [by apply NoDup_cons in Hnd as [_ Hnd] |]. split; [|done].
  rewrite Hsz. apply i32_small. change (2 ^ 31) with 2147483648 in Hsm. lia.
Qed.

(** C18: once the pool is destroyed every worker has ended, and every task that
    was accepted was called or freed exactly once; after a graceful destroy all
    of them were called. *)
Theorem destroy_outcome m n users s :
  (0 < n)%nat -> Z.of_nat n < 2 ^ 31 -> reach m (sys0 pool0 n users) s ->
  Z.of_nat (length (submitted s)) < 2 ^ 31 -> destroyed s = true ->
  (forall w pc, workers s !! w = Some pc -> pc = WDone) /\
  submitted s ≡ₚ executed s ++ dropped s /\
  (shutdown (pl s) = graceful_shutdown -> dropped s = [] /\ submitted s ≡ₚ executed s).
Proof.
  intros Hn Hlt Hr Hlen Hd. pose proof (sinv_reach _ _ _ (sinv_start n users Hn Hlt) Hr Hlen) as Hs.
  destruct (si_dead _ Hs Hd) as (_ & Hall & Hc & Hg). split; [done |]. split; [done |]. intros Hz.
  specialize (Hg Hz). split; [done |]. by rewrite Hc, Hg, app_nil_r.
Qed.

(** * No lost wakeup *)

Lemma awake_worker s ts :
  sinv s -> tasks_ok s ts -> ts <> [] -> shutdown (pl s) <> 1 ->
  exists w pc, workers s !! w = Some pc /\ pc <> WWait /\ ended pc = false.
Proof.
  intros Hs Hok Hne Hsd. destruct (Z.eq_dec (shutdown (pl s)) 0) as [Hz|Hz].
  - destruct (tk_awake _ _ Hok Hz Hne) as (w & pc & Hw & ?). exists w, pc. split; [done |]. split; [done |].
    by eapply (si_live _ Hs).
  - destruct (si_sd _ Hs) as [?|[?|H2]]; [done | done |].
    pose proof (si_count _ Hs) as [? ?]. destruct (lookup_lt_is_Some_2 (workers s) 0) as [pc Hpc]; [lia |].
    exists 0%nat, pc. split; [done |]. split; [intros ->; by apply (si_nowait _ Hs Hz 0%nat) |].
    destruct (ended pc) eqn:E; [|done]. destruct Hne. by eapply (tk_drained _ _ Hok H2).
Qed.

(** C19: a task on the list is never forgotten: unless the pool was shut down
    immediately, some worker is neither waiting nor ended. *)
Theorem no_lost_wakeup m n users s :
  (0 < n)%nat -> Z.of_nat n < 2 ^ 31 -> reach m (sys0 pool0 n users) s ->
  Z.of_nat (length (submitted s)) < 2 ^ 31 -> destroyed s = false ->
  queue_size (pl s) <> 0 -> shutdown (pl s) <> immediate_shutdown ->
  exists w pc, workers s !! w = Some pc /\ pc <> WWait /\ pc <> WBreak /\ pc <> WDone.
Proof.
  intros Hn Hlt Hr Hlen Hd Hq Hsd. pose proof (sinv_reach _ _ _ (sinv_start n users Hn Hlt) Hr Hlen) as Hs.
  destruct (si_tasks _ Hs Hd) as (_ & ts & Hok). pose proof (tasks_small _ _ Hok Hlen) as Hsm.
  assert (Hne : ts <> []) by (intros ->; apply Hq; by apply (queue_zero _ _ _ (tk_queue _ _ Hok) Hsm)).
  destruct (awake_worker s ts Hs Hok Hne Hsd) as (w & pc & Hw & Hp & He). exists w, pc.
  split; [done |]. split; [done |]. split; by intros ->.
Qed.




(** * The order of tasks *)

(** The list is a stack: the task a worker takes is the one added last. *)
Theorem add_take_lifo p ts fl f a :
  queue_ok p ts fl -> shutdown p = 0 -> Z.of_nat (length ts) + 1 < 2 ^ 31 ->
  exists p1 t p2, threadpool_add true f a p = Ret A_signal p1 /\ queue_size p1 = queue_size p + 1 /\
    threadpool_worker p1 = Ret (V_take t) p2 /\ payload p1 t = Some (f, a) /\ queue_ok p2 ts (t :: fl).
Proof.
  intros Hq Hsd Hlen. pose proof (add_spec p ts fl f a Hq Hsd) as Hadd.
  apply wp_run in Hadd as (v & p1 & Hrun & -> & (_ & _ & Hs1 & _) & t & Hq1 & _ & Hpay & _).
  pose proof (worker_spec p1 (t :: ts) fl Hq1) as Hwk. apply wp_run in Hwk as (v & p2 & Hrun2 & _ & Hv); [|simpl length; lia].
  exists p1, t. assert (Hsz : queue_size p1 = queue_size p + 1).
  { rewrite (q_size _ _ _ Hq1), (q_size _ _ _ Hq). change (2 ^ 31) with 2147483648 in Hlen.
    rewrite !i32_small; simpl length; lia. }
  destruct v as [| | |t'].
  - destruct Hv as (_ & [=] & _).
  - destruct Hv as (_ & [E|[_ [=]]]). rewrite Hs1, Hsd in E. done.
  - destruct Hv as (_ & [=] & _).
  - destruct Hv as (_ & ts' & [= <- <-] & Hq2 & _). exists p2. done.
Qed.

(** * Losing the lock *)

Definition stuck c s : Prop := owner s = Some (C c) /\ forall g, ~ in_section s g.

Lemma stuck_step m c s s' : stuck c s -> step m s s' -> stuck c s'.
Proof.
  intros [Ho Hno] Hst.
  assert (Hw : forall w pc, workers s !! w = Some pc -> wholds pc = false).
  { intros w pc Hw. destruct (wholds pc) eqn:E; [|done]. destruct (Hno (W w)). by exists pc. }
  assert (Hc : forall c' k, clients s !! c' = Some k -> cholds k = false).
  { intros c' k Hc. destruct (cholds k) eqn:E; [|done]. destruct (Hno (C c')). by exists k. }
  inversion Hst; subst; clear Hst;
    try match goal with
    | H : workers s !! _ = Some WTest |- _ => by pose proof (Hw _ _ H)
    | H : workers s !! _ = Some (WUnlock _) |- _ => by pose proof (Hw _ _ H)
    | H : workers s !! _ = Some WBreak |- _ => by pose proof (Hw _ _ H)
    | H : clients s !! _ = Some (CAddBody _ _) |- _ => by pose proof (Hc _ _ H)
    | H : clients s !! _ = Some (CUnlock _) |- _ => by pose proof (Hc _ _ H)
    | H : clients s !! _ = Some (CDesBody _) |- _ => by pose proof (Hc _ _ H)
    | H : clients s !! _ = Some CDesUnlock |- _ => by pose proof (Hc _ _ H)
    | H : owner s = None |- _ => congruence
    end.
  all: (split; [done |]); intros [w'|c'] (q & Hq & Hh); simpl in Hq;
    try (apply lookup_insert_cases in Hq as [[_ ->]|[_ Hq]]; [done|]);
    first [by rewrite (Hw _ _ Hq) in Hh | by rewrite (Hc _ _ Hq) in Hh].
Qed.

(** C31: a thread that returns from threadpool_add after a failed malloc, or
    from a threadpool_destroy that finds the pool already shut down, keeps the
    lock for ever: no thread is ever again in a critical section of the pool. *)
Theorem lock_lost m n users s c k r p :
  reach m (sys0 pool0 n users) s -> clients s !! c = Some k ->
  (exists f a, k = CAddBody f a /\ threadpool_add false f a (pl s) = Ret (A_leave r) p) \/
  (exists g, k = CDesBody g /\ threadpool_destroy g (pl s) = Ret false p) ->
  forall s', reach m (at_client c (CRet r) p (owner s) (workers s) [] [] (destroyed s) s) s' ->
  owner s' = Some (C c) /\ forall g, ~ in_section s' g.
Proof.
  intros Hr Hk Hbody. pose proof (excl_reach _ _ _ _ _ Hr) as [HW HC].
  assert (Ho : owner s = Some (C c)).
  { eapply HC; [exact Hk |]. by destruct Hbody as [(f & a & -> & _)|(g & -> & _)]. }
  intros s' Hr'. enough (stuck c s') as [? ?] by done.
  induction Hr' as [|s1 s2 _ IH Hst]; [|by eapply stuck_step]. split; [done |].
  intros [w|c'] (q & Hq & Hh); simpl in Hq.
  - pose proof (HW w q Hq Hh). congruence.
  - apply lookup_insert_cases in Hq as [[_ ->]|[Hne Hq]]; [done |]. pose proof (HC c' q Hq Hh). congruence.
Qed.

(** Threadpool_init gives an empty pool when every call succeeds, null for a
    count that is not positive or without memory for the pool, and an access
    through a null or uninitialised head when one of the two other mallocs fails. *)
Theorem init_outcomes (thread_num : Z) (a b d e g : bool) :
  @threadpool_init Fn Arg thread_num a b d e g =
    (if (thread_num <=? 0) || negb a then Ret None tt
     else if b && d then (if e && g then Ret (Some pool0) tt else Ret None tt) else Undef).
Proof.
  unfold threadpool_init. destruct (thread_num <=? 0); [done |]. destruct a, b, d; try done. by destruct e, g.
Qed.
End Props.

(** * A run *)

(** Two workers and two threads that use the pool; functions and arguments are numbers. *)
Definition start : @sys nat nat := sys0 pool0 2 2.
Definition demo_p1 : @threadpool_t nat nat :=
  match threadpool_add true 7%nat 8%nat (pl start) with Ret _ p => p | _ => pl start end.

Definition e1 : @sys nat nat := at_client 0 (CAddLock 7%nat 8%nat) (pl start) None [WLock; WLock] [] [] false start.
Definition e2 : @sys nat nat := at_client 0 (CAddBody 7%nat 8%nat) (pl start) (Some (C 0)) [WLock; WLock] [] [] false e1.
Definition e3 : @sys nat nat := at_client 0 (CUnlock 0) demo_p1 (Some (C 0)) [WLock; WLock] [(7%nat, 8%nat)] [] false e2.
Definition demo_s : @sys nat nat := at_client 0 (CRet 0) demo_p1 None [WLock; WLock] [] [] false e3.

Lemma e2_reach m : reach m start e2.
Proof.
  apply (reach_step _ _ e1); [apply (reach_step _ _ start); [apply reach_start |] |].
  - by apply (st_add_call m start 0 7%nat 8%nat).
  - by apply (st_add_lock m e1 0 7%nat 8%nat).
Qed.
Lemma e3_reach : reach true start e3.
Proof.
  apply (reach_step _ _ e2); [apply e2_reach |].
  apply (st_add_push true e2 0 7%nat 8%nat demo_p1 [WLock; WLock]); [reflexivity | reflexivity |]. split.
  - simpl. apply Forall2_cons. split; [by left |]. apply Forall2_cons. split; [by left | constructor].
  - simpl. intros H. set_solver.
Qed.
Lemma demo_reach : reach true start demo_s.
Proof. apply (reach_step _ _ e3); [exact e3_reach |]. by apply (st_unlock_out true e3 0 0). Qed.

Lemma tasks_conserved_witness : queue_size (pl demo_s) = 1 /\ dropped demo_s = [].
Proof.
  split; [reflexivity |].
  destruct (tasks_conserved true 2 2 demo_s) as [H _]; [lia | reflexivity | exact demo_reach | reflexivity | reflexivity |].
  exact H.
Defined.

Lemma no_lost_wakeup_witness :
  exists w pc, workers demo_s !! w = Some pc /\ pc <> WWait /\ pc <> WBreak /\ pc <> WDone.
Proof.
  apply (no_lost_wakeup true 2 2 demo_s); [lia | reflexivity | exact demo_reach | reflexivity | reflexivity | | ];
    vm_compute; discriminate.
Defined.


Lemma mutual_exclusion_witness : C 0 = C 0 /\ owner e3 = Some (C 0).
Proof. apply (mutual_exclusion true pool0 2 2); [exact e3_reach | |]; exists (CUnlock 0); split; reflexivity. Defined.

Lemma add_take_lifo_witness :
  exists p1 t p2, threadpool_add true 7%nat 8%nat (pl start) = Ret A_signal p1 /\
    queue_size p1 = queue_size (pl start) + 1 /\
    threadpool_worker p1 = Ret (V_take t) p2 /\ payload p1 t = Some (7%nat, 8%nat) /\ queue_ok p2 [] [t].
Proof. apply (add_take_lifo (pl start) [] []); [apply (pool0_queue 2) | reflexivity | reflexivity]. Defined.

(** A failed malloc in threadpool_add. *)
Lemma lock_lost_witness :
  owner (at_client 0 (CRet (-1)) (pl e2) (owner e2) (workers e2) [] [] (destroyed e2) e2) = Some (C 0) /\
  forall g, ~ in_section (at_client 0 (CRet (-1)) (pl e2) (owner e2) (workers e2) [] [] (destroyed e2) e2) g.
Proof.
  apply (lock_lost false 2 2 e2 0 (CAddBody 7%nat 8%nat) (-1) (pl e2) (e2_reach false) eq_refl).
  - left. exists 7%nat, 8%nat. split; reflexivity.
  - apply reach_start.
Defined.

(** A graceful destroy of a pool with one worker and no task. *)
Definition d0 : @sys nat nat := sys0 pool0 1 1.
Definition sd2 : @threadpool_t nat nat := set_shutdown 2 (pl d0).
Definition d1 := at_client 0 (CDesLock true) (pl d0) None [WLock] [] [] false d0.
Definition d2 := at_client 0 (CDesBody true) (pl d0) (Some (C 0)) [WLock] [] [] false d1.
Definition d3 := at_client 0 CDesUnlock sd2 (Some (C 0)) [WLock] [] [] false d2.
Definition d4 := at_client 0 (CJoin 0) sd2 None [WLock] [] [] false d3.
Definition d5 := at_worker 0 WTest sd2 (Some (W 0)) [] d4.
Definition d6 := at_worker 0 WBreak sd2 (Some (W 0)) [] d5.
Definition d7 := at_worker 0 WDone (set_start 0 sd2) None [] d6.
Definition d8 := at_client 0 (CJoin 1) (set_start 0 sd2) None [WDone] [] [] false d7.
Definition d9 := at_client 0 (CRet 0) (set_start 0 sd2) None [WDone] [] [] true d8.
Lemma d9_reach : reach true d0 d9.
Proof.
  apply (reach_step _ _ d8); [apply (reach_step _ _ d7); [apply (reach_step _ _ d6); [apply (reach_step _ _ d5);
    [apply (reach_step _ _ d4); [apply (reach_step _ _ d3); [apply (reach_step _ _ d2); [apply (reach_step _ _ d1);
    [apply (reach_step _ _ d0); [apply reach_start |] |] |] |] |] |] |] |] |].
  - by apply (st_des_call true d0 0 true).
  - by apply (st_des_lock true d1 0 true).
  - by apply (st_des_go true d2 0 true sd2).
  - by apply (st_des_unlock true d3 0).
  - by apply (st_lock true d4 0 WLock); [| left |].
  - by apply (st_break true d5 0 sd2).
  - by apply (st_end true d6 0 (set_start 0 sd2)).
  - by apply (st_join true d7 0 0).
  - by apply (st_free true d8 0 1 0 (set_start 0 sd2)).
Qed.

Lemma destroy_outcome_witness :
  (forall w pc, workers d9 !! w = Some pc -> pc = WDone) /\ submitted d9 ≡ₚ executed d9 ++ dropped d9.
Proof.
  destruct (destroy_outcome true 1 1 d9) as (H1 & H2 & _); [lia | reflexivity | exact d9_reach | reflexivity | reflexivity |].
  split; [exact H1 | exact H2].
Defined.
