(* ===== verification/Posix.v ===== *)
(** The operating system as the server programs (commsocket.c, epoll.c and
    httpd.c) see it: the system calls they make, as the operations of a class,
    and what POSIX says about the calls that move bytes, as its laws. *)
From S2P Require Import Prelude CStr.
Local Open Scope Z_scope.

(** A result of a system call: a value, or -1 with [errno]. *)
Inductive sysres (A : Type) := Ok (a : A) | Err (e : Z).
Arguments Ok {A} a.
Arguments Err {A} e.

(** errno.h, fcntl.h and sys/select.h on Linux. *)
Definition EINTR : Z := 4.
Definition EAGAIN : Z := 11.
Definition ETIMEDOUT : Z := 110.
Definition O_NONBLOCK : Z := 2048.
Definition FD_SETSIZE : Z := 1024.

(** [struct sockaddr_in], its fields in network byte order. *)
Record sockaddr_in := MkSin { sin_port : Z; s_addr : Z }.
(** What [stat] tells of a file, and an event of epoll. *)
Record stat_t := MkStat { st_mode : Z; st_size : Z }.
Record epoll_event := MkEvent { ev_events : Z; ev_fd : Z }.
Inductive epoll_op := EPOLL_CTL_ADD | EPOLL_CTL_DEL | EPOLL_CTL_MOD.

Class Posix (K : Type) := {
  sys_read : Z -> Z -> K -> sysres (list ascii) * K;
  sys_write : Z -> list ascii -> K -> sysres Z * K;
  (* recv and whether MSG_PEEK is given; send *)
  sys_recv : Z -> Z -> bool -> K -> sysres (list ascii) * K;
  sys_send : Z -> list ascii -> K -> sysres Z * K;
  (* select on one descriptor, for writing or reading, with the time left after it *)
  sys_select : bool -> Z -> Z * Z -> K -> sysres Z * (Z * Z) * K;
  sys_accept : Z -> K -> sysres (Z * sockaddr_in) * K;
  sys_getfl : Z -> K -> sysres Z * K;
  sys_setfl : Z -> Z -> K -> sysres Z * K;
  sys_inet_addr : list ascii -> Z;
  sys_socket : K -> sysres Z * K;
  sys_reuseaddr : Z -> K -> sysres Z * K;
  sys_bind : Z -> sockaddr_in -> K -> sysres Z * K;
  sys_listen : Z -> K -> sysres Z * K;
  sys_close : Z -> K -> sysres Z * K;
  sys_open : list ascii -> K -> sysres Z * K;
  sys_sendfile : Z -> Z -> Z -> K -> sysres Z * K;
  sys_stat : list ascii -> K -> sysres stat_t * K;
  sys_pipe : K -> sysres (Z * Z) * K;
  sys_fork : K -> sysres Z * K;
  sys_dup2 : Z -> Z -> K -> sysres Z * K;
  sys_execl : list ascii -> list (list ascii) -> K -> sysres Z * K;
  sys_waitpid : Z -> K -> sysres Z * K;
  sys_epoll_create1 : Z -> K -> sysres Z * K;
  sys_epoll_ctl : Z -> epoll_op -> Z -> epoll_event -> K -> sysres Z * K;
  sys_epoll_wait : Z -> Z -> Z -> K -> sysres (list epoll_event) * K;
  sys_malloc : Z -> K -> bool * K
}.

(** A process: the system, [errno], the blocks of the heap in use, the
    environment strings of putenv, and the program that replaced it. *)
Record proc (K : Type) := MkProc {
  kern : K;
  errno : Z;
  blocks : list Z;
  environ : list (list ascii);
  image : option (list ascii)
}.
Arguments MkProc {K} kern errno blocks environ image.
Arguments kern {K} p.
Arguments errno {K} p.
Arguments blocks {K} p.
Arguments environ {K} p.
Arguments image {K} p.

Section Calls.
Context {K : Type} `{!Posix K}.
Implicit Type p : proc K.

Definition set_kern v p : proc K := MkProc v (errno p) (blocks p) (environ p) (image p).
Definition set_errno v p : proc K := MkProc (kern p) v (blocks p) (environ p) (image p).
Definition set_blocks v p : proc K := MkProc (kern p) (errno p) v (environ p) (image p).
Definition set_environ v p : proc K := MkProc (kern p) (errno p) (blocks p) v (image p).
Definition set_image v p : proc K := MkProc (kern p) (errno p) (blocks p) (environ p) v.

(** A system call of the process: nothing when it fails, which sets [errno]. *)
Definition call {A} (f : K -> sysres A * K) : CM (proc K) (option A) := fun p =>
  match f (kern p) with
  | (Ok a, k) => Ret (Some a) (set_kern k p)
  | (Err e, k) => Ret None (set_errno e (set_kern k p))
  end.
(** The same as an int, -1 when it fails. *)
Definition call_int (f : K -> sysres Z * K) : CM (proc K) Z :=
  r <- call f ;; ret (match r with Some v => v | None => -1 end).
(** malloc and free of a block, known by its size. *)
Definition malloc (n : Z) : CM (proc K) bool := fun p =>
  let (b, k) := sys_malloc n (kern p) in
  Ret b (set_blocks (if b then n :: blocks p else blocks p) (set_kern k p)).
Fixpoint drop_block (n : Z) (l : list Z) : list Z :=
  match l with [] => [] | x :: l => if x =? n then l else x :: drop_block n l end.
Definition free (n : Z) : CM (proc K) unit := modify (fun p => set_blocks (drop_block n (blocks p)) p).
End Calls.

(** Bytes stored into an object, at an offset from its start: only inside it. *)
Definition blit (buf : list ascii) (off : nat) (bs : list ascii) : option (list ascii) :=
  if (off + length bs <=? length buf)%nat then Some (take off buf ++ bs ++ drop (off + length bs) buf) else None.
Definition store {S} (buf : list ascii) (off : nat) (bs : list ascii) : CM S (list ascii) :=
  match blit buf off bs with Some b => ret b | None => undef end.

(** * Laws *)

(** [inp k fd] is everything that will arrive at [fd] before its end, [sent k fd]
    everything written to it so far, [ready k fd] how many bytes can be received
    at [fd] at once, [waits k] how often a call will yet be interrupted by a
    signal, or write nothing, before it gets on, and [files k] what there is at
    each path. *)
Class PosixLaws (K : Type) `{!Posix K} := {
  inp : K -> Z -> list ascii;
  sent : K -> Z -> list ascii;
  ready : K -> Z -> nat;
  waits : K -> nat;
  files : K -> list ascii -> option (stat_t * list ascii);
  read_ok fd n k bs k' : 0 < n -> sys_read fd n k = (Ok bs, k') ->
    Z.of_nat (length bs) <= n /\ inp k fd = bs ++ inp k' fd /\ (bs = [] -> inp k fd = []) /\
    (forall fd', fd' <> fd -> inp k' fd' = inp k fd') /\ sent k' = sent k /\ (waits k' <= waits k)%nat;
  read_err fd n k e k' : sys_read fd n k = (Err e, k') ->
    inp k' = inp k /\ sent k' = sent k /\ (waits k' <= waits k)%nat /\ (e = EINTR -> (waits k' < waits k)%nat);
  write_ok fd bs k n k' : bs <> [] -> sys_write fd bs k = (Ok n, k') ->
    0 <= n <= Z.of_nat (length bs) /\ inp k' = inp k /\ sent k' fd = sent k fd ++ take (Z.to_nat n) bs /\
    (forall fd', fd' <> fd -> sent k' fd' = sent k fd') /\ (waits k' <= waits k)%nat /\ (n = 0 -> (waits k' < waits k)%nat);
  write_err fd bs k e k' : sys_write fd bs k = (Err e, k') ->
    inp k' = inp k /\ sent k' = sent k /\ (waits k' <= waits k)%nat /\ (e = EINTR -> (waits k' < waits k)%nat);
  recv_ok fd n (peek : bool) k bs k' : 0 < n -> sys_recv fd n peek k = (Ok bs, k') ->
    Z.of_nat (length bs) <= n /\ bs `prefix_of` inp k fd /\ (bs = [] -> inp k fd = []) /\
    inp k' fd = (if peek then inp k fd else drop (length bs) (inp k fd)) /\
    (ready k fd - (if peek then 0 else length bs) <= ready k' fd)%nat /\
    (forall fd', fd' <> fd -> inp k' fd' = inp k fd') /\ sent k' = sent k /\ (waits k' <= waits k)%nat /\
    files k' = files k;
  recv_err fd n peek k e k' : sys_recv fd n peek k = (Err e, k') ->
    inp k' = inp k /\ sent k' = sent k /\ (ready k fd <= ready k' fd)%nat /\ files k' = files k /\
    (waits k' <= waits k)%nat /\ (e = EINTR -> (waits k' < waits k)%nat);
  recv_ready fd n peek k : 0 < n -> (0 < ready k fd)%nat -> exists bs k', sys_recv fd n peek k = (Ok bs, k') /\ bs <> [];
  send_ok fd bs k n k' : bs <> [] -> sys_send fd bs k = (Ok n, k') ->
    0 <= n <= Z.of_nat (length bs) /\ inp k' = inp k /\ sent k' fd = sent k fd ++ take (Z.to_nat n) bs /\
    (forall fd', fd' <> fd -> sent k' fd' = sent k fd') /\ (waits k' <= waits k)%nat;
  send_err fd bs k e k' : sys_send fd bs k = (Err e, k') -> inp k' = inp k /\ sent k' = sent k;
  stat_io path k r k' : sys_stat path k = (r, k') ->
    inp k' = inp k /\ sent k' = sent k /\ files k' = files k /\ (forall fd, (ready k fd <= ready k' fd)%nat) /\
    match r, files k path with Ok st, Some f => st = f.1 | Err _, None => True | _, _ => False end;
  close_io fd k r k' : sys_close fd k = (r, k') ->
    sent k' = sent k /\ (forall fd', fd' <> fd -> inp k' fd' = inp k fd') /\ (waits k' <= waits k)%nat;
  waitpid_io id k r k' : sys_waitpid id k = (r, k') -> sent k' = sent k;
  select_ok wr fd tv k n tv' k' : sys_select wr fd tv k = (Ok n, tv', k') ->
    (n = 0 \/ n = 1) /\ inp k' = inp k /\ sent k' = sent k /\ (waits k' <= waits k)%nat;
  select_err wr fd tv k e tv' k' : sys_select wr fd tv k = (Err e, tv', k') ->
    0 < e /\ inp k' = inp k /\ sent k' = sent k /\ (waits k' <= waits k)%nat /\ (e = EINTR -> (waits k' < waits k)%nat);
  malloc_io n k b k' : sys_malloc n k = (b, k') -> inp k' = inp k /\ sent k' = sent k /\ (waits k' <= waits k)%nat
}.

(** A descriptor at which no read fails but through a signal, and one at which
    every send is complete. *)
Definition reliable {K} `{!Posix K} (fd : Z) : Prop := forall n k e k', sys_read fd n k = (Err e, k') -> e = EINTR.
Definition open_wide {K} `{!Posix K} (fd : Z) : Prop :=
  forall bs k, exists k', sys_send fd bs k = (Ok (Z.of_nat (length bs)), k').
