(* ===== verification/CommSocket.v ===== *)
(** The socket wrappers (commsocket.c): reads and writes of a fixed number of
    bytes, waits with a timeout, and messages with a length in front. *)
From S2P Require Import Prelude CStr Posix.
Local Open Scope Z_scope.

(** ** Error codes (commsocket.h) *)

Definition Sck_BaseErr : Z := 3000.
Definition Sck_ErrParam : Z := Sck_BaseErr + 1.
Definition Sck_ErrTimeOut : Z := Sck_BaseErr + 2.
Definition Sck_ErrPeerClosed : Z := Sck_BaseErr + 3.
Definition Sck_ErrMalloc : Z := Sck_BaseErr + 4.

(** ** Byte order *)

(** The bytes of a 32-bit value in the memory of a little-endian machine. *)
Definition byte (x : Z) : ascii := ascii_of_N (Z.to_N (x mod 256)).
Definition le32 (x : Z) : list ascii := [byte x; byte (x / 256); byte (x / 65536); byte (x / 16777216)].
Definition of_le32 (bs : list ascii) : Z :=
  match bs with
  | [a; b; c; d] => uchar a + uchar b * 256 + uchar c * 65536 + uchar d * 16777216
  | _ => 0
  end.
(** htons, htonl and ntohl. *)
Definition htons (x : Z) : Z := (x mod 256) * 256 + (x / 256) mod 256.
Definition htonl (x : Z) : Z :=
  (x mod 256) * 16777216 + ((x / 256) mod 256) * 65536 + ((x / 65536) mod 256) * 256 + (x / 16777216) mod 256.
Definition ntohl (x : Z) : Z := htonl x.

Section CommSocket.
Context {K : Type} `{!Posix K}.
Abbreviation CP := (CM (proc K)).

(** ** readn and writen *)

(** The object at [buf] is its bytes, [off] is how far [bufp] is into it. *)
Fixpoint readn_loop (fuel : nat) (fd : Z) (buf : list ascii) (off : nat) (nleft count : Z) : CP (Z * list ascii) :=
  if negb (nleft >? 0) then ret (i64 count, buf)
  else match fuel with
  | O => nofuel
  | S fuel =>
      r <- call (sys_read fd nleft) ;;
      match r with
      | None => e <- gets errno ;; if e =? EINTR then readn_loop fuel fd buf off nleft count else ret (-1, buf)
      | Some bs =>
          let nread := Z.of_nat (length bs) in
          buf <- store buf off bs ;;
          if nread =? 0 then ret (i64 (u64 (count - nleft)), buf)
          else readn_loop fuel fd buf (off + length bs) (u64 (nleft - nread)) count
      end
  end.
Definition readn (fuel : nat) (fd : Z) (buf : list ascii) (count : Z) : CP (Z * list ascii) :=
  readn_loop fuel fd buf 0 count count.

Fixpoint writen_loop (fuel : nat) (fd : Z) (buf : list ascii) (off : nat) (nleft count : Z) : CP Z :=
  if negb (nleft >? 0) then ret (i64 count)
  else match fuel with
  | O => nofuel
  | S fuel =>
      if Z.of_nat (off + Z.to_nat nleft) >? Z.of_nat (length buf) then undef
      else
      r <- call (sys_write fd (take (Z.to_nat nleft) (drop off buf))) ;;
      match r with
      | None => e <- gets errno ;; if e =? EINTR then writen_loop fuel fd buf off nleft count else ret (-1)
      | Some nwritten =>
          if nwritten =? 0 then writen_loop fuel fd buf off nleft count
          else writen_loop fuel fd buf (off + Z.to_nat nwritten) (u64 (nleft - nwritten)) count
      end
  end.
Definition writen (fuel : nat) (fd : Z) (buf : list ascii) (count : Z) : CP Z := writen_loop fuel fd buf 0 count count.

Fixpoint recv_peek (fuel : nat) (sockfd : Z) (buf : list ascii) (len : Z) : CP (Z * list ascii) :=
  match fuel with
  | O => nofuel
  | S fuel =>
      r <- call (sys_recv sockfd len true) ;;
      match r with
      | None => e <- gets errno ;; if e =? EINTR then recv_peek fuel sockfd buf len else ret (-1, buf)
      | Some bs => buf <- store buf 0 bs ;; ret (i32 (Z.of_nat (length bs)), buf)
      end
  end.

(** ** Blocking mode *)

Definition activate_nonblock (fd : Z) : CP Z :=
  flags <- call_int (sys_getfl fd) ;;
  if flags =? -1 then ret flags
  else call_int (sys_setfl fd (Z.lor flags O_NONBLOCK)).
Definition deactivate_nonblock (fd : Z) : CP Z :=
  flags <- call_int (sys_getfl fd) ;;
  if flags =? -1 then ret flags
  else call_int (sys_setfl fd (Z.land flags (Z.lnot O_NONBLOCK))).

(** ** Waiting *)

Definition call_select (wr : bool) (fd : Z) (tv : Z * Z) : CP (Z * (Z * Z)) := fun p =>
  match sys_select wr fd tv (kern p) with
  | (Ok n, tv, k) => Ret (n, tv) (set_kern k p)
  | (Err e, tv, k) => Ret (-1, tv) (set_errno e (set_kern k p))
  end.
(** The do-while around select; FD_SET of a descriptor that is not in the set's
    range is outside the set. *)
Fixpoint select_loop (fuel : nat) (wr : bool) (fd : Z) (tv : Z * Z) : CP Z :=
  match fuel with
  | O => nofuel
  | S fuel =>
      rt <- call_select wr fd tv ;;
      e <- gets errno ;;
      if (rt.1 <? 0) && (e =? EINTR) then select_loop fuel wr fd rt.2 else ret rt.1
  end.
Definition select_one (fuel : nat) (wr : bool) (fd wait_seconds : Z) : CP Z :=
  if negb ((0 <=? fd) && (fd <? FD_SETSIZE)) then undef else select_loop fuel wr fd (wait_seconds, 0).

(** [write_timeout] and [read_timeout] differ in the set they give to select. *)
Definition timeout (wr : bool) (fuel : nat) (fd wait_seconds : Z) : CP Z :=
  if wait_seconds >? 0 then
    r <- select_one fuel wr fd wait_seconds ;;
    if r =? 0 then modify (set_errno ETIMEDOUT) ;;; ret (-1)
    else if r =? 1 then ret 0
    else ret r
  else ret 0.
Definition write_timeout := timeout true.
Definition read_timeout := timeout false.

Definition accept_timeout (fuel : nat) (fd wait_seconds : Z) : CP Z :=
  early <- (if wait_seconds >? 0 then
      r <- select_one fuel false fd wait_seconds ;;
      if r =? -1 then ret (Some (-1))
      else if r =? 0 then modify (set_errno ETIMEDOUT) ;;; ret (Some (-1))
      else ret None
    else ret None) ;;
  match early with
  | Some r => ret r
  | None =>
      r <- call (sys_accept fd) ;;
      match r with
      | Some (conn, _) => ret conn
      | None => gets errno
      end
  end.

(** ** The server's operations *)

Definition Server_init (ip : option (list ascii)) (port : Z) : CP Z :=
  match ip with
  | None => ret (-1)
  | Some ip =>
      let servaddr := MkSin (htons port) (sys_inet_addr ip) in
      mylistenfd <- call_int sys_socket ;;
      if mylistenfd <? 0 then ret (-1)
      else
      r <- call_int (sys_reuseaddr mylistenfd) ;;
      if r <? 0 then ret (-1)
      else
      r <- call_int (sys_bind mylistenfd servaddr) ;;
      if r <? 0 then ret (-1)
      else
      r <- call_int (sys_listen mylistenfd) ;;
      if r <? 0 then ret (-1) else ret mylistenfd
  end.

Definition Server_accept (fuel : nat) (listenfd tmo : Z) : CP Z :=
  if (listenfd <? 0) || (tmo <? 0) then ret (-1)
  else
    r <- accept_timeout fuel listenfd (u32 tmo) ;;
    if r <? 0 then
      e <- gets errno ;;
      if (r =? -1) && (e =? ETIMEDOUT) then ret Sck_ErrTimeOut else ret e
    else ret r.

(** [data] is the object the caller's pointer is into, from there on. *)
Definition Server_send (fuel : nat) (connfd : Z) (data : list ascii) (datalen tmo : Z) : CP Z :=
  r <- write_timeout fuel connfd (u32 tmo) ;;
  if r =? 0 then
    let size := u64 (i32 (datalen + 4)) in
    ok <- malloc size ;;
    if negb ok then ret Sck_ErrMalloc
    else
    let netlen := i32 (htonl (u32 datalen)) in
    let n := Z.to_nat (u64 datalen) in
    if (Z.of_nat n >? Z.of_nat (length data)) || (size <? 4 + Z.of_nat n) then undef
    else
    let netdata := le32 netlen ++ take n data in
    writed <- writen fuel connfd netdata size ;;
    if i32 writed <? i32 (datalen + 4) then free size ;;; ret (i32 writed) else ret r
  else
    e <- gets errno ;;
    if (r <? 0) && (r =? -1) && (e =? ETIMEDOUT) then ret Sck_ErrTimeOut else ret r.

(** The result, the bytes at [out] and what is stored into [*outlen]. *)
Definition Server_rev (fuel : nat) (connfd : Z) (out : option (list ascii)) (has_outlen : bool) (tmo : Z) :
    CP (Z * list ascii * option Z) :=
  match out with
  | None => ret (Sck_ErrParam, [], None)
  | Some out =>
      if negb has_outlen then ret (Sck_ErrParam, out, None)
      else
      r <- read_timeout fuel connfd (u32 tmo) ;;
      e <- gets errno ;;
      if negb (r =? 0) then
        if (r =? -1) || (e =? ETIMEDOUT) then ret (Sck_ErrTimeOut, out, None) else ret (r, out, None)
      else
      h <- readn fuel connfd (le32 0) 4 ;;
      let r := i32 h.1 in
      if r =? -1 then ret (r, out, None)
      else if r <? 4 then ret (Sck_ErrPeerClosed, out, None)
      else
      let n := i32 (ntohl (of_le32 h.2)) in
      d <- readn fuel connfd out (u64 n) ;;
      let r := i32 d.1 in
      if r =? -1 then ret (r, d.2, None)
      else if r <? n then ret (Sck_ErrPeerClosed, d.2, None)
      else ret (0, d.2, Some n)
  end.
End CommSocket.
