(* ===== verification/CommSocketThm.v ===== *)
(** What the socket wrappers promise: whole reads and writes, framing, and the
    outcomes of their waits. *)
From S2P Require Import Prelude CStr Posix CommSocket.
Local Open Scope Z_scope.

(** * Byte order *)

Lemma uchar_byte x : uchar (byte x) = x mod 256.
Proof.
  unfold uchar, byte. rewrite N_ascii_embedding; [|pose proof (Z.mod_pos_bound x 256 eq_refl); lia].
  rewrite Z2N.id; [done |]. by apply Z.mod_pos_bound.
Qed.

(** The four bytes of a number, least significant first. *)
Lemma base256 x : 0 <= x < 2 ^ 32 ->
  x = x mod 256 + (x / 256) mod 256 * 256 + (x / 65536) mod 256 * 65536 + (x / 16777216) mod 256 * 16777216.
Proof. change (2 ^ 32) with 4294967296. intros. Z.to_euclidean_division_equations. lia. Qed.

Lemma base256_bytes a b c d :
  0 <= a < 256 -> 0 <= b < 256 -> 0 <= c < 256 -> 0 <= d < 256 ->
  let x := a + b * 256 + c * 65536 + d * 16777216 in
  x mod 256 = a /\ (x / 256) mod 256 = b /\ (x / 65536) mod 256 = c /\ (x / 16777216) mod 256 = d.
Proof. intros Ha Hb Hc Hd. cbv zeta. repeat split; Z.to_euclidean_division_equations; lia. Qed.

Lemma of_le32_le32 x : 0 <= x < 2 ^ 32 -> of_le32 (le32 x) = x.
Proof. intros Hx. unfold of_le32, le32. rewrite !uchar_byte. symmetry. by apply base256. Qed.

Lemma htonl_range x : 0 <= htonl x < 2 ^ 32.
Proof.
  unfold htonl. change (2 ^ 32) with 4294967296.
  pose proof (Z.mod_pos_bound x 256 eq_refl). pose proof (Z.mod_pos_bound (x / 256) 256 eq_refl).
  pose proof (Z.mod_pos_bound (x / 65536) 256 eq_refl). pose proof (Z.mod_pos_bound (x / 16777216) 256 eq_refl). lia.
Qed.

Lemma ntohl_htonl x : 0 <= x < 2 ^ 32 -> ntohl (htonl x) = x.
Proof.
  intros Hx. unfold ntohl. pose proof (base256 x Hx) as E. set (y := htonl x). unfold htonl in y.
  pose proof (base256_bytes ((x / 16777216) mod 256) ((x / 65536) mod 256) ((x / 256) mod 256) (x mod 256)) as H.
  cbv zeta in H. destruct H as (H1 & H2 & H3 & H4); try by apply Z.mod_pos_bound.
  replace ((x / 16777216) mod 256 + (x / 65536) mod 256 * 256 + (x / 256) mod 256 * 65536 + x mod 256 * 16777216) with y
    in * by (unfold y; lia).
  unfold htonl at 1. rewrite H1, H2, H3, H4. lia.
Qed.

Lemma byte_wrap x : byte (i32 x) = byte x /\ byte (i32 x / 256) = byte (x / 256) /\
  byte (i32 x / 65536) = byte (x / 65536) /\ byte (i32 x / 16777216) = byte (x / 16777216).
Proof.
  unfold i32, wrap_s. change (2 ^ (32 - 1)) with 2147483648. change (2 ^ 32) with 4294967296.
  unfold byte. repeat split; do 2 f_equal; Z.to_euclidean_division_equations; lia.
Qed.
Lemma le32_wrap x : le32 (i32 x) = le32 x.
Proof. unfold le32. destruct (byte_wrap x) as (-> & -> & -> & ->). done. Qed.

Lemma length_le32 x : length (le32 x) = 4%nat.
Proof. done. Qed.

Lemma byte_uchar x a : x mod 256 = uchar a -> byte x = a.
Proof. intros H. apply uchar_inj. by rewrite uchar_byte. Qed.
Lemma of_le32_range bs : 0 <= of_le32 bs < 2 ^ 32.
Proof.
  change (2 ^ 32) with 4294967296. unfold of_le32. destruct bs as [|a [|b [|c [|d [|]]]]]; try lia.
  pose proof (uchar_range a). pose proof (uchar_range b). pose proof (uchar_range c). pose proof (uchar_range d). lia.
Qed.
Lemma le32_of_le32 bs : length bs = 4%nat -> le32 (of_le32 bs) = bs.
Proof.
  destruct bs as [|a [|b [|c [|d [|]]]]]; try done. intros _.
  pose proof (base256_bytes (uchar a) (uchar b) (uchar c) (uchar d) (uchar_range a) (uchar_range b) (uchar_range c) (uchar_range d))
    as (H1 & H2 & H3 & H4).
  unfold le32, of_le32. by rewrite (byte_uchar _ a H1), (byte_uchar _ b H2), (byte_uchar _ c H3), (byte_uchar _ d H4).
Qed.

(** * Stores *)

Lemma blit_some buf off bs :
  (off + length bs <= length buf)%nat -> blit buf off bs = Some (take off buf ++ bs ++ drop (off + length bs) buf).
Proof. intros H. unfold blit. by rewrite (proj2 (Nat.leb_le _ _) H). Qed.
Lemma wp_blit {S} buf off bs (s : S) Q :
  (off + length bs <= length buf)%nat -> Q (take off buf ++ bs ++ drop (off + length bs) buf) s ->
  wp (store buf off bs) s Q.
Proof. intros H HQ. unfold store. by rewrite blit_some. Qed.

(** What is before and after the bytes stored last. *)
Lemma take_stored (buf : list ascii) off (bs : list ascii) :
  (off + length bs <= length buf)%nat ->
  take (off + length bs) (take off buf ++ bs ++ drop (off + length bs) buf) = take off buf ++ bs.
Proof.
  intros H. rewrite app_assoc, take_app_length'; [done |]. rewrite length_app, length_take. lia.
Qed.
Lemma drop_stored (buf : list ascii) off (bs : list ascii) m :
  (off + length bs <= length buf)%nat ->
  drop (off + length bs + m) (take off buf ++ bs ++ drop (off + length bs) buf) = drop (off + (length bs + m)) buf.
Proof.
  intros H. rewrite app_assoc, drop_app_ge; rewrite length_app, length_take; [|lia].
  rewrite drop_drop. f_equal. lia.
Qed.

Section Thm.
Context {K : Type} `{!Posix K} `{!PosixLaws K}.
Implicit Types (p : proc K) (k : K) (fd : Z) (buf bs : list ascii).

(** The parts of a process that input and output leave alone. *)
Definition same_proc p p' : Prop := blocks p' = blocks p /\ environ p' = environ p /\ image p' = image p.
Lemma same_proc_refl p : same_proc p p.
Proof. done. Qed.
Lemma same_proc_trans p1 p2 p3 : same_proc p1 p2 -> same_proc p2 p3 -> same_proc p1 p3.
Proof. unfold same_proc. intros (-> & -> & ->) (? & ? & ?). done. Qed.

Lemma wp_call {A} (f : K -> sysres A * K) p Q :
  (forall a k, f (kern p) = (Ok a, k) -> Q (Some a) (set_kern k p)) ->
  (forall e k, f (kern p) = (Err e, k) -> Q None (set_errno e (set_kern k p))) -> wp (call f) p Q.
Proof. intros Ho He. unfold wp, call. destruct (f (kern p)) as [[a|e] k] eqn:E; auto. Qed.

(** ** readn *)

(** What a read of [n] bytes at [fd] leaves. *)
Definition took (n : nat) fd p p' : Prop :=
  inp (kern p) fd = take n (inp (kern p) fd) ++ inp (kern p') fd /\
  (forall fd', fd' <> fd -> inp (kern p') fd' = inp (kern p) fd') /\ sent (kern p') = sent (kern p) /\
  (waits (kern p') <= waits (kern p))%nat /\ same_proc p p'.

Lemma took_inp n fd p p' : took n fd p p' -> inp (kern p') fd = drop n (inp (kern p) fd).
Proof.
  intros (H & _). rewrite <- (take_drop n (inp (kern p) fd)) in H at 1. by apply app_inv_head in H.
Qed.

Lemma min_step (n m l : Z) : 0 < l <= n -> l <= m -> l + Z.min (n - l) (m - l) = Z.min n m.
Proof. lia. Qed.

Definition readn_post fd buf (off : nat) (nleft count : Z) p (r : Z * list ascii) p' : Prop :=
  let s := inp (kern p) fd in
  let m := Z.to_nat (Z.min nleft (Z.of_nat (length s))) in
  (r.1 = -1 /\ errno p' <> EINTR /\ same_proc p p' /\ sent (kern p') = sent (kern p)) \/
  (r.1 = count - nleft + Z.of_nat m /\ r.2 = take off buf ++ take m s ++ drop (off + m) buf /\ took m fd p p').

Lemma readn_post_done fd buf off nleft count p :
  0 <= nleft <= count -> count < 9223372036854775808 -> nleft <= 0 ->
  wp (ret (i64 count, buf)) p (readn_post fd buf off nleft count p).
Proof.
  intros Hn Hc Hz. apply wp_ret. right. assert (nleft = 0) as -> by lia. rewrite i64_small by lia. simpl.
  rewrite Z.min_l by lia. simpl. rewrite Nat.add_0_r, take_drop. split; [lia |]. done.
Qed.

Lemma readn_loop_spec fuel fd buf off nleft count p :
  0 <= nleft <= count -> count < 2 ^ 63 -> (Z.to_nat nleft + waits (kern p) <= fuel)%nat ->
  (off + Z.to_nat (Z.min nleft (Z.of_nat (length (inp (kern p) fd)))) <= length buf)%nat ->
  wp (readn_loop fuel fd buf off nleft count) p (readn_post fd buf off nleft count p).
Proof.
  revert fd buf off nleft p. induction fuel as [|fuel IH]; intros fd buf off nleft p Hn Hc Hf Hb;
    change (2 ^ 63) with 9223372036854775808 in Hc; simpl; destruct (Z.gtb_spec nleft 0) as [Hpos|Hz]; simpl; try lia.
  - by apply readn_post_done.
  - apply wp_bind, wp_call.
    + intros bs k Hread. destruct (read_ok _ _ _ _ _ Hpos Hread) as (Hlen & Hinp & Heof & Hother & Hsent & Hw).
      assert (Hfit : (off + length bs <= length buf)%nat) by (rewrite Hinp, length_app in Hb; lia).
      apply wp_bind, wp_blit; [done |]. set (buf' := take off buf ++ bs ++ drop (off + length bs) buf).
      destruct (Z.eqb_spec (Z.of_nat (length bs)) 0) as [E0|E0].
      * apply wp_ret. right. assert (bs = []) as -> by (destruct bs; [done | simpl in E0; lia]).
        pose proof (Heof eq_refl) as Hnil. rewrite Hnil in Hinp. simpl in Hinp. unfold took. simpl.
        rewrite Hnil, <- Hinp. simpl. rewrite Z.min_r by lia. simpl.
        rewrite u64_small, i64_small by lia. split; [lia |]. split; [done |].
        done.
      * rewrite u64_small by lia. eapply wp_mono.
        { apply (IH fd buf' (off + length bs)%nat (nleft - Z.of_nat (length bs)) (set_kern k p)); [lia | done | simpl; lia |].
          unfold buf'. rewrite !length_app, length_take, length_drop. simpl.
          rewrite Hinp, length_app in Hb. lia. }
        intros [r b] p' [(H1 & H2 & H3 & H4)|(H1 & H2 & (T1 & T2 & T3 & T4 & T5))]; [left; simpl in *; by rewrite H4|]. right.
        simpl in H1, H2, T1, T2, T3, T4, T5 |- *. set (s' := inp k fd) in *.
        set (m := Z.to_nat (Z.min (nleft - Z.of_nat (length bs)) (Z.of_nat (length s')))) in *.
        assert (Hm : Z.to_nat (Z.min nleft (Z.of_nat (length (inp (kern p) fd)))) = (length bs + m)%nat).
        { rewrite Hinp, length_app. unfold m. lia. }
        rewrite Hm. split; [lia |]. split.
        { rewrite H2. unfold buf'. rewrite Hinp, take_app_add.
          rewrite take_stored, drop_stored by done. by rewrite <- !app_assoc. }
        split; [by rewrite Hinp, take_app_add, <- app_assoc, <- T1 |].
        split; [intros fd' Hne; by rewrite T2, Hother |]. split; [by rewrite T3 |]. split; [lia | done].
    + intros e k Hread. destruct (read_err _ _ _ _ _ Hread) as (Hi & Hs & Hw & Hlt).
      apply wp_bind, wp_gets. cbn [errno set_errno]. destruct (Z.eqb_spec e EINTR) as [->|Hne].
      * eapply wp_mono; [apply IH; try done; simpl; [specialize (Hlt eq_refl); lia | by rewrite Hi] |].
        intros r p'. unfold readn_post, took. simpl. rewrite Hi, Hs. intros [?|(? & ? & ? & ? & ? & ? & ?)]; [by left |].
        right. repeat (split; [done || lia |]). done.
      * apply wp_ret. left. done.
  - by apply readn_post_done.
Qed.

Lemma readn_spec fuel fd buf count p :
  0 <= count < 2 ^ 63 -> (Z.to_nat count + waits (kern p) <= fuel)%nat ->
  (Z.to_nat (Z.min count (Z.of_nat (length (inp (kern p) fd)))) <= length buf)%nat ->
  wp (readn fuel fd buf count) p (readn_post fd buf 0 count count p).
Proof. intros. apply readn_loop_spec; (lia || done). Qed.

(** ** writen *)

(** The bytes [bs] have been added to what was sent at [fd]. *)
Definition wrote fd bs p p' : Prop :=
  sent (kern p') fd = sent (kern p) fd ++ bs /\ (forall fd', fd' <> fd -> sent (kern p') fd' = sent (kern p) fd') /\
  inp (kern p') = inp (kern p) /\ (waits (kern p') <= waits (kern p))%nat /\ same_proc p p'.

Definition writen_post fd bs (count : Z) p (r : Z) p' : Prop :=
  (r = -1 /\ errno p' <> EINTR /\ exists j, wrote fd (take j bs) p p') \/ (r = count /\ wrote fd bs p p').

Lemma wrote_nil fd p : wrote fd [] p p.
Proof. unfold wrote. rewrite app_nil_r. done. Qed.

Lemma wrote_app fd bs1 bs2 p1 p2 p3 : wrote fd bs1 p1 p2 -> wrote fd bs2 p2 p3 -> wrote fd (bs1 ++ bs2) p1 p3.
Proof.
  intros (A1 & A2 & A3 & A4 & A5) (B1 & B2 & B3 & B4 & B5). unfold wrote. rewrite B1, A1, B3, A3, app_assoc.
  split; [done |]. split; [intros fd' Hne; by rewrite B2, A2 |]. split; [done |]. split; [lia |]. by eapply same_proc_trans.
Qed.

(** The rest of the object is written after a write of its first [n] bytes. *)
Lemma take_drop_step buf off n l :
  (n <= l)%nat -> take l (drop off buf) = take n (take l (drop off buf)) ++ take (l - n) (drop (off + n) buf).
Proof.
  intros H. rewrite <- (take_drop n (take l (drop off buf))) at 1. f_equal. by rewrite skipn_firstn_comm, drop_drop.
Qed.

Lemma writen_post_done fd buf off nleft count p :
  0 <= nleft <= count -> count < 9223372036854775808 -> nleft <= 0 ->
  wp (ret (i64 count)) p (writen_post fd (take (Z.to_nat nleft) (drop off buf)) count p).
Proof.
  intros Hn Hc Hz. apply wp_ret. right. rewrite i64_small by lia. assert (nleft = 0) as -> by lia.
  split; [done | apply wrote_nil].
Qed.

Lemma writen_loop_spec fuel fd buf off nleft count p :
  0 <= nleft <= count -> count < 2 ^ 63 -> (Z.to_nat nleft + waits (kern p) <= fuel)%nat ->
  (off + Z.to_nat nleft <= length buf)%nat ->
  wp (writen_loop fuel fd buf off nleft count) p (writen_post fd (take (Z.to_nat nleft) (drop off buf)) count p).
Proof.
  revert off nleft p. induction fuel as [|fuel IH]; intros off nleft p Hn Hc Hf Hb;
    change (2 ^ 63) with 9223372036854775808 in Hc; cbn [writen_loop]; destruct (Z.gtb_spec nleft 0) as [Hpos|Hz];
    cbn [negb]; try lia; try by apply writen_post_done.
  destruct (Z.gtb_spec (Z.of_nat (off + Z.to_nat nleft)) (Z.of_nat (length buf))); [lia |].
  set (bs := take (Z.to_nat nleft) (drop off buf)).
  assert (Hl : length bs = Z.to_nat nleft) by (unfold bs; rewrite length_take, length_drop; lia).
  assert (Hne : bs <> []) by (intros E; rewrite E in Hl; simpl in Hl; lia).
  apply wp_bind, wp_call.
  - intros n k Hw. destruct (write_ok _ _ _ _ _ Hne Hw) as (Hr & Hi & Hs & Ho & Hwt & H0).
    destruct (Z.eqb_spec n 0) as [->|Hn0].
    + assert (Hst : wrote fd [] p (set_kern k p)).
      { unfold wrote. simpl in *. rewrite Hs, take_0. split; [done |]. split; [done |]. split; [done |]. split; [done |]. done. }
      eapply wp_mono; [apply IH; try done; simpl; specialize (H0 eq_refl); lia |]. fold bs. simpl.
      intros r p' [(? & ? & j & Hj)|[? Hj]]; [left | right]; (split; [done |]); [split; [done |]; exists j |];
        by apply (wrote_app _ [] _ _ _ _ Hst) in Hj.
    + rewrite u64_small by lia.
      assert (Hst : wrote fd (take (Z.to_nat n) bs) p (set_kern k p)) by done.
      eapply wp_mono; [apply IH; simpl; (done || lia) |]. fold bs. simpl.
      assert (Hbs : bs = take (Z.to_nat n) bs ++ take (Z.to_nat (nleft - n)) (drop (off + Z.to_nat n) buf)).
      { unfold bs at 1. rewrite (take_drop_step _ _ (Z.to_nat n)) by lia. do 2 f_equal. lia. }
      intros r p' [(? & ? & j & Hj)|[? Hj]]; apply (wrote_app _ _ _ _ _ _ Hst) in Hj.
      * left. split; [done |]. split; [done |]. exists (Z.to_nat n + j)%nat.
        rewrite Hbs. rewrite take_app_add' by (rewrite length_take; lia). done.
      * right. split; [done |]. by rewrite Hbs.
  - intros e k Hw. destruct (write_err _ _ _ _ _ Hw) as (Hi & Hs & Hwt & Hlt).
    apply wp_bind, wp_gets. cbn [errno set_errno].
    assert (Hst : wrote fd [] p (set_errno e (set_kern k p))).
    { unfold wrote. simpl. rewrite Hs, Hi, app_nil_r. done. }
    destruct (Z.eqb_spec e EINTR) as [->|He].
    + eapply wp_mono; [apply IH; try done; simpl; specialize (Hlt eq_refl); lia |]. fold bs.
      intros r p' [(? & ? & j & Hj)|[? Hj]]; [left | right]; (split; [done |]); [split; [done |]; exists j |];
        by apply (wrote_app _ [] _ _ _ _ Hst) in Hj.
    + apply wp_ret. left. split; [done |]. split; [done |]. by exists O.
Qed.

Lemma writen_spec fuel fd buf count p :
  0 <= count < 2 ^ 63 -> count = Z.of_nat (length buf) -> (Z.to_nat count + waits (kern p) <= fuel)%nat ->
  wp (writen fuel fd buf count) p (writen_post fd buf count p).
Proof.
  intros Hc Hl Hf. eapply wp_mono; [apply writen_loop_spec; (done || lia) |].
  rewrite drop_0, take_ge by lia. done.
Qed.

(** ** Waits *)

Lemma select_loop_spec fuel wr fd tv p :
  (waits (kern p) < fuel)%nat ->
  wp (select_loop fuel wr fd tv) p (fun r p' => wrote fd [] p p' /\ (r = 0 \/ r = 1 \/ (r = -1 /\ 0 < errno p' /\ errno p' <> EINTR))).
Proof.
  revert tv p. induction fuel as [|fuel IH]; intros tv p Hf; simpl; [lia |]. apply wp_bind. unfold wp at 1, call_select.
  destruct (sys_select wr fd tv (kern p)) as [[[n|e] tv'] k] eqn:Hs.
  - destruct (select_ok _ _ _ _ _ _ _ Hs) as (Hn & Hi & Ho & Hw). apply wp_bind, wp_gets. simpl.
    assert ((n <? 0) = false) as -> by lia. simpl. apply wp_ret. split; [|lia].
    unfold wrote. simpl. rewrite Hi, Ho, app_nil_r. done.
  - destruct (select_err _ _ _ _ _ _ _ Hs) as (He & Hi & Ho & Hw & Hlt). apply wp_bind, wp_gets. simpl.
    assert (Hst : wrote fd [] p (set_errno e (set_kern k p))).
    { unfold wrote. simpl. rewrite Hi, Ho, app_nil_r. done. }
    destruct (Z.eqb_spec e EINTR) as [->|Hne].
    + eapply wp_mono; [apply IH; simpl; specialize (Hlt eq_refl); lia |]. simpl. intros r p' [H1 H2].
      split; [|done]. by apply (wrote_app _ [] [] _ _ _ Hst).
    + apply wp_ret. simpl. split; [done |]. auto.
Qed.

Lemma timeout_spec wr fuel fd w p :
  0 <= fd < FD_SETSIZE -> (waits (kern p) < fuel)%nat ->
  wp (timeout wr fuel fd w) p (fun r p' => wrote fd [] p p' /\ (r = 0 \/ (r = -1 /\ 0 < w /\ 0 < errno p' /\ errno p' <> EINTR))).
Proof.
  intros Hfd Hf. unfold timeout. destruct (Z.gtb_spec w 0) as [Hw|Hw]; [|apply wp_ret; split; [apply wrote_nil | by left]].
  unfold select_one. assert ((0 <=? fd) && (fd <? FD_SETSIZE) = true) as -> by lia. simpl.
  apply wp_bind. eapply wp_mono; [by apply select_loop_spec |]. intros r p' [Hst [->|[->|(-> & ? & ?)]]]; simpl.
  - apply wp_bind, wp_modify, wp_ret. split; [done |]. right. done.
  - apply wp_ret. split; [done | by left].
  - apply wp_ret. split; [done |]. by right.
Qed.

(** ** Messages *)

(** A message as Server_send frames it. *)
Definition frame (data : list ascii) : list ascii := le32 (htonl (Z.of_nat (length data))) ++ data.

(** [bs] was sent at [fd], and nothing else. *)
Definition put fd bs k k' : Prop :=
  sent k' fd = sent k fd ++ bs /\ (forall fd', fd' <> fd -> sent k' fd' = sent k fd') /\ inp k' = inp k.
Lemma wrote_put fd bs p p' : wrote fd bs p p' -> put fd bs (kern p) (kern p').
Proof. by intros (? & ? & ? & _). Qed.
Lemma put_after fd bs k1 k2 k3 : inp k2 = inp k1 -> sent k2 = sent k1 -> put fd bs k2 k3 -> put fd bs k1 k3.
Proof. unfold put. by intros -> ->. Qed.

Definition send_post fd (data : list ascii) p (r : Z) p' : Prop :=
  (r = 0 /\ put fd (frame data) (kern p) (kern p') /\ blocks p' = (Z.of_nat (length data) + 4) :: blocks p) \/
  ((r = -1 \/ r = Sck_ErrTimeOut \/ r = Sck_ErrMalloc) /\ blocks p' = blocks p /\
   exists j, put fd (take j (frame data)) (kern p) (kern p')).

Lemma Server_send_spec fuel fd data more tmo p :
  0 <= fd < FD_SETSIZE -> Z.of_nat (length data) + 4 < 2 ^ 31 ->
  (length data + 4 + waits (kern p) < fuel)%nat ->
  wp (Server_send fuel fd (data ++ more) (Z.of_nat (length data)) tmo) p (send_post fd data p).
Proof.
  intros Hfd Hlen Hf. change (2 ^ 31) with 2147483648 in Hlen. unfold Server_send. set (n := Z.of_nat (length data)) in *.
  assert (Hn : 0 <= n) by lia. rewrite !i32_small, !u64_small, (u32_small n) by lia.
  apply wp_bind. eapply wp_mono; [apply timeout_spec; [done | lia] |].
  intros r p1 [Hw Hr]. pose proof (wrote_put _ _ _ _ Hw) as Hput. destruct Hw as (_ & _ & Hi1 & Hw1 & Hb1 & _ & _).
  assert (Hs1 : forall fd', sent (kern p1) fd' = sent (kern p) fd').
  { intros fd'. destruct Hput as (E & Eo & _). destruct (decide (fd' = fd)) as [->|]; [by rewrite E, app_nil_r | by apply Eo]. }
  destruct Hr as [->|(-> & _ & _)]; [rewrite Z.eqb_refl | rewrite (proj2 (Z.eqb_neq (-1) 0)) by lia].
  2: { apply wp_bind, wp_gets. simpl; destruct (Z.eqb_spec (errno p1) ETIMEDOUT); apply wp_ret; right; split; try tauto;
       (split; [done | by exists O]). }
  apply wp_bind. unfold wp at 1, malloc. destruct (sys_malloc (n + 4) (kern p1)) as [ok k] eqn:Hm.
  destruct (malloc_io _ _ _ _ Hm) as (Hi2 & Hs2 & Hw2).
  destruct ok; cbn [negb].
  2: { right. split; [tauto |]. split; [done |]. exists O. simpl. destruct Hput as (A & B & C).
       unfold put. simpl. rewrite Hi2, Hs2. done. }
  destruct (Z.gtb_spec (Z.of_nat (Z.to_nat n)) (Z.of_nat (length (data ++ more)))) as [Hbad|_]; [rewrite length_app in Hbad; lia |].
  destruct (Z.ltb_spec (n + 4) (4 + Z.of_nat (Z.to_nat n))); [lia |]. simpl orb. cbv iota.
  assert (Hfr : le32 (i32 (htonl n)) ++ take (Z.to_nat n) (data ++ more) = frame data).
  { rewrite le32_wrap, take_app_length' by lia. done. }
  rewrite Hfr. apply wp_bind. eapply wp_mono.
  { apply writen_spec; [lia | unfold frame; rewrite length_app, length_le32; lia | simpl; lia]. }
  set (p2 := set_blocks ((n + 4) :: blocks p1) (set_kern k p1)).
  assert (Hlift : forall j p', wrote fd (take j (frame data)) p2 p' -> put fd (take j (frame data)) (kern p) (kern p')).
  { intros j p' (A & B & C & _). unfold put. rewrite A, C. simpl. rewrite Hs2, Hs1, Hi2, Hi1.
    split; [done |]. split; [|done]. intros fd' Hne. rewrite B by done. simpl. by rewrite Hs2, Hs1. }
  intros r p3 [(-> & _ & j & Hj)|(-> & Hj)].
  - rewrite i32_small by lia. assert ((-1 <? n + 4) = true) as -> by lia. apply wp_bind, wp_modify, wp_ret.
    right. split; [tauto |]. split.
    + destruct Hj as (_ & _ & _ & _ & Hb & _). simpl. rewrite Hb. simpl. by rewrite Z.eqb_refl.
    + exists j. exact (Hlift j p3 Hj).
  - rewrite i32_small by lia. rewrite Z.ltb_irrefl. apply wp_ret. left. split; [done |].
    rewrite <- (take_ge (frame data) (length (frame data))) in Hj by lia. split.
    + rewrite <- (take_ge (frame data) (length (frame data))) by lia. by apply Hlift.
    + destruct Hj as (_ & _ & _ & _ & Hb & _). rewrite Hb. simpl. by rewrite Hb1.
Qed.

(** The length in front of [s]. *)
Definition announced (s : list ascii) : Z := ntohl (of_le32 (take 4 s)).

(** The outcome of Server_rev: the announced length and the bytes after it. *)
Definition rev_post fd out p (r : Z * list ascii * option Z) p' : Prop :=
  let s := inp (kern p) fd in
  (r.2 = None /\ (r.1.1 = -1 \/ r.1.1 = Sck_ErrTimeOut)) \/
  (r.1.1 = Sck_ErrPeerClosed /\ r.2 = None /\
     ((length s < 4)%nat \/ Z.of_nat (length (drop 4 s)) < announced s)) \/
  (exists data rest, s = frame data ++ rest /\ announced s = Z.of_nat (length data) /\ r.1.1 = 0 /\ r.1.2 = data ++ drop (length data) out /\
     r.2 = Some (Z.of_nat (length data)) /\ inp (kern p') fd = rest).

Lemma announced_frame data rest : Z.of_nat (length data) < 2 ^ 31 -> announced (frame data ++ rest) = Z.of_nat (length data).
Proof.
  intros H. unfold announced, frame. rewrite <- app_assoc, take_app_length' by done.
  rewrite of_le32_le32 by apply htonl_range. apply ntohl_htonl. change (2 ^ 31) with 2147483648 in H.
  change (2 ^ 32) with 4294967296. lia.
Qed.

Lemma frame_of s n :
  (4 <= length s)%nat -> announced s = Z.of_nat n -> (n <= length (drop 4 s))%nat ->
  s = frame (take n (drop 4 s)) ++ drop n (drop 4 s).
Proof.
  intros H4 Hn Hl. unfold frame. rewrite length_take, Nat.min_l by done. rewrite <- Hn. unfold announced, ntohl.
  pose proof (of_le32_range (take 4 s)) as Hr. rewrite (ntohl_htonl _ Hr : htonl (htonl _) = _).
  rewrite le32_of_le32 by (rewrite length_take; lia). rewrite <- app_assoc, take_drop. by rewrite take_drop.
Qed.

(** What the first read leaves in [netdatalen]. *)
Lemma header_read fuel fd p :
  (4 + waits (kern p) <= fuel)%nat ->
  wp (readn fuel fd (le32 0) 4) p (fun r p' => r.1 = -1 \/
    (let s := inp (kern p) fd in took 4 fd p p' /\
     (if decide (4 <= length s)%nat then r.1 = 4 /\ r.2 = take 4 s else r.1 = Z.of_nat (length s) /\ (length s < 4)%nat))).
Proof.
  intros Hf. eapply wp_mono; [apply readn_spec; [lia | lia | rewrite length_le32; lia] |].
  intros [r b] p' [(H & _)|(H1 & H2 & H3)]; [by left | right]. simpl in H1, H2. set (s := inp (kern p) fd) in *.
  assert (E : took 4 fd p p').
  { destruct H3 as (T1 & T). split; [|exact T]. fold s in T1 |- *. rewrite T1 at 1. f_equal.
    destruct (decide (4 <= length s)%nat); [f_equal; lia |]. rewrite !take_ge by lia. done. }
  split; [exact E |]. simpl. destruct (decide _).
  - split; [lia |]. rewrite H2. replace (Z.to_nat (Z.min 4 _)) with 4%nat by lia. simpl. by rewrite app_nil_r.
  - lia.
Qed.

Lemma Server_rev_spec fuel fd out tmo p :
  0 <= fd < FD_SETSIZE -> let s := inp (kern p) fd in
  announced s < 2 ^ 31 -> Z.min (announced s) (Z.of_nat (length (drop 4 s))) <= Z.of_nat (length out) ->
  (4 + Z.to_nat (announced s) + waits (kern p) < fuel)%nat ->
  wp (Server_rev fuel fd (Some out) true tmo) p (rev_post fd out p).
Proof.
  intros Hfd s Hn Hout Hf. change (2 ^ 31) with 2147483648 in Hn. unfold Server_rev. cbn [negb].
  apply wp_bind. eapply wp_mono; [apply timeout_spec; [done | lia] |].
  intros r p1 [Hw Hr]. apply wp_bind, wp_gets. destruct Hw as (_ & _ & Hi1 & Hw1 & _).
  destruct Hr as [->|(-> & _)]; [rewrite Z.eqb_refl | rewrite (proj2 (Z.eqb_neq (-1) 0)) by lia]; cbn [negb].
  2: { rewrite Z.eqb_refl. simpl. apply wp_ret. left. tauto. }
  apply wp_bind. eapply wp_mono; [apply header_read; lia |]. intros [r h] p2. simpl. rewrite Hi1. fold s.
  intros [->|[Ht Hh]]; [apply wp_ret; left; simpl; tauto |].
  destruct (decide (4 <= length s)%nat) as [H4|H4].
  2: { destruct Hh as [-> Hh]. rewrite i32_small by lia. rewrite (proj2 (Z.eqb_neq _ _)) by lia.
       rewrite (proj2 (Z.ltb_lt _ _)) by lia. apply wp_ret. right. left. simpl. fold s. auto. }
  destruct Hh as [-> ->]. rewrite (i32_small 4) by lia. simpl. fold (announced s).
  assert (Hpos : 0 <= announced s) by apply htonl_range. rewrite (i32_small (announced s)) by lia. rewrite u64_small by lia.
  pose proof (took_inp _ _ _ _ Ht) as Hi2. rewrite Hi1 in Hi2. fold s in Hi2. destruct Ht as (_ & _ & _ & Hw2 & _).
  apply wp_bind. eapply wp_mono; [apply readn_spec; [lia | lia | rewrite Hi2; lia] |].
  intros [r d] p3 [(-> & _)|(E1 & E2 & Ht)]; [apply wp_ret; left; simpl; tauto |]. simpl in *.
  rewrite Hi2 in E1, E2. pose proof (took_inp _ _ _ _ Ht) as Hi3. rewrite Hi2 in Hi3.
  rewrite E1, i32_small by lia. rewrite (proj2 (Z.eqb_neq _ (-1))) by lia.
  destruct (Z.ltb_spec (announced s - announced s + Z.of_nat (Z.to_nat (Z.min (announced s) (Z.of_nat (length (drop 4 s))))))
    (announced s)) as [Hlt|Hge]; apply wp_ret.
  - right. left. simpl. fold s. split; [done |]. split; [done |]. right. lia.
  - right. right. rewrite Z.min_l in E2, Hi3 by lia. set (n := Z.to_nat (announced s)) in *.
    exists (take n (drop 4 s)), (drop n (drop 4 s)). fold s.
    assert (Hl : length (take n (drop 4 s)) = n) by (rewrite length_take; lia).
    split; [apply frame_of; [done | lia | lia] |]. rewrite Hl. split; [lia |]. simpl. rewrite E2, Hi3.
    split; [done |]. split; [done |]. split; [f_equal; lia | done].
Qed.
End Thm.
