(* ===== verification/PosixDemo.v ===== *)
(** A small operating system: streams cut into given pieces, signals at given
    moments, a table of files. It satisfies the laws, and the examples run on it. *)
From S2P Require Import Prelude CStr Posix.
Local Open Scope Z_scope.

(** A file: its name, its mode, its contents. *)
Definition file : Type := list ascii * Z * list ascii.

(** What has still to arrive and what was sent at each descriptor; how much each
    of the next transfers moves, 0 for one that a signal interrupts; the files
    and the open ones; the connections waiting and the events to come; the
    descriptors closed, and the registrations made. *)
Record os := OS {
  d_inp : Z -> list ascii;
  d_sent : Z -> list ascii;
  d_script : list nat;
  d_files : list file;
  d_open : Z -> list ascii;
  d_next : nat;
  d_conns : list Z;
  d_events : list (list epoll_event);
  d_closed : list Z;
  d_watched : list (epoll_op * epoll_event)
}.

Definition upd {A} (f : Z -> A) (i : Z) (v : A) : Z -> A := fun j => if j =? i then v else f j.
Lemma upd_eq {A} (f : Z -> A) i v : upd f i v i = v.
Proof. unfold upd. by rewrite Z.eqb_refl. Qed.
Lemma upd_ne {A} (f : Z -> A) i j v : j <> i -> upd f i v j = f j.
Proof. intros H. unfold upd. by rewrite (proj2 (Z.eqb_neq _ _) H). Qed.

Definition set_io i s sc (k : os) : os :=
  OS i s sc (d_files k) (d_open k) (d_next k) (d_conns k) (d_events k) (d_closed k) (d_watched k).
Definition set_fds op n c (k : os) : os :=
  OS (d_inp k) (d_sent k) (d_script k) (d_files k) op n (d_conns k) (d_events k) c (d_watched k).
Definition set_watch cs evs w (k : os) : os :=
  OS (d_inp k) (d_sent k) (d_script k) (d_files k) (d_open k) (d_next k) cs evs (d_closed k) w.

(** How much the next transfer of at most [n] bytes moves. *)
Definition next_chunk (n : nat) (k : os) : option nat * list nat :=
  match d_script k with
  | [] => (Some n, [])
  | O :: sc => (None, sc)
  | c :: sc => (Some (Nat.min c n), sc)
  end.
Definition d_get (fd n : Z) (peek : bool) (k : os) : sysres (list ascii) * os :=
  match next_chunk (Z.to_nat n) k with
  | (None, sc) => (Err EINTR, set_io (d_inp k) (d_sent k) sc k)
  | (Some c, sc) =>
      (Ok (take c (d_inp k fd)),
       set_io (if peek then d_inp k else upd (d_inp k) fd (drop c (d_inp k fd))) (d_sent k) sc k)
  end.
Definition d_put (fd : Z) (bs : list ascii) (k : os) : sysres Z * os :=
  match next_chunk (length bs) k with
  | (None, sc) => (Err EINTR, set_io (d_inp k) (d_sent k) sc k)
  | (Some c, sc) =>
      (Ok (Z.of_nat c), set_io (d_inp k) (upd (d_sent k) fd (d_sent k fd ++ take c bs)) sc k)
  end.
(** recv without waiting is not cut or interrupted here. *)
Definition d_recv (fd n : Z) (peek : bool) (k : os) : sysres (list ascii) * os :=
  (Ok (take (Z.to_nat n) (d_inp k fd)),
   set_io (if peek then d_inp k else upd (d_inp k) fd (drop (Z.to_nat n) (d_inp k fd))) (d_sent k) (d_script k) k).
Definition d_send (fd : Z) (bs : list ascii) (k : os) : sysres Z * os :=
  (Ok (Z.of_nat (length bs)), set_io (d_inp k) (upd (d_sent k) fd (d_sent k fd ++ bs)) (d_script k) k).

Definition d_find (path : list ascii) (k : os) : option file :=
  find (fun f => bool_decide (f.1.1 = path)) (d_files k).
Definition unsupported (k : os) : sysres Z * os := (Err 38, k).

#[export] Instance os_posix : Posix os := {
  sys_read fd n k := d_get fd n false k;
  sys_write := d_put;
  sys_recv := d_recv;
  sys_send := d_send;
  sys_select wr fd tv k := (Ok 1, tv, k);
  sys_accept fd k :=
    match d_conns k with
    | [] => (Err EAGAIN, k)
    | c :: cs => (Ok (c, MkSin 0 0), set_watch cs (d_events k) (d_watched k) k)
    end;
  sys_getfl fd k := (Ok 0, k);
  sys_setfl fd f k := (Ok 0, k);
  sys_inet_addr s := 0;
  sys_socket k := (Ok (Z.of_nat (d_next k)), set_fds (d_open k) (S (d_next k)) (d_closed k) k);
  sys_reuseaddr fd k := (Ok 0, k);
  sys_bind fd a k := (Ok 0, k);
  sys_listen fd k := (Ok 0, k);
  sys_close fd k := (Ok 0, set_fds (d_open k) (d_next k) (fd :: d_closed k) k);
  sys_open path k :=
    match d_find path k with
    | None => (Err 2, k)
    | Some f => (Ok (Z.of_nat (d_next k)), set_fds (upd (d_open k) (Z.of_nat (d_next k)) f.2) (S (d_next k)) (d_closed k) k)
    end;
  sys_sendfile out fd n k := d_send out (take (Z.to_nat n) (d_open k fd)) k;
  sys_stat path k :=
    match d_find path k with
    | None => (Err 2, k)
    | Some f => (Ok (MkStat f.1.2 (Z.of_nat (length f.2))), k)
    end;
  sys_pipe k := (Ok (Z.of_nat (d_next k), Z.of_nat (S (d_next k))), set_fds (d_open k) (S (S (d_next k))) (d_closed k) k);
  sys_fork k := (Ok 100, k);
  sys_dup2 a b k := (Ok b, k);
  sys_execl path env k := match d_find path k with None => (Err 2, k) | Some _ => (Ok 0, k) end;
  sys_waitpid id k := (Ok id, k);
  sys_epoll_create1 f k := (Ok (Z.of_nat (d_next k)), set_fds (d_open k) (S (d_next k)) (d_closed k) k);
  sys_epoll_ctl ep op fd ev k := (Ok 0, set_watch (d_conns k) (d_events k) ((op, ev) :: d_watched k) k);
  sys_epoll_wait ep n t k :=
    match d_events k with
    | [] => (Err 9, k)
    | evs :: rest => (Ok evs, set_watch (d_conns k) rest (d_watched k) k)
    end;
  sys_malloc n k := (true, k)
}.

Definition zeros (sc : list nat) : nat := length (filter (fun c => c = 0%nat) sc).

Lemma next_chunk_cases n k r sc :
  next_chunk n k = (r, sc) ->
  match r with
  | None => (zeros sc < zeros (d_script k))%nat
  | Some c => (c <= n)%nat /\ ((0 < n)%nat -> (0 < c)%nat) /\ (zeros sc <= zeros (d_script k))%nat
  end.
Proof.
  unfold next_chunk, zeros. destruct (d_script k) as [|[|c] sc'] eqn:E; intros [= <- <-].
  - lia.
  - rewrite filter_cons_True by done. simpl. lia.
  - rewrite filter_cons_False by done. destruct n; lia.
Qed.

Lemma d_get_ok fd n k bs k' :
  0 < n -> d_get fd n false k = (Ok bs, k') ->
  Z.of_nat (length bs) <= n /\ d_inp k fd = bs ++ d_inp k' fd /\ (bs = [] -> d_inp k fd = []) /\
  (forall fd', fd' <> fd -> d_inp k' fd' = d_inp k fd') /\ d_sent k' = d_sent k /\ (zeros (d_script k') <= zeros (d_script k))%nat.
Proof.
  unfold d_get. intros Hn. destruct (next_chunk (Z.to_nat n) k) as [[c|] sc] eqn:E; intros [= <- <-].
  apply next_chunk_cases in E as (H1 & H2 & H3). simpl. split; [rewrite length_take; lia |].
  split; [by rewrite upd_eq, take_drop |]. split.
  { destruct (d_inp k fd); [done |]. destruct c; [lia | done]. }
  split; [intros; by apply upd_ne |]. done.
Qed.
Lemma d_get_err fd n peek k e k' :
  d_get fd n peek k = (Err e, k') ->
  d_inp k' = d_inp k /\ d_sent k' = d_sent k /\ (zeros (d_script k') < zeros (d_script k))%nat.
Proof.
  unfold d_get. destruct (next_chunk (Z.to_nat n) k) as [[c|] sc] eqn:E; intros [= <- <-].
  apply next_chunk_cases in E. done.
Qed.
Lemma d_put_ok fd bs k n k' :
  bs <> [] -> d_put fd bs k = (Ok n, k') ->
  0 <= n <= Z.of_nat (length bs) /\ d_inp k' = d_inp k /\ d_sent k' fd = d_sent k fd ++ take (Z.to_nat n) bs /\
  (forall fd', fd' <> fd -> d_sent k' fd' = d_sent k fd') /\ (zeros (d_script k') <= zeros (d_script k))%nat /\ n <> 0.
Proof.
  unfold d_put. intros Hne. destruct (next_chunk (length bs) k) as [[c|] sc] eqn:E; intros [= <- <-].
  apply next_chunk_cases in E as (H1 & H2 & H3). assert (0 < length bs)%nat by (destruct bs; [done | simpl; lia]).
  simpl. rewrite Nat2Z.id, upd_eq. split; [lia |]. split; [done |]. split; [done |].
  split; [intros; by apply upd_ne | lia].
Qed.
Lemma d_put_err fd bs k e k' :
  d_put fd bs k = (Err e, k') ->
  d_inp k' = d_inp k /\ d_sent k' = d_sent k /\ (zeros (d_script k') < zeros (d_script k))%nat.
Proof.
  unfold d_put. destruct (next_chunk (length bs) k) as [[c|] sc] eqn:E; intros [= <- <-].
  apply next_chunk_cases in E. done.
Qed.

Lemma d_recv_ok fd n peek k bs k' :
  0 < n -> d_recv fd n peek k = (Ok bs, k') ->
  Z.of_nat (length bs) <= n /\ bs `prefix_of` d_inp k fd /\ (bs = [] -> d_inp k fd = []) /\
  d_inp k' fd = (if peek then d_inp k fd else drop (length bs) (d_inp k fd)) /\
  (length (d_inp k fd) - (if peek then 0 else length bs) <= length (d_inp k' fd))%nat /\
  (forall fd', fd' <> fd -> d_inp k' fd' = d_inp k fd') /\ d_sent k' = d_sent k /\ zeros (d_script k') = zeros (d_script k) /\
  d_files k' = d_files k.
Proof.
  unfold d_recv. intros Hn [= <- <-]. simpl. split; [rewrite length_take; lia |].
  split; [exists (drop (Z.to_nat n) (d_inp k fd)); by rewrite take_drop |]. split.
  { destruct (d_inp k fd); [done |]. destruct (Z.to_nat n) eqn:E; [lia | done]. }
  assert (Hd : drop (Z.to_nat n) (d_inp k fd) = drop (length (take (Z.to_nat n) (d_inp k fd))) (d_inp k fd)).
  { rewrite length_take. destruct (decide (Z.to_nat n <= length (d_inp k fd))%nat); [by rewrite Nat.min_l by lia |].
    rewrite Nat.min_r, drop_all by lia. apply drop_ge. lia. }
  destruct peek; rewrite ?upd_eq.
  - split; [done |]. split; [lia |]. done.
  - split; [exact Hd |]. split; [rewrite length_drop, length_take; lia |]. split; [intros; by apply upd_ne | done].
Qed.

#[export] Program Instance os_laws : PosixLaws os := {
  inp := d_inp; sent := d_sent; ready k fd := length (d_inp k fd); waits k := zeros (d_script k);
  files k path := match d_find path k with None => None | Some f => Some (MkStat f.1.2 (Z.of_nat (length f.2)), f.2) end
}.
Next Obligation. intros. by eapply d_get_ok. Qed.
Next Obligation. intros fd n k e k' (? & ? & ?)%d_get_err. repeat (split; [done || lia |]). done. Qed.
Next Obligation. intros fd bs k n k' Hne (? & ? & ? & ? & ? & ?)%d_put_ok; [|done]. repeat (split; [done |]). done. Qed.
Next Obligation. intros fd bs k e k' (? & ? & ?)%d_put_err. repeat (split; [done || lia |]). done. Qed.
Next Obligation.
  intros fd n peek k bs k' Hn (? & ? & ? & ? & ? & ? & ? & E & Ef)%d_recv_ok; [|done]. unfold d_find.
  rewrite E, Ef. repeat (split; [done |]). done.
Qed.
Next Obligation. intros fd n peek k e k' [=]. Qed.
Next Obligation.
  intros fd n peek k Hn Hr. eexists _, _. split; [reflexivity |]. simpl in Hr.
  destruct (d_inp k fd); simpl in *; [lia |]. destruct (Z.to_nat n) eqn:E; [lia | done].
Qed.
Next Obligation.
  intros fd bs k n k' Hne [= <- <-]. simpl. rewrite Nat2Z.id, upd_eq, take_ge by lia.
  split; [lia |]. split; [done |]. split; [done |]. split; [intros; by apply upd_ne | done].
Qed.
Next Obligation. intros fd bs k e k' [=]. Qed.
Next Obligation. intros path k r k'. simpl. destruct (d_find path k) eqn:E; intros [= <- <-]; rewrite ?E; done. Qed.
Next Obligation. intros fd k r k' [= <- <-]. done. Qed.
Next Obligation. intros id k r k' [= <- <-]. done. Qed.
Next Obligation. intros wr fd tv k n tv' k' [= <- <- <-]. split; [by right |]. done. Qed.
Next Obligation. intros wr fd tv k e tv' k' [=]. Qed.
Next Obligation. intros n k b k' [= <- <-]. done. Qed.

(** A process that has only just started. *)
Definition proc0 (k : os) : proc os := MkProc k 0 [] [] None.
Definition os0 (i : Z -> list ascii) (sc : list nat) (files : list file) : os :=
  OS i (fun _ => []) sc files (fun _ => []) 10 [] [] [] [].
