(* ===== verification/CommSocketProps.v ===== *)
(** The socket wrappers: the claims, and a system to try them on. *)
From S2P Require Import Prelude CStr Posix CommSocket CommSocketThm PosixDemo.
Local Open Scope Z_scope.

Section Props.
Context {K : Type} `{!Posix K} `{!PosixLaws K}.
Implicit Types (p : proc K) (k : K) (fd : Z) (buf bs : list ascii).

(** Readn returns. Short of an error other than EINTR it stores exactly the
    first [count] bytes of the stream, or all there are before its end, however
    the system cuts them into pieces and whatever signals come in between, and
    its result is how many. *)
Theorem readn_whole fuel fd buf count p :
  let s := inp (kern p) fd in let m := Z.to_nat (Z.min count (Z.of_nat (length s))) in
  0 <= count < 2 ^ 63 -> (m <= length buf)%nat -> (Z.to_nat count + waits (kern p) <= fuel)%nat ->
  exists r buf' p', readn fuel fd buf count p = Ret (r, buf') p' /\
    ((r = -1 /\ errno p' <> EINTR) \/
     (r = Z.of_nat m /\ buf' = take m s ++ drop m buf /\ inp (kern p') fd = drop m s /\
      (forall fd', fd' <> fd -> inp (kern p') fd' = inp (kern p) fd'))).
Proof.
  intros s m Hc Hb Hf. pose proof (readn_spec fuel fd buf count p Hc Hf Hb) as Hwp.
  apply wp_run in Hwp as ([r buf'] & p' & Hrun & Hpost). exists r, buf', p'. split; [done |].
  destruct Hpost as [(? & ? & _)|(Hr & Hd & Ht)]; [by left | right]. simpl in Hr, Hd.
  split; [unfold m, s; lia |]. split; [done |]. split; [by apply took_inp | by destruct Ht as (_ & ? & _)].
Qed.

(** Writen returns. Short of an error other than EINTR every byte of the
    object has been written, in order, once; after an error a prefix of them. *)
Theorem writen_whole fuel fd buf p :
  Z.of_nat (length buf) < 2 ^ 63 -> (length buf + waits (kern p) <= fuel)%nat ->
  exists r p' bs, writen fuel fd buf (Z.of_nat (length buf)) p = Ret r p' /\
    sent (kern p') fd = sent (kern p) fd ++ bs /\ (forall fd', fd' <> fd -> sent (kern p') fd' = sent (kern p) fd') /\
    ((r = -1 /\ errno p' <> EINTR /\ bs `prefix_of` buf) \/ (r = Z.of_nat (length buf) /\ bs = buf)).
Proof.
  intros Hl Hf. assert (Hwp := writen_spec fuel fd buf (Z.of_nat (length buf)) p ltac:(lia) eq_refl ltac:(lia)).
  apply wp_run in Hwp as (r & p' & Hrun & [(-> & He & j & Hw)|[-> Hw]]).
  - exists (-1), p', (take j buf). destruct Hw as (H1 & H2 & _). split; [done |]. split; [done |]. split; [done |].
    left. split; [done |]. split; [done |]. exists (drop j buf). by rewrite take_drop.
  - exists (Z.of_nat (length buf)), p', buf. destruct Hw as (H1 & H2 & _). split; [done |]. split; [done |]. split; [done |]. by right.
Qed.


(** ** Room for the message *)

Lemma readn_loop_undef fuel fd buf off nleft count p :
  reliable fd -> 0 <= nleft <= count -> count < 2 ^ 64 -> (off <= length buf)%nat ->
  Z.of_nat (length buf) < Z.of_nat off + Z.min nleft (Z.of_nat (length (inp (kern p) fd))) ->
  (length (inp (kern p) fd) + waits (kern p) < fuel)%nat ->
  readn_loop fuel fd buf off nleft count p = Undef.
Proof.
  intros Hrel. revert buf off nleft p. induction fuel as [|fuel IH]; intros buf off nleft p Hn Hc Ho Hb Hf; [lia |].
  change (2 ^ 64) with 18446744073709551616 in Hc. cbn [readn_loop]. destruct (Z.gtb_spec nleft 0) as [Hpos|Hz]; [|lia]. cbn [negb].
  unfold bind at 1, call. destruct (sys_read fd nleft (kern p)) as [[bs|e] k] eqn:Hread.
  - destruct (read_ok _ _ _ _ _ Hpos Hread) as (Hlen & Hinp & Heof & _ & _ & Hw). unfold store.
    destruct (decide (off + length bs <= length buf)%nat) as [Hfit|Hbad].
    + rewrite blit_some by done. unfold bind at 1, ret at 1. destruct (Z.eqb_spec (Z.of_nat (length bs)) 0) as [E0|E0].
      { assert (bs = []) as -> by (destruct bs; [done | simpl in E0; lia]). rewrite (Heof eq_refl) in Hb. simpl in Hb. lia. }
      rewrite Hinp, length_app in Hb, Hf. rewrite u64_small by lia. apply IH; simpl; try lia.
      all: rewrite !length_app, length_take, length_drop; lia.
    + unfold blit. by rewrite (proj2 (Nat.leb_gt _ _)) by lia.
  - destruct (read_err _ _ _ _ _ Hread) as (Hi & _ & Hw & Hlt). assert (e = EINTR) as -> by (by eapply Hrel).
    unfold bind at 1, gets. simpl. specialize (Hlt eq_refl). apply IH; simpl; rewrite ?Hi; (done || lia).
Qed.

Lemma readn_loop_reliable fuel fd off nleft count buf p r p' :
  reliable fd -> 0 <= count < 2 ^ 63 -> 0 <= nleft <= count ->
  readn_loop fuel fd buf off nleft count p = Ret r p' -> r.1 <> -1.
Proof.
  intros Hrel Hc. change (2 ^ 63) with 9223372036854775808 in Hc. revert off nleft buf p r p'.
  induction fuel as [|fuel IH]; intros off nleft buf p r p' Hn; cbn [readn_loop]; destruct (Z.gtb_spec nleft 0) as [Hpos|Hz]; cbn [negb].
  - done.
  - intros [= <- <-]. simpl. rewrite i64_small; lia.
  - unfold bind at 1, call. destruct (sys_read fd nleft (kern p)) as [[bs|e] k] eqn:Hread.
    + intros (b & s1 & _ & Hrun)%bind_ret_inv. destruct (read_ok _ _ _ _ _ Hpos Hread) as (Hlen & _).
      destruct (Z.eqb_spec (Z.of_nat (length bs)) 0).
      * injection Hrun as <- <-. simpl. rewrite u64_small, i64_small; lia.
      * rewrite u64_small in Hrun by lia. eapply IH; [|exact Hrun]. lia.
    + assert (e = EINTR) as -> by (by eapply Hrel). unfold bind at 1, gets. simpl. by apply IH.
  - intros [= <- <-]. simpl. rewrite i64_small; lia.
Qed.

Lemma readn_reliable fuel fd buf count p :
  reliable fd -> 0 <= count < 2 ^ 63 -> (Z.to_nat count + waits (kern p) <= fuel)%nat ->
  (Z.to_nat count <= length buf)%nat -> count <= Z.of_nat (length (inp (kern p) fd)) ->
  exists p', readn fuel fd buf count p = Ret (count, take (Z.to_nat count) (inp (kern p) fd) ++ drop (Z.to_nat count) buf) p' /\
    took (Z.to_nat count) fd p p'.
Proof.
  intros Hrel Hc Hf Hb Hl.
  assert (Hwp := readn_spec fuel fd buf count p Hc Hf ltac:(lia)).
  apply wp_run in Hwp as ([r b] & p' & Hrun & [(Hr & _)|(H1 & H2 & Ht)]).
  { exfalso. by eapply (readn_loop_reliable fuel fd 0 count count buf p (r, b) p'); try lia. }
  simpl in H1, H2. rewrite Z.min_l in H1, H2, Ht by lia. exists p'. split; [|done]. rewrite Hrun. f_equal.
  rewrite H2. simpl. f_equal. lia.
Qed.

(** C32: Server_rev does not look at the size of the caller's buffer: when the
    announced length is larger than it and that many bytes arrive, the read
    runs over its end. *)
Theorem rev_overflows fuel fd out p :
  reliable fd -> 0 <= fd < FD_SETSIZE -> let s := inp (kern p) fd in
  announced s < 2 ^ 31 -> (4 <= length s)%nat ->
  Z.of_nat (length out) < announced s <= Z.of_nat (length (drop 4 s)) ->
  (length s + waits (kern p) < fuel)%nat ->
  Server_rev fuel fd (Some out) true 0 p = Undef.
Proof.
  intros Hrel Hfd s Hn H4 Ho Hf. change (2 ^ 31) with 2147483648 in Hn. unfold Server_rev. cbn [negb].
  unfold bind at 1, read_timeout, timeout. simpl. unfold bind at 1, gets at 1. simpl.
  destruct (readn_reliable fuel fd (le32 0) 4 p Hrel) as (p1 & Hrun & Ht); [lia | lia | simpl; lia | unfold s in *; lia |].
  unfold bind at 1. rewrite Hrun. cbn [fst snd]. rewrite (i32_small 4) by lia. simpl. fold s. rewrite app_nil_r. change (Z.to_nat 4) with 4%nat in *. fold (announced s).
  assert (Hpos : 0 <= announced s) by apply htonl_range. rewrite (i32_small (announced s)), u64_small by lia.
  pose proof (took_inp _ _ _ _ Ht) as Hi. destruct Ht as (_ & _ & _ & Hw & _). simpl in Hi. fold s in Hi.
  assert (Hlen : length (drop 4 s) = (length s - 4)%nat) by apply length_drop.
  unfold bind at 1, readn. rewrite readn_loop_undef; try done; try rewrite Hi; lia.
Qed.

(** A failed accept is not reported by a negative number: Server_accept
    gives errno itself, and 3002 after a timeout, as it gives a descriptor. *)
Theorem accept_failure_positive fuel listenfd tmo p e k' :
  0 <= listenfd -> sys_accept listenfd (kern p) = (Err e, k') -> 0 < e -> tmo = 0 ->
  Server_accept fuel listenfd tmo p = Ret e (set_errno e (set_kern k' p)).
Proof.
  intros Hl Ha He ->. unfold Server_accept. rewrite (proj2 (Z.ltb_ge _ _)) by done. simpl.
  unfold accept_timeout, bind, call, gets, ret. simpl. rewrite Ha. simpl. by rewrite (proj2 (Z.ltb_ge _ _)) by lia.
Qed.
End Props.

(** * Runs *)

(** A sender whose writes are cut and interrupted, and the receiver of the message. *)
Definition snd0 : proc os := proc0 (os0 (fun _ => []) [3; 0; 2]%nat []).
Definition rcv0 : proc os := proc0 (os0 (fun fd => if fd =? 5 then frame (lit "hello") ++ lit "rest" else []) [1; 0; 4; 2]%nat []).

Lemma readn_whole_witness :
  exists r buf' p', readn 20 5 (lit "..........") 7 rcv0 = Ret (r, buf') p' /\
    ((r = -1 /\ errno p' <> EINTR) \/
     (r = 7 /\ buf' = (le32 (htonl 5) ++ lit "hel") ++ lit "..." /\ inp (kern p') 5 = lit "lorest" /\
      (forall fd', fd' <> 5 -> inp (kern p') fd' = inp (kern rcv0) fd'))).
Proof.
  pose proof (readn_whole 20 5 (lit "..........") 7 rcv0) as H. cbv zeta in H.
  change (inp (kern rcv0) 5) with (frame (lit "hello") ++ lit "rest") in H.
  apply H; vm_compute; [split; [discriminate | reflexivity] | lia | lia].
Defined.

Lemma writen_whole_witness :
  exists r p' bs, writen 20 4 (lit "hello") 5 snd0 = Ret r p' /\
    sent (kern p') 4 = sent (kern snd0) 4 ++ bs /\ (forall fd', fd' <> 4 -> sent (kern p') fd' = sent (kern snd0) fd') /\
    ((r = -1 /\ errno p' <> EINTR /\ bs `prefix_of` lit "hello") \/ (r = 5 /\ bs = lit "hello")).
Proof. apply (writen_whole 20 4 (lit "hello") snd0); vm_compute; [reflexivity | lia]. Defined.


Lemma rev_overflows_witness : Server_rev 20 5 (Some (lit "...")) true 0 rcv0 = Undef.
Proof.
  apply (rev_overflows 20 5 (lit "...") rcv0).
  - intros n k e k'. simpl. unfold d_get. destruct (next_chunk _ _) as [[|] ?]; by intros [= <- _].
  - split; [discriminate | reflexivity].
  - vm_compute. reflexivity.
  - vm_compute. lia.
  - vm_compute. split; [reflexivity | discriminate].
  - vm_compute. lia.
Defined.

Lemma accept_failure_positive_witness : Server_accept 20 3 0 rcv0 = Ret EAGAIN (set_errno EAGAIN rcv0).
Proof. apply (accept_failure_positive 20 3 0 rcv0 EAGAIN (kern rcv0)); reflexivity || (vm_compute; discriminate). Defined.
