(* ===== verification/Httpd.v ===== *)
(** The web server (httpd.c and epoll.c): lines of a request, files and CGI
    programs, one request as a pool's thread handles it, and the event loop. *)
From S2P Require Import Prelude CStr Posix CommSocket.
Local Open Scope Z_scope.

(** * Constants *)

Definition BUF_SIZE : nat := 1024.
Definition MAIN_PAGE : list ascii := lit "index.html".
Definition SERVICE_VERSION : list ascii := lit "HTTP/1.1".
Definition MAXEVENTS : Z := 1024.
(** sys/epoll.h and sys/stat.h on Linux. *)
Definition EPOLLIN : Z := 1.
Definition EPOLLERR : Z := 8.
Definition EPOLLHUP : Z := 16.
Definition EPOLLONESHOT : Z := 2 ^ 30.
Definition EPOLLET : Z := 2 ^ 31.
Definition S_ISDIR (mode : Z) : bool := Z.land mode 61440 =? 16384.
Definition S_IXUSR : Z := 64.
Definition S_IXGRP : Z := 8.
Definition S_IXOTH : Z := 1.

Definition zero_buf (n : nat) : list ascii := replicate n NUL.
(** A string put into an array of [n] characters by sprintf, strcpy or strcat. *)
Definition fits {S} (n : nat) (s : list ascii) : CM S (list ascii) :=
  if (length s <? n)%nat then ret s else undef.

Section Httpd.
Context {K : Type} `{!Posix K}.
Abbreviation CP := (CM (proc K)).

(** * Lines *)

(** The byte recv puts into [c]; [c] stays as it is when there is none. *)
Definition recv1 (sock : Z) (peek : bool) : CP (option ascii) :=
  r <- call (sys_recv sock 1 peek) ;;
  ret (match r with Some (c :: _) => Some c | _ => None end).

Definition after_cr (sock : Z) : CP ascii :=
  n <- recv1 sock true ;;
  match n with
  | Some c =>
      if c =c LF then n <- recv1 sock false ;; ret (match n with Some c => c | None => LF end)
      else ret LF
  | None => ret LF
  end.

Fixpoint get_line_loop (fuel : nat) (sock : Z) (buf : list ascii) (max_len : Z) (i : nat) (c : ascii) : CP (nat * list ascii) :=
  if (Z.of_nat i <? u64 (max_len - 1)) && negb (c =c LF) then
    match fuel with
    | O => nofuel
    | S fuel =>
        n <- recv1 sock false ;;
        match n with
        | Some c =>
            c <- (if c =c CR then after_cr sock else ret c) ;;
            buf <- store buf i [c] ;;
            get_line_loop fuel sock buf max_len (S i) c
        | None => get_line_loop fuel sock buf max_len i LF
        end
    end
  else ret (i, buf).
Definition get_line (sock : Z) (buf : list ascii) (max_len : Z) : CP (Z * list ascii) :=
  r <- get_line_loop (Z.to_nat (u64 max_len)) sock buf max_len 0 NUL ;;
  buf <- store r.2 r.1 [NUL] ;;
  ret (1, buf).

Fixpoint clear_header_loop (fuel : nat) (client : Z) (buf : list ascii) : CP unit :=
  match fuel with
  | O => nofuel
  | S fuel =>
      r <- get_line client buf (Z.of_nat (length buf)) ;;
      if (r.1 >? 0) && negb (strcmp (cstr r.2) [LF] =? 0) then clear_header_loop fuel client r.2 else ret tt
  end.
Definition clear_header (fuel : nat) (client : Z) : CP unit := clear_header_loop fuel client (zero_buf 1024).

(** * Files *)

Definition CRLF : list ascii := [CR; LF].
Definition response_head : list ascii :=
  SERVICE_VERSION ++ lit " 200 OK" ++ CRLF ++ lit "content-Type:text/html;Charset=utf-8" ++ CRLF ++ CRLF.

Definition echo_html (client : Z) (path : list ascii) (file_size : Z) : CP unit :=
  in_fd <- call_int (sys_open path) ;;
  if in_fd <? 0 then ret tt
  else
    echo_line <- fits 1024 response_head ;;
    call (sys_send client echo_line) ;;;
    call (sys_sendfile client in_fd file_size) ;;;
    call (sys_close in_fd) ;;;
    ret tt.

(** * CGI programs *)

(** The header of a POST request, up to the empty line: the last Content-Length. *)
Fixpoint post_header (fuel : nat) (sock : Z) (content_length : Z) : CP Z :=
  match fuel with
  | O => nofuel
  | S fuel =>
      r <- get_line sock (zero_buf BUF_SIZE) (Z.of_nat BUF_SIZE) ;;
      let s := cstr r.2 in
      let content_length :=
        if strncasecmp s (lit "Content-Length:") 15 =? 0 then atoi (cstr (drop 16 r.2)) else content_length in
      if (r.1 >? 0) && negb (strcmp s [LF] =? 0) then post_header fuel sock content_length else ret content_length
  end.

(** The child: its descriptors, its environment, and the program. *)
Definition putenv (s : list ascii) : CP unit := modify (fun p => set_environ (s :: environ p) p).
Definition run_cgi (in0 in1 out0 out1 : Z) (path method : list ascii) (query_string : option (list ascii)) : CP unit :=
  call (sys_close in1) ;;;
  call (sys_close out0) ;;;
  call (sys_dup2 in0 0) ;;;
  call (sys_dup2 out1 1) ;;;
  method_env <- fits BUF_SIZE (lit "REQUEST_METHOD=" ++ method) ;;
  putenv method_env ;;;
  (if strcasecmp (lit "GET") method =? 0 then
     match query_string with
     | Some q => query_env <- fits (BUF_SIZE / 10) (lit "QUERY_STRING=" ++ q) ;; putenv query_env
     | None => undef
     end
   else undef (* an int printed with %s *)) ;;;
  env <- gets environ ;;
  r <- call (sys_execl path env) ;;
  match r with
  | Some _ => modify (set_image (Some path)) ;;; exit 0
  | None => exit 1
  end.

(** The parent: the body for a POST, one byte at a time, then what the program prints. *)
Fixpoint copy_body (n : nat) (sock out : Z) (c : ascii) : CP unit :=
  match n with
  | O => ret tt
  | S n =>
      r <- recv1 sock false ;;
      let c := match r with Some c => c | None => c end in
      call (sys_write out [c]) ;;;
      copy_body n sock out c
  end.
Fixpoint copy_output (fuel : nat) (from sock : Z) : CP unit :=
  match fuel with
  | O => nofuel
  | S fuel =>
      r <- call (sys_read from 1) ;;
      match r with
      | Some (c :: _) => call (sys_send sock [c]) ;;; copy_output fuel from sock
      | _ => ret tt
      end
  end.
Definition close2 (a b : Z) : CP unit := call (sys_close a) ;;; call (sys_close b) ;;; ret tt.
Definition serve_cgi (fuel : nat) (sock in0 in1 out0 out1 id : Z) (method : list ascii) (content_length : Z) : CP unit :=
  close2 in0 out1 ;;;
  (if strcasecmp (lit "POST") method =? 0 then copy_body (Z.to_nat content_length) sock in1 NUL else ret tt) ;;;
  copy_output fuel out0 sock ;;;
  close2 in1 out0 ;;;
  call (sys_waitpid id) ;;;
  ret tt.

Definition exe_cgi (fuel : nat) (sock : Z) (path method : list ascii) (query_string : option (list ascii)) : CP unit :=
  (if strcasecmp method (lit "GET") =? 0 then clear_header fuel sock else ret tt) ;;;
  content_length <- (if strcasecmp method (lit "POST") =? 0 then post_header fuel sock 0 else ret 0) ;;
  if content_length =? -1 then ret tt
  else
    buf <- fits BUF_SIZE response_head ;;
    call (sys_send sock buf) ;;;
    cgi_input <- call sys_pipe ;;
    match cgi_input with
    | None => ret tt
    | Some (in0, in1) =>
        cgi_output <- call sys_pipe ;;
        match cgi_output with
        | None => close2 in0 in1
        | Some (out0, out1) =>
            id <- call_int sys_fork ;;
            if id <? 0 then close2 in0 in1 ;;; close2 out0 out1
            else if id =? 0 then run_cgi in0 in1 out0 out1 path method query_string
            else serve_cgi fuel sock in0 in1 out0 out1 id method content_length
        end
    end.

(** * One request *)

(** The characters copied from [buf] at [j] until white space, at most [cap];
    nothing when the scan leaves the array. *)
Fixpoint scan_word (cap : nat) (buf : list ascii) (j : nat) : option (list ascii * nat) :=
  match buf !! j with
  | None => None
  | Some c =>
      if isspace c then Some ([], j)
      else match cap with
      | O => Some ([], j)
      | S cap => match scan_word cap buf (S j) with Some (w, j') => Some (c :: w, j') | None => None end
      end
  end.
Fixpoint scan_space (fuel : nat) (buf : list ascii) (j : nat) : option nat :=
  match buf !! j with
  | None => None
  | Some c => if isspace c then match fuel with O => None | S fuel => scan_space fuel buf (S j) end else Some j
  end.
Definition scan (A : Type) (o : option A) : CP A := match o with Some a => ret a | None => undef end.
Arguments scan {A} o.

(** The URL cut at its first question mark. *)
Fixpoint cut_query (url : list ascii) : list ascii * option (list ascii) :=
  match url with
  | [] => ([], None)
  | c :: url => if c =c "?"%char then ([], Some url) else let (u, q) := cut_query url in (c :: u, q)
  end.

Definition rejected (method : list ascii) : bool :=
  (strcasecmp method (lit "GET") <? 0) && (strcasecmp method (lit "POST") <? 0).

Definition ends_in_slash (s : list ascii) : bool := match last s with Some c => c =c "/"%char | None => false end.

(** From the path on. *)
Definition serve (fuel : nat) (sock_client : Z) (method url : list ascii) (query_string : option (list ascii)) (cgi : bool) : CP unit :=
  path <- fits BUF_SIZE (lit "htdocs" ++ url) ;;
  path <- (if ends_in_slash path then fits BUF_SIZE (path ++ MAIN_PAGE) else ret path) ;;
  st <- call (sys_stat path) ;;
  match st with
  | None => clear_header fuel sock_client
  | Some st =>
      let mode := st_mode st in
      pc <- (if S_ISDIR mode then path <- fits BUF_SIZE (path ++ lit "/" ++ MAIN_PAGE) ;; ret (path, cgi)
             else if negb (Z.land mode S_IXUSR =? 0) || negb (Z.land mode S_IXGRP =? 0) || negb (Z.land mode S_IXOTH =? 0)
             then ret (path, true) else ret (path, cgi)) ;;
      (if pc.2 then exe_cgi fuel sock_client pc.1 method query_string
       else clear_header fuel sock_client ;;; echo_html sock_client pc.1 (u32 (st_size st))) ;;;
      call (sys_close sock_client) ;;;
      ret tt
  end.

(** From the method and the URL on. *)
Definition dispatch (fuel : nat) (sock_client : Z) (method url : list ascii) : CP unit :=
  if rejected method then ret tt
  else
    let post := strcasecmp method (lit "POST") =? 0 in
    if strcasecmp method (lit "GET") =? 0 then
      let (u, q) := cut_query url in
      serve fuel sock_client method u (Some (match q with Some q => q | None => [] end)) (post || bool_decide (is_Some q))
    else serve fuel sock_client method url None post.

Definition accept_request (fuel : nat) (sock_client : Z) : CP unit :=
  r <- get_line sock_client (zero_buf BUF_SIZE) (Z.of_nat BUF_SIZE) ;;
  if r.1 <? 0 then ret tt
  else
    let buf := r.2 in
    mw <- scan (scan_word (BUF_SIZE / 10 - 1) buf 0) ;;
    j <- scan (scan_space BUF_SIZE buf mw.2) ;;
    uw <- scan (scan_word (BUF_SIZE - 1) buf j) ;;
    dispatch fuel sock_client (cstr mw.1) (cstr uw.1).
End Httpd.

(** * epoll.c *)

Section Epoll.
Context {K : Type} `{!Posix K}.
Abbreviation CP := (CM (proc K)).

(** A struct epoll_event has 12 bytes. *)
Definition My_epoll_create (flags : Z) : CP Z :=
  fd <- call_int (sys_epoll_create1 flags) ;;
  malloc (12 * MAXEVENTS) ;;;
  ret fd.
Definition My_epoll_ctl (op : epoll_op) (epfd fd : Z) (event : epoll_event) : CP unit :=
  call (sys_epoll_ctl epfd op fd event) ;;; ret tt.
Definition My_epoll_add := My_epoll_ctl EPOLL_CTL_ADD.
Definition My_epoll_mod := My_epoll_ctl EPOLL_CTL_MOD.
Definition My_epoll_del := My_epoll_ctl EPOLL_CTL_DEL.
Definition My_epoll_wait (epfd maxevents timeout : Z) : CP (option (list epoll_event)) :=
  call (sys_epoll_wait epfd maxevents timeout).
End Epoll.

(** * The event loop *)

(** What the loop needs of the thread pool: [threadpool_add] of a request for a
    descriptor, with its result. *)
Class TaskPool (P : Type) := { tp_add : Z -> CM P Z }.

(** The server's main thread: the process, the pool ([tp], null when
    threadpool_init failed), and the number of connections accepted. *)
Record server (K P : Type) := MkServer { process : proc K; tp : option P; count : Z }.
Arguments MkServer {K P} process tp count.
Arguments process {K P} s.
Arguments tp {K P} s.
Arguments count {K P} s.

Section Main.
Context {K P : Type} `{!Posix K} `{!TaskPool P}.
Abbreviation CS := (CM (server K P)).
Implicit Type s : server K P.

Definition set_process v s : server K P := MkServer v (tp s) (count s).
Definition set_count v s : server K P := MkServer (process s) (tp s) v.
Definition set_pool v s : server K P := MkServer (process s) v (count s).
Definition on_process {A} (m : CM (proc K) A) : CS A := zoom process set_process m.

(** A call with the pool, which returns at once with -1 when there is none. *)
Definition on_pool (m : CM P Z) : CS Z := fun s =>
  match tp s with
  | None => Ret (-1) s
  | Some p =>
      match m p with
      | Ret r p => Ret r (set_pool (Some p) s)
      | Exit c p => Exit c (set_pool (Some p) s)
      | Undef => Undef
      | OutOfFuel => OutOfFuel
      end
  end.

(** All connections that wait at the listening socket. *)
Fixpoint accept_all (fuel : nat) (epfd listenfd : Z) : CS unit :=
  match fuel with
  | O => nofuel
  | S fuel =>
      r <- on_process (call (sys_accept listenfd)) ;;
      match r with
      | None => ret tt
      | Some (conn, _) =>
          modify (fun s => set_count (i32 (count s + 1)) s) ;;;
          on_process (activate_nonblock conn) ;;;
          on_process (My_epoll_add epfd conn (MkEvent (Z.lor EPOLLIN (Z.lor EPOLLET EPOLLONESHOT)) conn)) ;;;
          accept_all fuel epfd listenfd
      end
  end.

Definition broken (events : Z) : bool :=
  negb (Z.land events EPOLLERR =? 0) || negb (Z.land events EPOLLHUP =? 0) || (Z.land events EPOLLIN =? 0).

Definition handle_event (fuel : nat) (epfd listenfd : Z) (ev : epoll_event) : CS unit :=
  let fd := ev_fd ev in
  if listenfd =? fd then accept_all fuel epfd listenfd
  else if broken (ev_events ev) then on_process (call (sys_close fd)) ;;; ret tt
  else on_pool (tp_add fd) ;;; ret tt.
Fixpoint handle_events (fuel : nat) (epfd listenfd : Z) (evs : list epoll_event) : CS unit :=
  match evs with
  | [] => ret tt
  | ev :: evs => handle_event fuel epfd listenfd ev ;;; handle_events fuel epfd listenfd evs
  end.

Fixpoint event_loop (fuel : nat) (epfd listenfd : Z) : CS unit :=
  match fuel with
  | O => nofuel
  | S fuel' =>
      r <- on_process (My_epoll_wait epfd MAXEVENTS (-1)) ;;
      match r with
      | None => ret tt
      | Some evs => handle_events fuel epfd listenfd evs ;;; event_loop fuel' epfd listenfd
      end
  end.

(** [pool] is what threadpool_init(5) gives, [destroy] is threadpool_destroy(tp, 0). *)
Definition main (fuel : nat) (argv : list (list ascii)) (pool : option P) (destroy : CM P Z) : CS Z :=
  match argv with
  | [_; ip; port] =>
      listenfd <- on_process (Server_init (Some ip) (u16 (wrap_s 16 (atoi port)))) ;;
      if listenfd <? 0 then ret (-1)
      else
        on_process (activate_nonblock listenfd) ;;;
        epfd <- on_process (My_epoll_create 0) ;;
        on_process (My_epoll_add epfd listenfd (MkEvent (Z.lor EPOLLIN EPOLLET) listenfd)) ;;;
        modify (set_pool pool) ;;;
        event_loop fuel epfd listenfd ;;;
        on_pool destroy ;;;
        ret 0
  | _ => exit 1
  end.
End Main.
