(* ===== verification/HttpdThm.v ===== *)
(** The request reader of the web server: what a line is, where the header ends,
    and what [get_line] and [clear_header] make of a request that has arrived. *)
From S2P Require Import Prelude CStr Posix CommSocket CommSocketThm Httpd.
Local Open Scope Z_scope.

(** * Lines, as a function of the bytes *)

(** The line at the front of [s], of at most [n] characters, and what is left:
    the line ends are CR LF, CR and LF, each read as LF. *)
Fixpoint read_line (n : nat) (s : list ascii) : list ascii * list ascii :=
  match n, s with
  | O, _ => ([], s)
  | S n, [] => ([], [])
  | S n, c :: s =>
      if c =c CR then ([LF], match s with d :: s' => if d =c LF then s' else s | [] => [] end)
      else if c =c LF then ([LF], s)
      else let (l, r) := read_line n s in (c :: l, r)
  end.

Lemma read_line_length n s : (length (read_line n s).1 <= n)%nat.
Proof.
  revert s. induction n as [|n IH]; intros s; simpl; [done |]. destruct s as [|c s]; [simpl; lia |].
  destruct (c =c CR); [simpl; lia |]. destruct (c =c LF); [simpl; lia |].
  specialize (IH s). destruct (read_line n s). simpl in *. lia.
Qed.
Lemma read_line_rest n s : (length (read_line n s).2 <= length s)%nat.
Proof.
  revert s. induction n as [|n IH]; intros s; simpl; [done |]. destruct s as [|c s]; [done |].
  destruct (c =c CR); [destruct s as [|d s]; [simpl; lia | destruct (d =c LF); simpl; lia] |].
  destruct (c =c LF); [simpl; lia |]. specialize (IH s). destruct (read_line n s). simpl in *. lia.
Qed.
Lemma read_line_shorter n s : s <> [] -> (0 < n)%nat -> (length (read_line n s).2 < length s)%nat.
Proof.
  destruct n as [|n]; [lia |]. destruct s as [|c s]; [done |]. intros _ _. simpl.
  destruct (c =c CR); [destruct s as [|d s]; [simpl; lia | destruct (d =c LF); simpl; lia] |].
  destruct (c =c LF); [simpl; lia |]. pose proof (read_line_rest n s). destruct (read_line n s). simpl in *. lia.
Qed.

(** A line has no CR, and LF only at its end. *)
Lemma read_line_shape n s :
  CR ∉ (read_line n s).1 /\ forall i, (read_line n s).1 !! i = Some LF -> S i = length (read_line n s).1.
Proof.
  revert s. induction n as [|n IH]; intros s; simpl; [split; [set_solver | done] |].
  destruct s as [|c s]; [split; [set_solver | done] |].
  assert (Hlf : CR ∉ [LF] /\ forall i, [LF] !! i = Some LF -> S i = 1%nat).
  { split; [|by intros [|i]]. intros H. apply list_elem_of_singleton in H. done. }
  destruct (Ascii.eqb_spec c CR); [exact Hlf |]. destruct (Ascii.eqb_spec c LF); [exact Hlf |].
  specialize (IH s). destruct (read_line n s) as [l r]. simpl in *. destruct IH as [H1 H2]. split; [set_solver |].
  intros [|i]; simpl; [by intros [= ->] |]. intros Hi. f_equal. by apply H2.
Qed.

(** An ordinary line: read up to its CR LF. *)
Lemma read_line_plain n l s :
  CR ∉ l -> LF ∉ l -> (length l < n)%nat -> read_line n (l ++ CR :: LF :: s) = (l ++ [LF], s).
Proof.
  revert n. induction l as [|c l IH]; intros n Hc Hl Hn; destruct n as [|n]; simpl in *; try lia; [done |].
  rewrite not_elem_of_cons in Hc, Hl. destruct (Ascii.eqb_spec c CR) as [->|]; [tauto |].
  destruct (Ascii.eqb_spec c LF) as [->|]; [tauto |]. rewrite IH by (tauto || lia). done.
Qed.

(** What is left after the empty line that ends a header. *)
Fixpoint skip_header (fuel n : nat) (s : list ascii) : option (list ascii) :=
  match fuel with
  | O => None
  | S fuel => let (l, s') := read_line n s in if decide (cstr l = [LF]) then Some s' else skip_header fuel n s'
  end.

Lemma skip_header_nil fuel n : skip_header fuel n [] = None.
Proof. induction fuel as [|fuel IH]; [done |]. destruct n; exact IH. Qed.

(** As many lines as there are bytes are enough. *)
Lemma skip_header_fuel fuel n s :
  (0 < n)%nat -> (length s < fuel)%nat -> forall fuel', skip_header fuel' n s = None \/ skip_header fuel' n s = skip_header fuel n s.
Proof.
  intros Hn. revert s. induction fuel as [|fuel IH]; intros s Hs fuel'; [lia |].
  destruct fuel' as [|fuel']; [by left |]. destruct s as [|c s']; [by rewrite !skip_header_nil; left |].
  set (s := c :: s') in *. pose proof (read_line_shorter n s) as Hlt. cbn [skip_header].
  destruct (read_line n s) as [l r]. cbn [snd] in Hlt. destruct (decide _); [by right |]. apply IH.
  specialize (Hlt ltac:(done) Hn). lia.
Qed.

Lemma cstr_app_NUL l r : cstr (l ++ NUL :: r) = cstr l.
Proof. induction l as [|c l IH]; simpl; [done |]. destruct (c =c NUL); [done | by rewrite IH]. Qed.

(** The test with which a blank line is found. *)
Lemma blank_line s : NUL ∉ s -> (strcmp s [LF] =? 0) = bool_decide (s = [LF]).
Proof.
  intros Hs. assert (Hlf : NUL ∉ [LF]) by (rewrite list_elem_of_singleton; done).
  apply Bool.eq_iff_eq_true. rewrite Z.eqb_eq, bool_decide_eq_true. by apply strcmp_eq.
Qed.

Section Thm.
Context {K : Type} `{!Posix K} `{!PosixLaws K}.
Implicit Types (p : proc K) (k : K) (sock fd : Z) (buf s : list ascii).

(** Everything that will arrive at [fd] has arrived. *)
Definition all_here k fd : Prop := (length (inp k fd) <= ready k fd)%nat.

(** [sock] was read, and [s] is left. *)
Definition left_at sock s p p' : Prop :=
  inp (kern p') sock = s /\ (forall fd, fd <> sock -> inp (kern p') fd = inp (kern p) fd) /\
  sent (kern p') = sent (kern p) /\ all_here (kern p') sock /\ same_proc p p' /\ files (kern p') = files (kern p).

Lemma left_at_refl sock p : all_here (kern p) sock -> left_at sock (inp (kern p) sock) p p.
Proof. done. Qed.
Lemma left_at_trans sock s1 s2 p1 p2 p3 : left_at sock s1 p1 p2 -> left_at sock s2 p2 p3 -> left_at sock s2 p1 p3.
Proof.
  intros (A1 & A2 & A3 & A4 & A5 & A6) (B1 & B2 & B3 & B4 & B5 & B6). split; [done |].
  split; [intros fd Hfd; by rewrite B2, A2 |]. split; [by rewrite B3 |]. split; [done |].
  split; [by eapply same_proc_trans | by rewrite B6].
Qed.

Lemma recv1_spec sock peek p :
  all_here (kern p) sock ->
  wp (recv1 sock peek) p (fun r p' =>
    r = head (inp (kern p) sock) /\
    left_at sock (if peek then inp (kern p) sock else tail (inp (kern p) sock)) p p').
Proof.
  intros Hh. unfold recv1. apply wp_bind, wp_call.
  - intros bs k Hr. destruct (recv_ok sock 1 peek _ _ _ ltac:(lia) Hr) as (Hl & [rest Hp] & He & Hi & Hrd & Ho & Hs & _ & Hfl).
    apply wp_ret. unfold left_at, all_here. simpl. rewrite Hp in *. destruct bs as [|c bs].
    + rewrite (He eq_refl) in *. rewrite Hi. split; [done |].
      destruct peek; simpl; (split; [done |]); (split; [done |]); (split; [done |]); (split; [lia | done]).
    + assert (bs = []) as -> by (destruct bs; [done | simpl in Hl; lia]). split; [done |]. rewrite Hi. simpl.
      split; [by destruct peek |]. split; [done |]. split; [done |]. split; [|done].
      unfold all_here in Hh. rewrite Hp in Hh. simpl in Hh, Hrd. destruct peek; simpl in *; rewrite ?drop_0; lia.
  - intros e k Hr. destruct (recv_err sock 1 peek _ _ _ Hr) as (Hi & Hs & Hrd & Hfl & _). apply wp_ret.
    assert (Hnil : inp (kern p) sock = []).
    { destruct (inp (kern p) sock) as [|c s] eqn:E; [done |]. unfold all_here in Hh. rewrite E in Hh. simpl in Hh.
      destruct (recv_ready sock 1 peek (kern p)) as (bs & k' & Hr' & _); [lia | lia |]. congruence. }
    rewrite Hnil. split; [done |]. unfold left_at, all_here. simpl. rewrite Hi, Hnil. simpl.
    split; [by destruct peek |]. split; [done |]. split; [done |]. split; [lia | done].
Qed.

Lemma after_cr_spec sock p :
  all_here (kern p) sock ->
  wp (after_cr sock) p (fun c p' => c = LF /\
    left_at sock (match inp (kern p) sock with d :: s' => if d =c LF then s' else inp (kern p) sock | [] => [] end) p p').
Proof.
  intros Hh. unfold after_cr. apply wp_bind. eapply wp_mono; [by apply recv1_spec |].
  intros r p1 [-> Hl]. destruct (inp (kern p) sock) as [|c s] eqn:E; simpl.
  { apply wp_ret. done. }
  destruct (Ascii.eqb_spec c LF) as [->|Hne]; [|by apply wp_ret].
  apply wp_bind. eapply wp_mono; [apply recv1_spec; by destruct Hl as (_ & _ & _ & ? & _) |].
  intros r p2 [-> Hl2]. apply wp_ret. assert (Hi : inp (kern p1) sock = LF :: s) by apply Hl. rewrite Hi in *. simpl in *.
  split; [done |]. by eapply left_at_trans.
Qed.

Lemma get_line_loop_lf fuel sock buf m i p : get_line_loop fuel sock buf m i LF p = Ret (i, buf) p.
Proof. destruct fuel; simpl; by rewrite andb_false_r. Qed.

Lemma get_line_loop_spec fuel sock buf (n i : nat) c p :
  all_here (kern p) sock -> (i <= n)%nat -> (n < length buf)%nat -> (n - i <= fuel)%nat -> Z.of_nat n < 2 ^ 63 ->
  wp (get_line_loop fuel sock buf (Z.of_nat (S n)) i c) p (fun r p' =>
    let lr := if c =c LF then ([], inp (kern p) sock) else read_line (n - i) (inp (kern p) sock) in
    r.1 = (i + length lr.1)%nat /\ r.2 = take i buf ++ lr.1 ++ drop (i + length lr.1) buf /\ left_at sock lr.2 p p').
Proof.
  intros Hh Hi Hn Hf Hb. change (2 ^ 63) with 9223372036854775808 in Hb.
  assert (Hu : u64 (Z.of_nat (S n) - 1) = Z.of_nat n) by (rewrite u64_small; lia).
  revert buf i c p Hh Hi Hn Hf. induction fuel as [|fuel IH]; intros buf i c p Hh Hi Hn Hf; cbn [get_line_loop]; rewrite Hu;
    (destruct (Z.ltb_spec (Z.of_nat i) (Z.of_nat n)) as [Hlt|Hge]; [|
      assert (n - i = 0)%nat as -> by lia; apply wp_ret; simpl; destruct (c =c LF); simpl;
      rewrite Nat.add_0_r, take_drop; (split; [done |]); (split; [done |]); by apply left_at_refl]); try lia.
  destruct (c =c LF) eqn:Ec; cbn [negb andb].
  { apply wp_ret. simpl. rewrite Nat.add_0_r, take_drop. split; [done |]. split; [done |]. by apply left_at_refl. }
  destruct (n - i)%nat as [|m] eqn:Em; [lia |].
  apply wp_bind. eapply wp_mono; [by apply recv1_spec |]. intros r p1 [-> Hl]. pose proof Hl as (Hin1 & _ & _ & Hh1 & _).
  destruct (inp (kern p) sock) as [|x s] eqn:Es; cbn [head tail] in *.
  { eapply wp_intro; [apply get_line_loop_lf |]. simpl. rewrite Nat.add_0_r, take_drop. done. }
  assert (Hstep : forall x' p2, left_at sock (inp (kern p2) sock) p p2 ->
    wp (buf0 <- store buf i [x'] ;; get_line_loop fuel sock buf0 (Z.of_nat (S n)) (S i) x') p2 (fun r p' =>
      let lr := if x' =c LF then ([], inp (kern p2) sock) else read_line m (inp (kern p2) sock) in
      r.1 = (i + S (length lr.1))%nat /\ r.2 = take i buf ++ (x' :: lr.1) ++ drop (i + S (length lr.1)) buf /\ left_at sock lr.2 p p')).
  { intros x' p2 Hl2. apply wp_bind, wp_blit; [simpl; lia |]. pose proof Hl2 as (_ & _ & _ & Hh2 & _).
    assert (Hfit : (i + length [x'] <= length buf)%nat) by (simpl; lia).
    eapply wp_mono; [apply (IH _ (S i) x' p2 Hh2); [lia | rewrite !length_app, length_take, length_drop; simpl; lia | lia] |].
    replace (n - S i)%nat with m by lia. intros r p3. cbv zeta. intros (H1 & H2 & H3).
    split; [lia |]. split; [|by eapply left_at_trans].
    rewrite H2. replace (S i) with (i + length [x'])%nat by (simpl; lia).
    rewrite take_stored, drop_stored by done. rewrite <- !app_assoc. done. }
  assert (Hgo : forall x' p2, left_at sock (inp (kern p2) sock) p p2 -> forall l r,
    (if x' =c LF then ([], inp (kern p2) sock) else read_line m (inp (kern p2) sock)) = (l, r) ->
    wp (buf0 <- store buf i [x'] ;; get_line_loop fuel sock buf0 (Z.of_nat (S n)) (S i) x') p2 (fun o p' =>
      o.1 = (i + length (x' :: l))%nat /\ o.2 = take i buf ++ (x' :: l) ++ drop (i + length (x' :: l)) buf /\ left_at sock r p p')).
  { intros x' p2 Hl2 l r E. eapply wp_mono; [by apply Hstep |]. cbv zeta. by rewrite E. }
  cbn [read_line]. destruct (Ascii.eqb_spec x CR) as [->|Hcr].
  - apply wp_bind. eapply wp_mono; [by apply after_cr_spec |]. intros x' p2 [-> Hl2]. cbv zeta. cbn [fst snd].
    pose proof (left_at_trans _ _ _ _ _ _ Hl Hl2) as Hl3. rewrite Hin1 in Hl3. pose proof Hl3 as (Hin2 & _).
    rewrite <- Hin2. apply Hgo; [by rewrite Hin2 | done].
  - apply wp_bind, wp_ret. cbv zeta. destruct (Ascii.eqb_spec x LF) as [->|Hlf].
    + cbn [fst snd]. rewrite <- Hin1. apply Hgo; [by rewrite Hin1 | done].
    + destruct (read_line m s) as [l r] eqn:Er. cbn [fst snd]. apply Hgo; [by rewrite Hin1 |].
      rewrite Hin1. destruct (Ascii.eqb_spec x LF); [done |]. done.
Qed.

Lemma get_line_spec sock buf p :
  all_here (kern p) sock -> (0 < length buf)%nat -> Z.of_nat (length buf) < 2 ^ 63 ->
  wp (get_line sock buf (Z.of_nat (length buf))) p (fun r p' =>
    let lr := read_line (length buf - 1) (inp (kern p) sock) in
    r = (1, lr.1 ++ NUL :: drop (S (length lr.1)) buf) /\ left_at sock lr.2 p p').
Proof.
  intros Hh Hl Hb. change (2 ^ 63) with 9223372036854775808 in Hb. unfold get_line.
  set (n := (length buf - 1)%nat). pose proof (read_line_length n (inp (kern p) sock)) as Hlen.
  replace (Z.of_nat (length buf)) with (Z.of_nat (S n)) by lia. rewrite u64_small by lia.
  apply wp_bind. eapply wp_mono; [apply (get_line_loop_spec _ sock buf n 0 NUL p); (done || lia) |].
  intros [i b] p1. rewrite Nat.sub_0_r. simpl. intros (-> & -> & Hleft). cbv zeta.
  set (lr := read_line n (inp (kern p) sock)) in *.
  apply wp_bind, wp_blit; [rewrite length_app, length_drop; simpl; lia |]. apply wp_ret. split; [|done]. f_equal.
  rewrite take_app_length. simpl. f_equal. f_equal. rewrite drop_app_ge by lia. rewrite drop_drop. f_equal. lia.
Qed.

Lemma get_line_buffer sock buf p :
  all_here (kern p) sock -> (0 < length buf)%nat -> Z.of_nat (length buf) < 2 ^ 63 ->
  wp (get_line sock buf (Z.of_nat (length buf))) p (fun r p' =>
    let lr := read_line (length buf - 1) (inp (kern p) sock) in
    r.1 = 1 /\ cstr r.2 = cstr lr.1 /\ length r.2 = length buf /\ left_at sock lr.2 p p').
Proof.
  intros Hh Hl Hb. eapply wp_mono; [by apply get_line_spec |]. intros r p' [-> Hleft]. cbv zeta. simpl.
  pose proof (read_line_length (length buf - 1) (inp (kern p) sock)).
  split; [done |]. split; [apply cstr_app_NUL |]. split; [|done]. rewrite length_app. simpl. rewrite length_drop. lia.
Qed.

Lemma clear_header_loop_spec fuel sock buf p :
  all_here (kern p) sock -> (0 < length buf)%nat -> Z.of_nat (length buf) < 2 ^ 63 ->
  match skip_header fuel (length buf - 1) (inp (kern p) sock) with
  | Some rest => wp (clear_header_loop fuel sock buf) p (fun _ p' => left_at sock rest p p')
  | None => clear_header_loop fuel sock buf p = OutOfFuel
  end.
Proof.
  intros Hh Hl Hb. revert buf p Hh Hl Hb. induction fuel as [|fuel IH]; intros buf p Hh Hl Hb; [done |]. cbn [skip_header].
  assert (Hg := get_line_buffer sock buf p Hh Hl Hb). destruct (read_line (length buf - 1) (inp (kern p) sock)) as [l s'].
  apply wp_run in Hg as ([r b] & p1 & Hrun & Hr & Hc & Hlen & Hleft). cbn [fst snd] in *. subst r.
  assert (Htest : (strcmp (cstr b) [LF] =? 0) = bool_decide (cstr l = [LF])).
  { rewrite blank_line by apply cstr_no_nul. by rewrite Hc. }
  assert (Hstep : clear_header_loop (S fuel) sock buf p =
    if bool_decide (cstr l = [LF]) then Ret tt p1 else clear_header_loop fuel sock b p1).
  { cbn [clear_header_loop]. rewrite (bind_eq _ _ _ _ _ Hrun). cbn [fst snd]. rewrite Htest. by destruct (bool_decide _). }
  destruct (decide (cstr l = [LF])) as [Heq|Hne].
  - eapply wp_intro; [rewrite Hstep; by rewrite bool_decide_eq_true_2 | done].
  - rewrite bool_decide_eq_false_2 in Hstep by done. unfold wp. rewrite Hstep.
    specialize (IH b p1). rewrite Hlen in IH. assert (Hin : inp (kern p1) sock = s') by apply Hleft. rewrite Hin in IH.
    specialize (IH ltac:(apply Hleft) Hl Hb). destruct (skip_header fuel (length buf - 1) s'); [|done].
    eapply wp_mono; [exact IH |]. intros u p2 H2. by eapply left_at_trans.
Qed.

Lemma clear_header_spec fuel sock p :
  all_here (kern p) sock ->
  match skip_header fuel 1023 (inp (kern p) sock) with
  | Some rest => wp (clear_header fuel sock) p (fun _ p' => left_at sock rest p p')
  | None => clear_header fuel sock p = OutOfFuel
  end.
Proof. intros Hh. apply (clear_header_loop_spec fuel sock (zero_buf 1024) p Hh); [vm_compute; lia | vm_compute; reflexivity]. Qed.
End Thm.
