(* ===== verification/HttpdServe.v ===== *)
(** What the web server does with a request: its first line, the methods it
    takes, files, CGI programs. *)
From S2P Require Import Prelude CStr Posix CommSocket CommSocketThm Httpd HttpdThm.
Local Open Scope Z_scope.

(** * The first line *)

Definition no_space (s : list ascii) : Prop := forallb (fun c => negb (isspace c)) s = true.
Definition all_space (s : list ascii) : Prop := forallb isspace s = true.

Lemma lookup_split (pre : list ascii) c rest : (pre ++ c :: rest) !! length pre = Some c.
Proof. by rewrite lookup_app_r, Nat.sub_diag by lia. Qed.

Lemma scan_word_spec cap pre w c rest :
  no_space w -> isspace c = true -> (length w <= cap)%nat ->
  scan_word cap (pre ++ w ++ c :: rest) (length pre) = Some (w, (length pre + length w)%nat).
Proof.
  revert cap pre. induction w as [|x w IH]; intros cap pre Hw Hc Hcap.
  - assert (E : (pre ++ c :: rest) !! length pre = Some c) by apply lookup_split.
    destruct cap; cbn [scan_word app]; rewrite E, Hc; by rewrite Nat.add_0_r.
  - destruct cap as [|cap]; [simpl in Hcap; lia |]. unfold no_space in Hw. simpl in Hw. apply andb_prop in Hw as [Hx Hw].
    apply negb_true_iff in Hx. cbn [scan_word app]. rewrite lookup_split, Hx.
    specialize (IH cap (pre ++ [x]) Hw Hc ltac:(simpl in Hcap; lia)).
    rewrite <- app_assoc, length_app in IH. simpl in IH. rewrite Nat.add_1_r in IH. rewrite IH. do 2 f_equal. simpl. lia.
Qed.

Lemma scan_space_spec fuel pre w c rest :
  all_space w -> isspace c = false -> (length w <= fuel)%nat ->
  scan_space fuel (pre ++ w ++ c :: rest) (length pre) = Some (length pre + length w)%nat.
Proof.
  revert fuel pre. induction w as [|x w IH]; intros fuel pre Hw Hc Hf.
  - assert (E : (pre ++ c :: rest) !! length pre = Some c) by apply lookup_split.
    destruct fuel; cbn [scan_space app]; rewrite E, Hc; by rewrite Nat.add_0_r.
  - destruct fuel as [|fuel]; [simpl in Hf; lia |]. unfold all_space in Hw. simpl in Hw. apply andb_prop in Hw as [Hx Hw].
    cbn [scan_space app]. rewrite lookup_split, Hx.
    specialize (IH fuel (pre ++ [x]) Hw Hc ltac:(simpl in Hf; lia)).
    rewrite <- app_assoc, length_app in IH. simpl in IH. rewrite Nat.add_1_r in IH. rewrite IH. f_equal. simpl. lia.
Qed.

(** A request line: the method, white space, the URL, white space, the rest. *)
Record request_line (l method url : list ascii) : Prop := {
  rl_split : exists sp x tl, l = method ++ sp ++ url ++ x :: tl /\ all_space sp /\ sp <> [] /\ isspace x = true;
  rl_method : no_space method /\ NUL ∉ method /\ (length method <= 101)%nat;
  rl_url : no_space url /\ NUL ∉ url /\ url <> []
}.

Section Serve.
Context {K : Type} `{!Posix K} `{!PosixLaws K}.
Implicit Types (p : proc K) (k : K) (sock fd : Z) (buf s l method url path : list ascii).

(** C33: get_line returns for every buffer and every request that has arrived:
    it stores one line, ended by NUL, inside the buffer, with a single LF for
    each of the three line ends and CR nowhere, and leaves the bytes after it. *)
Theorem get_line_reads sock buf p :
  all_here (kern p) sock -> (0 < length buf)%nat -> Z.of_nat (length buf) < 2 ^ 63 ->
  let (l, s) := read_line (length buf - 1) (inp (kern p) sock) in
  exists buf' p', get_line sock buf (Z.of_nat (length buf)) p = Ret (1, buf') p' /\ left_at sock s p p' /\
    length buf' = length buf /\ buf' = l ++ NUL :: drop (S (length l)) buf /\
    CR ∉ l /\ (forall i, l !! i = Some LF -> S i = length l).
Proof.
  intros Hh Hl Hb. assert (Hwp := get_line_spec sock buf p Hh Hl Hb).
  pose proof (read_line_shape (length buf - 1) (inp (kern p) sock)) as [Hcr Hlf].
  pose proof (read_line_length (length buf - 1) (inp (kern p) sock)) as Hlen.
  destruct (read_line (length buf - 1) (inp (kern p) sock)) as [l s]. cbv zeta in Hwp. cbn [fst snd] in *.
  apply wp_run in Hwp as (r & p' & Hrun & -> & Hleft). eexists _, p'. split; [exact Hrun |]. split; [done |].
  split; [|done]. rewrite length_app. simpl. rewrite length_drop. lia.
Qed.

(** Clear_header reads exactly to the end of the first empty line; when the
    request has none, it never returns. *)
Theorem clear_header_outcome sock p :
  all_here (kern p) sock -> let s := inp (kern p) sock in
  match skip_header (S (length s)) 1023 s with
  | Some rest => forall fuel, (length s < fuel)%nat -> exists p', clear_header fuel sock p = Ret tt p' /\ left_at sock rest p p'
  | None => forall fuel, clear_header fuel sock p = OutOfFuel
  end.
Proof.
  intros Hh s. pose proof (fun fuel => clear_header_spec fuel sock p Hh) as Hspec. fold s in Hspec.
  pose proof (fun fuel Hf => skip_header_fuel fuel 1023 s ltac:(lia) Hf) as Hfuel.
  destruct (skip_header (S (length s)) 1023 s) as [rest|] eqn:E.
  - intros fuel Hf. specialize (Hspec fuel). destruct (Hfuel fuel Hf (S (length s))) as [H|H]; [congruence |].
    rewrite E in H. rewrite <- H in Hspec. apply wp_run in Hspec as ([] & p' & Hrun & Hl). by exists p'.
  - intros fuel. specialize (Hspec fuel). destruct (Hfuel (S (length s)) ltac:(lia) fuel) as [H|H]; rewrite H in Hspec; [done |].
    by rewrite E in Hspec.
Qed.

Lemma no_space_head url : no_space url -> url <> [] -> exists c url', url = c :: url' /\ isspace c = false.
Proof.
  destruct url as [|c url']; [done |]. intros H _. exists c, url'. split; [done |]. unfold no_space in H. simpl in H.
  apply andb_prop in H as [H _]. by apply negb_true_iff in H.
Qed.

Lemma accept_request_parses fuel sock p l s1 method url :
  all_here (kern p) sock -> read_line 1023 (inp (kern p) sock) = (l, s1) -> request_line l method url ->
  exists p1, left_at sock s1 p p1 /\ accept_request fuel sock p = dispatch fuel sock method url p1.
Proof.
  intros Hh Hl [(sp & x & tl & El & Hsp & Hsp0 & Hx) (Hm & Hm0 & Hmlen) (Hu & Hu0 & Hune)].
  assert (Hg := get_line_spec sock (zero_buf BUF_SIZE) p Hh ltac:(vm_compute; lia) eq_refl).
  assert (Hlen : length (zero_buf BUF_SIZE) = 1024%nat) by reflexivity. rewrite Hlen in Hg. cbn [Nat.sub] in Hg.
  assert (Hll : (length l <= 1023)%nat) by (pose proof (read_line_length 1023 (inp (kern p) sock)) as H; by rewrite Hl in H).
  rewrite Hl in Hg. cbv zeta in Hg. cbn [fst snd] in Hg. apply wp_run in Hg as (r & p1 & Hrun & -> & Hleft).
  exists p1. split; [done |]. unfold accept_request. change (Z.of_nat BUF_SIZE) with (Z.of_nat 1024).
  rewrite (bind_eq _ _ _ _ _ Hrun). cbn [fst snd]. change (1 <? 0) with false. cbv iota zeta.
  set (z := drop (S (length l)) (zero_buf BUF_SIZE)). rewrite El, <- !app_assoc.
  destruct sp as [|y sp]; [done |]. unfold all_space in Hsp. simpl in Hsp. apply andb_prop in Hsp as [Hy Hsp].
  destruct (no_space_head url Hu Hune) as (c & url' & Eu & Hc).
  change (BUF_SIZE / 10 - 1)%nat with 101%nat. rewrite <- !app_comm_cons.
  pose proof (scan_word_spec 101 [] method y (sp ++ url ++ x :: tl ++ NUL :: z) Hm Hy Hmlen) as E1. cbn [app length plus] in E1.
  rewrite E1. clear E1. cbn [scan fst snd]. unfold bind at 1, ret at 1. cbn [fst snd].
  replace (method ++ y :: sp ++ url ++ x :: tl ++ NUL :: z) with (method ++ (y :: sp) ++ c :: url' ++ x :: tl ++ NUL :: z)
    by (rewrite Eu; by rewrite <- app_comm_cons).
  assert (Hlens : (length method + length (y :: sp) + length url <= 1023)%nat).
  { rewrite El in Hll. rewrite !length_app in Hll. lia. }
  rewrite scan_space_spec; [|unfold all_space; simpl; by rewrite Hy | done | unfold BUF_SIZE; lia].
  cbn [scan]. unfold bind at 1, ret at 1.
  replace (method ++ (y :: sp) ++ c :: url' ++ x :: tl ++ NUL :: z) with ((method ++ y :: sp) ++ url ++ x :: tl ++ NUL :: z)
    by (rewrite Eu, <- app_assoc; done).
  rewrite <- length_app. rewrite scan_word_spec; [|done | done | unfold BUF_SIZE; lia].
  cbn [scan fst snd]. unfold bind at 1, ret at 1. cbn [fst snd]. by rewrite !cstr_id.
Qed.

(** * Methods *)

Lemma get_before_post method : strcasecmp method (lit "GET") < 0 -> strcasecmp method (lit "POST") < 0.
Proof.
  destruct method as [|x m]; simpl; [by vm_compute |].
  change (tolower "G") with 103. change (tolower "P") with 112.
  destruct (Z.eqb_spec (tolower x) 103) as [->|Hne]; [intros _; reflexivity |].
  intros H. rewrite (proj2 (Z.eqb_neq _ _)) by lia. lia.
Qed.

(** The test for methods refuses exactly those that come before GET in the
    order of strcasecmp, so HEAD, PUT or DELETE are not all treated alike; a
    request refused gets no answer, and its socket is not closed. *)
Theorem refused_methods fuel sock p l s1 method url :
  all_here (kern p) sock -> read_line 1023 (inp (kern p) sock) = (l, s1) -> request_line l method url ->
  (rejected method = true <-> strcasecmp method (lit "GET") < 0) /\
  (strcasecmp method (lit "GET") < 0 -> exists p', accept_request fuel sock p = Ret tt p' /\ left_at sock s1 p p').
Proof.
  intros Hh Hl Hrl. assert (Hrej : rejected method = true <-> strcasecmp method (lit "GET") < 0).
  { unfold rejected. rewrite andb_true_iff, !Z.ltb_lt. split; [by intros [? _] | intros H]. split; [done | by apply get_before_post]. }
  split; [done |]. intros Hm. destruct (accept_request_parses fuel sock p l s1 method url Hh Hl Hrl) as (p1 & Hleft & ->).
  exists p1. split; [|done]. unfold dispatch. by rewrite (proj2 Hrej Hm).
Qed.

(** * Files *)

(** The path of a URL. *)
Definition page url : list ascii :=
  let path := lit "htdocs" ++ url in if ends_in_slash path then path ++ MAIN_PAGE else path.

Lemma fits_ok {S} n s : (length s < n)%nat -> fits (S := S) n s = ret s.
Proof. intros H. unfold fits. by rewrite (proj2 (Nat.ltb_lt _ _) H). Qed.
Lemma fits_over {S} n s : (n <= length s)%nat -> fits (S := S) n s = undef.
Proof. intros H. unfold fits. by rewrite (proj2 (Nat.ltb_ge _ _) H). Qed.

Lemma cut_query_none url : "?"%char ∉ url -> cut_query url = (url, None).
Proof.
  induction url as [|c url IH]; simpl; [done |]. rewrite not_elem_of_cons. intros [Hc Hu].
  destruct (Ascii.eqb_spec c "?"); [congruence |]. by rewrite (IH Hu).
Qed.
Lemma cut_query_some u q : "?"%char ∉ u -> cut_query (u ++ "?"%char :: q) = (u, Some q).
Proof.
  induction u as [|c u IH]; simpl; [done |]. rewrite not_elem_of_cons. intros [Hc Hu].
  destruct (Ascii.eqb_spec c "?"); [congruence |]. by rewrite (IH Hu).
Qed.

Lemma dispatch_get fuel sock url p :
  dispatch fuel sock (lit "GET") url p =
  let (u, q) := cut_query url in
  serve fuel sock (lit "GET") u (Some (match q with Some q => q | None => [] end)) (bool_decide (is_Some q)) p.
Proof. unfold dispatch. simpl. by destruct (cut_query url). Qed.

(** The two paths that serve builds. *)
Lemma serve_path fuel sock method url q cgi p :
  (length (page url) < BUF_SIZE)%nat ->
  serve fuel sock method url q cgi p =
  (st <- call (sys_stat (page url)) ;;
   match st with
   | None => clear_header fuel sock
   | Some st =>
      let mode := st_mode st in
      pc <- (if S_ISDIR mode then path <- fits BUF_SIZE (page url ++ lit "/" ++ MAIN_PAGE) ;; ret (path, cgi)
             else if negb (Z.land mode S_IXUSR =? 0) || negb (Z.land mode S_IXGRP =? 0) || negb (Z.land mode S_IXOTH =? 0)
             then ret (page url, true) else ret (page url, cgi)) ;;
      (if pc.2 then exe_cgi fuel sock pc.1 method q
       else clear_header fuel sock ;;; echo_html sock pc.1 (u32 (st_size st))) ;;;
      call (sys_close sock) ;;;
      ret tt
   end) p.
Proof.
  intros Hp. unfold serve, page in *. set (path := lit "htdocs" ++ url) in *.
  assert (Hl : (length path < BUF_SIZE)%nat) by (destruct (ends_in_slash path); [rewrite length_app in Hp; lia | done]).
  rewrite fits_ok by done. unfold bind at 1, ret at 1. destruct (ends_in_slash path); [rewrite fits_ok by done |]; done.
Qed.







(** For a path that does not exist the header is read and nothing is sent
    back; the socket is not closed. *)
Theorem missing_file_unanswered fuel sock p l s1 url rest :
  all_here (kern p) sock -> read_line 1023 (inp (kern p) sock) = (l, s1) -> request_line l (lit "GET") url ->
  "?"%char ∉ url -> (length (page url) < BUF_SIZE)%nat -> files (kern p) (page url) = None ->
  skip_header fuel 1023 s1 = Some rest ->
  exists p', accept_request fuel sock p = Ret tt p' /\ left_at sock rest p p'.
Proof.
  intros Hh Hl Hrl Hq Hpage Hno Hskip.
  destruct (accept_request_parses fuel sock p l s1 _ url Hh Hl Hrl) as (p1 & Hleft & ->).
  rewrite dispatch_get, cut_query_none, serve_path by done. destruct (sys_stat (page url) (kern p1)) as [r k1] eqn:Hst.
  destruct (stat_io _ _ _ _ Hst) as (Hi1 & Hs1 & Hf1 & Hr1 & Hres).
  pose proof Hleft as (Hin & Ho & Hs & Hh1 & Hsame & Hfiles).
  rewrite Hfiles, Hno in Hres. destruct r as [|e]; [done |]. set (p2 := set_errno e (set_kern k1 p1)).
  assert (Hl2 : left_at sock s1 p p2).
  { unfold left_at, all_here in *. simpl. rewrite Hi1, Hs1, Hf1. specialize (Hr1 sock). repeat (split; [done || lia |]). done. }
  pose proof (clear_header_spec fuel sock p2 ltac:(apply Hl2)) as Hclear.
  assert (Hin2 : inp (kern p2) sock = s1) by apply Hl2. rewrite Hin2, Hskip in Hclear.
  apply wp_run in Hclear as ([] & p' & Hrun & Hl3). exists p'. split; [|by eapply left_at_trans].
  unfold bind, call. rewrite Hst. exact Hrun.
Qed.

(** A URL of 1018 characters or more, which fits the line buffer, runs over
    the end of the path buffer. *)
Theorem long_url_overflows fuel sock p l s1 url :
  all_here (kern p) sock -> read_line 1023 (inp (kern p) sock) = (l, s1) -> request_line l (lit "GET") url ->
  "?"%char ∉ url -> (1018 <= length url)%nat -> accept_request fuel sock p = Undef.
Proof.
  intros Hh Hl Hrl Hq Hlong. destruct (accept_request_parses fuel sock p l s1 _ url Hh Hl Hrl) as (p1 & _ & ->).
  rewrite dispatch_get, cut_query_none by done. unfold serve. rewrite fits_over; [done |].
  rewrite length_app. change (length (lit "htdocs")) with 6%nat. unfold BUF_SIZE. lia.
Qed.

(** * CGI programs *)

(** What the child's four calls on descriptors leave. *)
Definition plumbed (in0 in1 out0 out1 : Z) k : K :=
  (sys_dup2 out1 1 (sys_dup2 in0 0 (sys_close out0 (sys_close in1 k).2).2).2).2.

(** The child of a GET request becomes the program, with the method and the
    query in its environment; a query longer than 88 characters runs over its
    buffer, and for any other method, POST included, the child formats an int
    as a string. *)
Theorem cgi_child in0 in1 out0 out1 path method q p :
  (length method <= 101)%nat ->
  let env := [lit "QUERY_STRING=" ++ q; lit "REQUEST_METHOD=" ++ method] ++ environ p in
  if strcasecmp (lit "GET") method =? 0 then
    if (length q <=? 88)%nat then
      let (r, k) := sys_execl path env (plumbed in0 in1 out0 out1 (kern p)) in
      exists p', run_cgi in0 in1 out0 out1 path method (Some q) p = Exit (match r with Ok _ => 0 | Err _ => 1 end) p' /\
        environ p' = env /\ kern p' = k /\ image p' = (match r with Ok _ => Some path | Err _ => image p end)
    else run_cgi in0 in1 out0 out1 path method (Some q) p = Undef
  else run_cgi in0 in1 out0 out1 path method (Some q) p = Undef.
Proof.
  intros Hm env.
  assert (Hcall : forall A (f : K -> sysres A * K) q, exists r q', call f q = Ret r q' /\ kern q' = (f (kern q)).2 /\
    environ q' = environ q /\ image q' = image q).
  { intros A f q0. unfold call. destruct (f (kern q0)) as [[a|e] k]; by eexists _, _. }
  unfold run_cgi.
  destruct (Hcall _ (sys_close in1) p) as (r1 & p1 & E1 & Hk1 & He1 & Hi1). rewrite (bind_eq _ _ _ _ _ E1).
  destruct (Hcall _ (sys_close out0) p1) as (r2 & p2 & E2 & Hk2 & He2 & Hi2). rewrite (bind_eq _ _ _ _ _ E2).
  destruct (Hcall _ (sys_dup2 in0 0) p2) as (r3 & p3 & E3 & Hk3 & He3 & Hi3). rewrite (bind_eq _ _ _ _ _ E3).
  destruct (Hcall _ (sys_dup2 out1 1) p3) as (r4 & p4 & E4 & Hk4 & He4 & Hi4). rewrite (bind_eq _ _ _ _ _ E4).
  rewrite fits_ok by (rewrite length_app; change (length (lit "REQUEST_METHOD=")) with 15%nat; unfold BUF_SIZE; lia).
  unfold bind at 1, ret at 1. unfold bind at 1, putenv at 1, modify at 1.
  destruct (strcasecmp (lit "GET") method =? 0); [|done].
  change (BUF_SIZE / 10)%nat with 102%nat. destruct (Nat.leb_spec (length q) 88) as [Hq|Hq].
  - rewrite fits_ok by (rewrite length_app; change (length (lit "QUERY_STRING=")) with 13%nat; lia).
    assert (Hk : kern p4 = plumbed in0 in1 out0 out1 (kern p)) by (unfold plumbed; by rewrite Hk4, Hk3, Hk2, Hk1).
    assert (Henv : environ p4 = environ p) by (by rewrite He4, He3, He2, He1).
    unfold bind, ret, putenv, modify, gets, call, exit. simpl. rewrite Henv, Hk. fold env.
    destruct (sys_execl path _ _) as [[v|e] k]; (eexists; split; [reflexivity |]); simpl; rewrite ?Henv; try done.
    split; [done |]. split; [done |]. by rewrite Hi4, Hi3, Hi2, Hi1.
  - rewrite fits_over; [done |]. rewrite length_app. change (length (lit "QUERY_STRING=")) with 13%nat. lia.
Qed.

Lemma copy_output_spec fuel from sock p :
  reliable from -> waits (kern p) = 0%nat -> open_wide sock -> (length (inp (kern p) from) < fuel)%nat ->
  wp (copy_output fuel from sock) p (fun _ p' => sent (kern p') sock = sent (kern p) sock ++ inp (kern p) from /\
    (forall fd, fd <> sock -> sent (kern p') fd = sent (kern p) fd) /\ inp (kern p') from = []).
Proof.
  intros Hst Hw Hop. revert p Hw. induction fuel as [|fuel IH]; intros p Hw Hf; [lia |]. cbn [copy_output].
  apply wp_bind, wp_call.
  2: { intros e k Hr. destruct (read_err _ _ _ _ _ Hr) as (_ & _ & _ & Hlt). specialize (Hlt (Hst _ _ _ _ Hr)). lia. }
  intros bs k Hr. destruct (read_ok from 1 _ _ _ ltac:(lia) Hr) as (Hl & Hi & He & _ & Hs & Hwk).
  destruct bs as [|c bs].
  - apply wp_ret. specialize (He eq_refl). simpl in *. rewrite Hs, He, app_nil_r. rewrite He in Hi. done.
  - assert (bs = []) as -> by (destruct bs; [done | simpl in Hl; lia]). destruct (Hop [c] k) as (k2 & Hsend).
    destruct (send_ok sock [c] _ _ _ ltac:(done) Hsend) as (_ & Hi2 & Hs2 & Ho2 & Hw2). simpl in Hs2.
    apply wp_bind. eapply wp_intro; [unfold call; simpl kern; rewrite Hsend; reflexivity |].
    eapply wp_mono; [apply IH; simpl; [lia |]; rewrite Hi2; rewrite Hi in Hf; simpl in Hf; lia |].
    intros u p' (H1 & H2 & H3). simpl in *. split; [|split; [intros fd Hne; by rewrite H2, Ho2, Hs | done]].
    rewrite H1, Hs2, Hs, Hi2, Hi. by rewrite <- app_assoc.
Qed.

Lemma wp_close2 a b p Q :
  (forall p', sent (kern p') = sent (kern p) -> (waits (kern p') <= waits (kern p))%nat -> (forall fd, fd <> a -> fd <> b -> inp (kern p') fd = inp (kern p) fd) -> Q tt p') ->
  wp (close2 a b) p Q.
Proof.
  intros HQ. unfold close2. apply wp_bind, wp_call; intros x k1 H1; apply wp_bind, wp_call; intros y k2 H2;
    apply wp_ret, HQ; simpl in *; destruct (close_io _ _ _ _ H1) as (S1 & I1 & W1), (close_io _ _ _ _ H2) as (S2 & I2 & W2);
    first [by rewrite S2, S1 | lia | intros fd Ha Hb; by rewrite I2, I1].
Qed.

(** The parent of a CGI program, for a method other than POST, sends the
    client exactly what the program writes, when no signal comes, and returns. *)
Theorem cgi_output_relayed fuel sock in0 in1 out0 out1 id method n p :
  strcasecmp (lit "POST") method <> 0 -> out0 <> in0 -> out0 <> out1 -> reliable out0 -> waits (kern p) = 0%nat -> open_wide sock ->
  (length (inp (kern p) out0) < fuel)%nat ->
  exists p', serve_cgi fuel sock in0 in1 out0 out1 id method n p = Ret tt p' /\
    sent (kern p') sock = sent (kern p) sock ++ inp (kern p) out0 /\
    (forall fd, fd <> sock -> sent (kern p') fd = sent (kern p) fd).
Proof.
  intros Hm Hne1 Hne2 Hst Hw Hop Hf.
  enough (wp (serve_cgi fuel sock in0 in1 out0 out1 id method n) p (fun _ p' =>
    sent (kern p') sock = sent (kern p) sock ++ inp (kern p) out0 /\
    (forall fd, fd <> sock -> sent (kern p') fd = sent (kern p) fd))) as Hwp.
  { apply wp_run in Hwp as ([] & p' & Hrun & H1 & H2). by exists p'. }
  unfold serve_cgi. apply wp_bind, wp_close2. intros p1 Hs1 Hw1 Hi1.
  rewrite (proj2 (Z.eqb_neq _ _) Hm). apply wp_bind, wp_ret, wp_bind.
  eapply wp_mono; [apply copy_output_spec; [done | lia | done | by rewrite Hi1] |].
  intros u p2 (H1 & H2 & _). apply wp_bind, wp_close2. intros p3 Hs3 _ _.
  assert (Hsock : sent (kern p3) sock = sent (kern p) sock ++ inp (kern p) out0) by (rewrite Hs3, H1, Hs1, Hi1; done).
  assert (Hoth : forall fd, fd <> sock -> sent (kern p3) fd = sent (kern p) fd) by (intros fd Hfd; by rewrite Hs3, H2, Hs1).
  apply wp_bind, wp_call; intros x k Hwt; apply wp_ret; simpl; by rewrite (waitpid_io _ _ _ _ Hwt).
Qed.

(** What a body of [n] bytes is copied as: when the socket has fewer, the last
    one again and again. *)
Fixpoint body (n : nat) (c : ascii) (s : list ascii) : list ascii :=
  match n with
  | O => []
  | S n => match s with [] => c :: body n c [] | x :: s => x :: body n x s end
  end.
Lemma body_exact n c s : (n <= length s)%nat -> body n c s = take n s.
Proof.
  revert c s. induction n as [|n IH]; intros c s Hn; [done |]. destruct s as [|x s]; [simpl in Hn; lia |].
  simpl. f_equal. apply IH. simpl in Hn. lia.
Qed.

Lemma copy_body_spec n sock out c p :
  all_here (kern p) sock -> (forall b k, exists k', sys_write out [b] k = (Ok 1, k')) ->
  (forall b k r k', sys_write out [b] k = (r, k') -> ready k sock <= ready k' sock)%nat ->
  wp (copy_body n sock out c) p (fun _ p' =>
    sent (kern p') out = sent (kern p) out ++ body n c (inp (kern p) sock) /\
    (forall fd, fd <> out -> sent (kern p') fd = sent (kern p) fd) /\
    inp (kern p') sock = drop n (inp (kern p) sock)).
Proof.
  intros Hh Hw Hr. revert c p Hh. induction n as [|n IH]; intros c p Hh; cbn [copy_body].
  { apply wp_ret. simpl. by rewrite app_nil_r, drop_0. }
  apply wp_bind. eapply wp_mono; [by apply recv1_spec |]. intros r p1 [-> (Hi & Ho & Hs & Hh1 & _)]. cbv zeta.
  set (c' := match head (inp (kern p) sock) with Some c => c | None => c end).
  destruct (Hw c' (kern p1)) as (k2 & Hwr). pose proof (Hr _ _ _ _ Hwr) as Hr2.
  destruct (write_ok out [c'] _ _ _ ltac:(done) Hwr) as (_ & Hi2 & Hs2 & Ho2 & _). simpl in Hs2.
  apply wp_bind. eapply wp_intro; [unfold call; rewrite Hwr; reflexivity |].
  eapply wp_mono; [apply IH; unfold all_here in *; simpl; rewrite Hi2; lia |].
  intros u p3 (H1 & H2 & H3). simpl in *. rewrite Hi2, Hi in *. rewrite H1, Hs2, Hs, H3.
  split; [|split; [intros fd Hne; by rewrite H2, Ho2, Hs |]].
  - rewrite <- app_assoc. f_equal. unfold c'. by destruct (inp (kern p) sock).
  - destruct (inp (kern p) sock); simpl; [by rewrite !drop_nil | done].
Qed.
End Serve.
