(* ===== verification/HttpdDemo.v ===== *)
(** Runs of the web server on the small operating system. *)
From S2P Require Import Prelude CStr Posix PosixDemo CommSocket CommSocketThm Httpd HttpdThm HttpdServe.
Local Open Scope Z_scope.

Definition crlf (s : string) : list ascii := lit s ++ [CR; LF].
Definition demo_request : list ascii := crlf "GET /a.html HTTP/1.1" ++ crlf "Host: x" ++ [CR; LF] ++ lit "more".
Definition demo_files : list file :=
  [(lit "htdocs/a.html", 33188, lit "<html>"); (lit "htdocs/add.cgi", 33261, lit "#!")].
(** A process with [s] waiting at descriptor 5. *)
Definition client (s : list ascii) : proc os :=
  proc0 (os0 (fun fd => if fd =? 5 then s else []) [] demo_files).
Definition web : proc os := client demo_request.
Definition after (s : list ascii) : list ascii := (read_line 1023 s).2.

(** The whole of it, computed. *)
Definition sent_to (o : outcome (proc os) unit) (fd : Z) : option (list ascii) :=
  match o with Ret _ p => Some (sent (kern p) fd) | _ => None end.
Example demo_served : sent_to (accept_request 10 5 web) 5 = Some (response_head ++ lit "<html>").
Proof. vm_compute. reflexivity. Qed.

Lemma all_here_demo s : all_here (kern (client s)) 5.
Proof. apply Nat.le_refl. Qed.

Lemma line_demo (url : list ascii) (tl : list ascii) :
  no_space url -> NUL ∉ url -> url <> [] -> request_line (lit "GET " ++ url ++ SP :: tl) (lit "GET") url.
Proof.
  intros H1 H2 H3. constructor; [|split; [reflexivity |]; split; [|vm_compute; lia] | done].
  - exists [SP], SP, tl. done.
  - by apply (bool_decide_unpack (NUL ∉ lit "GET")).
Qed.


Lemma get_line_reads_witness :
  exists buf' p', get_line 5 (zero_buf 8) 8 web = Ret (1, buf') p' /\ left_at 5 (drop 7 demo_request) web p' /\
    length buf' = 8%nat /\ buf' = lit "GET /a." ++ [NUL] /\
    CR ∉ lit "GET /a." /\ (forall i, lit "GET /a." !! i = Some LF -> S i = 7%nat).
Proof.
  pose proof (get_line_reads 5 (zero_buf 8) web (all_here_demo _)) as H.
  assert (E : read_line (length (zero_buf 8) - 1) (inp (kern web) 5) = (lit "GET /a.", drop 7 demo_request)) by (vm_compute; reflexivity).
  rewrite E in H. apply H; [vm_compute; lia | reflexivity].
Defined.

Lemma clear_header_outcome_witness :
  (exists p', clear_header 40 5 (client (crlf "Host: x" ++ [CR; LF] ++ lit "more")) = Ret tt p' /\
     left_at 5 (lit "more") (client (crlf "Host: x" ++ [CR; LF] ++ lit "more")) p') /\
  (forall fuel, clear_header fuel 5 (client (lit "Host: x")) = OutOfFuel).
Proof.
  split.
  - pose proof (clear_header_outcome 5 (client (crlf "Host: x" ++ [CR; LF] ++ lit "more")) (all_here_demo _)) as H.
    cbv zeta in H.
    assert (E : skip_header (S (length (inp (kern (client (crlf "Host: x" ++ [CR; LF] ++ lit "more"))) 5))) 1023
      (inp (kern (client (crlf "Host: x" ++ [CR; LF] ++ lit "more"))) 5) = Some (lit "more")) by (vm_compute; reflexivity).
    rewrite E in H. apply H. vm_compute. lia.
  - pose proof (clear_header_outcome 5 (client (lit "Host: x")) (all_here_demo _)) as H. cbv zeta in H.
    assert (E : skip_header (S (length (inp (kern (client (lit "Host: x"))) 5))) 1023 (inp (kern (client (lit "Host: x"))) 5) = None)
      by (vm_compute; reflexivity).
    rewrite E in H. exact H.
Defined.




Definition no_file : list ascii := crlf "GET /b HTTP/1.1" ++ [CR; LF].
Lemma missing_file_unanswered_witness :
  exists p', accept_request 40 5 (client no_file) = Ret tt p' /\ left_at 5 [] (client no_file) p'.
Proof.
  apply (missing_file_unanswered 40 5 (client no_file) (read_line 1023 no_file).1 (after no_file) (lit "/b") []).
  - apply all_here_demo.
  - apply surjective_pairing.
  - replace (read_line 1023 no_file).1 with (lit "GET " ++ lit "/b" ++ SP :: (lit "HTTP/1.1" ++ [LF])) by (vm_compute; reflexivity).
    apply line_demo; [reflexivity | by apply (bool_decide_unpack (NUL ∉ lit "/b")) | done].
  - by apply (bool_decide_unpack ("?"%char ∉ lit "/b")).
  - vm_compute. lia.
  - vm_compute. reflexivity.
  - vm_compute. reflexivity.
Defined.

Definition long_url : list ascii := "/"%char :: replicate 1017 "a"%char.
Definition long_request : list ascii := lit "GET " ++ long_url ++ [LF].
Lemma long_url_overflows_witness : accept_request 40 5 (client long_request) = Undef.
Proof.
  apply (long_url_overflows 40 5 (client long_request) (read_line 1023 long_request).1 (after long_request) long_url).
  - apply all_here_demo.
  - apply surjective_pairing.
  - replace (read_line 1023 long_request).1 with (lit "GET " ++ long_url ++ [LF]) by (vm_compute; reflexivity).
    constructor; [exists [SP], LF, []; done | split; [reflexivity |]; split; [|vm_compute; lia] |].
    + by apply (bool_decide_unpack (NUL ∉ lit "GET")).
    + split; [by vm_compute |]. split; [|done]. by apply (bool_decide_unpack (NUL ∉ long_url)); vm_compute.
  - by apply (bool_decide_unpack ("?"%char ∉ long_url)); vm_compute.
  - vm_compute. lia.
Defined.

Definition delete_request : list ascii := crlf "DELETE /a.html HTTP/1.1" ++ [CR; LF].
Lemma refused_methods_witness :
  (rejected (lit "DELETE") = true <-> strcasecmp (lit "DELETE") (lit "GET") < 0) /\
  (strcasecmp (lit "DELETE") (lit "GET") < 0 ->
   exists p', accept_request 40 5 (client delete_request) = Ret tt p' /\ left_at 5 (after delete_request) (client delete_request) p').
Proof.
  apply (refused_methods 40 5 (client delete_request) (read_line 1023 delete_request).1 (after delete_request) (lit "DELETE") (lit "/a.html")).
  - apply all_here_demo.
  - apply surjective_pairing.
  - replace (read_line 1023 delete_request).1 with (lit "DELETE" ++ [SP] ++ lit "/a.html" ++ SP :: (lit "HTTP/1.1" ++ [LF]))
      by (vm_compute; reflexivity).
    constructor; [by exists [SP], SP, (lit "HTTP/1.1" ++ [LF]) | split; [reflexivity |]; split; [|vm_compute; lia] |].
    + by apply (bool_decide_unpack (NUL ∉ lit "DELETE")).
    + split; [reflexivity |]. split; [|done]. by apply (bool_decide_unpack (NUL ∉ lit "/a.html")).
Defined.

Lemma cgi_child_witness :
  exists p', run_cgi 6 7 8 9 (lit "htdocs/add.cgi") (lit "GET") (Some (lit "a=1")) web = Exit 0 p' /\
    environ p' = [lit "QUERY_STRING=a=1"; lit "REQUEST_METHOD=GET"] /\
    kern p' = plumbed 6 7 8 9 (kern web) /\ image p' = Some (lit "htdocs/add.cgi").
Proof.
  pose proof (cgi_child 6 7 8 9 (lit "htdocs/add.cgi") (lit "GET") (lit "a=1") web ltac:(vm_compute; lia)) as H. exact H.
Defined.

(** A program's output waiting at descriptor 8. *)
Definition cgi_parent : proc os := proc0 (os0 (fun fd => if fd =? 8 then lit "12 degrees" else []) [] []).
Lemma cgi_output_relayed_witness :
  exists p', serve_cgi 20 5 6 7 8 9 100 (lit "GET") 0 cgi_parent = Ret tt p' /\
    sent (kern p') 5 = sent (kern cgi_parent) 5 ++ lit "12 degrees" /\
    (forall fd, fd <> 5 -> sent (kern p') fd = sent (kern cgi_parent) fd).
Proof.
  change (lit "12 degrees") with (inp (kern cgi_parent) 8).
  apply (cgi_output_relayed 20 5 6 7 8 9 100 (lit "GET") 0 cgi_parent); try discriminate.
  - intros n k e k'. simpl. unfold d_get. destruct (next_chunk _ _) as [[|] ?]; by intros [= <- _].
  - reflexivity.
  - intros bs k. by eexists.
  - vm_compute. lia.
Defined.
