(* ===== verification/HttpdLoop.v ===== *)
(** The event loop of the web server: every connection that waits is accepted
    and registered once, every ready one is handed to the thread pool once. *)
From S2P Require Import Prelude ThreadPool ThreadPoolThm CStr Posix PosixDemo CommSocket CommSocketThm Httpd.
Local Open Scope Z_scope.

(** What accept, epoll_ctl and the others do to the connections that wait at a
    listening socket and to the interest list (the newest change first). *)
Class EpollLaws (K : Type) `{!Posix K} := {
  queue : K -> Z -> list Z;
  watched : K -> list (epoll_op * epoll_event);
  accept_io fd k r k' : sys_accept fd k = (r, k') -> watched k' = watched k /\
    match r with Ok (c, _) => queue k fd = c :: queue k' fd | Err _ => queue k' fd = queue k fd end;
  getfl_io fd k r k' : sys_getfl fd k = (r, k') -> watched k' = watched k /\ queue k' = queue k;
  setfl_io fd f k r k' : sys_setfl fd f k = (r, k') -> watched k' = watched k /\ queue k' = queue k;
  ctl_io ep op fd ev k r k' : sys_epoll_ctl ep op fd ev k = (r, k') -> queue k' = queue k /\
    watched k' = (match r with Ok _ => [(op, ev)] | Err _ => [] end) ++ watched k;
  close_queue fd k r k' : sys_close fd k = (r, k') -> watched k' = watched k /\ (forall fd', fd' <> fd -> queue k' fd' = queue k fd')
}.

Section Loop.
Context {K P : Type} `{!Posix K} `{!EpollLaws K} `{!TaskPool P}.
Implicit Types (s : server K P) (fd : Z) (ev : epoll_event).

(** accept fails only when nothing waits; epoll_ctl does not fail. *)
Definition accepting fd : Prop := forall k e k', sys_accept fd k = (Err e, k') -> queue k fd = [].
Definition registering epfd : Prop := forall op fd ev k e k', sys_epoll_ctl epfd op fd ev k <> (Err e, k').

(** How a new connection is registered: for input, at edges, once. *)
Definition registration fd : epoll_op * epoll_event :=
  (EPOLL_CTL_ADD, MkEvent (Z.lor EPOLLIN (Z.lor EPOLLET EPOLLONESHOT)) fd).

Lemma wp_on_process {A} (m : CM (proc K) A) s Q :
  wp m (process s) (fun a p => Q a (set_process p s)) -> wp (on_process m) s Q.
Proof. apply wp_zoom. Qed.

Lemma wp_activate fd (p : proc K) Q :
  (forall r p', watched (kern p') = watched (kern p) -> queue (kern p') = queue (kern p) -> Q r p') ->
  wp (activate_nonblock fd) p Q.
Proof.
  intros HQ. unfold activate_nonblock, call_int. apply wp_bind, wp_bind, wp_call.
  - intros f k H1. destruct (getfl_io _ _ _ _ H1) as (Hw & Hq). apply wp_ret.
    destruct (f =? -1); [apply wp_ret, HQ; done |].
    apply wp_bind, wp_call; intros x k' H2; destruct (setfl_io _ _ _ _ _ H2) as (Hw2 & Hq2); apply wp_ret, HQ; simpl in *; congruence.
  - intros e k H1. destruct (getfl_io _ _ _ _ H1) as (Hw & Hq). apply wp_ret, wp_ret, HQ; done.
Qed.

Lemma accept_all_spec fuel epfd listenfd s :
  accepting listenfd -> registering epfd -> (length (queue (kern (process s)) listenfd) < fuel)%nat ->
  wp (accept_all fuel epfd listenfd) s (fun _ s' =>
    queue (kern (process s')) listenfd = [] /\ tp s' = tp s /\
    watched (kern (process s')) = rev (map registration (queue (kern (process s)) listenfd)) ++ watched (kern (process s)) /\
    i32 (count s') = i32 (count s + Z.of_nat (length (queue (kern (process s)) listenfd)))).
Proof.
  intros Hacc Hreg. revert s. induction fuel as [|fuel IH]; intros s Hf; [lia |]. cbn [accept_all].
  apply wp_bind, wp_on_process, wp_call.
  - intros [c a] k Hc. destruct (accept_io _ _ _ _ Hc) as (Hw & Hq). apply wp_bind, wp_modify, wp_bind, wp_on_process, wp_activate.
    intros r p1 Hw1 Hq1. simpl in Hw1, Hq1. apply wp_bind, wp_on_process. unfold My_epoll_add, My_epoll_ctl. apply wp_bind, wp_call;
      [|by intros e k2 He; apply Hreg in He]. intros v k2 Hctl. destruct (ctl_io _ _ _ _ _ _ _ Hctl) as (Hq2 & Hw2).
    simpl in Hw2, Hq2. apply wp_ret. rewrite Hq in Hf |- *. simpl in Hf.
    eapply wp_mono; [apply IH; simpl; rewrite Hq2, Hq1; lia |]. intros u s' (H1 & H2 & H3 & H4). simpl in *.
    split; [done |]. split; [done |]. rewrite Hq2, Hq1 in *. split.
    + rewrite H3, Hw2, Hw1, Hw. simpl. by rewrite <- app_assoc.
    + rewrite H4, i32_add_l. f_equal. lia.
  - intros e k Hc. destruct (accept_io _ _ _ _ Hc) as (Hw & Hq). apply wp_ret. simpl. pose proof (Hacc _ _ _ Hc) as Hnil.
    rewrite Hq, Hnil. split; [done |]. split; [done |]. split; [done |]. f_equal. simpl. lia.
Qed.

(** When the listening socket is ready every connection that waits is
    accepted, and registered exactly once, for one event. *)
Theorem accept_all_registers fuel epfd listenfd s :
  accepting listenfd -> registering epfd -> (length (queue (kern (process s)) listenfd) < fuel)%nat ->
  exists s', accept_all fuel epfd listenfd s = Ret tt s' /\ queue (kern (process s')) listenfd = [] /\ tp s' = tp s /\
    watched (kern (process s')) = rev (map registration (queue (kern (process s)) listenfd)) ++ watched (kern (process s)).
Proof.
  intros Hacc Hreg Hf. assert (Hwp := accept_all_spec fuel epfd listenfd s Hacc Hreg Hf).
  apply wp_run in Hwp as ([] & s' & Hrun & H1 & H2 & H3 & _). by exists s'.
Qed.

(** The descriptors that a list of events asks requests for. *)
Definition wanted listenfd ev : bool := negb (listenfd =? ev_fd ev) && negb (broken (ev_events ev)).
Definition requests listenfd (evs : list epoll_event) : list Z := map ev_fd (List.filter (wanted listenfd) evs).

(** What the loop does to the pool: [tp_add] for each of them, in order. *)
Fixpoint add_all (fds : list Z) : CM P unit :=
  match fds with [] => ret tt | fd :: fds => tp_add fd ;;; add_all fds end.

Lemma handle_events_pool fuel epfd listenfd evs s p Q :
  accepting listenfd -> registering epfd -> (length (queue (kern (process s)) listenfd) < fuel)%nat -> tp s = Some p ->
  wp (add_all (requests listenfd evs)) p Q ->
  wp (handle_events fuel epfd listenfd evs) s (fun _ s' => exists p', tp s' = Some p' /\ Q tt p').
Proof.
  intros Hacc Hreg. revert s p. induction evs as [|ev evs IH]; intros s p Hf Hp Hq; cbn [handle_events].
  { apply wp_ret. by exists p. }
  apply wp_bind. unfold handle_event. cbv zeta. unfold requests in Hq. cbn [List.filter] in Hq. unfold wanted at 1 in Hq.
  destruct (listenfd =? ev_fd ev) eqn:El; cbn [negb andb] in Hq.
  { eapply wp_mono; [by apply accept_all_spec |]. intros u s' (H1 & H2 & _). eapply IH; [rewrite H1; simpl; lia | by rewrite H2 | done]. }
  destruct (broken (ev_events ev)); cbn [negb map] in Hq.
  - apply Z.eqb_neq in El.
    apply wp_bind, wp_on_process, wp_call; intros x k Hc; destruct (close_queue _ _ _ _ Hc) as (_ & Hqu); apply wp_ret;
      (eapply IH; [simpl; rewrite Hqu; done | done | done]).
  - cbn [add_all] in Hq. unfold wp in Hq. unfold bind at 1 in Hq. apply wp_bind. unfold wp at 1, on_pool. rewrite Hp.
    destruct (tp_add (ev_fd ev) p) as [r p'| | |] eqn:E; try done. apply wp_ret. eapply IH; [done | done | exact Hq].
Qed.
End Loop.

(** * With the thread pool of threadpool.c *)

(** [threadpool_add] between its lock and its unlock, for accept_request. *)
Abbreviation request_pool := (@threadpool_t unit Z).
#[export] Instance thread_pool_tasks : TaskPool request_pool := {
  tp_add fd :=
    v <- threadpool_add true tt fd ;;
    ret (match v with A_out err => err | A_leave r => r | A_signal => 0 end)
}.

Lemma add_all_spec (p : request_pool) ts fl fds :
  queue_ok p ts fl -> shutdown p = 0 ->
  wp (add_all fds) p (fun _ p' => exists ts', queue_ok p' (ts' ++ ts) fl /\
    map (payload p') ts' = rev (map (fun fd => Some (tt, fd)) fds) /\
    (forall t, t ∈ ts ++ fl -> payload p' t = payload p t)).
Proof.
  revert p ts. induction fds as [|fd fds IH]; intros p ts Hq Hsd; cbn [add_all].
  { apply wp_ret. by exists []. }
  apply wp_bind. simpl tp_add. apply wp_bind. eapply wp_mono; [by apply add_spec |].
  intros v p1 (-> & (_ & _ & Hs1 & _) & t & Hq1 & _ & Hpay & Hold). apply wp_ret.
  eapply wp_mono; [apply (IH p1 (t :: ts) Hq1); by rewrite Hs1 |]. intros u p2 (ts' & Hq2 & Hnew & Hkeep).
  exists (ts' ++ [t]). rewrite <- app_assoc. split; [exact Hq2 |]. split.
  - rewrite map_app, Hnew. simpl. f_equal. f_equal. rewrite Hkeep by set_solver. exact Hpay.
  - intros t' Ht'. rewrite Hkeep by set_solver. by apply Hold.
Qed.

Section Requests.
Context {K : Type} `{!Posix K} `{!EpollLaws K}.

(** One round of the event loop over the thread pool queues, for every ready
    descriptor that is not in error and is not the listening socket, exactly one
    task, and keeps every task that was there. *)
Theorem requests_queued fuel epfd listenfd evs (s : server K request_pool) (p : request_pool) ts fl :
  accepting listenfd -> registering epfd -> (length (queue (kern (process s)) listenfd) < fuel)%nat ->
  tp s = Some p -> queue_ok p ts fl -> shutdown p = 0 ->
  exists s' p' ts', handle_events fuel epfd listenfd evs s = Ret tt s' /\ tp s' = Some p' /\
    queue_ok p' (ts' ++ ts) fl /\
    map (payload p') ts' = rev (map (fun fd => Some (tt, fd)) (requests listenfd evs)) /\
    (forall t, t ∈ ts ++ fl -> payload p' t = payload p t).
Proof.
  intros Hacc Hreg Hf Hp Hq Hsd.
  assert (Hwp := handle_events_pool fuel epfd listenfd evs s p _ Hacc Hreg Hf Hp (add_all_spec p ts fl _ Hq Hsd)).
  apply wp_run in Hwp as ([] & s' & Hrun & p' & Hp' & ts' & H1 & H2 & H3). by exists s', p', ts'.
Qed.
End Requests.

(** * A run *)

#[export] Program Instance os_epoll : EpollLaws os := { queue k _ := d_conns k; watched := d_watched }.
Next Obligation. intros fd k r k'. simpl. destruct (d_conns k) eqn:E; intros [= <- <-]; by rewrite ?E. Qed.
Next Obligation. by intros fd k r k' [= <- <-]. Qed.
Next Obligation. by intros fd f k r k' [= <- <-]. Qed.
Next Obligation. by intros ep op fd ev k r k' [= <- <-]. Qed.
Next Obligation. by intros fd k r k' [= <- <-]. Qed.

Lemma accepting_os fd : accepting (K := os) fd.
Proof. intros k e k'. simpl. by destruct (d_conns k). Qed.
Lemma registering_os fd : registering (K := os) fd.
Proof. by intros op fd' ev k e k'. Qed.

(** Two connections wait at descriptor 3, and 7 and 8 have data; 9 is in error. *)
Definition loop_pool : request_pool := MkPool {[1%positive := MkTask None None None]} 1%positive 5 0 0 5 1.
Definition loop0 : server os request_pool :=
  MkServer (proc0 (OS (fun _ => []) (fun _ => []) [] [] (fun _ => []) 10 [20; 21] [] [] [])) (Some loop_pool) 0.
Definition loop_events : list epoll_event := [MkEvent 1 7; MkEvent 1 3; MkEvent 9 9; MkEvent 1 8].

Lemma loop_pool_ok : queue_ok loop_pool [] [].
Proof.
  constructor; simpl; try done.
  - by exists None.
  - apply NoDup_cons. split; [set_solver | constructor].
  - intros t. rewrite lookup_singleton_is_Some. set_solver.
  - set_solver.
  - intros t. rewrite lookup_singleton_is_Some. intros <-. lia.
Qed.

Lemma accept_all_registers_witness :
  exists s', accept_all 5 10 3 loop0 = Ret tt s' /\ queue (kern (process s')) 3 = [] /\ tp s' = tp loop0 /\
    watched (kern (process s')) = [registration 21; registration 20].
Proof.
  change [registration 21; registration 20] with
    (rev (map registration (queue (kern (process loop0)) 3)) ++ watched (kern (process loop0))).
  apply (accept_all_registers 5 10 3 loop0); [apply accepting_os | apply registering_os | vm_compute; lia].
Defined.

Lemma requests_queued_witness :
  exists s' p' ts', handle_events 5 10 3 loop_events loop0 = Ret tt s' /\ tp s' = Some p' /\
    queue_ok p' (ts' ++ []) [] /\ map (payload p') ts' = [Some (tt, 8); Some (tt, 7)] /\
    (forall t, t ∈ [] ++ [] -> payload p' t = payload loop_pool t).
Proof.
  apply (requests_queued 5 10 3 loop_events loop0 loop_pool [] []);
    [apply accepting_os | apply registering_os | vm_compute; lia | reflexivity | apply loop_pool_ok | reflexivity].
Defined.
