(* ===== verification/Weather.v ===== *)
(** The weather query itself (cgi_bin/find_cgi.cpp) over its cache
    (memcache/memcache.h) and its table (sql_connect/sql_connect.cpp). *)
From S2P Require Import Prelude CStr.
Local Open Scope Z_scope.

(** * The libraries *)

(** libmemcached: a get gives the value and its flags, or a code that is not
    [MEMCACHED_SUCCESS]; set and delete give a code. *)
Definition MEMCACHED_SUCCESS : Z := 0.
Class Libmemcached (C : Type) := {
  memcached_get : list ascii -> C -> (Z + list ascii * Z) * C;
  memcached_set : list ascii -> list ascii -> Z -> Z -> C -> Z * C;
  memcached_delete : list ascii -> Z -> C -> Z * C
}.

(** The MySQL client: a connection attempt, a query, and the result set of the
    last query (its columns and rows, a value of a row may be NULL). *)
Record mysql_res := MkRes { fields : list (list ascii); rows : list (list (option (list ascii))) }.
Class Mysql (D : Type) := {
  mysql_real_connect : list ascii -> list ascii -> list ascii -> list ascii -> Z -> D -> bool * D;
  mysql_query : list ascii -> D -> Z * D;
  mysql_store_result : D -> option mysql_res * D
}.

(** The world of one run: the cache server, the database, standard input, the
    environment, and what was written to cout. *)
Record world (C D : Type) := MkWorld {
  cache : C;
  database : D;
  stdin : list ascii;
  env : list (list ascii);
  cout : list ascii
}.
Arguments MkWorld {C D} cache database stdin env cout.
Arguments cache {C D} w.
Arguments database {C D} w.
Arguments stdin {C D} w.
Arguments env {C D} w.
Arguments cout {C D} w.

Section Weather.
Context {C D : Type} `{!Libmemcached C} `{!Mysql D}.
Abbreviation W := (CM (world C D)).
Implicit Type w : world C D.

Definition set_cache v w : world C D := MkWorld v (database w) (stdin w) (env w) (cout w).
Definition set_database v w : world C D := MkWorld (cache w) v (stdin w) (env w) (cout w).
Definition set_stdin v w : world C D := MkWorld (cache w) (database w) v (env w) (cout w).
Definition print (s : list ascii) : W unit := modify (fun w => MkWorld (cache w) (database w) (stdin w) (env w) (cout w ++ s)).
Definition endl : list ascii := [LF].
Definition on_cache {A} (f : C -> A * C) : W A := fun w => let (a, c) := f (cache w) in Ret a (set_cache c w).
Definition on_database {A} (f : D -> A * D) : W A := fun w => let (a, d) := f (database w) in Ret a (set_database d w).

(** getenv over strings NAME=value. *)
Fixpoint strip (name s : list ascii) : option (list ascii) :=
  match name, s with
  | [], c :: s => if c =c "="%char then Some s else None
  | x :: name, c :: s => if x =c c then strip name s else None
  | _, [] => None
  end.
Definition getenv (name : list ascii) : W (option (list ascii)) := gets (fun w => list_find (fun s => is_Some (strip name s)) (env w) ≫= fun s => strip name s.2).

(** A C string copied into an array of [n] characters; a null pointer is no string. *)
Definition strcpy (n : nat) (s : option (list ascii)) : W (list ascii) :=
  match s with
  | Some s => if (length s <? n)%nat then ret s else undef
  | None => undef
  end.

(** ** find_cgi.cpp *)

(** What follows the first equals sign; null when there is none. *)
Fixpoint after_equals (data_string : list ascii) : option (list ascii) :=
  match data_string with
  | [] => None
  | c :: s => if c =c "="%char then Some s else after_equals s
  end.
(** [find] with the array [str] of 33 characters. *)
Definition STR_SIZE : nat := 33.
Definition find (data_string : list ascii) : W (list ascii) := strcpy STR_SIZE (after_equals data_string).

Definition show (sql_data : list ascii) : W unit :=
  print (flat_map (fun c => if c =c "#"%char then lit "</br>" ++ endl else [c]) sql_data).

(** On the array itself. *)
Definition ParseStr (str : list ascii) : W (list ascii) := compact (fun c => c =c "%"%char) (length str) str 0 0.

(** ** memcache.h *)

(** The fields of [memcache] that the operations use. *)
Record memcache := MkMemcache { value_length : Z; key_length : Z; time : Z; flags : Z }.
(** After the constructor; [junk] are the fields it leaves alone. *)
Definition memcache_new (junk : memcache) : memcache :=
  MkMemcache (value_length junk) (key_length junk) (3600 * 24) (flags junk).

Definition MemcacheSet (m : memcache) (key value : list ascii) : W (bool * memcache) :=
  let m := MkMemcache (Z.of_nat (length value)) (Z.of_nat (length key)) (time m) (flags m) in
  rc <- on_cache (memcached_set key value (time m) (flags m)) ;;
  ret (rc =? MEMCACHED_SUCCESS, m).
(** The value as a C string, in [result]. *)
Definition MemcacheGet (m : memcache) (key : list ascii) : W (option (list ascii) * memcache) :=
  r <- on_cache (memcached_get key) ;;
  match r with
  | inr (value, fl) => ret (Some (cstr value), MkMemcache (Z.of_nat (length value)) (key_length m) (time m) fl)
  | inl rc => ret (None, m)
  end.
Definition MemcacheDel (m : memcache) (key : list ascii) : W bool :=
  rc <- on_cache (memcached_delete key (time m)) ;;
  ret (rc =? MEMCACHED_SUCCESS).

(** ** sql_connect.cpp *)

Definition begin_connect (host user passwd db : list ascii) : W bool :=
  on_database (mysql_real_connect host user passwd db 3306).

Definition select_text (cityname : list ascii) : list ascii :=
  lit "SELECT info from tianqi where cityname='" ++ cityname ++ lit "'".
(** The name of the first field and, when there is a row, its first value. *)
Definition select_sql (cityname : list ascii) : W (list ascii * option (list ascii)) :=
  on_database (mysql_query (cstr (select_text cityname))) ;;;
  res <- on_database mysql_store_result ;;
  match res with
  | None => undef
  | Some res =>
      match fields res with
      | [] => undef
      | field_name :: _ =>
          match rows res with
          | [] => ret (field_name, None)
          | (Some data :: _) :: _ => ret (field_name, Some (cstr data))
          | _ => undef
          end
      end
  end.

Definition run_sql (sql : list ascii) : W bool :=
  r <- on_database (mysql_query sql) ;;
  ret (r =? 0).
Definition insert_sql (data : list ascii) : W bool :=
  run_sql (cstr (lit "insert tianqi (cityname,info) values " ++ lit "(" ++ data ++ lit ");")).
Definition creat_table : W bool :=
  run_sql (lit "create table tianqi (id int primary key auto_increment,cityname varchar(30) NOT NULL,info varchar(2000) NOT NULL)charset utf8").
Definition delete_table : W bool := run_sql (lit "drop table tianqi").

(** ** main *)

Definition quote : ascii := "034"%char.
(** "未来两周天气" in UTF-8, the title's text. *)
Definition title : list ascii := map (fun n => ascii_of_N n)
  [230; 156; 170; 230; 157; 165; 228; 184; 164; 229; 145; 168; 229; 164; 169; 230; 176; 148]%N.
Definition page_head : list ascii :=
  lit "<html>" ++ endl ++
  lit "<meta http-equiv=" ++ [quote] ++ lit "Content-Type" ++ [quote] ++ lit " content=" ++ [quote] ++
    lit "text/html;charset=utf-8" ++ [quote] ++ lit "/>" ++ endl ++
  lit "<head> City_Weather </head>" ++ endl ++
  lit "<title> " ++ title ++ lit "</title> " ++ endl ++
  lit "</br>" ++ endl ++ lit "<body>" ++ endl.
Definition page_foot : list ascii := lit "</body>" ++ [LF] ++ endl ++ lit "</html>" ++ [LF] ++ endl.

(** [read(0, &post_data[i], 1)] for [n] times; at the end of the input the
    zeros that were there stay. *)
Fixpoint read_post (n : nat) : W (list ascii) :=
  match n with
  | O => ret []
  | S n =>
      s <- gets stdin ;;
      modify (set_stdin (tail s)) ;;;
      l <- read_post n ;;
      ret (match s with c :: _ => c | [] => NUL end :: l)
  end.

(** The city of the request, as it stands in [str]; nothing for another method. *)
Definition read_city : W (option (list ascii)) :=
  m <- getenv (lit "REQUEST_METHOD") ;;
  method <- strcpy 1024 m ;;
  if strcasecmp (lit "GET") method =? 0 then
    q <- getenv (lit "QUERY_STRING") ;;
    query_string <- strcpy 1024 q ;;
    str <- find query_string ;;
    ret (Some str)
  else if strcasecmp (lit "POST") method =? 0 then
    l <- getenv (lit "CONTENT_LENGTH") ;;
    match l with
    | None => undef
    | Some l =>
        let content_length := Z.to_nat (atoi l) in
        if (content_length <? 4096)%nat then
          post_data <- read_post content_length ;;
          str <- find (cstr post_data) ;;
          ret (Some str)
        else undef
    end
  else ret None.

(** The answer: from the cache for the city or the city with a plus, else from
    the table, and then into the cache. *)
Definition query (m : memcache) (city_name : list ascii) : W unit :=
  let tmp := city_name ++ lit "+" in
  g <- MemcacheGet m city_name ;;
  match g with
  | (Some sql_data, _) => show sql_data
  | (None, m) =>
      g <- MemcacheGet m tmp ;;
      match g with
      | (Some sql_data, _) => show sql_data
      | (None, m) =>
          r <- select_sql city_name ;;
          match r.2 with
          | Some sql_data => show sql_data ;;; MemcacheSet m city_name sql_data ;;; ret tt
          | None =>
              r <- select_sql tmp ;;
              match r.2 with
              | Some sql_data => show sql_data ;;; MemcacheSet m tmp sql_data ;;; ret tt
              | None => print (lit "<p>not find</p>")
              end
          end
      end
  end.

Definition main (junk : memcache) : W Z :=
  print page_head ;;;
  c <- read_city ;;
  match c with
  | None => ret 1
  | Some str =>
      begin_connect (lit "127.0.0.1") (lit "root") (lit "WKyun123456") (lit "test") ;;;
      str <- ParseStr (str ++ replicate (STR_SIZE - length str) NUL) ;;
      query (memcache_new junk) (cstr str) ;;;
      print page_foot ;;;
      ret 0
  end.
End Weather.
