(* ===== verification/WeatherThm.v ===== *)
(** The weather query is correct over any cache and table that keep their laws:
    what it answers, what it leaves in the cache, and which requests it cannot take. *)
From S2P Require Import Prelude CStr Weather.
Local Open Scope Z_scope.

(** [store c] is what a get finds. A set that succeeds leaves its value there
    and may push out other entries; one that fails adds nothing. *)
Class CacheLaws (C : Type) `{!Libmemcached C} := {
  store : C -> gmap (list ascii) (list ascii);
  get_law key c r c' : memcached_get key c = (r, c') -> store c' = store c /\
    store c !! key = match r with inr (v, _) => Some v | inl _ => None end;
  set_law key value time flags c rc c' : memcached_set key value time flags c = (rc, c') ->
    if rc =? MEMCACHED_SUCCESS then store c' !! key = Some value /\ store c' ⊆ <[key := value]> (store c) else store c' ⊆ store c
}.

(** A name that stands for itself between quotes. *)
Definition clean (city : list ascii) : Prop := "'"%char ∉ city /\ "\"%char ∉ city /\ NUL ∉ city.

(** [table d] is the first info of each city; the query finds it. *)
Class TableLaws (D : Type) `{!Mysql D} := {
  table : D -> gmap (list ascii) (list ascii);
  connect_law host user passwd db port d b d' : mysql_real_connect host user passwd db port d = (b, d') -> table d' = table d;
  select_law city d : clean city -> exists d1 d2 f fs, mysql_query (select_text city) d = (0, d1) /\ table d2 = table d /\
    exists rs, mysql_store_result d1 = (Some (MkRes (f :: fs) rs), d2) /\
    match table d !! city with
    | Some info => exists more rs', rs = (Some info :: more) :: rs'
    | None => rs = []
    end
}.

(** * The city *)

(** What is left of a name without its percent signs. *)
Definition no_percent (s : list ascii) : list ascii := kept (fun c => c =c "%"%char) s.

Section ParseStr.
Context {C D : Type}.
Implicit Type w : world C D.

Lemma ParseStr_spec s rest w :
  NUL ∉ s -> wp (ParseStr (s ++ NUL :: rest)) w (fun b w' => w' = w /\ cstr b = no_percent s /\ length b = length (s ++ NUL :: rest)).
Proof. intros Hs. apply compact_spec; [done | done |]. rewrite length_app. simpl. lia. Qed.

(** ParseStr, which copies the string over itself while it measures it again
    in each round, ends, stays in the array, and leaves the name without its
    percent signs. *)
Theorem ParseStr_filters s rest w :
  NUL ∉ s -> exists b, ParseStr (s ++ NUL :: rest) w = Ret b w /\ cstr b = no_percent s /\ length b = length (s ++ NUL :: rest).
Proof.
  intros Hs. pose proof (ParseStr_spec s rest w Hs) as Hwp. apply wp_run in Hwp as (b & w' & Hrun & -> & H1 & H2). by exists b.
Qed.
End ParseStr.

(** * The request *)

Section Query.
Context {C D : Type} `{!Libmemcached C} `{!Mysql D} `{!CacheLaws C} `{!TableLaws D}.
Implicit Types (w : world C D) (city q : list ascii) (m : memcache).

(** The environment that the web server gives a program for a GET. *)
Definition get_env q (others : list (list ascii)) : list (list ascii) :=
  (lit "QUERY_STRING=" ++ q) :: (lit "REQUEST_METHOD=" ++ lit "GET") :: others.

Lemma getenv_method q others w : env w = get_env q others -> getenv (lit "REQUEST_METHOD") w = Ret (Some (lit "GET")) w.
Proof. intros E. unfold getenv, gets. rewrite E. done. Qed.
Lemma strip_app name s : strip name (name ++ "="%char :: s) = Some s.
Proof. induction name as [|x name IH]; simpl; [done |]. by rewrite Ascii.eqb_refl. Qed.
Lemma getenv_query q others w : env w = get_env q others -> getenv (lit "QUERY_STRING") w = Ret (Some q) w.
Proof.
  intros E. unfold getenv, gets. rewrite E. unfold get_env.
  change (lit "QUERY_STRING=" ++ q) with (lit "QUERY_STRING" ++ "="%char :: q). cbn [list_find].
  rewrite decide_True by (rewrite strip_app; by eexists). simpl. reflexivity.
Qed.

Lemma strcpy_ok n s w : (length s < n)%nat -> strcpy n (Some s) w = Ret s w.
Proof. intros H. unfold strcpy. by rewrite (proj2 (Nat.ltb_lt _ _) H). Qed.
Lemma strcpy_over n s w : (n <= length s)%nat -> strcpy n (Some s) w = Undef.
Proof. intros H. unfold strcpy. by rewrite (proj2 (Nat.ltb_ge _ _) H). Qed.

Lemma read_city_get q others w :
  env w = get_env q others -> (length q < 1024)%nat ->
  read_city w = (str <- find q ;; ret (Some str)) w.
Proof.
  intros E Hq. unfold read_city. rewrite (bind_eq _ _ _ _ _ (getenv_method q others w E)).
  rewrite (bind_eq _ _ _ _ _ (strcpy_ok 1024 (lit "GET") w ltac:(vm_compute; lia))).
  change (strcasecmp (lit "GET") (lit "GET") =? 0) with true. cbv iota.
  by rewrite (bind_eq _ _ _ _ _ (getenv_query q others w E)), (bind_eq _ _ _ _ _ (strcpy_ok 1024 q w Hq)).
Qed.
Lemma find_ok q city w : after_equals q = Some city -> (length city <= 32)%nat -> find q w = Ret city w.
Proof. intros Hc Hl. unfold find. rewrite Hc. apply strcpy_ok. unfold STR_SIZE. lia. Qed.

(** For a GET the city is what follows the first equals sign of the query;
    a query without one is read through a null pointer, and a city of 33 or
    more characters, such as four Chinese ones percent-encoded, overflows. *)
Theorem city_of_get q others w :
  env w = get_env q others -> (length q < 1024)%nat ->
  read_city w =
    match after_equals q with
    | Some city => if (length city <=? 32)%nat then Ret (Some city) w else Undef
    | None => Undef
    end.
Proof.
  intros E Hq. rewrite (read_city_get q others w E Hq). destruct (after_equals q) as [city|] eqn:Ec.
  - destruct (Nat.leb_spec (length city) 32) as [Hl|Hl]; [by rewrite (bind_eq _ _ _ _ _ (find_ok q city w Ec Hl)) |].
    unfold bind, find. by rewrite Ec, strcpy_over by (unfold STR_SIZE; lia).
  - unfold bind, find. by rewrite Ec.
Qed.

(** * The answer *)

(** What [show] prints. *)
Definition shown (s : list ascii) : list ascii := flat_map (fun c => if c =c "#"%char then lit "</br>" ++ endl else [c]) s.

(** The cache holds nothing but what the table says. *)
Definition agrees w : Prop := forall k v, store (cache w) !! k = Some v -> exists info, table (database w) !! k = Some info /\ v = cstr info.

(** Where the answer is looked for, in order. *)
Definition plus city : list ascii := city ++ lit "+".
Definition answer w city : option (list ascii) :=
  match store (cache w) !! city, store (cache w) !! plus city with
  | Some v, _ | None, Some v => Some (cstr v)
  | None, None =>
      match table (database w) !! city, table (database w) !! plus city with
      | Some v, _ | None, Some v => Some (cstr v)
      | None, None => None
      end
  end.

Lemma wp_get m city w Q :
  (forall v m' c', store (cache w) !! city = Some v -> store c' = store (cache w) -> time m' = time m -> Q (Some (cstr v), m') (set_cache c' w)) ->
  (forall m' c', store (cache w) !! city = None -> store c' = store (cache w) -> time m' = time m -> Q (None, m') (set_cache c' w)) ->
  wp (MemcacheGet m city) w Q.
Proof.
  intros Hhit Hmiss. unfold MemcacheGet, on_cache, bind. unfold wp.
  destruct (memcached_get city (cache w)) as [r c'] eqn:Hg. destruct (get_law _ _ _ _ Hg) as [Hs Hv].
  destruct r as [rc|[v fl]]; simpl; [by apply Hmiss | by apply Hhit].
Qed.

Lemma select_text_plain city : clean city -> cstr (select_text city) = select_text city.
Proof.
  intros (_ & _ & Hn). apply cstr_id. unfold select_text. rewrite !not_elem_of_app. split.
  - by apply (bool_decide_unpack (NUL ∉ lit "SELECT info from tianqi where cityname='")).
  - split; [done | by apply (bool_decide_unpack (NUL ∉ lit "'"))].
Qed.

Lemma wp_select city w Q :
  clean city ->
  (forall f d', table d' = table (database w) -> Q (f, cstr <$> table (database w) !! city) (set_database d' w)) ->
  wp (select_sql city) w Q.
Proof.
  intros Hc HQ. destruct (select_law city (database w) Hc) as (d1 & d2 & f & fs & Hq & Ht & rs & Hr & Hrows).
  unfold select_sql, on_database, bind. unfold wp. rewrite select_text_plain by done. rewrite Hq. simpl. rewrite Hr. simpl.
  specialize (HQ f d2 Ht). destruct (table (database w) !! city) as [info|]; [|by subst rs]. destruct Hrows as (more & rs' & ->). done.
Qed.

Lemma wp_show s w Q : Q tt (MkWorld (cache w) (database w) (stdin w) (env w) (cout w ++ shown s)) -> wp (show s) w Q.
Proof. done. Qed.

(** After a set, the cache has the value, or has not grown. *)
Definition after_set w key value w' : Prop :=
  forall k v, store (cache w') !! k = Some v -> store (cache w) !! k = Some v \/ (k = key /\ v = value).
Lemma wp_set m key value w Q :
  (forall b c', after_set w key value (set_cache c' w) -> Q b (set_cache c' w)) -> wp (MemcacheSet m key value) w Q.
Proof.
  intros HQ. unfold MemcacheSet, on_cache, bind. unfold wp.
  destruct (memcached_set key value (time m) (flags m) (cache w)) as [rc c'] eqn:Hs. pose proof (set_law _ _ _ _ _ _ _ Hs) as Hl.
  simpl. rewrite Hs. apply HQ. intros k v Hk. simpl in Hk. destruct (rc =? MEMCACHED_SUCCESS).
  - destruct Hl as [_ Hsub]. apply (lookup_weaken _ _ _ _ Hk) in Hsub. rewrite lookup_insert_Some in Hsub. naive_solver.
  - left. by eapply lookup_weaken.
Qed.

Lemma clean_plus city : clean city -> clean (plus city).
Proof.
  unfold clean, plus. rewrite !not_elem_of_app. intros (? & ? & ?).
  split; [split; [done | by apply (bool_decide_unpack ("'"%char ∉ lit "+"))] |].
  split; [split; [done | by apply (bool_decide_unpack ("\"%char ∉ lit "+"))] |].
  split; [done | by apply (bool_decide_unpack (NUL ∉ lit "+"))].
Qed.

(** The effect of one query, without assumptions on the cache's contents. *)
Lemma query_spec m city w :
  clean city ->
  wp (query m city) w (fun _ w' =>
    cout w' = cout w ++ (match answer w city with Some s => shown s | None => lit "<p>not find</p>" end) /\
    table (database w') = table (database w) /\ env w' = env w /\ stdin w' = stdin w /\
    forall k v, store (cache w') !! k = Some v ->
      store (cache w) !! k = Some v \/ ((k = city \/ k = plus city) /\ exists info, table (database w) !! k = Some info /\ v = cstr info)).
Proof.
  intros Hc. unfold query, answer. cbv zeta. fold (plus city).
  apply wp_bind, wp_get.
  { intros v m' c' -> Hs _. apply wp_show. simpl. rewrite Hs. auto 10. }
  intros m1 c1 -> Hs1 _. apply wp_bind, wp_get; simpl.
  { intros v m' c' Hv Hs _. rewrite Hs1 in Hv. rewrite Hv. apply wp_show. simpl. rewrite Hs, Hs1. auto 10. }
  intros m2 c2 Hmiss Hs2 _. rewrite Hs1 in Hmiss, Hs2. rewrite Hmiss. apply wp_bind, wp_select; [done |]. cbn [database set_cache]. intros f1 d1 Ht1.
  destruct (table (database w) !! city) as [info|] eqn:Hcity; cbn [fst snd fmap option_fmap option_map].
  { apply wp_bind, wp_show, wp_bind, wp_set. intros b c' Hk. apply wp_ret. simpl. split; [done |]. split; [done |]. split; [done |].
    split; [done |]. intros k v Hv. destruct (Hk k v Hv) as [Hold|[-> ->]].
    - left. simpl in Hold. by rewrite Hs2 in Hold.
    - right. split; [by left |]. by exists info. }
  apply wp_bind, wp_select; [by apply clean_plus |]. cbn [database set_cache set_database]. rewrite Ht1. intros f2 d2 Ht2.
  destruct (table (database w) !! plus city) as [info|] eqn:Hplus; cbn [fst snd fmap option_fmap option_map].
  { apply wp_bind, wp_show, wp_bind, wp_set. intros b c' Hk. apply wp_ret. simpl. split; [done |]. split; [done |]. split; [done |].
    split; [done |]. intros k v Hv. destruct (Hk k v Hv) as [Hold|[-> ->]].
    - left. simpl in Hold. by rewrite Hs2 in Hold.
    - right. split; [by right |]. by exists info. }
  apply wp_modify. simpl. split; [done |]. split; [done |]. split; [done |]. split; [done |]. intros k v Hv. left. by rewrite Hs2 in Hv.
Qed.

(** C2: as long as the cache holds nothing but what the table says, a query
    answers what the table says (for the name, or for the name with a plus when
    the table has only one of them), and leaves the cache so. *)
Theorem query_answers_table m city w :
  clean city -> agrees w -> table (database w) !! city = None \/ table (database w) !! plus city = None ->
  exists w', query m city w = Ret tt w' /\ agrees w' /\ table (database w') = table (database w) /\
    cout w' = cout w ++
      (match table (database w) !! city, table (database w) !! plus city with
       | Some info, _ | None, Some info => shown (cstr info)
       | None, None => lit "<p>not find</p>"
       end).
Proof.
  intros Hc Ha Hone. pose proof (query_spec m city w Hc) as Hwp.
  apply wp_run in Hwp as ([] & w' & Hrun & Hout & Ht & _ & _ & Hstore). exists w'. split; [done |]. split; [|split; [done |]].
  - intros k v Hk. rewrite Ht. destruct (Hstore k v Hk) as [Hold|(_ & Hnew)]; [by apply Ha | done].
  - rewrite Hout. f_equal. unfold answer.
    assert (Hcc : forall s, cstr (cstr s) = cstr s) by (intros s; apply cstr_id, cstr_no_nul).
    destruct (store (cache w) !! city) as [v|] eqn:E1.
    { destruct (Ha _ _ E1) as (info & Hi & ->). by rewrite Hi, Hcc. }
    destruct (store (cache w) !! plus city) as [v|] eqn:E2.
    { destruct (Ha _ _ E2) as (info & Hi & ->). destruct Hone as [Hn|Hn]; [|congruence]. by rewrite Hn, Hi, Hcc. }
    by destruct (table (database w) !! city), (table (database w) !! plus city).
Qed.


End Query.
