(* ===== verification/WeatherDemo.v ===== *)
(** A cache and a table that keep the laws, and runs of the weather query. *)
From S2P Require Import Prelude CStr Weather WeatherThm.
Local Open Scope Z_scope.

Abbreviation demo_cache := (gmap (list ascii) (list ascii)).
#[export] Instance demo_memcached : Libmemcached demo_cache := {
  memcached_get key c := (match c !! key with Some v => inr (v, 0) | None => inl 16 end, c);
  memcached_set key value time flags c := (MEMCACHED_SUCCESS, <[key := value]> c);
  memcached_delete key time c := (MEMCACHED_SUCCESS, delete key c)
}.
#[export] Program Instance demo_cache_laws : CacheLaws demo_cache := { store c := c }.
Next Obligation. intros key c r c' [= <- <-]. by destruct (c !! key). Qed.
Next Obligation. intros key value time flags c rc c' [= <- <-]. simpl. by rewrite lookup_insert_eq. Qed.

(** A server that knows one form of query, and how to drop the table. *)
Record demo_db := DemoDb { d_table : gmap (list ascii) (list ascii); d_result : option mysql_res; d_log : list (list ascii) }.
Fixpoint strip_prefix (p s : list ascii) : option (list ascii) :=
  match p, s with
  | [], _ => Some s
  | x :: p, c :: s => if x =c c then strip_prefix p s else None
  | _ :: _, [] => None
  end.
Fixpoint quoted (s : list ascii) : option (list ascii) :=
  match s with
  | [] => None
  | c :: s => if c =c "'"%char then match s with [] => Some [] | _ => None end else cons c <$> quoted s
  end.
Definition city_in (sql : list ascii) : option (list ascii) :=
  strip_prefix (lit "SELECT info from tianqi where cityname='") sql ≫= quoted.
#[export] Instance demo_mysql : Mysql demo_db := {
  mysql_real_connect h u p b n d := (true, d);
  mysql_query sql d :=
    match city_in sql with
    | Some city =>
        (0, DemoDb (d_table d)
          (Some (MkRes [lit "info"] (match d_table d !! city with Some v => [[Some v]] | None => [] end))) (sql :: d_log d))
    | None =>
        if bool_decide (sql = lit "drop table tianqi") then (0, DemoDb ∅ None (sql :: d_log d))
        else (1, DemoDb (d_table d) None (sql :: d_log d))
    end;
  mysql_store_result d := (d_result d, DemoDb (d_table d) None (d_log d))
}.

Lemma city_in_select city : "'"%char ∉ city -> city_in (select_text city) = Some city.
Proof.
  intros Hc. unfold city_in, select_text.
  assert (Hp : forall p s, strip_prefix p (p ++ s) = Some s) by (induction p as [|x p IH]; intros s; simpl; [done | by rewrite Ascii.eqb_refl]).
  rewrite Hp. simpl. induction city as [|c city IH]; [done |]. rewrite not_elem_of_cons in Hc. simpl.
  destruct (Ascii.eqb_spec c "'") as [->|]; [tauto |]. rewrite IH by tauto. done.
Qed.
#[export] Program Instance demo_table_laws : TableLaws demo_db := { table := d_table }.
Next Obligation. by intros h u p b n d r d' [= <- <-]. Qed.
Next Obligation.
  intros city d (Hc & _).
  set (rs := match d_table d !! city with Some v => [[Some v]] | None => [] end).
  exists (DemoDb (d_table d) (Some (MkRes [lit "info"] rs)) (select_text city :: d_log d)),
    (DemoDb (d_table d) None (select_text city :: d_log d)), (lit "info"), [].
  split; [cbn [mysql_query demo_mysql]; by rewrite city_in_select |]. split; [done |]. exists rs. split; [done |].
  unfold rs. destruct (d_table d !! city); [by eexists _, _ | done].
Qed.

Definition demo_world : world demo_cache demo_db :=
  MkWorld ∅ (DemoDb {[lit "E8A5BF" := lit "sunny#cold"]} None []) [] (get_env (lit "city=%E8%A5%BF") []) [].
Definition junk0 : memcache := MkMemcache 0 0 0 0.

(** The whole program on it. *)
Example demo_page : match main junk0 demo_world with
  | Ret r w => r = 0 /\ cout w = page_head ++ lit "sunny</br>" ++ [LF] ++ lit "cold" ++ page_foot /\
      store (cache w) !! lit "E8A5BF" = Some (lit "sunny#cold")
  | _ => False
  end.
Proof. vm_compute. done. Qed.

Lemma clean_dec s : bool_decide ("'"%char ∉ s /\ "\"%char ∉ s /\ NUL ∉ s) = true -> clean s.
Proof. by rewrite bool_decide_eq_true. Qed.

Lemma ParseStr_filters_witness :
  exists b, ParseStr (lit "%E8%A5" ++ NUL :: [NUL]) demo_world = Ret b demo_world /\ cstr b = no_percent (lit "%E8%A5") /\
    length b = 8%nat.
Proof. apply (ParseStr_filters (lit "%E8%A5") [NUL] demo_world). by apply (bool_decide_unpack (NUL ∉ lit "%E8%A5")). Defined.

(** Four characters of three bytes each. *)
Definition hohhot : list ascii := lit "city=%E5%91%BC%E5%92%8C%E6%B5%A9%E7%89%B9".
Definition hohhot_world : world demo_cache demo_db :=
  MkWorld ∅ (database demo_world) [] (get_env hohhot []) [].
Lemma city_of_get_witness :
  read_city demo_world = Ret (Some (lit "%E8%A5%BF")) demo_world /\ read_city hohhot_world = Undef.
Proof.
  split.
  - pose proof (city_of_get (lit "city=%E8%A5%BF") [] demo_world eq_refl ltac:(vm_compute; lia)) as H. exact H.
  - pose proof (city_of_get hohhot [] hohhot_world eq_refl ltac:(vm_compute; lia)) as H. exact H.
Defined.

Lemma query_answers_table_witness :
  exists w', query junk0 (lit "E8A5BF") demo_world = Ret tt w' /\ agrees w' /\
    table (database w') = table (database demo_world) /\ cout w' = [] ++ shown (cstr (lit "sunny#cold")).
Proof.
  destruct (query_answers_table junk0 (lit "E8A5BF") demo_world) as (w' & Hrun & Ha & Ht & Hout).
  - by apply clean_dec.
  - intros k v. simpl. by rewrite lookup_empty.
  - right. reflexivity.
  - exists w'. split; [exact Hrun |]. split; [exact Ha |]. split; [exact Ht |]. rewrite Hout. reflexivity.
Defined.


(** A quote in the name ends the quoted text: the text after it is a condition
    of its own. *)
Definition injection_world : world demo_cache demo_db :=
  MkWorld ∅ (database demo_world) [] (get_env (lit "city='or'1'='1") []) [].
Example injection_reaches_database :
  exists city, read_city injection_world = Ret (Some city) injection_world /\
    select_text (no_percent city) = lit "SELECT info from tianqi where cityname=''or'1'='1'".
Proof. eexists. split; vm_compute; reflexivity. Qed.
