(* ===== verification/Crawler.v ===== *)
(** The crawler (htdocs/weather.cpp): it reads the list of cities and the page
    of each from the weather site, and refills the table of the weather query. *)
From S2P Require Import Prelude CStr Posix CommSocket Weather.
Local Open Scope Z_scope.

(** Name lookup, giving the first address, and connect. *)
Class Internet (K : Type) := {
  sys_gethostbyname : list ascii -> K -> option Z * K;
  sys_connect : Z -> sockaddr_in -> K -> sysres Z * K
}.

(** The world of a run: the process for the network, and the database and
    standard output as the weather query has them. *)
Record crawl_world (K D : Type) := MkCrawl { os : proc K; prog : world unit D }.
Arguments MkCrawl {K D} os prog.
Arguments os {K D} c.
Arguments prog {K D} c.

(** The weather of a city: lists of one entry per day. *)
Record data := MkData {
  date : list (list ascii);
  name : list ascii;
  weather : list (list ascii);
  low_degree : list (list ascii);
  high_degree : list (list ascii)
}.

Section Crawler.
Context {K D : Type} `{!Posix K} `{!Internet K} `{!Mysql D}.
Abbreviation W := (CM (crawl_world K D)).

Definition set_os v (c : crawl_world K D) : crawl_world K D := MkCrawl v (prog c).
Definition set_prog v (c : crawl_world K D) : crawl_world K D := MkCrawl (os c) v.
Definition sys {A} (m : CM (proc K) A) : W A := zoom os set_os m.
Definition on_prog {A} (m : CM (world unit D) A) : W A := zoom prog set_prog m.
Definition say (s : list ascii) : W unit := on_prog (print s).

(** A dereference of a null pointer: [main] has [handle] called for SIGSEGV. *)
Definition segv {A} : W A := exit 0.

(** ** GetHttpResponse *)

(** The page: the bytes read so far, and the size [SZ] of its block. *)
Definition page : Type := list ascii * Z.

(** [if (SZ - bytesread < 100)]: twice the size; a null pointer from realloc is
    written to later. *)
Definition grow_page (bytesread SZ : Z) : CM (proc K) Z :=
  if SZ - bytesread <? 100 then
    if 2 ^ 31 <=? SZ * 2 then undef
    else b <- malloc (SZ * 2) ;; free SZ ;;; if b : bool then ret (SZ * 2) else undef
  else ret SZ.
Fixpoint recv_loop (fuel : nat) (sock : Z) (pageBuf : list ascii) (SZ : Z) : CM (proc K) page :=
  match fuel with
  | O => nofuel
  | S fuel =>
      r <- call (sys_recv sock (SZ - Z.of_nat (length pageBuf)) false) ;;
      let pageBuf := match r with Some bs => pageBuf ++ bs | None => pageBuf end in
      SZ <- grow_page (Z.of_nat (length pageBuf)) SZ ;;
      match r with
      | Some (_ :: _) => recv_loop fuel sock pageBuf SZ
      | _ => if Z.of_nat (length pageBuf) <? SZ then ret (pageBuf, SZ) else undef
      end
  end.

Definition host : list ascii := lit "tianqi.114la.com".
Definition request (resource : list ascii) : list ascii :=
  lit "GET " ++ resource ++ lit " HTTP/1.1" ++ [CR; LF] ++ lit "Host:" ++ host ++ [CR; LF] ++
  lit "Connection:close" ++ [CR; LF; CR; LF].

(** The result, and [pageBuf] after the call. *)
Definition GetHttpResponse (fuel : nat) (resource : list ascii) (pageBuf : option page) : W (bool * option page) :=
  hp <- sys (fun p => let (a, k) := sys_gethostbyname host (kern p) in Ret a (set_kern k p)) ;;
  match hp with
  | None => say (lit "can't find host address" ++ [LF]) ;;; ret (false, pageBuf)
  | Some addr =>
      sock <- sys (call_int sys_socket) ;;
      if sock <? 0 then say (lit "create socket error" ++ [LF]) ;;; ret (false, pageBuf)
      else
        r <- sys (call_int (sys_connect sock (MkSin (htons 80) addr))) ;;
        if r <? 0 then say (lit "error: connect" ++ [LF]) ;;; sys (call_int (sys_close sock)) ;;; ret (false, pageBuf)
        else
          r <- sys (call_int (sys_send sock (request resource))) ;;
          if r <? 0 then say (lit "send error" ++ [LF]) ;;; sys (call_int (sys_close sock)) ;;; ret (false, pageBuf)
          else
            b <- sys (malloc 4096) ;;
            if b : bool then
              pg <- sys (recv_loop fuel sock [] 4096) ;;
              sys (call_int (sys_close sock)) ;;;
              ret (true, Some pg)
            else segv
  end.

(** ** UncodeTostr *)

Definition hex_digit (n : Z) : ascii := ascii_of_N (Z.to_N (if n <? 10 then 48 + n else 87 + n)).
(** %x: the digits of an unsigned int without the zeros in front. *)
Fixpoint hex (k : nat) (n : Z) : list ascii :=
  match k with
  | O => []
  | S k => (if n <? 16 then [] else hex k (n / 16)) ++ [hex_digit (n mod 16)]
  end.
(** A char, promoted to int, printed with %x. *)
Definition print_x (c : ascii) : list ascii := hex 8 (u32 (schar c)).
(** What the second loop takes from one row of [buf]. *)
Definition row_digits (row : list ascii) : list ascii :=
  if (8 <=? length row)%nat then List.filter (fun c => negb (c =c "f"%char)) (take 9 row) else [].
(** The last loop, over [strlen(out)]. *)
Fixpoint uppercase (out : list ascii) : list ascii :=
  match out with
  | [] => []
  | c :: out' =>
      if c =c NUL then out
      else (if 57 <? schar c then ascii_of_N (N.ldiff (N_of_ascii c) 32) else c) :: uppercase out'
  end.
(** [in] is a string, [out] a whole array; [buf] has 20 rows. *)
Definition UncodeTostr (input out : list ascii) : W (list ascii) :=
  if (length input <=? 20)%nat then
    out <- store out 0 (flat_map row_digits (map print_x input ++ replicate (20 - length input) [])) ;;
    if existsb (fun c => c =c NUL) out then ret (uppercase out) else undef
  else undef.

(** ** find_resource *)

(** [sscanf(pos, "%[^c]", buf)] into a cleared array of [n] characters. *)
Fixpoint until (c : ascii) (pos : list ascii) : list ascii :=
  match pos with
  | [] => []
  | x :: pos => if x =c c then [] else x :: until c pos
  end.
Definition scan (n : nat) (c : ascii) (pos : list ascii) : W (list ascii) :=
  let run := until c pos in
  if (length run <? n)%nat then ret (run ++ replicate (n - length run) NUL) else undef.

(** std::map::insert: in the order of the keys, an old entry stays. *)
Fixpoint map_insert (k v : list ascii) (m : list (list ascii * list ascii)) : list (list ascii * list ascii) :=
  match m with
  | [] => [(k, v)]
  | (k', v') :: m' =>
      if strcmp k k' <? 0 then (k, v) :: m
      else if strcmp k k' =? 0 then m
      else (k', v') :: map_insert k v m'
  end.

Definition cant_find (tag : list ascii) : W unit := say (lit "can't find " ++ tag ++ endl).
(** The rounds up to [++count == 2564]; [cityname] is not cleared between them. *)
Fixpoint find_loop (n : nat) (pos cityname : list ascii) (city_name_url : list (list ascii * list ascii)) :
    W (list (list ascii * list ascii)) :=
  match n with
  | O => ret city_name_url
  | S n =>
      let tag2 := lit "href=" ++ [quote] in
      let tag3 := lit "self" ++ [quote] ++ lit ">" in
      match strstr pos tag2 with
      | None => cant_find tag2 ;;; segv
      | Some pos =>
          let pos := drop (length tag2) pos in
          url <- scan 200 quote pos ;;
          match strstr pos tag3 with
          | None => cant_find tag3 ;;; segv
          | Some pos =>
              let pos := drop (length tag3) pos in
              city_name <- scan 50 "<"%char pos ;;
              cityname <- UncodeTostr (cstr city_name) cityname ;;
              find_loop n pos cityname (map_insert (cstr cityname) (cstr url) city_name_url)
          end
      end
  end.
Definition MAX_CITIES : nat := 2564.
Definition find_resource (resp : list ascii) : W (list (list ascii * list ascii)) :=
  match strstr resp (lit "inlandCity") with
  | None => say (lit "can't find inlandCity" ++ endl) ;;; ret []
  | Some pos => find_loop MAX_CITIES pos (replicate 50 NUL) []
  end.

(** ** Get_weather_info *)

(** [buf[30] = 0] in an array of 100. *)
Definition cut30 (buf : list ascii) : list ascii := <[30%nat := NUL]> buf.
Definition deleSpace (buf : list ascii) : W (list ascii) :=
  buf <- compact (fun c => existsb (Z.eqb (schar c)) [9; 32; 20; 10; 13]) (length buf) buf 0 0 ;;
  ret (cut30 buf).
Definition deleSpaceforweather (buf : list ascii) : W (list ascii) :=
  buf <- compact (fun c => existsb (Z.eqb (schar c)) [48; 49; 50]) (length buf) buf 0 0 ;;
  ret (cut30 buf).
Fixpoint Parseforcityname (buf : list ascii) : list ascii :=
  match buf with
  | [] => []
  | c :: buf' =>
      if c =c NUL then buf
      else if c =c "7"%char then NUL :: buf'
      else c :: Parseforcityname buf'
  end.

(** [pos = strstr(pos, tag)] with its test; the call returns [dflt] without the tag. *)
Definition seek {A} (pos tag : list ascii) (dflt : A) (k : list ascii -> W A) : W A :=
  match strstr pos tag with
  | None => cant_find tag ;;; ret dflt
  | Some pos => k pos
  end.
(** One field of a day: the tag, the text up to the next one, cleaned. *)
Definition field {A} (tag : list ascii) (clean : list ascii -> W (list ascii)) (pos : list ascii) (dflt : A)
    (k : list ascii -> list ascii -> W A) : W A :=
  seek pos tag dflt (fun pos =>
    let pos := drop (length tag) pos in
    buf <- scan 100 "<"%char pos ;;
    buf <- clean buf ;;
    k (cstr buf) pos).
Definition tag4 : list ascii := lit "date" ++ [quote] ++ lit ">".
Definition tag5 : list ascii := lit "weather1" ++ [quote] ++ lit ">".
Definition tag6 : list ascii := lit "blue" ++ [quote] ++ lit ">".
Definition tag7 : list ascii := lit "orange" ++ [quote] ++ lit ">".
Fixpoint days (n : nat) (pos : list ascii) (x : data) (dflt : list data) (k : data -> W (list data)) : W (list data) :=
  match n with
  | O => k x
  | S n =>
      field tag4 deleSpace pos dflt (fun d pos =>
      field tag5 (fun buf => buf <- deleSpace buf ;; deleSpaceforweather buf) pos dflt (fun w pos =>
      field tag6 deleSpace pos dflt (fun l pos =>
      field tag7 deleSpace pos dflt (fun h pos =>
      days n pos (MkData (date x ++ [d]) (name x) (weather x ++ [w]) (low_degree x ++ [l]) (high_degree x ++ [h])) dflt k))))
  end.
Definition Get_weather_info (resp : list ascii) (weather_data : list data) : W (list data) :=
  seek resp (lit "currCity") weather_data (fun pos =>
  seek pos (lit "_self" ++ [quote]) weather_data (fun pos =>
  seek pos (lit "<span>") weather_data (fun pos =>
    let pos := drop (length (lit "<span>")) pos in
    city_name <- scan 100 "["%char pos ;;
    let city_name := Parseforcityname city_name in
    days 7 pos (MkData [] (cstr city_name) [] [] []) weather_data (fun city_data =>
    ret (weather_data ++ [city_data]))))).

(** ** main *)

(** The first 151 cities of the map. *)
Fixpoint crawl (fuel : nat) (cities : list (list ascii * list ascii)) (resp : option page) (weather_data : list data) : W (list data) :=
  match cities with
  | [] => ret weather_data
  | (_, url) :: cities =>
      r <- GetHttpResponse fuel url resp ;;
      match r.2 with
      | None => segv
      | Some pg =>
          weather_data <- Get_weather_info (cstr pg.1) weather_data ;;
          sys (free pg.2) ;;;
          crawl fuel cities None weather_data
      end
  end.

(** One day of a city in the text of its row; an index outside a vector is
    undefined. *)
Definition day_text (x : data) (i : nat) : option (list ascii) :=
  d ← date x !! i; w ← weather x !! i; l ← low_degree x !! i; h ← high_degree x !! i;
  Some (d ++ lit " " ++ name x ++ lit " " ++ w ++ lit " " ++ l ++ lit "~" ++ h ++ lit "#").
Fixpoint days_text (x : data) (i n : nat) : option (list ascii) :=
  match n with
  | O => Some []
  | S n => s ← day_text x i; t ← days_text x (S i) n; Some (s ++ t)
  end.
Definition row_text (city : list ascii) (x : data) : option (list ascii) :=
  info ← days_text x 0 7;
  Some (lit "'" ++ city ++ lit "'" ++ lit "," ++ (lit "'" ++ name x ++ lit "#") ++ info ++ lit "'").
Fixpoint insert_all (j : nat) (city_name : list (list ascii)) (weather_data : list data) : W unit :=
  match city_name with
  | [] => ret tt
  | city :: city_name =>
      match weather_data !! j ≫= row_text city with
      | None => undef
      | Some row => on_prog (insert_sql row) ;;; insert_all (S j) city_name weather_data
      end
  end.

Definition result_page : list ascii :=
  lit "<!DOCTYPE html>" ++
  lit "<html>" ++
  lit "<head>" ++
  lit "<meta http-equiv=" ++ [quote] ++ lit "Content-Type" ++ [quote] ++ lit " content=" ++ [quote] ++ lit "text/html;charset=utf-8" ++ [quote] ++ lit "/>" ++
  lit "<title> 欢迎来到凯微天气预报</title>" ++
  lit "<style type=" ++ [quote] ++ lit "text/css" ++ [quote] ++ lit " >" ++
  lit ".s_btn_wr{" ++
  lit "    width: 100px;" ++
  lit "    height: 36px;" ++
  lit "    color: white;" ++
  lit "    font-size: 15px;" ++
  lit "    letter-spacing: 1px;" ++
  lit "    background: #BD601B;" ++
  lit "    border-bottom: 1px solid #E62A67;" ++
  lit "    outline: medium;" ++
  lit "    -webkit-appearance: none;" ++
  lit "    -webkit-border-radius: 0;" ++
  lit "}" ++
  lit ".s_btn{" ++
  lit "   width: 100px;" ++
  lit "    height: 36px;" ++
  lit "    color: white;" ++
  lit "    font-size: 15px;" ++
  lit "    letter-spacing: 1px;" ++
  lit "    background: #3385ff;" ++
  lit "    margin-left: -10px;" ++
  lit "}" ++
  lit ".s_ipt_wr {" ++
  lit "    border-color: #7b7b7b #b6b6b6 #b6b6b6 #7b7b7b;" ++
  lit "    background: #fff;" ++
  lit "    display: inline-block;" ++
  lit "    vertical-align: top;" ++
  lit "    width: 539px;" ++
  lit "    margin-right: 0;" ++
  lit "    border-right-width: 0;" ++
  lit "    border-color: #b8b8b8 transparent #ccc #b8b8b8;" ++
  lit "    overflow: hidden;" ++
  lit "}" ++
  lit ".s_ipt{" ++
  lit "    width: 526px;" ++
  lit "    height: 30px;" ++
  lit "    font: 16px/18px arial;" ++
  lit "    line-height: 22px9;" ++
  lit "    margin-left:9px ;" ++
  lit "}" ++
  lit ".word{" ++
  lit "width:500px;" ++
  lit "margin-top: 40px;" ++
  lit "margin-left: 40px;" ++
  lit "font-size: 20px;" ++
  lit "}" ++
  lit ".w1{" ++
  [HT] ++ lit "    margin-top: 50px;" ++
  lit "}" ++
  lit ".bg{" ++
  [HT] ++ lit "margin-left: 300px;" ++
  lit "}" ++
  lit ".s1{" ++
  lit "display: inline-block;" ++
  lit "margin-left: 170px;" ++
  lit "color: #3385ff;" ++
  lit "}" ++
  lit "</style>" ++
  lit "</head>" ++
  lit "<body>" ++
  [HT] ++ lit "<div  class=" ++ [quote] ++ lit "bg" ++ [quote] ++ lit ">" ++
  [HT] ++ lit "<span class=" ++ [quote] ++ lit "s1" ++ [quote] ++ lit "><h1 >凯微天气早知道</h1></span>" ++
  lit "<form action=" ++ [quote] ++ lit "./cgi_bin/find_cgi" ++ [quote] ++ lit ",method=" ++ [quote] ++ lit "GET" ++ [quote] ++ lit ">" ++
  [HT] ++ lit "<input type = " ++ [quote] ++ lit "text" ++ [quote] ++ lit " name = " ++ [quote] ++ lit "cityname" ++ [quote] ++ lit "/>" ++
  [HT] ++ lit "<input type=" ++ [quote] ++ lit "submit" ++ [quote] ++ lit " id=" ++ [quote] ++ lit "su" ++ [quote] ++ lit " value=" ++ [quote] ++ lit "天气搜索" ++ [quote] ++ lit " class=" ++ [quote] ++ lit "s_btn" ++ [quote] ++ lit "></form>       <div class=" ++ [quote] ++ lit "word" ++ [quote] ++ lit ">" ++ endl.

Definition main (fuel : nat) : W Z :=
  r <- GetHttpResponse fuel (lit "/?/Index/quanguo") None ;;
  match r.2 with
  | None => segv
  | Some pg =>
      city_name_url <- find_resource (cstr pg.1) ;;
      (* nothing is put into it *)
      let city_name := [] in
      weather_data <- crawl fuel (take 151 city_name_url) (Some pg) [] ;;
      on_prog (begin_connect (lit "127.0.0.1") (lit "root") (lit "WKyun123456") (lit "test")) ;;;
      on_prog delete_table ;;;
      on_prog creat_table ;;;
      insert_all 0 city_name weather_data ;;;
      say result_page ;;;
      ret 0
  end.
End Crawler.
