(* ===== verification/CrawlerThm.v ===== *)
(** The crawler is correct: the keys it files cities under, what it reads from
    the network and from pages, and what it does to the table. *)
From S2P Require Import Prelude CStr Posix CommSocket CommSocketThm Weather WeatherThm Crawler.
Local Open Scope Z_scope.

(** * Keys *)

Definition HEX (n : Z) : ascii := ascii_of_N (Z.to_N (if n <? 10 then 48 + n else 55 + n)).
(** The key of a name: the upper-case digits of its bytes from 128 on, but F. *)
Definition key_digits (c : ascii) : list ascii :=
  if uchar c <? 128 then [] else List.filter (fun d => negb (d =c "F"%char)) [HEX (uchar c / 16); HEX (uchar c mod 16)].
Definition city_key (s : list ascii) : list ascii := flat_map key_digits s.
Definition up (c : ascii) : ascii := if 57 <? schar c then ascii_of_N (N.ldiff (N_of_ascii c) 32) else c.
Definition key_char (c : ascii) : Prop := c <> NUL /\ up c = c.

(** A fact about every character, by trying them all. *)
Definition all_chars : list ascii := map ascii_of_nat (seq 0 256).
Lemma all_chars_in c : c ∈ all_chars.
Proof.
  unfold all_chars. rewrite list_elem_of_In, in_map_iff. exists (nat_of_ascii c). split; [apply ascii_nat_embedding |].
  apply in_seq. pose proof (nat_ascii_bounded c). lia.
Qed.
Lemma by_trying (P : ascii -> bool) : forallb P all_chars = true -> forall c, P c = true.
Proof. intros H c. rewrite forallb_forall in H. apply H, list_elem_of_In, all_chars_in. Qed.

Definition char_ok (c : ascii) : bool :=
  let row := row_digits (print_x c) in
  bool_decide (map up row = key_digits c) && forallb (fun d => negb (d =c NUL)) row &&
  forallb (fun d => negb (d =c NUL) && (up d =c d)) (key_digits c) && (length row <=? 2)%nat.
Lemma row_of_char c :
  map up (row_digits (print_x c)) = key_digits c /\ NUL ∉ row_digits (print_x c) /\
  Forall key_char (key_digits c) /\ (length (row_digits (print_x c)) <= 2)%nat.
Proof.
  assert (H : char_ok c = true) by (revert c; apply by_trying; by vm_compute).
  unfold char_ok in H. apply andb_prop in H as [H H4]. apply andb_prop in H as [H H3]. apply andb_prop in H as [H1 H2].
  apply bool_decide_eq_true in H1. split; [done |]. rewrite forallb_forall in H2, H3. split; [|split].
  - intros Hn. apply list_elem_of_In, H2 in Hn. by rewrite Ascii.eqb_refl in Hn.
  - apply Forall_forall. intros d Hd. apply list_elem_of_In, H3, andb_prop in Hd as [Hd1 Hd2]. split; [|by apply Ascii.eqb_eq].
    intros ->. by rewrite Ascii.eqb_refl in Hd1.
  - by apply Nat.leb_le.
Qed.

Definition rows (s : list ascii) : list ascii := flat_map row_digits (map print_x s).
Lemma rows_spec s :
  map up (rows s) = city_key s /\ NUL ∉ rows s /\ Forall key_char (city_key s) /\ (length (rows s) <= 2 * length s)%nat.
Proof.
  unfold rows, city_key. induction s as [|c s (IH1 & IH2 & IH3 & IH4)]; cbn [map flat_map length]; [split; [done |]; split; [set_solver |]; split; [constructor | simpl; lia] |].
  destruct (row_of_char c) as (H1 & H2 & H3 & H4). rewrite map_app, H1, IH1, not_elem_of_app, Forall_app, length_app.
  split; [done |]. split; [done |]. split; [done | lia].
Qed.
Lemma rows_empty n : flat_map row_digits (replicate n []) = [].
Proof. by induction n. Qed.

Lemma uppercase_app a r : NUL ∉ a -> uppercase (a ++ NUL :: r) = map up a ++ NUL :: r.
Proof.
  induction a as [|c a IH]; simpl; [done |]. rewrite not_elem_of_cons. intros [Hc Ha].
  destruct (Ascii.eqb_spec c NUL) as [->|]; [done |]. rewrite IH by done. done.
Qed.
Lemma key_chars s : Forall key_char s -> NUL ∉ s /\ map up s = s.
Proof. induction 1 as [|c s [H1 H2] _ [IH1 IH2]]; simpl; [set_solver |]. rewrite not_elem_of_cons, H2, IH2. split; [split; [by intros E | done] | done]. Qed.
Lemma has_nul a r : existsb (fun c => c =c NUL) (a ++ NUL :: r) = true.
Proof. rewrite existsb_app. simpl. by rewrite orb_true_r. Qed.

Section Keys.
Context {K D : Type}.
Implicit Type c : crawl_world K D.

(** [cityname] between two calls: the last key, then zeros. *)
Definition holds (old : list ascii) : list ascii := old ++ replicate (50 - length old) NUL.
(** What a call makes of it. *)
Definition next_key (s old : list ascii) : list ascii := city_key s ++ drop (length (city_key s)) old.

Lemma next_key_ok s old :
  (length s <= 20)%nat -> (length old <= 40)%nat -> Forall key_char old ->
  (length (next_key s old) <= 40)%nat /\ Forall key_char (next_key s old).
Proof.
  intros Hs Ho Hold. destruct (rows_spec s) as (H1 & _ & H3 & H4). unfold next_key.
  assert (length (city_key s) <= 40)%nat by (rewrite <- H1, length_map; lia).
  rewrite length_app, length_drop, Forall_app. split; [lia |]. split; [done | by apply Forall_drop].
Qed.

Lemma UncodeTostr_spec s old c :
  (length s <= 20)%nat -> (length old <= 40)%nat -> Forall key_char old ->
  UncodeTostr s (holds old) c = Ret (holds (next_key s old)) c.
Proof.
  intros Hs Ho Hold. destruct (rows_spec s) as (H1 & H2 & H3 & H4). fold (rows s) in *.
  unfold UncodeTostr. rewrite (proj2 (Nat.leb_le _ _) Hs), flat_map_app, rows_empty, app_nil_r. fold (rows s).
  assert (Hlen : length (rows s) = length (city_key s)) by (by rewrite <- H1, length_map).
  assert (Hput : Posix.store (holds old) 0%nat (rows s) c = Ret ((rows s ++ drop (length (rows s)) old) ++ NUL :: replicate (49 - length (next_key s old)) NUL) c).
  { unfold Posix.store, blit, holds. rewrite length_app, length_replicate, (proj2 (Nat.leb_le _ _)) by lia. rewrite take_0. cbn [app Nat.add].
    unfold ret. f_equal. rewrite <- app_assoc. f_equal. unfold next_key. rewrite length_app, length_drop, <- Hlen.
    destruct (Nat.le_gt_cases (length (rows s)) (length old)).
    - rewrite drop_app_le by done. f_equal. replace (50 - length old)%nat with (S (49 - length old)) by lia. cbn [replicate]. do 2 f_equal. lia.
    - rewrite drop_app_ge, (drop_ge old), drop_replicate by lia. cbn [app length].
      replace (50 - length old - (length (rows s) - length old))%nat with (S (49 - length (rows s))) by lia. cbn [replicate]. do 2 f_equal. lia. }
  rewrite (bind_eq _ _ _ _ _ Hput), has_nul. destruct (key_chars old Hold) as [Hn Hup].
  assert (Hd : NUL ∉ drop (length (rows s)) old) by (intros Hin; apply Hn; by eapply subseteq_drop).
  rewrite uppercase_app by (by rewrite not_elem_of_app). rewrite map_app, H1.
  assert (Hud : map up (drop (length (rows s)) old) = drop (length (rows s)) old) by (by rewrite <- skipn_map, Hup).
  rewrite Hud, Hlen. fold (next_key s old). unfold holds, ret. do 2 f_equal.
  destruct (next_key_ok s old Hs Ho Hold) as [Hl _].
  replace (50 - length (next_key s old))%nat with (S (49 - length (next_key s old))) by lia. done.
Qed.

(** A call writes the key of the name over the front of [cityname] and keeps
    what is behind it: after a longer name, a shorter one has the wrong key. *)
Theorem UncodeTostr_keeps_tail s old c :
  (length s <= 20)%nat -> (length old <= 40)%nat -> Forall key_char old ->
  exists out, UncodeTostr s (holds old) c = Ret out c /\ cstr out = city_key s ++ drop (length (city_key s)) old.
Proof.
  intros Hs Ho Hold. exists (holds (next_key s old)). split; [by apply UncodeTostr_spec |].
  destruct (next_key_ok s old Hs Ho Hold) as [Hl Hk]. unfold holds.
  replace (50 - length (next_key s old))%nat with (S (49 - length (next_key s old))) by lia.
  apply cstr_app_nul. by apply key_chars.
Qed.
End Keys.




Section Pages.
Context {K D : Type}.
Implicit Type c : crawl_world K D.


(** * Fields *)

Lemma until_app x s rest : x ∉ s -> until x (s ++ x :: rest) = s.
Proof.
  induction s as [|y s IH]; simpl; [by rewrite Ascii.eqb_refl |]. rewrite not_elem_of_cons. intros [Hy Hs].
  destruct (Ascii.eqb_spec y x); [congruence |]. by rewrite IH.
Qed.
Lemma scan_spec n x s rest c : x ∉ s -> (length s < n)%nat -> scan n x (s ++ x :: rest) c = Ret (s ++ replicate (n - length s) NUL) c.
Proof. intros Hx Hn. unfold scan. by rewrite until_app, (proj2 (Nat.ltb_lt _ _)). Qed.
Lemma padded s n : (length s < n)%nat -> s ++ replicate (n - length s) NUL = s ++ NUL :: replicate (n - length s - 1) NUL.
Proof. intros H. f_equal. by replace (n - length s)%nat with (S (n - length s - 1)) at 1 by lia. Qed.
Lemma seek_spec {A} junk tag rest (dflt : A) k c :
  fresh tag junk -> seek (junk ++ tag ++ rest) tag dflt k c = k (tag ++ rest) c.
Proof. intros H. unfold seek. by rewrite strstr_fresh. Qed.

(** What cleaning makes of a string shorter than its array. *)
Definition spaces (c : ascii) : bool := existsb (Z.eqb (schar c)) [9; 32; 20; 10; 13].
Definition low_digits (c : ascii) : bool := existsb (Z.eqb (schar c)) [48; 49; 50].
Definition squeezed s : list ascii := take 30 (kept spaces s).
Definition squeezed_weather s : list ascii := take 30 (kept low_digits (squeezed s)).
Definition cleans (clean : list ascii -> CM (crawl_world K D) (list ascii)) (f : list ascii -> list ascii) : Prop :=
  forall buf c, length buf = 100%nat -> NUL ∈ buf ->
    exists b, clean buf c = Ret b c /\ length b = 100%nat /\ NUL ∈ b /\ cstr b = f (cstr buf).

Lemma cleans_with dropped :
  dropped NUL = false ->
  cleans (fun buf => buf <- compact dropped (length buf) buf 0 0 ;; ret (cut30 buf)) (fun s => take 30 (kept dropped s)).
Proof.
  intros Hd buf c Hl Hn. destruct (cstr_split buf Hn) as [rest E].
  assert (Hlen : (length (cstr buf) + 1 + length rest = 100)%nat) by (rewrite E, length_app in Hl; cbn [length] in Hl; lia).
  assert (Hfuel : (length (cstr buf) + 1 <= length buf)%nat) by lia.
  pose proof (compact_spec dropped (cstr buf) rest (length buf) c Hd (cstr_no_nul buf) Hfuel) as Hwp.
  rewrite <- E in Hwp. apply wp_run in Hwp as (b & c' & Hrun & -> & Hb & Hbl). exists (cut30 b).
  rewrite (bind_eq _ _ _ _ _ Hrun). split; [done |]. unfold cut30. rewrite length_insert, Hbl, Hl. split; [done |].
  rewrite cstr_cut, Hb by lia. split; [|done].
  apply list_elem_of_lookup. exists 30%nat. apply list_lookup_insert_eq. lia.
Qed.
Lemma cleans_space : cleans deleSpace squeezed.
Proof. by apply (cleans_with spaces). Qed.
Lemma cleans_weather : cleans (fun buf => buf <- deleSpace buf ;; deleSpaceforweather buf) squeezed_weather.
Proof.
  intros buf c Hl Hn. destruct (cleans_space buf c Hl Hn) as (b & Hrun & Hbl & Hbn & Hb).
  rewrite (bind_eq _ _ _ _ _ Hrun). destruct (cleans_with low_digits eq_refl b c Hbl Hbn) as (b' & Hrun' & H1 & H2 & H3).
  exists b'. split; [exact Hrun' |]. split; [done |]. split; [done |]. rewrite H3, Hb. done.
Qed.

(** A raw text of a page: what stands before a [<]. *)
Definition text_ok (s : list ascii) : Prop := "<"%char ∉ s /\ NUL ∉ s /\ (length s < 100)%nat.
Definition piece (tag junk raw : list ascii) : list ascii := junk ++ tag ++ raw.

Lemma field_spec {A} tag clean f start junk raw rest (dflt : A) k c :
  cleans clean f -> fresh tag (start ++ junk) -> text_ok raw ->
  field tag clean (start ++ piece tag junk raw ++ lit "<" ++ rest) dflt k c = k (f raw) (raw ++ lit "<" ++ rest) c.
Proof.
  intros Hclean Hf (Hlt & Hn & Hl). unfold field, piece. rewrite <- !app_assoc, (app_assoc start), seek_spec by done. cbv zeta.
  rewrite drop_app_length. rewrite (bind_eq _ _ _ _ _ (scan_spec 100 "<"%char raw rest c Hlt Hl)).
  destruct (Hclean (raw ++ replicate (100 - length raw) NUL) c) as (b & Hrun & _ & _ & Hb).
  - rewrite length_app, length_replicate. lia.
  - rewrite padded by done. rewrite elem_of_app, elem_of_cons. right. by left.
  - rewrite (bind_eq _ _ _ _ _ Hrun), Hb. rewrite padded, cstr_app_nul by done. done.
Qed.

(** * Pages *)

(** A day of a page: the four texts, each with what stands before its tag. *)
Record day := MkDay {
  j_date : list ascii; r_date : list ascii; j_weather : list ascii; r_weather : list ascii;
  j_low : list ascii; r_low : list ascii; j_high : list ascii; r_high : list ascii
}.
Definition day_page (x : day) : list ascii :=
  piece tag4 (j_date x) (r_date x) ++ lit "<" ++ piece tag5 (j_weather x) (r_weather x) ++ lit "<" ++
  piece tag6 (j_low x) (r_low x) ++ lit "<" ++ piece tag7 (j_high x) (r_high x) ++ lit "<".
(** After [start], the part of the page that the search has already passed, each
    tag is first found where it stands. *)
Definition day_ok (start : list ascii) (x : day) : Prop :=
  (fresh tag4 (start ++ j_date x) /\ text_ok (r_date x)) /\
  (fresh tag5 ((r_date x ++ lit "<") ++ j_weather x) /\ text_ok (r_weather x)) /\
  (fresh tag6 ((r_weather x ++ lit "<") ++ j_low x) /\ text_ok (r_low x)) /\
  (fresh tag7 ((r_low x ++ lit "<") ++ j_high x) /\ text_ok (r_high x)).
Fixpoint days_ok (start : list ascii) (l : list day) : Prop :=
  match l with
  | [] => True
  | x :: l => day_ok start x /\ days_ok (r_high x ++ lit "<") l
  end.
Definition add_day (x : data) (d : day) : data :=
  MkData (date x ++ [squeezed (r_date d)]) (name x) (weather x ++ [squeezed_weather (r_weather d)])
    (low_degree x ++ [squeezed (r_low d)]) (high_degree x ++ [squeezed (r_high d)]).

Lemma days_spec l start rest x dflt k c :
  days_ok start l ->
  days (length l) (start ++ flat_map day_page l ++ rest) x dflt k c = k (fold_left add_day l x) c.
Proof.
  revert start x. induction l as [|d l IH]; intros start x; [done |]. intros [([H1 T1] & [H2 T2] & [H3 T3] & [H4 T4]) Hl].
  cbn [length flat_map fold_left days]. unfold day_page at 1. rewrite <- !app_assoc.
  rewrite (field_spec tag4 _ squeezed) by (apply cleans_space || done).
  rewrite (app_assoc (r_date d)), (field_spec tag5 _ squeezed_weather) by (apply cleans_weather || done).
  rewrite (app_assoc (r_weather d)), (field_spec tag6 _ squeezed) by (apply cleans_space || done).
  rewrite (app_assoc (r_low d)), (field_spec tag7 _ squeezed) by (apply cleans_space || done).
  rewrite (app_assoc (r_high d)). by apply IH.
Qed.

(** A page: the city's name, a 7 (of "7 days") and more before a bracket, the days. *)
Record city_page := MkPage {
  p_head : list ascii; p_menu : list ascii; p_title : list ascii;
  p_city : list ascii; p_more : list ascii; p_days : list day; p_tail : list ascii
}.
Definition TAG1 : list ascii := lit "currCity".
Definition TAG2 : list ascii := lit "_self" ++ [quote].
Definition TAG3 : list ascii := lit "<span>".
Definition heading (p : city_page) : list ascii := p_city p ++ lit "7" ++ p_more p.
Definition show_page (p : city_page) : list ascii :=
  p_head p ++ TAG1 ++ p_menu p ++ TAG2 ++ p_title p ++ TAG3 ++ heading p ++ lit "[" ++ flat_map day_page (p_days p) ++ p_tail p.
Definition page_ok (p : city_page) : Prop :=
  fresh TAG1 (p_head p) /\ fresh TAG2 (TAG1 ++ p_menu p) /\ fresh TAG3 (TAG2 ++ p_title p) /\
  ("["%char ∉ heading p /\ NUL ∉ heading p /\ (length (heading p) < 100)%nat /\ "7"%char ∉ p_city p) /\
  length (p_days p) = 7%nat /\ days_ok (heading p ++ lit "[") (p_days p).
Definition data_of (p : city_page) : data := fold_left add_day (p_days p) (MkData [] (p_city p) [] [] []).

Lemma Parseforcityname_spec city more :
  NUL ∉ city -> "7"%char ∉ city -> cstr (Parseforcityname (city ++ "7"%char :: more)) = city.
Proof.
  induction city as [|x city IH]; [done |]. rewrite !not_elem_of_cons. intros [Hn Hns] [H7 H7s]. cbn [app Parseforcityname].
  assert (E1 : (x =c NUL) = false) by (apply Ascii.eqb_neq; congruence).
  assert (E2 : (x =c "7"%char) = false) by (apply Ascii.eqb_neq; congruence).
  rewrite E1, E2. cbn [cstr]. rewrite E1. by rewrite IH.
Qed.

Lemma Get_weather_info_spec p weather_data c :
  page_ok p -> Get_weather_info (show_page p) weather_data c = Ret (weather_data ++ [data_of p]) c.
Proof.
  intros (H1 & H2 & H3 & (Hb & Hn & Hl & H7) & Hlen & Hdays). unfold Get_weather_info, show_page. fold TAG1 TAG2 TAG3.
  rewrite seek_spec by done. rewrite (app_assoc TAG1), seek_spec by done. rewrite (app_assoc TAG2), seek_spec by done. cbv zeta.
  rewrite drop_app_length.
  rewrite (bind_eq _ _ _ _ _ (scan_spec 100 "["%char (heading p) (flat_map day_page (p_days p) ++ p_tail p) c Hb Hl)).
  rewrite (app_assoc (heading p)), <- Hlen, days_spec by done. unfold ret, data_of.
  generalize (100 - length (heading p))%nat. intros n. unfold heading in *. rewrite not_elem_of_app in Hn.
  rewrite <- !app_assoc. change (lit "7" ++ ?r) with ("7"%char :: r). by rewrite Parseforcityname_spec by tauto.
Qed.

(** A page with its tags in order and seven days is read into exactly its
    city and the four texts of each day, without their white space, cut after 30
    bytes, the weather also without the digits 0, 1 and 2. *)
Theorem Get_weather_info_reads p weather_data c :
  page_ok p -> Get_weather_info (show_page p) weather_data c = Ret (weather_data ++ [data_of p]) c.
Proof. apply Get_weather_info_spec. Qed.

(** ** The list of cities *)

Record link := MkLink { k_before : list ascii; k_url : list ascii; k_mid : list ascii; k_name : list ascii }.
Definition HREF : list ascii := lit "href=" ++ [quote].
Definition SELF : list ascii := lit "self" ++ [quote] ++ lit ">".
Definition link_page (l : link) : list ascii :=
  k_before l ++ HREF ++ k_url l ++ [quote] ++ k_mid l ++ SELF ++ k_name l ++ lit "<".
Definition link_ok (start : list ascii) (l : link) : Prop :=
  fresh HREF (start ++ k_before l) /\ (quote ∉ k_url l /\ NUL ∉ k_url l /\ (length (k_url l) < 200)%nat) /\
  fresh SELF ((k_url l ++ [quote]) ++ k_mid l) /\ ("<"%char ∉ k_name l /\ NUL ∉ k_name l /\ (length (k_name l) <= 20)%nat).
Fixpoint links_ok (start : list ascii) (ls : list link) : Prop :=
  match ls with
  | [] => True
  | l :: ls => link_ok start l /\ links_ok (k_name l ++ lit "<") ls
  end.
(** The map, with the key of each name over what is left of the key before. *)
Fixpoint file_links (ls : list link) (old : list ascii) (m : list (list ascii * list ascii)) : list (list ascii * list ascii) :=
  match ls with
  | [] => m
  | l :: ls => file_links ls (next_key (k_name l) old) (map_insert (next_key (k_name l) old) (k_url l) m)
  end.

(** One round. *)
Lemma find_loop_step n start l rest old m c :
  link_ok start l -> (length old <= 40)%nat -> Forall key_char old ->
  find_loop (S n) (start ++ link_page l ++ rest) (holds old) m c =
  find_loop n ((k_name l ++ lit "<") ++ rest) (holds (next_key (k_name l) old)) (map_insert (next_key (k_name l) old) (k_url l) m) c.
Proof.
  intros (H1 & (Hq & Hun & Hul) & H2 & (Hlt & Hnn & Hnl)) Ho Hold. cbn [find_loop]. fold HREF SELF. unfold link_page.
  rewrite <- !app_assoc, (app_assoc start), strstr_fresh by done. cbv zeta. rewrite drop_app_length.
  rewrite (bind_eq _ _ _ _ _ (scan_spec 200 quote (k_url l) (k_mid l ++ SELF ++ k_name l ++ lit "<" ++ rest) c Hq Hul)).
  rewrite (app_assoc (k_url l)), (app_assoc (k_url l ++ [quote])), strstr_fresh by done. rewrite drop_app_length.
  assert (Hn50 : (length (k_name l) < 50)%nat) by lia.
  rewrite (bind_eq _ _ _ _ _ (scan_spec 50 "<"%char (k_name l) rest c Hlt Hn50)).
  rewrite (padded (k_name l)), cstr_app_nul by done.
  rewrite (bind_eq _ _ _ _ _ (UncodeTostr_spec (k_name l) old c Hnl Ho Hold)).
  rewrite (padded (k_url l)), cstr_app_nul by done.
  destruct (next_key_ok (k_name l) old Hnl Ho Hold) as [Hl Hk]. unfold holds at 2. rewrite padded by lia.
  rewrite cstr_app_nul by (by apply key_chars). done.
Qed.

(** The whole loop: it stops after [n] links, or comes to a page without one. *)
Lemma find_loop_spec n ls start rest old m c :
  links_ok start ls -> (length old <= 40)%nat -> Forall key_char old ->
  (length ls <= n)%nat ->
  exists start', find_loop n (start ++ flat_map link_page ls ++ rest) (holds old) m c =
    find_loop (n - length ls) (start' ++ rest) (holds (fold_left (fun o l => next_key (k_name l) o) ls old)) (file_links ls old m) c /\
    start' = match last ls with Some l => k_name l ++ lit "<" | None => start end.
Proof.
  revert n start old m. induction ls as [|l ls IH]; intros n start old m Hls Ho Hold Hn.
  - exists start. rewrite Nat.sub_0_r. done.
  - destruct Hls as [Hl Hls]. destruct n as [|n]; [simpl in Hn; lia |]. cbn [flat_map]. rewrite <- app_assoc, find_loop_step by done.
    destruct Hl as (_ & _ & _ & (_ & _ & Hnl)). destruct (next_key_ok (k_name l) old Hnl Ho Hold) as [Hk1 Hk2].
    destruct (IH n (k_name l ++ lit "<") (next_key (k_name l) old) (map_insert (next_key (k_name l) old) (k_url l) m) Hls Hk1 Hk2 ltac:(simpl in Hn; lia))
      as (start' & Hrun & Hstart). exists start'. split; [exact Hrun |]. rewrite Hstart. rewrite last_cons. by destruct (last ls).
Qed.
End Pages.

(** * The network *)

Section Network.
Context {K D : Type} `{!Posix K} `{!PosixLaws K} `{!Internet K} `{!Mysql D}.
Implicit Type c : crawl_world K D.

(** The calls up to [send] succeed, and what they lead to. *)
Definition connects (resource : list ascii) (k : K) (sock : Z) (k4 : K) : Prop :=
  exists addr k1 k2 k3 r n, sys_gethostbyname host k = (Some addr, k1) /\ sys_socket k1 = (Ok sock, k2) /\ 0 <= sock /\
    sys_connect sock (MkSin (htons 80) addr) k2 = (Ok r, k3) /\ 0 <= r /\
    sys_send sock (request resource) k3 = (Ok n, k4) /\ 0 <= n.
(** No receive at [sock] fails, and there is memory. *)
Definition steady (sock : Z) : Prop := forall n k e k', sys_recv sock n false k <> (Err e, k').
Definition memory : Prop := forall n k, exists k', sys_malloc n k = (true, k').

Lemma wp_malloc_free n m (p : proc K) l (Q : bool -> proc K -> Prop) :
  memory -> blocks p = m :: l -> m <> n ->
  (forall p', inp (kern p') = inp (kern p) -> blocks p' = n :: l -> Q true p') ->
  wp (b <- malloc n ;; free m ;;; ret b) p Q.
Proof.
  intros Hm Hb Hne HQ. unfold malloc, free, bind, modify, ret, wp. destruct (Hm n (kern p)) as [k' E]. rewrite E.
  destruct (malloc_io _ _ _ _ E) as (Hi & _ & _). apply HQ; cbn [kern blocks set_blocks set_kern]; [done |]. rewrite Hb.
  cbn [drop_block]. by rewrite (proj2 (Z.eqb_neq n m)), Z.eqb_refl by done.
Qed.

(** The growth of the block: there is always room for more, and for the NUL. *)
Lemma grow_page_spec len SZ (p : proc K) l :
  memory -> blocks p = SZ :: l -> 4096 <= SZ -> 0 <= len <= SZ -> len < 2 ^ 30 - 100 ->
  wp (grow_page len SZ) p (fun SZ' p' =>
    100 <= SZ' - len /\ 4096 <= SZ' /\ inp (kern p') = inp (kern p) /\ blocks p' = SZ' :: l).
Proof.
  change (2 ^ 30) with 1073741824. intros Hm Hb HSZ Hlen Hmax. unfold grow_page. destruct (Z.ltb_spec (SZ - len) 100) as [Hs|Hs].
  - change (2 ^ 31) with 2147483648. rewrite (proj2 (Z.leb_gt _ _)) by lia.
    enough (H : wp (b <- malloc (SZ * 2) ;; free SZ ;;; ret b) p (fun b p' => b = true /\
      inp (kern p') = inp (kern p) /\ blocks p' = SZ * 2 :: l)).
    { revert H. unfold wp, bind, free, modify, ret. destruct (malloc (SZ * 2) p); try done. intros (-> & H1 & H2).
      split; [lia |]. split; [lia |]. done. }
    eapply wp_malloc_free; [done | done | lia |]. done.
  - apply wp_ret. split; [lia |]. split; [lia |]. done.
Qed.

Lemma recv_loop_spec fuel sock pageBuf SZ (p : proc K) l :
  steady sock -> memory -> blocks p = SZ :: l -> 4096 <= SZ -> 100 <= SZ - Z.of_nat (length pageBuf) ->
  Z.of_nat (length pageBuf + length (inp (kern p) sock)) < 2 ^ 30 - 100 -> (length (inp (kern p) sock) < fuel)%nat ->
  wp (recv_loop fuel sock pageBuf SZ) p (fun pg p' =>
    pg.1 = pageBuf ++ inp (kern p) sock /\ Z.of_nat (length pg.1) < pg.2 /\ blocks p' = pg.2 :: l).
Proof.
  intros Hst Hm. revert pageBuf SZ p. induction fuel as [|fuel IH]; intros pageBuf SZ p Hb HSZ Hroom Hmax Hf; [lia |].
  cbn [recv_loop]. apply wp_bind, wp_call; [|intros e k Hk; by destruct (Hst _ _ _ _ Hk)].
  assert (Hpos : 0 < SZ - Z.of_nat (length pageBuf)) by lia.
  intros bs k Hk. destruct (recv_ok _ _ _ _ _ _ Hpos Hk) as (Hlen & Hpre & Heof & Hinp & _).
  destruct Hpre as [s Hs]. rewrite Hs, drop_app_length in Hinp. cbn [Z.to_nat] in *.
  rewrite Hs, !length_app, !Nat2Z.inj_add in Hmax. apply wp_bind.
  eapply wp_mono; [apply (grow_page_spec _ SZ (set_kern k p) l Hm Hb HSZ); rewrite length_app; lia |].
  intros SZ' p' (Hr & HSZ' & Hi & Hb'). rewrite length_app in Hr. cbn [kern set_kern] in Hi.
  destruct bs as [|b bs].
  - rewrite app_nil_r in *. rewrite (proj2 (Z.ltb_lt _ _)) by lia. apply wp_ret. cbn [fst snd]. rewrite (Heof eq_refl), app_nil_r.
    split; [done |]. split; [lia | done].
  - eapply wp_mono.
    { apply (IH (pageBuf ++ b :: bs) SZ' p' Hb' HSZ'); rewrite ?length_app, ?Hi, ?Hinp; [lia | | ].
      - rewrite !Nat2Z.inj_add. simpl length in *. lia.
      - rewrite Hs, length_app in Hf. simpl in Hf. lia. }
    intros pg p'' (H1 & H2 & H3). rewrite Hi, Hinp, <- app_assoc in H1. rewrite Hs. split; [done |]. done.
Qed.

Lemma GetHttpResponse_spec fuel resource pb c sock k4 :
  connects resource (kern (os c)) sock k4 -> steady sock -> memory ->
  Z.of_nat (length (inp k4 sock)) < 2 ^ 30 - 100 -> (length (inp k4 sock) < fuel)%nat ->
  wp (GetHttpResponse fuel resource pb) c (fun r c' => exists SZ,
    r = (true, Some (inp k4 sock, SZ)) /\ Z.of_nat (length (inp k4 sock)) < SZ /\ prog c' = prog c /\
    blocks (os c') = SZ :: blocks (os c)).
Proof.
  intros (addr & k1 & k2 & k3 & r & n & Hg & Hs & Hs0 & Hc & Hr & Hsend & Hn) Hst Hm Hmax Hf.
  unfold GetHttpResponse, sys. apply wp_bind, wp_zoom. unfold wp at 1. rewrite Hg. apply wp_bind, wp_zoom. unfold call_int.
  unfold wp at 1, bind, call, ret at 1. cbn [kern set_kern os set_os]. rewrite Hs, (proj2 (Z.ltb_ge _ _)) by done.
  apply wp_bind, wp_zoom. unfold wp at 1, bind, call, ret at 1. cbn [kern set_kern os set_os]. rewrite Hc, (proj2 (Z.ltb_ge _ _)) by done.
  apply wp_bind, wp_zoom. unfold wp at 1, bind, call, ret at 1. cbn [kern set_kern os set_os]. rewrite Hsend, (proj2 (Z.ltb_ge _ _)) by done.
  apply wp_bind, wp_zoom. unfold malloc at 1, wp at 1. cbn [kern set_kern os set_os].
  destruct (Hm 4096 k4) as [k5 Ek]. rewrite Ek. destruct (malloc_io _ _ _ _ Ek) as (Hi & _).
  apply wp_bind, wp_zoom. cbn [kern set_kern os set_os]. rewrite <- Hi in *.
  eapply wp_mono; [eapply recv_loop_spec; try done; simpl; lia |]. intros pg p' (H1 & H2 & H3). cbn [kern set_kern os set_os] in *.
  apply wp_bind, wp_zoom. unfold bind. cbn [os set_os]. apply wp_bind, wp_call; intros; apply wp_ret; apply wp_ret; exists pg.2;
    destruct pg as [s SZ]; simpl in *; subst s; done.
Qed.

(** When the calls up to send succeed, the page read is the whole response,
    in whatever pieces it comes; its block has room for the final NUL and is the
    only one the call leaves allocated. *)
Theorem GetHttpResponse_reads fuel resource pb c sock k4 :
  connects resource (kern (os c)) sock k4 -> steady sock -> memory ->
  Z.of_nat (length (inp k4 sock)) < 2 ^ 30 - 100 -> (length (inp k4 sock) < fuel)%nat ->
  exists SZ c', GetHttpResponse fuel resource pb c = Ret (true, Some (inp k4 sock, SZ)) c' /\
    Z.of_nat (length (inp k4 sock)) < SZ /\ prog c' = prog c /\ blocks (os c') = SZ :: blocks (os c).
Proof.
  intros H1 H2 H3 H4 H5. pose proof (GetHttpResponse_spec fuel resource pb c sock k4 H1 H2 H3 H4 H5) as Hwp.
  apply wp_run in Hwp as (r & c' & Hrun & SZ & -> & H). by exists SZ, c'.
Qed.
End Network.
