(* ===== verification/CrawlerMain.v ===== *)
(** The crawler's main program: what it reads from the list of cities, and what
    it does to the table that the weather query answers from. *)
From S2P Require Import Prelude CStr Posix CommSocket CommSocketThm Weather WeatherThm Crawler CrawlerThm.
Local Open Scope Z_scope.

(** * The list of cities *)

Definition TAG0 : list ascii := lit "inlandCity".
Definition list_page (head : list ascii) (ls : list link) (rest : list ascii) : list ascii :=
  head ++ TAG0 ++ flat_map link_page ls ++ rest.
(** What the search has not passed after the links. *)
Definition after_links (ls : list link) : list ascii :=
  match last ls with Some l => k_name l ++ lit "<" | None => TAG0 end.

Section List.
Context {K D : Type}.
Implicit Type c : crawl_world K D.

Lemma find_resource_loop head ls rest c :
  fresh TAG0 head -> links_ok TAG0 ls -> (length ls <= MAX_CITIES)%nat ->
  exists name, find_resource (list_page head ls rest) c =
    find_loop (MAX_CITIES - length ls) (after_links ls ++ rest) name (file_links ls [] []) c.
Proof.
  intros Hh Hls Hn. unfold find_resource, list_page. fold TAG0. rewrite strstr_fresh by done.
  destruct (find_loop_spec MAX_CITIES ls TAG0 rest [] [] c Hls ltac:(simpl; lia) ltac:(constructor) Hn) as (start' & Hrun & Hstart).
  eexists. change (replicate 50 NUL) with (holds []). rewrite Hrun, Hstart. done.
Qed.

(** A list of 2564 cities is filed whole, each under the key made of its name
    and the rest of the key before. *)
Theorem find_resource_files head ls rest c :
  fresh TAG0 head -> links_ok TAG0 ls -> length ls = MAX_CITIES ->
  find_resource (list_page head ls rest) c = Ret (file_links ls [] []) c.
Proof.
  intros Hh Hls Hn. destruct (find_resource_loop head ls rest c Hh Hls ltac:(lia)) as [name ->].
  by rewrite Hn, Nat.sub_diag.
Qed.

Lemma find_resource_short head ls rest c :
  fresh TAG0 head -> links_ok TAG0 ls -> (length ls < MAX_CITIES)%nat -> strstr (after_links ls ++ rest) HREF = None ->
  find_resource (list_page head ls rest) c = (cant_find HREF ;;; segv) c.
Proof.
  intros Hh Hls Hn Hno. destruct (find_resource_loop head ls rest c Hh Hls ltac:(lia)) as [name ->].
  destruct (MAX_CITIES - length ls)%nat eqn:E; [lia |]. cbn [find_loop]. fold HREF. by rewrite Hno.
Qed.
End List.

(** * The database *)

Section Main.
Context {K D : Type} `{!Posix K} `{!PosixLaws K} `{!Internet K} `{!Mysql D}.
Implicit Type c : crawl_world K D.

(** Code that leaves the database alone, however it ends. *)
Definition untouched {A} (m : CM (crawl_world K D) A) : Prop :=
  forall c, match m c with Ret _ c' | Exit _ c' => database (prog c') = database (prog c) | _ => True end.

Lemma untouched_ret {A} (a : A) : untouched (ret a).
Proof. done. Qed.
Lemma untouched_undef {A} : untouched (A := A) undef.
Proof. done. Qed.
Lemma untouched_segv {A} : untouched (A := A) segv.
Proof. done. Qed.
Lemma untouched_say s : untouched (say s).
Proof. done. Qed.
Lemma untouched_sys {A} (m : CM (proc K) A) : untouched (sys m).
Proof. intros c. unfold sys, zoom. by destruct (m (os c)). Qed.
Lemma untouched_bind {A B} (m : CM (crawl_world K D) A) (k : A -> CM (crawl_world K D) B) :
  untouched m -> (forall a, untouched (k a)) -> untouched (bind m k).
Proof.
  intros Hm Hk c. specialize (Hm c). unfold bind. destruct (m c) as [a c1| | |]; try done.
  specialize (Hk a c1). destruct (k a c1); congruence || done.
Qed.
Lemma untouched_store buf off bs : untouched (Posix.store buf off bs).
Proof. intros c. unfold Posix.store. by destruct (blit buf off bs). Qed.
Lemma untouched_compact dropped fuel str i index : untouched (compact dropped fuel str i index).
Proof.
  revert str i index. induction fuel as [|fuel IH]; intros str i index c; cbn [compact]; destruct (_ <? _); try done.
  destruct (str !! i) as [x|]; [|done]. destruct (dropped x); apply IH.
Qed.
Create HintDb untouched.
#[local] Hint Resolve untouched_ret untouched_undef untouched_segv untouched_say untouched_sys untouched_bind untouched_store
  untouched_compact : untouched.
Ltac untouch := repeat (first [progress eauto 2 with untouched nocore | apply untouched_bind | progress intros | case_match | progress cbv zeta]).

Lemma untouched_fetch fuel resource pb : untouched (GetHttpResponse fuel resource pb).
Proof. unfold GetHttpResponse. untouch. Qed.
Lemma untouched_scan n x pos : untouched (scan n x pos).
Proof. unfold scan. untouch. Qed.
Lemma untouched_key s out : untouched (UncodeTostr s out).
Proof. unfold UncodeTostr. untouch. Qed.
#[local] Hint Resolve untouched_fetch untouched_scan untouched_key : untouched.
Lemma untouched_find_loop n pos name m : untouched (find_loop n pos name m).
Proof. revert pos name m. induction n as [|n IH]; intros pos name m; cbn [find_loop]; unfold cant_find; untouch. Qed.
#[local] Hint Resolve untouched_find_loop : untouched.
Lemma untouched_list resp : untouched (find_resource resp).
Proof. unfold find_resource. untouch. Qed.
Lemma untouched_seek {A} pos tag (dflt : A) k : (forall s, untouched (k s)) -> untouched (seek pos tag dflt k).
Proof. intros Hk. unfold seek, cant_find. untouch. Qed.
Lemma untouched_field {A} tag clean pos (dflt : A) k :
  (forall s, untouched (clean s)) -> (forall s t, untouched (k s t)) -> untouched (field tag clean pos dflt k).
Proof. intros Hc Hk. unfold field. apply untouched_seek. intros s. untouch. Qed.
Lemma untouched_days n pos x dflt k : (forall x, untouched (k x)) -> untouched (days n pos x dflt k).
Proof.
  intros Hk. revert pos x. induction n as [|n IH]; intros pos x; cbn [days]; [done |].
  repeat (apply untouched_field; intros; [unfold deleSpace, deleSpaceforweather; untouch |]). apply IH.
Qed.
Lemma untouched_info resp weather_data : untouched (Get_weather_info resp weather_data).
Proof.
  unfold Get_weather_info. repeat (apply untouched_seek; intros). cbv zeta. apply untouched_bind; [apply untouched_scan |].
  intros name. apply untouched_days. intros x. apply untouched_ret.
Qed.
#[local] Hint Resolve untouched_list untouched_info : untouched.
Lemma untouched_crawl fuel cities resp weather_data : untouched (crawl fuel cities resp weather_data).
Proof. revert resp weather_data. induction cities as [|[k url] cities IH]; intros resp weather_data; cbn [crawl]; untouch. Qed.

Lemma untouched_run {A} (m : CM (crawl_world K D) A) c a c' :
  untouched m -> m c = Ret a c' -> database (prog c') = database (prog c).
Proof. intros Hm E. specialize (Hm c). by rewrite E in Hm. Qed.

(** The calls to the database that a run of main makes. *)
Definition drop_text : list ascii := lit "drop table tianqi".
Definition create_text : list ascii :=
  lit "create table tianqi (id int primary key auto_increment,cityname varchar(30) NOT NULL,info varchar(2000) NOT NULL)charset utf8".
Definition connected (d : D) : D := snd (mysql_real_connect (lit "127.0.0.1") (lit "root") (lit "WKyun123456") (lit "test") 3306 d).
Definition emptied (d : D) : D := snd (mysql_query create_text (snd (mysql_query drop_text (connected d)))).

Lemma main_database fuel c r c' : main fuel c = Ret r c' -> database (prog c') = emptied (database (prog c)).
Proof.
  unfold main. intros H. apply bind_ret_inv in H as ([b [pg|]] & c1 & H1 & H); [|done]. cbn [snd] in H.
  apply bind_ret_inv in H as (m & c2 & H2 & H). cbv zeta in H. apply bind_ret_inv in H as (wd & c3 & H3 & H).
  apply (untouched_run _ _ _ _ (untouched_fetch _ _ _)) in H1. apply (untouched_run _ _ _ _ (untouched_list _)) in H2.
  apply (untouched_run _ _ _ _ (untouched_crawl _ _ _ _)) in H3.
  unfold emptied, connected. rewrite <- H1, <- H2, <- H3. clear H1 H2 H3. revert H.
  unfold on_prog, zoom, begin_connect, delete_table, creat_table, run_sql, on_database, bind, say, zoom. fold drop_text create_text.
  destruct (mysql_real_connect _ _ _ _ _ _) as [b1 d1]. cbn [prog set_prog database set_database snd].
  destruct (mysql_query drop_text d1) as [rc2 d2]. cbn [prog set_prog database set_database snd ret].
  destruct (mysql_query create_text d2) as [rc3 d3]. cbn. by intros [= _ <-].
Qed.

(** A run of main that comes to its end has connected, dropped the table and
    created it, and nothing else: no row is inserted, whatever the pages say,
    because no city is ever put into the list of names the rows are made from. *)
Theorem main_inserts_nothing fuel c r c' : main fuel c = Ret r c' -> database (prog c') = emptied (database (prog c)).
Proof. apply main_database. Qed.

(** When the list page has fewer than 2564 cities, main ends with exit(0)
    (through the handler of SIGSEGV) before it touches the database. *)
Theorem short_list_exits fuel c sock k4 head ls rest :
  connects (lit "/?/Index/quanguo") (kern (os c)) sock k4 -> steady sock -> memory ->
  inp k4 sock = list_page head ls rest -> NUL ∉ inp k4 sock -> Z.of_nat (length (inp k4 sock)) < 2 ^ 30 - 100 ->
  (length (inp k4 sock) < fuel)%nat ->
  fresh TAG0 head -> links_ok TAG0 ls -> (length ls < MAX_CITIES)%nat -> strstr (after_links ls ++ rest) HREF = None ->
  exists c', main fuel c = Exit 0 c' /\ database (prog c') = database (prog c) /\
    cout (prog c') = cout (prog c) ++ lit "can't find " ++ HREF ++ endl.
Proof.
  intros Hcon Hst Hm Hpage Hnul Hmax Hfuel Hh Hls Hn Hno.
  pose proof (GetHttpResponse_spec fuel _ None c sock k4 Hcon Hst Hm Hmax Hfuel) as Hwp.
  apply wp_run in Hwp as (r & c1 & Hrun & SZ & -> & _ & Hp & _). unfold main. rewrite (bind_eq _ _ _ _ _ Hrun). cbn [snd fst].
  unfold bind at 1. rewrite cstr_id, Hpage, find_resource_short by done. eexists. split; [reflexivity |]. by rewrite Hp.
Qed.
End Main.

(** * What the query answers afterwards *)

(** Dropping a table, when it succeeds, leaves none; a new table is empty. *)
Class TableDdlLaws (D : Type) `{!Mysql D} `{!TableLaws D} := {
  drop_law d d' : mysql_query drop_text d = (0, d') -> table d' = ∅;
  create_law d rc d' : mysql_query create_text d = (rc, d') -> table d = ∅ -> table d' = ∅
}.

Section Composition.
Context {K D C : Type} `{!Posix K} `{!PosixLaws K} `{!Internet K} `{!Mysql D} `{!TableLaws D} `{!TableDdlLaws D}
  `{!Libmemcached C} `{!CacheLaws C}.

End Composition.
