(* ===== verification/CrawlerDemo.v ===== *)
(** Runs of the crawler on the small operating system and the small database. *)
From S2P Require Import Prelude CStr Posix CommSocket Weather WeatherThm WeatherDemo Crawler CrawlerThm CrawlerMain PosixDemo.
Local Open Scope Z_scope.

#[export] Instance os_internet : Internet PosixDemo.os := {
  sys_gethostbyname h k := (Some 1, k);
  sys_connect fd a k := (Ok 0, k)
}.
#[export] Program Instance demo_ddl : TableDdlLaws demo_db := {}.
Next Obligation.
  intros d d' H. change (mysql_query drop_text d) with (0, DemoDb ∅ None (drop_text :: d_log d)) in H. by injection H as <-.
Qed.
Next Obligation.
  intros d rc d' H Ht. change (mysql_query create_text d) with (1, DemoDb (d_table d) None (create_text :: d_log d)) in H.
  by injection H as <- <-.
Qed.

Abbreviation demo_crawl := (crawl_world PosixDemo.os demo_db).
(** Descriptor 10 is the first connection. *)
Definition crawl0 (i : Z -> list ascii) : demo_crawl :=
  MkCrawl (proc0 (os0 i [] [])) (MkWorld tt (database demo_world) [] [] []).

Lemma steady_os sock : steady (K := PosixDemo.os) sock.
Proof. by intros n k e k' [=]. Qed.
Lemma memory_os : memory (K := PosixDemo.os).
Proof. intros n k. by exists k. Qed.

(** The character of Xi'an's last syllable, and one with digits F. *)
Definition an : list ascii := map ascii_of_N [229; 174; 137]%N.

Lemma UncodeTostr_keeps_tail_witness :
  exists out, UncodeTostr an (holds (lit "E8A5BFE8A5BF")) (crawl0 (fun _ => [])) = Ret out (crawl0 (fun _ => [])) /\
    cstr out = lit "E5AE89E8A5BF".
Proof.
  apply (UncodeTostr_keeps_tail an (lit "E8A5BFE8A5BF") (crawl0 (fun _ => []))); [vm_compute; lia | vm_compute; lia |].
  repeat constructor; vm_compute; done.
Defined.


(** A page of Xi'an. *)
Definition one_day (n : list ascii) : day :=
  MkDay (lit "<td class=" ++ [quote]) (lit " 05-0" ++ n ++ [HT; LF]) (lit "<td class=" ++ [quote]) (lit " 02sunny ")
    (lit "<b class=" ++ [quote]) (lit "12C") (lit "<b class=" ++ [quote]) (lit "25C ").
Definition xian_page : city_page :=
  MkPage (lit "<html><div id=") (lit "><a target=") (lit "></a>") (lit "Xian") (lit " days ")
    (map (fun n => one_day (lit n)) ["1"; "2"; "3"; "4"; "5"; "6"; "7"]%string) (lit "</html>").

Lemma xian_page_ok : page_ok xian_page.
Proof. repeat (split; [first [by vm_compute | apply (bool_decide_unpack _); by vm_compute | vm_compute; lia] |]); done. Qed.

Lemma Get_weather_info_reads_witness :
  Get_weather_info (show_page xian_page) [] (crawl0 (fun _ => [])) = Ret
    [MkData (map (fun n => lit "05-0" ++ lit n) ["1"; "2"; "3"; "4"; "5"; "6"; "7"]%string) (lit "Xian")
       (replicate 7 (lit "sunny")) (replicate 7 (lit "12C")) (replicate 7 (lit "25C"))] (crawl0 (fun _ => [])).
Proof. apply (Get_weather_info_reads xian_page [] (crawl0 (fun _ => []))). apply xian_page_ok. Defined.

(** What the first connection leads to. *)
Definition sent_request (resource : list ascii) (k : PosixDemo.os) : PosixDemo.os :=
  (d_send (Z.of_nat (d_next k)) (request resource) (set_fds (d_open k) (S (d_next k)) (d_closed k) k)).2.
Lemma connects_os resource k : connects resource k (Z.of_nat (d_next k)) (sent_request resource k).
Proof.
  exists 1, k, (set_fds (d_open k) (S (d_next k)) (d_closed k) k), (set_fds (d_open k) (S (d_next k)) (d_closed k) k), 0,
    (Z.of_nat (length (request resource))). repeat (split; [done || lia |]). lia.
Qed.

Lemma GetHttpResponse_reads_witness :
  exists SZ c', GetHttpResponse 7 (lit "/") None (crawl0 (fun _ => lit "page")) = Ret (true, Some (lit "page", SZ)) c' /\
    Z.of_nat (length (lit "page")) < SZ /\ prog c' = prog (crawl0 (fun _ => lit "page")) /\ blocks (Crawler.os c') = [SZ].
Proof.
  destruct (GetHttpResponse_reads 7 (lit "/") None (crawl0 (fun _ => lit "page")) 10
    (sent_request (lit "/") (os0 (fun _ => lit "page") [] []))) as (SZ & c' & H1 & H2 & H3 & H4).
  - apply (connects_os (lit "/") (os0 (fun _ => lit "page") [] [])).
  - apply steady_os.
  - apply memory_os.
  - by vm_compute.
  - vm_compute. lia.
  - exists SZ, c'. split; [exact H1 |]. split; [exact H2 |]. split; [exact H3 | exact H4].
Defined.

(** A list of one city is too short. *)
Definition an_link : link := MkLink (lit "<a ") (lit "/?/an") (lit " target=" ++ [quote] ++ lit "_") an.
Definition short_page : list ascii := list_page (lit "<div id=" ++ [quote]) [an_link] (lit "/a></div>").
Definition short_crawl : demo_crawl := crawl0 (fun _ => short_page).
Lemma short_list_exits_witness :
  exists c', main 500 short_crawl = Exit 0 c' /\ database (prog c') = database (prog short_crawl) /\
    cout (prog c') = [] ++ lit "can't find " ++ HREF ++ endl.
Proof.
  apply (short_list_exits 500 short_crawl 10 (sent_request (lit "/?/Index/quanguo") (os0 (fun _ => short_page) [] []))
    (lit "<div id=" ++ [quote]) [an_link] (lit "/a></div>")).
  - apply (connects_os _ (os0 (fun _ => short_page) [] [])).
  - apply steady_os.
  - apply memory_os.
  - reflexivity.
  - apply (bool_decide_unpack (NUL ∉ short_page)). by vm_compute.
  - by vm_compute.
  - vm_compute. lia.
  - by vm_compute.
  - repeat split; first [by vm_compute | apply (bool_decide_unpack _); by vm_compute | vm_compute; lia].
  - unfold MAX_CITIES. simpl. lia.
  - by vm_compute.
Defined.


