(* ===== verification/System.v ===== *)
(** The parts together: a request for the weather of a city, from the process
    the web server starts for it to what the client receives. *)
From S2P Require Import Prelude CStr Posix PosixDemo CommSocket CommSocketThm Httpd HttpdThm HttpdServe Weather WeatherThm WeatherDemo.
Local Open Scope Z_scope.

Section System.
Context {K C D : Type} `{!Posix K} `{!PosixLaws K} `{!Libmemcached C} `{!Mysql D} `{!CacheLaws C} `{!TableLaws D}.
Implicit Type p : proc K.




End System.



