(* ===== verification/Assoc.v ===== *)
(** The hash table of the cache server (lib/memcached-1.4.25/assoc.c): chains of
    items in two tables while the table grows, the operations on them, and the
    steps of the maintenance thread. *)
From S2P Require Import Prelude CStr.
Local Open Scope Z_scope.

(** The address of an item; null is [None]. *)
Abbreviation ptr := positive.

(** [ITEM_key(it)] with [it->nkey], and [it->h_next], of the items in memory, and
    the variables of the file. *)
Record assoc := MkAssoc {
  item_key : gmap ptr (list ascii);
  h_next : gmap ptr (option ptr);
  hashpower : Z;
  primary_hashtable : list (option ptr);
  old_hashtable : list (option ptr);
  hash_items : Z;
  expanding : bool;
  started_expanding : bool;
  expand_bucket : Z
}.
Abbreviation AM := (CM assoc).

Definition set_h_next v s := MkAssoc (item_key s) v (hashpower s) (primary_hashtable s) (old_hashtable s) (hash_items s) (expanding s) (started_expanding s) (expand_bucket s).
Definition set_hashpower v s := MkAssoc (item_key s) (h_next s) v (primary_hashtable s) (old_hashtable s) (hash_items s) (expanding s) (started_expanding s) (expand_bucket s).
Definition set_primary v s := MkAssoc (item_key s) (h_next s) (hashpower s) v (old_hashtable s) (hash_items s) (expanding s) (started_expanding s) (expand_bucket s).
Definition set_old v s := MkAssoc (item_key s) (h_next s) (hashpower s) (primary_hashtable s) v (hash_items s) (expanding s) (started_expanding s) (expand_bucket s).
Definition set_hash_items v s := MkAssoc (item_key s) (h_next s) (hashpower s) (primary_hashtable s) (old_hashtable s) v (expanding s) (started_expanding s) (expand_bucket s).
Definition set_expanding v s := MkAssoc (item_key s) (h_next s) (hashpower s) (primary_hashtable s) (old_hashtable s) (hash_items s) v (started_expanding s) (expand_bucket s).
Definition set_started v s := MkAssoc (item_key s) (h_next s) (hashpower s) (primary_hashtable s) (old_hashtable s) (hash_items s) (expanding s) v (expand_bucket s).
Definition set_expand_bucket v s := MkAssoc (item_key s) (h_next s) (hashpower s) (primary_hashtable s) (old_hashtable s) (hash_items s) (expanding s) (started_expanding s) v.

(** [ub4] is an unsigned long, of 64 bits. *)
Definition hashsize (n : Z) : Z := u64 (Z.shiftl 1 n).
Definition hashmask (n : Z) : Z := u64 (hashsize n - 1).

(** Fields of items. *)
Definition key_of (it : ptr) : AM (list ascii) := get_or_undef (fun s => item_key s !! it).
Definition next_of (it : ptr) : AM (option ptr) := get_or_undef (fun s => h_next s !! it).
Definition put_next (it : ptr) (v : option ptr) : AM unit :=
  next_of it ;;; modify (fun s => set_h_next (<[it := v]> (h_next s)) s).

(** An entry of a table: of the old one or of the primary one. *)
Definition table (old : bool) (s : assoc) : list (option ptr) := if old then old_hashtable s else primary_hashtable s.
Definition put_table (old : bool) v (s : assoc) : assoc := if old then set_old v s else set_primary v s.
Definition bucket : Type := bool * Z.
Definition read_bucket (b : bucket) : AM (option ptr) := get_or_undef (fun s => if b.2 <? 0 then None else table b.1 s !! Z.to_nat b.2).
Definition write_bucket (b : bucket) (v : option ptr) : AM unit :=
  read_bucket b ;;; modify (fun s => put_table b.1 (<[Z.to_nat b.2 := v]> (table b.1 s)) s).

(** Where the operations look for a hash value. *)
Definition home (s : assoc) (hv : Z) : bucket :=
  let oldbucket := Z.land hv (hashmask (hashpower s - 1)) in
  if expanding s && (expand_bucket s <=? oldbucket) then (true, oldbucket) else (false, Z.land hv (hashmask (hashpower s))).

(** [calloc_ok]: whether calloc succeeds; exit(EXIT_FAILURE) otherwise. *)
Definition HASHPOWER_DEFAULT : Z := 16.
Definition assoc_init (calloc_ok : bool) (hashtable_init : Z) : AM unit :=
  (if hashtable_init =? 0 then ret tt else modify (set_hashpower hashtable_init)) ;;;
  if calloc_ok then modify (fun s => set_primary (replicate (Z.to_nat (hashsize (hashpower s))) None) s)
  else exit 1.

Definition same_key (a b : list ascii) : bool := bool_decide (a = b).
Fixpoint find_chain (fuel : nat) (key : list ascii) (it : option ptr) : AM (option ptr) :=
  match it with
  | None => ret None
  | Some x =>
      match fuel with
      | O => nofuel
      | S fuel =>
          k <- key_of x ;;
          if same_key key k then ret (Some x) else n <- next_of x ;; find_chain fuel key n
      end
  end.
(** A chain is no longer than there are items. *)
Definition items_bound (s : assoc) : nat := size (h_next s).
Definition assoc_find (key : list ascii) (hv : Z) : AM (option ptr) :=
  b <- gets (fun s => home s hv) ;;
  it <- read_bucket b ;;
  fuel <- gets items_bound ;;
  find_chain fuel key it.

(** An [item **]: an entry of a table or the [h_next] of an item. *)
Inductive place := InBucket (b : bucket) | InItem (it : ptr).
Definition read_place (p : place) : AM (option ptr) := match p with InBucket b => read_bucket b | InItem it => next_of it end.
Definition write_place (p : place) (v : option ptr) : AM unit :=
  match p with InBucket b => write_bucket b v | InItem it => put_next it v end.
Fixpoint before_chain (fuel : nat) (key : list ascii) (pos : place) : AM place :=
  p <- read_place pos ;;
  match p with
  | None => ret pos
  | Some x =>
      k <- key_of x ;;
      if same_key key k then ret pos
      else match fuel with O => nofuel | S fuel => before_chain fuel key (InItem x) end
  end.
Definition _hashitem_before (key : list ascii) (hv : Z) : AM place :=
  b <- gets (fun s => home s hv) ;;
  fuel <- gets items_bound ;;
  before_chain fuel key (InBucket b).

(** The signal to the maintenance thread changes no variable here. *)
Definition assoc_start_expand : AM unit :=
  b <- gets started_expanding ;;
  if b : bool then ret tt else modify (set_started true).

Definition assoc_insert (it : ptr) (hv : Z) : AM Z :=
  b <- gets (fun s => home s hv) ;;
  old <- read_bucket b ;;
  put_next it old ;;;
  write_bucket b (Some it) ;;;
  modify (fun s => set_hash_items (u32 (hash_items s + 1)) s) ;;;
  s <- gets (fun s => s) ;;
  (if negb (expanding s) && (hash_items s >? hashsize (hashpower s) * 3 / 2) then assoc_start_expand else ret tt) ;;;
  ret 1.

(** The assertion at the end fails when there is no such item. *)
Definition assoc_delete (key : list ascii) (hv : Z) : AM unit :=
  before <- _hashitem_before key hv ;;
  p <- read_place before ;;
  match p with
  | Some x =>
      modify (fun s => set_hash_items (u32 (hash_items s - 1)) s) ;;;
      nxt <- next_of x ;;
      put_next x None ;;;
      write_place before nxt
  | None => undef
  end.

(** ** The maintenance thread *)

Definition assoc_expand (calloc_ok : bool) : AM unit :=
  modify (fun s => set_old (primary_hashtable s) s) ;;;
  if calloc_ok then
    modify (fun s => set_primary (replicate (Z.to_nat (hashsize (hashpower s + 1))) None) s) ;;;
    modify (fun s => set_hashpower (hashpower s + 1) s) ;;;
    modify (set_expanding true) ;;;
    modify (set_expand_bucket 0)
  else modify (fun s => set_primary (old_hashtable s) s).

Section Hash.
(** [hash]: one of the functions that hash.c chooses between. *)
Variable hash : list ascii -> Z.

(** The items of an old bucket, one by one to the front of their new chain;
    [bucket] is an int. *)
Fixpoint move_items (fuel : nat) (it : option ptr) : AM unit :=
  match it with
  | None => ret tt
  | Some x =>
      match fuel with
      | O => nofuel
      | S fuel =>
          next <- next_of x ;;
          k <- key_of x ;;
          hp <- gets hashpower ;;
          let bucket := i32 (Z.land (hash k) (hashmask hp)) in
          old <- read_bucket (false, bucket) ;;
          put_next x old ;;;
          write_bucket (false, bucket) (Some x) ;;;
          move_items fuel next
      end
  end.
Definition move_bucket : AM unit :=
  eb <- gets expand_bucket ;;
  it <- read_bucket (true, eb) ;;
  fuel <- gets items_bound ;;
  move_items fuel it ;;;
  write_bucket (true, eb) None ;;;
  modify (fun s => set_expand_bucket (u32 (expand_bucket s + 1)) s) ;;;
  s <- gets (fun s => s) ;;
  if expand_bucket s =? hashsize (hashpower s - 1) then modify (set_expanding false) else ret tt.

(** A round of the inner loop, [locked]: whether the item lock was free; and one
    pass of the thread: [hash_bulk_move] rounds, then, unless it is still
    expanding, the wait for a signal and the next expansion. *)
Fixpoint bulk_move (locked : list bool) : AM unit :=
  match locked with
  | [] => ret tt
  | l :: locked =>
      e <- gets expanding ;;
      if e : bool then (if l : bool then move_bucket else ret tt) ;;; bulk_move locked else ret tt
  end.
Definition assoc_maintenance_pass (locked : list bool) (calloc_ok : bool) : AM unit :=
  bulk_move locked ;;;
  e <- gets expanding ;;
  if e : bool then ret tt
  else modify (set_started false) ;;; assoc_expand calloc_ok.
End Hash.

(** start_assoc_maintenance_thread: the number of rounds, from the environment. *)
Definition DEFAULT_HASH_BULK_MOVE : Z := 1.
Definition hash_bulk_move (env : option (list ascii)) : Z :=
  match env with
  | Some s => if atoi s =? 0 then DEFAULT_HASH_BULK_MOVE else atoi s
  | None => DEFAULT_HASH_BULK_MOVE
  end.
