(* ===== verification/AssocThm.v ===== *)
(** The hash table of the cache server implements a finite map from keys to
    items, also while it grows. *)
From S2P Require Import Prelude CStr Assoc.
Local Open Scope Z_scope.

(** * Chains *)

(** The items from [p] on, along [h_next]. *)
Fixpoint chain (hn : gmap ptr (option ptr)) (p : option ptr) (l : list ptr) : Prop :=
  match l with
  | [] => p = None
  | x :: l => p = Some x /\ exists n, hn !! x = Some n /\ chain hn n l
  end.

Lemma chain_frame hn x v p l : x ∉ l -> chain hn p l -> chain (<[x := v]> hn) p l.
Proof.
  revert p. induction l as [|y l IH]; intros p Hx; [done |]. rewrite not_elem_of_cons in Hx. intros (-> & n & Hn & Hc).
  split; [done |]. exists n. rewrite lookup_insert_ne by naive_solver. split; [done |]. apply IH; [tauto | done].
Qed.
Lemma chain_dom hn p l x : chain hn p l -> x ∈ l -> is_Some (hn !! x).
Proof.
  revert p. induction l as [|y l IH]; intros p; [by intros _ ?%not_elem_of_nil |]. intros (-> & n & Hn & Hc) [->|Hx]%elem_of_cons; [by eexists | by eapply IH].
Qed.
Lemma chain_length hn p l : chain hn p l -> NoDup l -> (length l <= size hn)%nat.
Proof.
  intros Hc Hnd. rewrite <- (size_list_to_set (C := gset ptr) l Hnd), <- (size_dom hn). apply subseteq_size.
  intros x Hx%elem_of_list_to_set. apply elem_of_dom. by eapply chain_dom.
Qed.
Lemma chain_cons hn x p l : x ∉ l -> chain hn p l -> is_Some (hn !! x) -> chain (<[x := p]> hn) (Some x) (x :: l).
Proof. intros Hx Hc _. split; [done |]. exists p. rewrite lookup_insert_eq. split; [done |]. by apply chain_frame. Qed.
Lemma chain_agree hn hn' p l : (forall x, x ∈ l -> hn' !! x = hn !! x) -> chain hn p l -> chain hn' p l.
Proof.
  revert p. induction l as [|y l IH]; intros p H; [done |]. intros (-> & n & Hn & Hc). split; [done |]. exists n.
  rewrite H by set_solver. split; [done |]. apply IH; [set_solver | done].
Qed.
(** A chain, taken apart at one of its items, and with that item taken out. *)
Lemma chain_app hn p l1 x l2 :
  chain hn p (l1 ++ x :: l2) -> exists n, hn !! x = Some n /\ chain hn n l2.
Proof. revert p. induction l1 as [|y l1 IH]; intros p; simpl; [by intros (_ & n & ?) ; exists n | intros (_ & n & _ & Hc); by eapply IH]. Qed.
Lemma chain_unlink hn p y l1 x l2 n :
  NoDup (l1 ++ y :: x :: l2) -> chain hn p (l1 ++ y :: x :: l2) -> hn !! x = Some n ->
  chain (<[y := n]> (<[x := None]> hn)) p (l1 ++ y :: l2).
Proof.
  revert p. induction l1 as [|z l1 IH]; intros p Hnd Hc Hx; cbn [app chain] in *.
  - destruct Hc as (-> & ny & Hy & _ & nx & Hnx & Hc). split; [done |]. exists n. rewrite lookup_insert_eq. split; [done |].
    rewrite Hnx in Hx. injection Hx as ->. apply NoDup_cons in Hnd as [Hy' [Hx' _]%NoDup_cons].
    rewrite not_elem_of_cons in Hy'. apply chain_frame; [tauto |]. by apply chain_frame.
  - destruct Hc as (-> & nz & Hz & Hc). apply NoDup_cons in Hnd as [Hzl Hnd]. split; [done |]. exists nz.
    rewrite !not_elem_of_app, !not_elem_of_cons in Hzl. rewrite !lookup_insert_ne by naive_solver. split; [done |]. by apply IH.
Qed.

(** * The state *)

Section Rep.
Variable hash : list ascii -> Z.
Hypothesis hash_range : forall k, 0 <= hash k < 2 ^ 32.

Lemma hashsize_pow n : 0 <= n <= 62 -> hashsize n = 2 ^ n.
Proof.
  intros H. unfold hashsize. rewrite Z.shiftl_1_l. apply u64_small.
  split; [apply Z.pow_nonneg; lia |]. change 18446744073709551616 with (2 ^ 64). apply Z.pow_lt_mono_r; lia.
Qed.
Lemma masked hv n : 0 <= n <= 62 -> 0 <= hv -> 0 <= Z.land hv (hashmask n) < 2 ^ n.
Proof.
  intros Hn Hv. unfold hashmask. rewrite hashsize_pow by lia. assert (0 < 2 ^ n) by (apply Z.pow_pos_nonneg; lia).
  assert (2 ^ n <= 2 ^ 62) by (apply Z.pow_le_mono_r; lia). change (2 ^ 62) with 4611686018427387904 in *.
  rewrite u64_small by lia. replace (2 ^ n - 1) with (Z.ones n) by (rewrite Z.ones_equiv; lia). rewrite Z.land_ones by lia.
  apply Z.mod_pos_bound. lia.
Qed.

(** The buckets of a state. *)
Definition valid (s : assoc) (b : bucket) : Prop :=
  0 <= b.2 /\ (if b.1 then expanding s = true /\ b.2 < 2 ^ (hashpower s - 1) else b.2 < 2 ^ hashpower s).
Definition sized (s : assoc) : Prop :=
  1 <= hashpower s <= 62 /\ Z.of_nat (length (primary_hashtable s)) = 2 ^ hashpower s /\
  (expanding s = true -> Z.of_nat (length (old_hashtable s)) = 2 ^ (hashpower s - 1) /\ 0 <= expand_bucket s < 2 ^ (hashpower s - 1)).

(** [B b] are the items of bucket [b], [m] the item of each key. An item is in the
    bucket where its key is looked for. *)
Record rep_with (s : assoc) (B : bucket -> list ptr) (m : gmap (list ascii) ptr) : Prop := {
  r_sized : sized s;
  r_chain b p : valid s b -> table b.1 s !! Z.to_nat b.2 = Some p -> chain (h_next s) p (B b);
  r_home b x : x ∈ B b -> valid s b /\ exists k, item_key s !! x = Some k /\ home s (hash k) = b;
  r_nodup b : NoDup (B b);
  r_map k x : m !! k = Some x <-> x ∈ B (home s (hash k)) /\ item_key s !! x = Some k;
  r_count : hash_items s = u32 (Z.of_nat (size m))
}.
Definition rep (s : assoc) (m : gmap (list ascii) ptr) : Prop := exists B, rep_with s B m.

Lemma home_valid s k : sized s -> valid s (home s (hash k)).
Proof.
  intros (Hp & _ & _). unfold home, valid. pose proof (hash_range k) as Hh.
  pose proof (masked (hash k) (hashpower s) ltac:(lia) ltac:(lia)). pose proof (masked (hash k) (hashpower s - 1) ltac:(lia) ltac:(lia)).
  destruct (expanding s && _) eqn:E; cbn [fst snd]; [|lia]. apply andb_prop in E as [E _]. split; [lia |]. split; [done | lia].
Qed.
Lemma valid_lookup s b : sized s -> valid s b -> is_Some (table b.1 s !! Z.to_nat b.2).
Proof.
  intros (Hp & Hl & Ho) [H0 H]. apply lookup_lt_is_Some. destruct b as [[|] i]; cbn [table fst snd] in *.
  - destruct H as [He H]. destruct (Ho He) as [Hlo _]. lia.
  - lia.
Qed.

(** The bucket of a key: its entry in the table and its chain. *)
Lemma home_bucket s B m k : rep_with s B m ->
  exists p, table (home s (hash k)).1 s !! Z.to_nat (home s (hash k)).2 = Some p /\ chain (h_next s) p (B (home s (hash k))) /\
    (length (B (home s (hash k))) <= items_bound s)%nat.
Proof.
  intros R. pose proof (home_valid s k (r_sized _ _ _ R)) as Hv. destruct (valid_lookup s _ (r_sized _ _ _ R) Hv) as [p Hp].
  pose proof (r_chain _ _ _ R _ _ Hv Hp) as Hc. exists p. split; [done |]. split; [done |].
  apply (chain_length _ _ _ Hc), (r_nodup _ _ _ R).
Qed.
Lemma wp_read_bucket s b p (Q : option ptr -> assoc -> Prop) :
  0 <= b.2 -> table b.1 s !! Z.to_nat b.2 = Some p -> Q p s -> wp (read_bucket b) s Q.
Proof. intros H0 H HQ. eapply wp_get_or_undef; [|exact HQ]. by rewrite (proj2 (Z.ltb_ge _ _) H0). Qed.

(** * find *)

Lemma find_chain_spec fuel key p l s :
  chain (h_next s) p l -> (length l <= fuel)%nat -> (forall x, x ∈ l -> is_Some (item_key s !! x)) ->
  wp (find_chain fuel key p) s (fun r s' => s' = s /\
    match r with Some x => x ∈ l /\ item_key s !! x = Some key | None => forall x, x ∈ l -> item_key s !! x <> Some key end).
Proof.
  revert fuel p. induction l as [|x l IH]; intros fuel p Hc Hf Hk.
  - simpl in Hc. subst p. destruct fuel; (split; [done | by intros x ?%not_elem_of_nil]).
  - destruct Hc as (-> & n & Hn & Hc). destruct fuel as [|fuel]; [simpl in Hf; lia |]. cbn [find_chain].
    destruct (Hk x ltac:(set_solver)) as [k Hkx]. apply wp_bind. eapply wp_get_or_undef; [exact Hkx |].
    unfold same_key. case_bool_decide as Hkey.
    + subst k. apply wp_ret. split; [done |]. split; [set_solver | done].
    + apply wp_bind. eapply wp_get_or_undef; [exact Hn |]. eapply wp_mono; [apply IH; [done | simpl in Hf; lia | set_solver] |].
      intros r s' [-> Hr]. split; [done |]. destruct r as [y|]; [set_solver |]. intros y [->|Hy]%elem_of_cons; [congruence | by apply Hr].
Qed.

Lemma assoc_find_spec s m k : rep s m -> wp (assoc_find k (hash k)) s (fun r s' => s' = s /\ r = m !! k).
Proof.
  intros [B R]. destruct (home_bucket s B m k R) as (p & Hp & Hc & Hl). unfold assoc_find. apply wp_bind, wp_gets, wp_bind.
  eapply wp_read_bucket; [apply (home_valid s k (r_sized _ _ _ R)) | exact Hp |]. apply wp_bind, wp_gets. eapply wp_mono; [apply find_chain_spec; [exact Hc | done |] |].
  - intros x Hx. destruct (r_home _ _ _ R _ _ Hx) as (_ & k' & Hk' & _). by exists k'.
  - intros r s' [-> Hr]. split; [done |]. destruct r as [x|].
    + symmetry. by apply (r_map _ _ _ R).
    + destruct (m !! k) as [x|] eqn:E; [|done]. apply (r_map _ _ _ R) in E as [Hx Hk]. by destruct (Hr x Hx).
Qed.

(** Items of the table. *)
Lemma rep_item s m k x : rep s m -> m !! k = Some x -> item_key s !! x = Some k /\ is_Some (h_next s !! x).
Proof.
  intros [B R] Hx%(r_map _ _ _ R). destruct Hx as [Hin Hk]. split; [done |]. destruct (home_bucket s B m k R) as (p & _ & Hc & _).
  by eapply chain_dom.
Qed.
Lemma in_bucket s B m b x : rep_with s B m -> x ∈ B b -> exists k, item_key s !! x = Some k /\ m !! k = Some x.
Proof.
  intros R Hx. destruct (r_home _ _ _ R _ _ Hx) as (_ & k & Hk & Hh). exists k. split; [done |]. apply (r_map _ _ _ R). by rewrite Hh.
Qed.

(** * Changing one bucket *)

(** What insert and delete leave alone, and what every operation leaves alone. *)
Definition same_shape (s s' : assoc) : Prop :=
  item_key s' = item_key s /\ hashpower s' = hashpower s /\ expanding s' = expanding s /\ expand_bucket s' = expand_bucket s /\
  (forall o, length (table o s') = length (table o s)).
Definition same_items (s s' : assoc) : Prop := item_key s' = item_key s /\ dom (h_next s') = dom (h_next s).

Lemma same_home s s' hv : same_shape s s' -> home s' hv = home s hv.
Proof. intros (_ & H1 & H2 & H3 & _). unfold home. by rewrite H1, H2, H3. Qed.
Lemma same_valid s s' b : same_shape s s' -> valid s' b <-> valid s b.
Proof. intros (_ & H1 & H2 & _). unfold valid. by rewrite H1, H2. Qed.
Lemma same_sized s s' : same_shape s s' -> sized s -> sized s'.
Proof.
  intros (_ & H1 & H2 & H3 & H4). unfold sized. rewrite H1, H2, H3. specialize (H4 false) as Hp. specialize (H4 true) as Ho.
  cbn [table] in Hp, Ho. by rewrite Hp, Ho.
Qed.

Definition rebucket (B : bucket -> list ptr) (b : bucket) (l : list ptr) : bucket -> list ptr := fun b' => if decide (b' = b) then l else B b'.

Lemma rep_rebucket s s' B m m' b l :
  rep_with s B m -> same_shape s s' -> valid s b ->
  (forall p, table b.1 s' !! Z.to_nat b.2 = Some p -> chain (h_next s') p l) ->
  (forall b', valid s b' -> b' <> b -> table b'.1 s' !! Z.to_nat b'.2 = table b'.1 s !! Z.to_nat b'.2) ->
  (forall b' p, b' <> b -> chain (h_next s) p (B b') -> chain (h_next s') p (B b')) ->
  NoDup l -> (forall x, x ∈ l -> exists k, item_key s !! x = Some k /\ home s (hash k) = b) ->
  (forall k x, m' !! k = Some x <-> x ∈ rebucket B b l (home s (hash k)) /\ item_key s !! x = Some k) ->
  hash_items s' = u32 (Z.of_nat (size m')) -> rep_with s' (rebucket B b l) m'.
Proof.
  intros R Hsh Hv Hl Hother Hframe Hnd Hhome Hm Hc. pose proof Hsh as (Hk & _). unfold rebucket in *. constructor.
  - eapply same_sized; [done | apply R].
  - intros b' p Hv' Hp. rewrite (same_valid s s') in Hv' by done. case_decide as E; [subst b'; by apply Hl |].
    apply Hframe; [done |]. apply (r_chain _ _ _ R); [done |]. by rewrite <- Hother.
  - intros b' x Hx. rewrite (same_valid s s'), Hk by done. case_decide as E.
    + subst b'. destruct (Hhome x Hx) as (k & Hkx & Hb). split; [done |]. exists k. by rewrite (same_home s s').
    + destruct (r_home _ _ _ R _ _ Hx) as (Hv' & k & Hkx & Hb). split; [done |]. exists k. by rewrite (same_home s s').
  - intros b'. case_decide; [done | apply R].
  - intros k x. rewrite (same_home s s'), Hk by done. apply Hm.
  - done.
Qed.

(** A table with one entry written. *)
Definition written (b : bucket) (v : option ptr) (s : assoc) : assoc := put_table b.1 (<[Z.to_nat b.2 := v]> (table b.1 s)) s.
Lemma written_table b v s o : table o (written b v s) = if decide (o = b.1) then <[Z.to_nat b.2 := v]> (table o s) else table o s.
Proof. unfold written. destruct b as [[|] i], o; cbn; by rewrite ?decide_True, ?decide_False by done. Qed.
Lemma written_shape b v s : same_shape s (written b v s).
Proof.
  unfold same_shape. split; [by destruct b as [[|] ?] |]. split; [by destruct b as [[|] ?] |]. split; [by destruct b as [[|] ?] |].
  split; [by destruct b as [[|] ?] |]. intros o. rewrite written_table. case_decide; [apply length_insert | done].
Qed.
Lemma written_next b v s : h_next (written b v s) = h_next s.
Proof. by destruct b as [[|] ?]. Qed.
Lemma written_lookup b v s : is_Some (table b.1 s !! Z.to_nat b.2) -> table b.1 (written b v s) !! Z.to_nat b.2 = Some v.
Proof. intros H. rewrite written_table, decide_True by done. apply list_lookup_insert_eq. by apply lookup_lt_is_Some. Qed.
Lemma written_lookup_ne b v s b' : 0 <= b.2 -> 0 <= b'.2 -> b' <> b ->
  table b'.1 (written b v s) !! Z.to_nat b'.2 = table b'.1 s !! Z.to_nat b'.2.
Proof.
  intros H H' Hne. rewrite written_table. case_decide as E; [|done]. apply list_lookup_insert_ne. intros Hi. apply Hne.
  destruct b, b'. simpl in *. f_equal; [done | lia].
Qed.
Lemma wp_write_bucket b v s (Q : unit -> assoc -> Prop) :
  0 <= b.2 -> is_Some (table b.1 s !! Z.to_nat b.2) -> Q tt (written b v s) -> wp (write_bucket b v) s Q.
Proof. intros H0 [p Hp] HQ. unfold write_bucket. apply wp_bind. eapply wp_read_bucket; [exact H0 | exact Hp |]. by apply wp_modify. Qed.
Lemma wp_put_next x v s (Q : unit -> assoc -> Prop) :
  is_Some (h_next s !! x) -> Q tt (set_h_next (<[x := v]> (h_next s)) s) -> wp (put_next x v) s Q.
Proof. intros [n Hn] HQ. unfold put_next. apply wp_bind. eapply wp_get_or_undef; [exact Hn |]. by apply wp_modify. Qed.

Lemma shape_trans s1 s2 s3 : same_shape s1 s2 -> same_shape s2 s3 -> same_shape s1 s3.
Proof. unfold same_shape. intros (A1 & A2 & A3 & A4 & A5) (B1 & B2 & B3 & B4 & B5). repeat (split; [congruence |]). intros o. by rewrite B5. Qed.
Lemma dom_put x v (hn : gmap ptr (option ptr)) : is_Some (hn !! x) -> dom (<[x := v]> hn) = dom hn.
Proof. intros H. apply dom_insert_lookup_L, H. Qed.

(** * insert *)

Lemma assoc_insert_spec s m k it :
  rep s m -> item_key s !! it = Some k -> is_Some (h_next s !! it) -> m !! k = None ->
  wp (assoc_insert it (hash k)) s (fun r s' => r = 1 /\ rep s' (<[k := it]> m) /\ same_items s s' /\ hashpower s' = hashpower s).
Proof.
  intros [B R] Hk Hit Hm. set (b := home s (hash k)).
  pose proof (home_valid s k (r_sized _ _ _ R)) as Hv. fold b in Hv. destruct (home_bucket s B m k R) as (p & Hp & Hc & _). fold b in Hp, Hc.
  assert (Hfresh : forall b', it ∉ B b').
  { intros b' Hin. destruct (in_bucket s B m b' it R Hin) as (k' & Hk' & Hm'). congruence. }
  unfold assoc_insert. apply wp_bind, wp_gets. fold b. apply wp_bind. eapply wp_read_bucket; [apply Hv | exact Hp |].
  apply wp_bind, wp_put_next; [done |]. set (s1 := set_h_next _ s).
  apply wp_bind, wp_write_bucket; [apply Hv | by exists p |]. apply wp_bind, wp_modify. set (s3 := set_hash_items _ (written b (Some it) s1)).
  assert (Hsh : same_shape s s3).
  { apply (shape_trans _ s1); [done |]. destruct (written_shape b (Some it) s1) as (? & ? & ? & ? & Hlen). repeat (split; [done |]). exact Hlen. }
  assert (R3 : rep_with s3 (rebucket B b (it :: B b)) (<[k := it]> m)).
  { apply (rep_rebucket s s3 B m); try done.
    - intros p' Hp'. change (table b.1 (written b (Some it) s1) !! Z.to_nat b.2 = Some p') in Hp'.
      rewrite written_lookup in Hp' by (by exists p). injection Hp' as <-. change (h_next s3) with (h_next (written b (Some it) s1)).
      rewrite written_next. by apply chain_cons.
    - intros b' Hv' Hne. change (table b'.1 s3) with (table b'.1 (written b (Some it) s1)).
      rewrite written_lookup_ne; [done | apply Hv | apply Hv' | done].
    - intros b' p' _ Hc'. change (h_next s3) with (h_next (written b (Some it) s1)). rewrite written_next. apply chain_frame; [apply Hfresh | done].
    - apply NoDup_cons. split; [apply Hfresh | apply R].
    - intros x [->|Hx]%elem_of_cons; [by exists k |]. apply (r_home _ _ _ R) in Hx as (_ & k' & ? & ?). by exists k'.
    - intros k' x. unfold rebucket. case_decide as E.
      + rewrite elem_of_cons, lookup_insert_Some. split.
        * intros [[<- <-]|[Hne Hx]]; [tauto |]. apply (r_map _ _ _ R) in Hx. rewrite E in Hx. tauto.
        * intros [[->|Hx] Hkx]; [left; by assert (k' = k) as -> by congruence |]. right. split; [intros -> |].
          -- destruct (in_bucket s B m _ _ R Hx) as (k2 & Hk2 & Hm2). congruence.
          -- apply (r_map _ _ _ R). by rewrite E.
      + rewrite lookup_insert_ne by (by intros ->). apply R.
    - rewrite map_size_insert_None by done. simpl. destruct b as [[|] ?]; simpl; rewrite (r_count _ _ _ R); unfold u32, wrap_u;
        rewrite Zplus_mod_idemp_l; f_equal; lia. }
  assert (Hhp3 : hashpower s3 = hashpower s) by apply Hsh.
  assert (Hsi : same_items s s3).
  { split; [apply Hsh |]. change (h_next s3) with (h_next (written b (Some it) s1)). rewrite written_next. by apply dom_put. }
  apply wp_bind, wp_gets. apply wp_bind.
  assert (Hdone : forall s', s' = s3 \/ s' = set_started true s3 -> wp (ret 1) s' (fun r s' => r = 1 /\ rep s' (<[k := it]> m) /\ same_items s s' /\ hashpower s' = hashpower s)).
  { intros s' [-> | ->]; apply wp_ret; (split; [done |]); (split; [|split; done]); exists (rebucket B b (it :: B b)); [done |]. by destruct R3. }
  destruct (negb _ && _); [|apply wp_ret, Hdone; by left].
  unfold assoc_start_expand. apply wp_bind, wp_gets. destruct (started_expanding s3); [apply wp_ret, Hdone; by left | apply wp_modify, Hdone; by right].
Qed.

(** * delete *)

Definition at_place (s : assoc) (pos : place) (p : option ptr) : Prop :=
  match pos with InBucket b => 0 <= b.2 /\ table b.1 s !! Z.to_nat b.2 = Some p | InItem y => h_next s !! y = Some p end.
Lemma wp_read_place s pos p (Q : option ptr -> assoc -> Prop) : at_place s pos p -> Q p s -> wp (read_place pos) s Q.
Proof. destruct pos as [b|y]; intros H HQ; [destruct H; by eapply wp_read_bucket | by eapply wp_get_or_undef]. Qed.

Lemma before_chain_spec fuel key pos p l s :
  at_place s pos p -> chain (h_next s) p l -> (length l <= fuel)%nat -> (forall x, x ∈ l -> is_Some (item_key s !! x)) ->
  wp (before_chain fuel key pos) s (fun pos' s' => s' = s /\
    ((exists l1 x l2, l = l1 ++ x :: l2 /\ item_key s !! x = Some key /\ at_place s pos' (Some x) /\
       pos' = match last l1 with Some y => InItem y | None => pos end) \/
     (at_place s pos' None /\ forall x, x ∈ l -> item_key s !! x <> Some key))).
Proof.
  revert fuel pos p. induction l as [|x l IH]; intros fuel pos p Hpos Hc Hf Hk.
  - simpl in Hc. subst p. destruct fuel; cbn [before_chain]; apply wp_bind; (eapply wp_read_place; [exact Hpos |]); apply wp_ret;
      (split; [done |]); right; (split; [done | by intros x ?%not_elem_of_nil]).
  - destruct Hc as (-> & n & Hn & Hc). destruct (Hk x ltac:(set_solver)) as [k Hkx].
    destruct fuel as [|fuel]; [simpl in Hf; lia |]. cbn [before_chain]. apply wp_bind. eapply wp_read_place; [exact Hpos |].
    apply wp_bind. eapply wp_get_or_undef; [exact Hkx |]. unfold same_key. case_bool_decide as Hkey.
    + subst k. apply wp_ret. split; [done |]. left. by exists [], x, l.
    + eapply wp_mono; [apply (IH fuel (InItem x) n); [done | done | simpl in Hf; lia | set_solver] |].
      intros pos' s' [-> [(l1 & y & l2 & -> & Hy & Hp & Hlast)|[Hp Hno]]]; (split; [done |]); [left | right].
      * exists (x :: l1), y, l2. split; [done |]. split; [done |]. split; [done |]. rewrite Hlast, last_cons. by destruct (last l1).
      * split; [done |]. intros y [->|Hy]%elem_of_cons; [congruence | by apply Hno].
Qed.

Lemma assoc_delete_spec s m k x :
  rep s m -> m !! k = Some x ->
  wp (assoc_delete k (hash k)) s (fun _ s' => rep s' (delete k m) /\ same_items s s' /\ h_next s' !! x = Some None /\ hashpower s' = hashpower s).
Proof.
  intros [B R] Hx. set (b := home s (hash k)).
  pose proof (home_valid s k (r_sized _ _ _ R)) as Hv. fold b in Hv. destruct (home_bucket s B m k R) as (p & Hp & Hc & Hlen). fold b in Hp, Hc, Hlen.
  pose proof (r_nodup _ _ _ R b) as Hnd. apply (r_map _ _ _ R) in Hx as [Hin Hk]. fold b in Hin.
  assert (Hkeys : forall y, y ∈ B b -> is_Some (item_key s !! y)).
  { intros y Hy. destruct (in_bucket s B m b y R Hy) as (k' & ? & _). by exists k'. }
  unfold assoc_delete, _hashitem_before. apply wp_bind, wp_bind, wp_gets. fold b. apply wp_bind, wp_gets.
  eapply wp_mono; [apply (before_chain_spec _ k (InBucket b) p (B b)); [by split; [apply Hv |] | done..] |].
  intros before s0 [-> [(l1 & x' & l2 & El & Hkx' & Hat & Hbef)|[_ Hno]]]; [|by destruct (Hno x Hin)].
  assert (x' = x) as ->.
  { assert (m !! k = Some x') by (apply (r_map _ _ _ R); split; [fold b; rewrite El; set_solver | done]).
    assert (m !! k = Some x) by (by apply (r_map _ _ _ R)). congruence. }
  apply wp_bind. eapply wp_read_place; [exact Hat |]. apply wp_bind, wp_modify. set (s1 := set_hash_items _ s).
  rewrite El in Hc, Hnd. destruct (chain_app _ _ _ _ _ Hc) as (n & Hn & Hc2).
  apply wp_bind. eapply wp_get_or_undef; [exact Hn |]. apply wp_bind, wp_put_next; [by exists n |]. set (s2 := set_h_next _ s1).
  assert (Hx12 : x ∉ l1 /\ x ∉ l2).
  { apply NoDup_app in Hnd as (_ & Hd & [Hx2 _]%NoDup_cons). split; [|done]. intros H1. apply (Hd x H1). set_solver. }
  assert (Hothers : forall b', b' <> b -> x ∉ B b' /\ forall y, y ∈ l1 -> y ∉ B b').
  { intros b' Hne. assert (Hd : forall y, y ∈ B b -> y ∉ B b').
    { intros y Hy Hy'. destruct (r_home _ _ _ R _ _ Hy) as (_ & k1 & Hk1 & H1). destruct (r_home _ _ _ R _ _ Hy') as (_ & k2 & Hk2 & H2). congruence. }
    rewrite El in Hd. split; [apply Hd | intros y Hy; apply Hd]; set_solver. }
  assert (Hdel : forall s', same_shape s s' -> hash_items s' = hash_items s1 -> h_next s' !! x = Some None -> dom (h_next s') = dom (h_next s) ->
    (forall p, table b.1 s' !! Z.to_nat b.2 = Some p -> chain (h_next s') p (l1 ++ l2)) ->
    (forall b', valid s b' -> b' <> b -> table b'.1 s' !! Z.to_nat b'.2 = table b'.1 s !! Z.to_nat b'.2) ->
    (forall b' p, b' <> b -> chain (h_next s) p (B b') -> chain (h_next s') p (B b')) ->
    rep s' (delete k m) /\ same_items s s' /\ h_next s' !! x = Some None /\ hashpower s' = hashpower s).
  { intros s' Hsh Hc' Hxn Hdom Hl Hother Hframe. split; [|split; [split; [apply Hsh | done] | split; [done | apply Hsh]]].
    exists (rebucket B b (l1 ++ l2)). apply (rep_rebucket s s' B m); try done.
    - apply NoDup_app in Hnd as (Hnd1 & Hd & [_ Hnd2]%NoDup_cons). apply NoDup_app. split; [done |]. split; [|done].
      intros y Hy Hy2. apply (Hd y Hy). set_solver.
    - intros y Hy. assert (Hy' : y ∈ B b) by (rewrite El; set_solver). apply (r_home _ _ _ R) in Hy' as (_ & k' & ? & ?). by exists k'.
    - intros k' y. rewrite lookup_delete_Some. unfold rebucket. case_decide as E.
      + rewrite (r_map _ _ _ R), E, El, !elem_of_app, elem_of_cons. split; [|intros [Hy Hky]; split; [|naive_solver]].
        * intros (Hne & [Hy | [-> | Hy]] & Hky); [tauto | congruence | tauto].
        * intros <-. assert (y = x) as ->; [|tauto]. assert (m !! k = Some y) as Hmy.
          { apply (r_map _ _ _ R). rewrite E, El. split; [set_solver | done]. }
          assert (m !! k = Some x) by (by apply (r_map _ _ _ R)). congruence.
      + rewrite (r_map _ _ _ R). split; [tauto |]. intros Hy. split; [|done]. by intros <-.
    - assert (Hmx : m !! k = Some x) by (by apply (r_map _ _ _ R)). rewrite Hc'. simpl. rewrite (r_count _ _ _ R), map_size_delete_Some by (by exists x).
      assert (size m <> 0%nat) by (intros Hz; apply map_size_empty_inv in Hz; subst m; by rewrite lookup_empty in Hmx).
      unfold u32, wrap_u. rewrite Zminus_mod_idemp_l. f_equal. lia. }
  destruct (last l1) as [y|] eqn:Hlast; subst before.
  - destruct (proj1 (last_Some _ _) Hlast) as [l0 ->]. cbn [write_place at_place] in *.
    assert (Hyx : y <> x) by (intros ->; apply (proj1 Hx12); set_solver).
    apply wp_put_next; [exists (Some x); simpl; by rewrite lookup_insert_ne |].
    apply Hdel; try done.
    + simpl. by rewrite lookup_insert_ne, lookup_insert_eq.
    + simpl. rewrite !dom_put; [done | by exists n | exists (Some x); by rewrite lookup_insert_ne].
    + intros p' Hp'. change (table b.1 s !! Z.to_nat b.2 = Some p') in Hp'. rewrite Hp in Hp'. injection Hp' as <-. simpl.
      rewrite <- app_assoc in *. by apply chain_unlink.
    + intros b' p' Hne Hc'. simpl. destruct (Hothers b' Hne) as [H1 H2]. apply chain_frame; [apply H2; set_solver |]. by apply chain_frame.
  - apply last_None in Hlast. subst l1. cbn [write_place app] in *. apply wp_write_bucket; [apply Hv | by exists p |].
    apply Hdel; try done.
    + apply (shape_trans _ s2); [done | apply written_shape].
    + by destruct b as [[|] ?].
    + rewrite written_next. simpl. by rewrite lookup_insert_eq.
    + rewrite written_next. simpl. apply dom_put. by exists n.
    + intros p' Hp'. rewrite written_lookup in Hp' by (by exists p). injection Hp' as <-. rewrite written_next. simpl. apply chain_frame; [tauto | done].
    + intros b' Hv' Hne. rewrite written_lookup_ne; [done | apply Hv | apply Hv' | done].
    + intros b' p' Hne Hc'. rewrite written_next. simpl. apply chain_frame; [apply (proj1 (Hothers b' Hne)) | done].
Qed.

(** * Growing *)

Lemma home_idle s hv : expanding s = false -> home s hv = (false, Z.land hv (hashmask (hashpower s))).
Proof. intros H. unfold home. by rewrite H. Qed.
(** The buckets of the old table are empty unless it is in use. *)
Lemma idle_old s B m i : rep_with s B m -> expanding s = false -> B (true, i) = [].
Proof.
  intros R He. destruct (B (true, i)) as [|x l] eqn:E; [done |].
  destruct (r_home _ _ _ R (true, i) x) as ((_ & H & _) & _); [rewrite E; set_solver |]. by rewrite He in H.
Qed.

Lemma assoc_expand_spec calloc_ok s m :
  rep s m -> expanding s = false -> hashpower s < 62 ->
  wp (assoc_expand calloc_ok) s (fun _ s' => rep s' m /\ same_items s s' /\ expanding s' = calloc_ok /\
    (if calloc_ok then hashpower s' = hashpower s + 1 /\ expand_bucket s' = 0 else hashpower s' = hashpower s)).
Proof.
  intros [B R] He Hhp. pose proof (r_sized _ _ _ R) as (Hp & Hl & _). unfold assoc_expand. apply wp_bind, wp_modify. destruct calloc_ok.
  - do 3 (apply wp_bind, wp_modify). apply wp_modify. set (s' := set_expand_bucket 0 _).
    assert (Hpow : 2 ^ (hashpower s + 1) = 2 ^ hashpower s * 2) by (rewrite Z.pow_add_r by lia; lia).
    assert (Hpos : 0 < 2 ^ hashpower s) by (apply Z.pow_pos_nonneg; lia).
    assert (Hhome : forall k, home s' (hash k) = (true, (home s (hash k)).2)).
    { intros k. rewrite (home_idle s) by done. unfold home. simpl. rewrite Z.add_simpl_r.
      by rewrite (proj2 (Z.leb_le _ _)) by (apply masked; [lia | apply hash_range]). }
    split; [|done]. exists (fun b : bucket => if b.1 then B (false, b.2) else []). constructor.
    + unfold sized. simpl. rewrite length_replicate, hashsize_pow, Z.add_simpl_r by lia. repeat (split; [lia |]). done.
    + intros [[|] j] p [Hj Hv] Ht; simpl in *.
      * rewrite Z.add_simpl_r in Hv. destruct Hv as [_ Hv]. apply (r_chain _ _ _ R (false, j)); [by split | done].
      * by apply lookup_replicate_1 in Ht as [-> _].
    + intros [[|] j] x Hx; simpl in Hx; [|by apply not_elem_of_nil in Hx].
      destruct (r_home _ _ _ R _ _ Hx) as ([Hj Hv] & k & Hk & Hh). split.
      * unfold valid. simpl in *. rewrite Z.add_simpl_r. done.
      * exists k. split; [done |]. by rewrite Hhome, Hh.
    + intros [[|] j]; simpl; [apply R | constructor].
    + intros k x. rewrite Hhome. simpl. rewrite (r_map _ _ _ R), (home_idle s) by done. done.
    + apply R.
  - apply wp_modify. split; [|by split]. exists B. destruct R as [R1 R2 R3 R4 R5 R6]. constructor; try done.
    + unfold sized in *. simpl. destruct R1 as (? & ? & ?). split; [done |]. split; [done |]. by rewrite He.
    + intros [[|] j] p Hv Ht; [by destruct Hv as (_ & H & _); simpl in H; rewrite He in H | by apply R2].
Qed.

(** The index of an item in the new table. *)
Definition index (s : assoc) (x : ptr) : Z := match item_key s !! x with Some k => Z.land (hash k) (hashmask (hashpower s)) | None => -1 end.
Definition moved (s : assoc) (l : list ptr) (P : Z -> list ptr) (i : Z) : list ptr :=
  rev (List.filter (fun x => index s x =? i) l) ++ P i.
(** What moving items leaves alone. *)
Definition moving (s s' : assoc) : Prop :=
  item_key s' = item_key s /\ hashpower s' = hashpower s /\ old_hashtable s' = old_hashtable s /\ hash_items s' = hash_items s /\
  expanding s' = expanding s /\ expand_bucket s' = expand_bucket s /\
  length (primary_hashtable s') = length (primary_hashtable s) /\ dom (h_next s') = dom (h_next s).

Lemma moved_in s l P i x : x ∈ moved s l P i <-> (x ∈ l /\ index s x = i) \/ x ∈ P i.
Proof. unfold moved. rewrite elem_of_app, !list_elem_of_In, <- in_rev, filter_In, Z.eqb_eq. done. Qed.

Lemma move_items_spec fuel p l s P :
  sized s -> hashpower s <= 31 -> chain (h_next s) p l -> NoDup l -> (length l <= fuel)%nat ->
  (forall i q, 0 <= i < 2 ^ hashpower s -> primary_hashtable s !! Z.to_nat i = Some q -> chain (h_next s) q (P i)) ->
  (forall x, x ∈ l -> is_Some (item_key s !! x) /\ forall i, x ∉ P i) ->
  wp (move_items hash fuel p) s (fun _ s' => moving s s' /\ (forall x, x ∉ l -> h_next s' !! x = h_next s !! x) /\
    (forall i q, 0 <= i < 2 ^ hashpower s -> primary_hashtable s' !! Z.to_nat i = Some q -> chain (h_next s') q (moved s l P i))).
Proof.
  revert fuel p s P. induction l as [|x l IH]; intros fuel p s P Hsz H31 Hc Hnd Hf HP Hl.
  - simpl in Hc. subst p. destruct fuel; cbn [move_items]; apply wp_ret; done.
  - destruct Hc as (-> & n & Hn & Hc). destruct fuel as [|fuel]; [simpl in Hf; lia |]. apply NoDup_cons in Hnd as [Hx Hnd].
    destruct (Hl x ltac:(set_solver)) as [[k Hk] HxP]. cbn [move_items].
    apply wp_bind. eapply wp_get_or_undef; [exact Hn |]. apply wp_bind. eapply wp_get_or_undef; [exact Hk |].
    apply wp_bind, wp_gets. set (i := Z.land (hash k) (hashmask (hashpower s))).
    assert (Hi : 0 <= i < 2 ^ hashpower s) by (apply masked; [destruct Hsz; lia | apply hash_range]).
    assert (Hpow : 2 ^ hashpower s <= 2 ^ 31) by (apply Z.pow_le_mono_r; lia). change (2 ^ 31) with 2147483648 in Hpow. rewrite i32_small by lia.
    destruct (valid_lookup s (false, i) Hsz) as [q Hq]; [split; apply Hi |]. cbn [table fst snd] in Hq.
    apply wp_bind. eapply wp_read_bucket; [apply Hi | exact Hq |]. apply wp_bind, wp_put_next; [by exists n |].
    apply wp_bind, wp_write_bucket; [apply Hi | by exists q |]. cbn [written put_table table fst snd]. set (s1 := set_primary _ _).
    set (P1 := fun j => if decide (j = i) then x :: P i else P j).
    assert (Hs1 : sized s1).
    { destruct Hsz as (? & ? & ?). unfold sized, s1. simpl. rewrite length_insert. done. }
    eapply wp_mono; [apply (IH fuel n s1 P1 Hs1 H31)|].
    + by apply chain_frame.
    + done.
    + simpl in Hf. lia.
    + intros j r Hj Hr. unfold P1. unfold s1 in Hr. simpl in Hr. case_decide as E.
      * subst j. rewrite list_lookup_insert_eq in Hr by (by eapply lookup_lt_Some). injection Hr as <-.
        apply chain_cons; [apply HxP | by apply HP | by exists n].
      * rewrite list_lookup_insert_ne in Hr by (simpl in Hj; lia). apply chain_frame; [apply HxP | by apply HP].
    + intros y Hy. destruct (Hl y ltac:(set_solver)) as [Hky HyP]. split; [done |]. intros j. unfold P1. case_decide; [|apply HyP].
      rewrite not_elem_of_cons. split; [by intros -> | apply HyP].
    + intros u s' ((M1 & M2 & M3 & M4 & M5 & M6 & M7 & M8) & Hfr & Hch). split; [|split].
      * repeat (split; [done |]). split; [rewrite M7; simpl; apply length_insert |]. rewrite M8. simpl. apply dom_put. by exists n.
      * intros y Hy. rewrite not_elem_of_cons in Hy. rewrite Hfr by tauto. simpl. rewrite lookup_insert_ne; [done | by intros ->; tauto].
      * intros j r Hj Hr. specialize (Hch j r Hj Hr). unfold moved in *. cbn [List.filter].
        assert (Hix : index s x = i) by (unfold index; by rewrite Hk). rewrite Hix. unfold P1 in Hch. change (index s1) with (index s) in Hch.
        destruct (Z.eqb_spec i j) as [->|Hne]; [|by rewrite decide_False in Hch by done].
        rewrite decide_True in Hch by done. cbn [rev]. by rewrite <- app_assoc.
Qed.

(** A key whose bucket is moved is looked for in the new table from then on, and
    no other key's place changes. *)
Lemma home_moved s s' k :
  sized s -> expanding s = true -> hashpower s' = hashpower s -> expand_bucket s' = expand_bucket s + 1 ->
  expanding s' = negb (expand_bucket s + 1 =? 2 ^ (hashpower s - 1)) ->
  home s' (hash k) = if decide (home s (hash k) = (true, expand_bucket s)) then (false, Z.land (hash k) (hashmask (hashpower s))) else home s (hash k).
Proof.
  intros (Hp & _ & _) He Hhp Heb He'. pose proof (masked (hash k) (hashpower s - 1) ltac:(lia) (proj1 (hash_range k))) as Hm.
  unfold home. rewrite He, He', Hhp, Heb. set (ob := Z.land (hash k) (hashmask (hashpower s - 1))) in *.
  destruct (Z.eqb_spec (expand_bucket s + 1) (2 ^ (hashpower s - 1))), (Z.leb_spec (expand_bucket s) ob), (Z.leb_spec (expand_bucket s + 1) ob); cbn [negb andb];
    case_decide as E; try done; try lia; try (exfalso; apply E; f_equal; lia); injection E; lia.
Qed.

(** The chains after a bucket is moved. *)
Definition after_move (s : assoc) (B : bucket -> list ptr) : bucket -> list ptr := fun b =>
  if b.1 then if decide (b.2 = expand_bucket s) then [] else B b
  else moved s (B (true, expand_bucket s)) (fun i => B (false, i)) b.2.

Lemma rep_after_move s s' B m :
  rep_with s B m -> expanding s = true -> sized s' -> item_key s' = item_key s -> hash_items s' = hash_items s ->
  hashpower s' = hashpower s -> expand_bucket s' = expand_bucket s + 1 -> expanding s' = negb (expand_bucket s + 1 =? 2 ^ (hashpower s - 1)) ->
  (forall b p, valid s b -> table b.1 s' !! Z.to_nat b.2 = Some p -> chain (h_next s') p (after_move s B b)) ->
  rep_with s' (after_move s B) m.
Proof.
  intros R He Hsz Hk Hc Hhp Heb He' Hch. pose proof (r_sized _ _ _ R) as Hsz0.
  pose proof (fun k => home_moved s s' k Hsz0 He Hhp Heb He') as Hhome.
  assert (Hhb : forall b x k, x ∈ B b -> item_key s !! x = Some k -> home s (hash k) = b).
  { intros b x k Hx Hkx. destruct (r_home _ _ _ R _ _ Hx) as (_ & k' & Hk' & <-). congruence. }
  assert (Hval : forall b, valid s' b -> valid s b).
  { intros [[|] i]; unfold valid; simpl; rewrite Hhp; [by intros (? & ? & ?) | done]. }
  assert (Hix : forall x k, item_key s !! x = Some k -> index s x = Z.land (hash k) (hashmask (hashpower s))) by (intros x k E; unfold index; by rewrite E).
  assert (Hin : forall b x, x ∈ after_move s B b -> exists k, item_key s !! x = Some k /\ home s' (hash k) = b).
  { intros [[|] i] x; unfold after_move; cbn [fst snd].
    - case_decide as Hi; [by intros ?%not_elem_of_nil |]. intros Hx. destruct (r_home _ _ _ R _ _ Hx) as (Hv & k & Hkx & Hh).
      exists k. split; [done |]. rewrite Hhome, decide_False; [done |]. rewrite Hh. naive_solver.
    - intros [[Hx Hi]|Hx]%moved_in; destruct (r_home _ _ _ R _ _ Hx) as (Hv & k & Hkx & Hh); exists k; (split; [done |]); rewrite Hhome.
      + rewrite decide_True by done. by rewrite <- Hi, (Hix _ _ Hkx).
      + by rewrite decide_False by (by rewrite Hh). }
  constructor; try done.
  - intros b p Hv. apply Hch. by apply Hval.
  - intros b x Hx. destruct (Hin b x Hx) as (k & Hkx & <-). split; [by apply home_valid | exists k; by rewrite Hk].
  - intros [[|] i]; unfold after_move; cbn [fst snd]; [case_decide; [constructor | apply R] |].
    unfold moved. apply NoDup_app. split; [apply NoDup_ListNoDup, List.NoDup_rev, List.NoDup_filter, NoDup_ListNoDup, R |]. split; [|apply R].
    intros x Hx Hx'. rewrite list_elem_of_In, <- in_rev, filter_In, <- list_elem_of_In in Hx. destruct Hx as [Hx _].
    destruct (r_home _ _ _ R _ _ Hx) as (_ & k & Hkx & Hh). by rewrite (Hhb _ _ _ Hx' Hkx) in Hh.
  - intros k x. rewrite Hk, (r_map _ _ _ R), Hhome. split; intros [Hx Hkx]; (split; [|done]); case_decide as E; unfold after_move in *.
    + rewrite E in Hx. cbn [fst snd]. apply moved_in. left. split; [done | by apply Hix].
    + destruct (home s (hash k)) as [[|] i]; cbn [fst snd]; [by rewrite decide_False by naive_solver | apply moved_in; by right].
    + cbn [fst snd] in Hx. apply moved_in in Hx as [[Hx _]|Hx]; [by rewrite E |]. by rewrite (Hhb _ _ _ Hx Hkx) in E.
    + destruct (home s (hash k)) as [[|] i] eqn:Hh; cbn [fst snd] in Hx; [by rewrite decide_False in Hx by naive_solver |].
      apply moved_in in Hx as [[Hx _]|Hx]; [|done]. by rewrite (Hhb _ _ _ Hx Hkx) in Hh.
  - rewrite Hc. apply R.
Qed.

Lemma move_bucket_spec s m :
  rep s m -> expanding s = true -> hashpower s <= 31 ->
  wp (move_bucket hash) s (fun _ s' => rep s' m /\ same_items s s' /\ hashpower s' = hashpower s /\
    expand_bucket s' = expand_bucket s + 1 /\ expanding s' = negb (expand_bucket s + 1 =? 2 ^ (hashpower s - 1))).
Proof.
  intros [B R] He Hhp. pose proof (r_sized _ _ _ R) as Hsz. pose proof Hsz as (Hp & Hl & Ho). destruct (Ho He) as [Hlo Heb].
  assert (Hv : valid s (true, expand_bucket s)) by (split; [apply Heb | split; [done | apply Heb]]).
  destruct (valid_lookup s _ Hsz Hv) as [p Hq]. pose proof (r_chain _ _ _ R _ _ Hv Hq) as Hc. cbn [table fst snd] in Hq.
  unfold move_bucket. apply wp_bind, wp_gets. apply wp_bind. eapply wp_read_bucket; [apply Heb | exact Hq |]. apply wp_bind, wp_gets. apply wp_bind.
  eapply wp_mono; [apply (move_items_spec _ p (B (true, expand_bucket s)) s (fun i => B (false, i)) Hsz Hhp Hc)|].
  - apply R.
  - apply (chain_length _ _ _ Hc), R.
  - intros i q Hi Hpi. apply (r_chain _ _ _ R (false, i)); [by split; apply Hi | done].
  - intros x Hx. destruct (r_home _ _ _ R _ _ Hx) as (_ & k & Hk & Hh). split; [by exists k |]. intros i Hx'.
    destruct (r_home _ _ _ R _ _ Hx') as (_ & k' & Hk' & Hh'). congruence.
  - intros _ s1 ((M1 & M2 & M3 & M4 & M5 & M6 & M7 & M8) & Hfr & Hch).
    apply wp_bind, wp_write_bucket; [apply Heb | exists p; cbn [table fst snd]; by rewrite M3 |]. apply wp_bind, wp_modify. apply wp_bind, wp_gets.
    set (s2 := set_expand_bucket _ _).
    assert (Hpow : 2 ^ (hashpower s - 1) <= 2 ^ 31) by (apply Z.pow_le_mono_r; lia). change (2 ^ 31) with 2147483648 in Hpow.
    assert (Heb2 : expand_bucket s2 = expand_bucket s + 1) by (simpl; rewrite M6; apply u32_small; lia).
    assert (Hhs : hashsize (hashpower s2 - 1) = 2 ^ (hashpower s - 1)) by (simpl; rewrite M2; apply hashsize_pow; lia).
    rewrite Heb2, Hhs.
    assert (Hfin : forall s', item_key s' = item_key s2 -> h_next s' = h_next s2 -> hashpower s' = hashpower s2 -> primary_hashtable s' = primary_hashtable s2 ->
      old_hashtable s' = old_hashtable s2 -> hash_items s' = hash_items s2 -> expand_bucket s' = expand_bucket s2 ->
      expanding s' = negb (expand_bucket s + 1 =? 2 ^ (hashpower s - 1)) ->
      rep s' m /\ same_items s s' /\ hashpower s' = hashpower s /\ expand_bucket s' = expand_bucket s + 1 /\ expanding s' = negb (expand_bucket s + 1 =? 2 ^ (hashpower s - 1))).
    { intros s' F1 F2 F3 F4 F5 F6 F7 F8. rewrite F7, F3, F8. split; [|split; [split; [by rewrite F1 | by rewrite F2] | repeat split; [done | done]]].
      exists (after_move s B). apply (rep_after_move s s' B m); try done; try (by rewrite ?F1, ?F3, ?F6, ?F7).
      - unfold sized. rewrite F3, F4, F5, F7, F8, Heb2. simpl. rewrite M2, M3, M7, length_insert. split; [done |]. split; [done |]. intros Hne.
        split; [done |]. destruct (Z.eqb_spec (expand_bucket s + 1) (2 ^ (hashpower s - 1))); [done | lia].
      - intros [[|] i] q Hvi Hqi; cbn [table fst snd] in Hqi; rewrite F2; unfold after_move; cbn [fst snd].
        + rewrite F5 in Hqi. simpl in Hqi. rewrite M3 in Hqi. case_decide as Hi.
          * subst i. rewrite list_lookup_insert_eq in Hqi by (by eapply lookup_lt_Some). by injection Hqi as <-.
          * rewrite list_lookup_insert_ne in Hqi by (destruct Hvi; simpl in *; lia). apply (chain_agree (h_next s)); [|by apply R].
            intros x Hx. apply Hfr. intros Hx'. destruct (r_home _ _ _ R _ _ Hx) as (_ & k & Hk & Hh). destruct (r_home _ _ _ R _ _ Hx') as (_ & k' & Hk' & Hh'). congruence.
        + rewrite F4 in Hqi. apply Hch; [|done]. by destruct Hvi. }
    destruct (Z.eqb_spec (expand_bucket s + 1) (2 ^ (hashpower s - 1))) as [E|E].
    + apply wp_modify, Hfin; done.
    + apply wp_ret, Hfin; try done. simpl. by rewrite M5.
Qed.

(** What is left to move. *)
Definition remaining (s : assoc) : Z := if expanding s then 2 ^ (hashpower s - 1) - expand_bucket s else 0.
Definition free_rounds (locked : list bool) : Z := Z.of_nat (length (List.filter id locked)).

Lemma bulk_move_spec locked s m :
  rep s m -> hashpower s <= 31 ->
  wp (bulk_move hash locked) s (fun _ s' => rep s' m /\ same_items s s' /\ hashpower s' = hashpower s /\
    remaining s' = Z.max 0 (remaining s - free_rounds locked)).
Proof.
  revert s. induction locked as [|l locked IH]; intros s R Hhp; cbn [bulk_move];
    assert (H0 : 0 <= remaining s) by (destruct R as [B [(_ & _ & Ho) _ _ _ _ _]]; unfold remaining; destruct (expanding s); [specialize (Ho eq_refl) |]; lia).
  - apply wp_ret. unfold free_rounds. simpl. repeat (split; [done |]). lia.
  - apply wp_bind, wp_gets. destruct (expanding s) eqn:He.
    + apply wp_bind. destruct l.
      * eapply wp_mono; [by apply move_bucket_spec |]. intros _ s1 (R1 & [K1 D1] & P1 & B1 & E1).
        eapply wp_mono; [apply IH; [done | lia] |]. intros _ s2 (R2 & [K2 D2] & P2 & M2).
        split; [done |]. split; [split; congruence |]. split; [congruence |]. rewrite M2. unfold remaining in *. rewrite He in *. rewrite E1, P1, B1.
        unfold free_rounds. cbn [List.filter id length]. destruct (Z.eqb_spec (expand_bucket s + 1) (2 ^ (hashpower s - 1))); cbn [negb]; lia.
      * apply wp_ret. eapply wp_mono; [by apply IH |]. done.
    + apply wp_ret. repeat (split; [done |]). unfold remaining. rewrite He. unfold free_rounds. lia.
Qed.

Lemma pass_spec locked calloc_ok s m :
  rep s m -> hashpower s < 31 ->
  wp (assoc_maintenance_pass hash locked calloc_ok) s (fun _ s' => rep s' m /\ same_items s s' /\ hashpower s <= hashpower s' <= hashpower s + 1).
Proof.
  intros R Hhp. unfold assoc_maintenance_pass. apply wp_bind. eapply wp_mono; [apply bulk_move_spec; [done | lia] |].
  intros _ s1 (R1 & [K1 D1] & P1 & _). apply wp_bind, wp_gets. destruct (expanding s1) eqn:He; [apply wp_ret; split; [done |]; split; [done | lia] |].
  apply wp_bind, wp_modify. eapply wp_mono; [apply (assoc_expand_spec calloc_ok (set_started false s1) m); [|done | simpl; lia]|].
  - destruct R1 as [B R1]. exists B. by destruct R1.
  - intros _ s2 (R2 & [K2 D2] & E2 & H2). split; [done |]. split; [split; [by rewrite K2 | by rewrite D2] |]. simpl in H2. destruct calloc_ok; lia.
Qed.

(** * Sequences of operations *)

(** The item memory of the rest of the server: an item that is not in the table
    is given a key. *)
Definition set_item (it : ptr) (k : list ascii) (s : assoc) : assoc :=
  MkAssoc (<[it := k]> (item_key s)) (<[it := None]> (h_next s)) (hashpower s) (primary_hashtable s) (old_hashtable s) (hash_items s)
    (expanding s) (started_expanding s) (expand_bucket s).

Lemma rep_set_item s m it k : rep s m -> (forall k', m !! k' <> Some it) -> rep (set_item it k s) m.
Proof.
  intros [B R] Hit. assert (Hno : forall b, it ∉ B b).
  { intros b Hx. destruct (in_bucket s B m b it R Hx) as (k' & _ & Hm). by apply (Hit k'). }
  exists B. destruct R as [R1 R2 R3 R4 R5 R6]. constructor; try done.
  - intros b p Hv Hp. apply chain_frame; [apply Hno | by apply R2].
  - intros b x Hx. destruct (R3 b x Hx) as (Hv & k' & Hk & Hh). split; [done |]. exists k'. simpl. rewrite lookup_insert_ne; [done | by intros ->; apply (Hno b)].
  - intros k' x. rewrite R5. simpl. split; intros [Hx Hk]; (split; [exact Hx |]).
    + rewrite lookup_insert_ne; [done | by intros ->; apply (Hno _ Hx)].
    + rewrite lookup_insert_ne in Hk; [done | by intros ->; apply (Hno _ Hx)].
Qed.

(** Keys and links of items that are not in the table may change. *)
Lemma rep_frame s m ik hn :
  rep s m -> (forall k x, m !! k = Some x -> ik !! x = item_key s !! x /\ hn !! x = h_next s !! x) ->
  rep (MkAssoc ik hn (hashpower s) (primary_hashtable s) (old_hashtable s) (hash_items s) (expanding s) (started_expanding s) (expand_bucket s)) m.
Proof.
  intros [B R] H. assert (Hin : forall b x, x ∈ B b -> ik !! x = item_key s !! x /\ hn !! x = h_next s !! x).
  { intros b x Hx. destruct (in_bucket s B m b x R Hx) as (k & _ & Hm). by eapply H. }
  exists B. destruct R as [R1 R2 R3 R4 R5 R6]. constructor; try done.
  - intros b p Hv Hp. apply (chain_agree (h_next s)); [intros x Hx; by apply (Hin b) | by apply R2].
  - intros b x Hx. destruct (R3 b x Hx) as (Hv & k & Hk & Hh). split; [done |]. exists k. simpl. by rewrite (proj1 (Hin b x Hx)).
  - intros k x. rewrite R5. simpl. split; intros [Hx Hk]; (split; [done |]); by rewrite (proj1 (Hin _ x Hx)) in *.
Qed.

Inductive op := Item (it : ptr) (k : list ascii) | Find (k : list ascii) | Insert (it : ptr) | Delete (k : list ascii)
  | Pass (locked : list bool) (calloc_ok : bool).

(** The operations as the server calls them, with the hash of the key; the answers
    of [Find]. *)
Fixpoint run (ops : list op) : AM (list (option ptr)) :=
  match ops with
  | [] => ret []
  | Item it k :: ops => modify (set_item it k) ;;; run ops
  | Find k :: ops => r <- assoc_find k (hash k) ;; rs <- run ops ;; ret (r :: rs)
  | Insert it :: ops => k <- key_of it ;; assoc_insert it (hash k) ;;; run ops
  | Delete k :: ops => assoc_delete k (hash k) ;;; run ops
  | Pass l c :: ops => assoc_maintenance_pass hash l c ;;; run ops
  end.

(** The same on a map, [ik] the keys of the items: what the callers must see to,
    and the answers. *)
Fixpoint spec_run (ops : list op) (ik : gmap ptr (list ascii)) (m : gmap (list ascii) ptr) : option (list (option ptr) * gmap (list ascii) ptr) :=
  match ops with
  | [] => Some ([], m)
  | Item it k :: ops => if bool_decide (map_Forall (fun _ x => x <> it) m) then spec_run ops (<[it := k]> ik) m else None
  | Find k :: ops => '(rs, m') ← spec_run ops ik m; Some (m !! k :: rs, m')
  | Insert it :: ops => k ← ik !! it; if bool_decide (m !! k = None) then spec_run ops ik (<[k := it]> m) else None
  | Delete k :: ops => if bool_decide (is_Some (m !! k)) then spec_run ops ik (delete k m) else None
  | Pass _ _ :: ops => spec_run ops ik m
  end.
Definition passes (ops : list op) : Z := Z.of_nat (length (List.filter (fun o => match o with Pass _ _ => true | _ => false end) ops)).

Lemma run_ops_spec ops : forall s m ik rs m',
  rep s m -> ik = item_key s -> dom (h_next s) = dom ik -> hashpower s + passes ops <= 31 ->
  spec_run ops ik m = Some (rs, m') ->
  wp (run ops) s (fun r s' => r = rs /\ rep s' m').
Proof.
  induction ops as [|o ops IH]; intros s m ik rs m' R -> Hd Hp Hs; [injection Hs as <- <-; by apply wp_ret |].
  assert (Hpo : 0 <= passes ops) by (unfold passes; lia).
  assert (Hpe : passes (o :: ops) = passes ops + match o with Pass _ _ => 1 | _ => 0 end) by (unfold passes; destruct o; cbn [List.filter length]; lia).
  rewrite Hpe in Hp. clear Hpe.
  destruct o as [it k | k | it | k | l c]; cbn [spec_run run] in *.
  - case_bool_decide as Hit; [|done]. apply wp_bind, wp_modify. eapply IH; [| done | | simpl; lia | exact Hs].
    + apply rep_set_item; [done |]. intros k' Hk'. by apply (Hit k' it).
    + simpl. by rewrite !dom_insert_L, Hd.
  - destruct (spec_run ops (item_key s) m) as [[rs1 m1]|] eqn:E; [|done]. simpl in Hs. injection Hs as <- <-.
    apply wp_bind. eapply wp_mono; [by apply assoc_find_spec |]. intros r s' [-> Hr]. apply wp_bind.
    eapply wp_mono; [eapply IH; try done; lia |]. intros rs' s' [-> R']. apply wp_ret. by rewrite Hr.
  - destruct (item_key s !! it) as [k|] eqn:Hk; [|done]. simpl in Hs. case_bool_decide as Hm; [|done].
    apply wp_bind. eapply wp_get_or_undef; [exact Hk |]. apply wp_bind.
    eapply wp_mono; [apply (assoc_insert_spec s m k it); try done; apply elem_of_dom; rewrite Hd; by apply elem_of_dom_2 in Hk |].
    intros r s' (-> & R' & [K D] & P). eapply (IH s' _ (item_key s)); [done | by rewrite K | by rewrite D | rewrite P; lia | done].
  - case_bool_decide as Hm; [|done]. destruct Hm as [x Hx]. apply wp_bind. eapply wp_mono; [by apply (assoc_delete_spec s m k x) |].
    intros _ s' (R' & [K D] & _ & P). eapply (IH s' _ (item_key s)); [done | by rewrite K | by rewrite D | rewrite P; lia | done].
  - apply wp_bind. eapply wp_mono; [apply pass_spec; [done | lia] |]. intros _ s' (R' & [K D] & P).
    eapply (IH s' _ (item_key s)); [done | by rewrite K | by rewrite D | lia | done].
Qed.

Lemma assoc_init_spec hp s :
  1 <= (if hp =? 0 then hashpower s else hp) <= 62 -> hash_items s = 0 -> expanding s = false ->
  wp (assoc_init true hp) s (fun _ s' => rep s' ∅ /\ same_items s s' /\ hashpower s' = if hp =? 0 then hashpower s else hp).
Proof.
  intros H1 Hc He. unfold assoc_init. apply wp_bind. set (s1 := if hp =? 0 then s else set_hashpower hp s).
  assert (Hhp : (if hp =? 0 then hashpower s else hp) = hashpower s1) by (unfold s1; by destruct (hp =? 0)). rewrite Hhp in *.
  assert (Hwp : wp (if hp =? 0 then ret tt else modify (set_hashpower hp)) s (fun _ s' => s' = s1)) by (unfold s1; by destruct (hp =? 0)).
  eapply wp_mono; [exact Hwp |]. intros _ s' ->. apply wp_modify.
  assert (Hs1 : item_key s1 = item_key s /\ h_next s1 = h_next s /\ hash_items s1 = 0 /\ expanding s1 = false) by (unfold s1; by destruct (hp =? 0)).
  destruct Hs1 as (K & D & C & E). split; [|split; [split; destruct s1; simpl in *; congruence | done]].
  exists (fun _ => []). constructor.
  - unfold sized. simpl. rewrite length_replicate, hashsize_pow by lia. assert (0 < 2 ^ hashpower s1) by (apply Z.pow_pos_nonneg; lia). split; [done |]. split; [lia |]. by rewrite E.
  - intros [[|] i] p [_ Hv] Ht; simpl in *; [by rewrite E in Hv; destruct Hv |]. apply lookup_replicate in Ht. by destruct Ht.
  - by intros b x ?%not_elem_of_nil.
  - constructor.
  - intros k x. rewrite lookup_empty. split; [done |]. by intros [?%not_elem_of_nil _].
  - simpl. by rewrite C.
Qed.
End Rep.
