(* ===== verification/AssocProps.v ===== *)
(** What the hash table of the cache server promises, with a run of it. *)
From S2P Require Import Prelude CStr Assoc AssocThm.
Local Open Scope Z_scope.

(** C34: however the server mixes look-ups, insertions of absent keys, deletions of
    present keys and passes of the maintenance thread, the hash table of assoc.c
    answers like a finite map from keys to items and ends representing that map:
    also while half of it is in the old table. *)
Theorem hash_table_is_a_map (hash : list ascii -> Z) (hp : Z) (s : assoc) (ops : list op) rs m :
  (forall k, 0 <= hash k < 2 ^ 32) -> hash_items s = 0 -> expanding s = false -> dom (h_next s) = dom (item_key s) ->
  1 <= (if hp =? 0 then hashpower s else hp) -> (if hp =? 0 then hashpower s else hp) + passes ops <= 31 ->
  spec_run ops (item_key s) ∅ = Some (rs, m) ->
  wp (assoc_init true hp ;;; run hash ops) s (fun answers s' => answers = rs /\ rep hash s' m).
Proof.
  intros Hh Hc He Hd H1 H2 Hs. assert (0 <= passes ops) by (unfold passes; lia). apply wp_bind.
  eapply wp_mono; [apply (assoc_init_spec hash hp s); (done || lia) |]. intros _ s' (R & [K D] & P).
  by apply (run_ops_spec hash Hh ops s' ∅ (item_key s)); rewrite ?D, ?P.
Qed.

(** A growth of the table ends: once the maintenance thread has found the lock
    free as often as there are buckets left to move, the old table is out of use,
    and the table holds the same items. *)
Theorem growth_ends (hash : list ascii -> Z) (s : assoc) (m : gmap (list ascii) ptr) (locked : list bool) :
  (forall k, 0 <= hash k < 2 ^ 32) -> rep hash s m -> expanding s = true -> hashpower s <= 31 ->
  2 ^ (hashpower s - 1) - expand_bucket s <= free_rounds locked ->
  wp (bulk_move hash locked) s (fun _ s' => expanding s' = false /\ rep hash s' m /\ same_items s s' /\
    forall k, home s' (hash k) = (false, Z.land (hash k) (hashmask (hashpower s)))).
Proof.
  intros Hh R He Hhp Hn. eapply wp_mono; [by apply (bulk_move_spec hash Hh) |]. intros _ s' (R' & Hsi & P & Hr).
  assert (E : expanding s' = false).
  { destruct R' as [B [(_ & _ & Ho) _ _ _ _ _]]. unfold remaining in Hr. rewrite He in Hr. destruct (expanding s') eqn:E; [|done].
    specialize (Ho eq_refl). lia. }
  split; [done |]. split; [done |]. split; [done |]. intros k. rewrite <- P. by apply home_idle.
Qed.

(** * A run *)

Definition demo_hash (k : list ascii) : Z := u32 (foldr (fun c a => uchar c + a) 0 k).
Lemma demo_hash_range k : 0 <= demo_hash k < 2 ^ 32.
Proof. apply wrap_u_range. lia. Qed.
Definition demo_table : assoc := MkAssoc ∅ ∅ HASHPOWER_DEFAULT [] [] 0 false false 0.
(** Two tables' worth of growth; the keys "a" and "c" share a bucket. *)
Definition demo_ops : list op :=
  [Item 1%positive (lit "a"); Insert 1%positive; Item 2%positive (lit "c"); Insert 2%positive; Item 3%positive (lit "b"); Insert 3%positive;
   Find (lit "c"); Pass [] true; Find (lit "a"); Pass [true; false] true; Find (lit "c"); Delete (lit "a"); Find (lit "a");
   Item 1%positive (lit "e"); Insert 1%positive; Pass [true] true; Find (lit "e"); Find (lit "b")].
Definition demo_answers : list (option ptr) :=
  [Some 2%positive; Some 1%positive; Some 2%positive; None; Some 1%positive; Some 3%positive].
Lemma demo_spec : exists m, spec_run demo_ops ∅ ∅ = Some (demo_answers, m).
Proof. eexists. vm_compute. reflexivity. Qed.
Example demo_table_run : exists s, (assoc_init true 1 ;;; run demo_hash demo_ops) demo_table = Ret demo_answers s /\ hashpower s = 3 /\ hash_items s = 3.
Proof. eexists. split; [vm_compute; reflexivity | by split]. Qed.

Lemma hash_table_is_a_map_witness :
  exists m, wp (assoc_init true 1 ;;; run demo_hash demo_ops) demo_table (fun answers s' => answers = demo_answers /\ rep demo_hash s' m).
Proof.
  destruct demo_spec as [m Hm]. exists m.
  apply (hash_table_is_a_map demo_hash 1 demo_table demo_ops); [apply demo_hash_range | reflexivity | reflexivity | reflexivity | vm_compute; discriminate | vm_compute; discriminate | exact Hm].
Defined.

(** The table in the middle of its second growth. *)
Definition growing_ops : list op := firstn 8 demo_ops.
Definition growing_run := (assoc_init true 1 ;;; run demo_hash growing_ops) demo_table.
Lemma growing_runs :
  match growing_run with Ret _ s => expanding s && (hashpower s =? 2) && (expand_bucket s =? 0) | _ => false end = true /\
  match spec_run growing_ops ∅ ∅ with Some _ => true | None => false end = true.
Proof. split; vm_compute; reflexivity. Qed.
Lemma growing_rep rs m : spec_run growing_ops ∅ ∅ = Some (rs, m) -> wp (assoc_init true 1 ;;; run demo_hash growing_ops) demo_table (fun _ s => rep demo_hash s m).
Proof.
  intros E. apply wp_bind. eapply wp_mono; [apply (assoc_init_spec demo_hash 1 demo_table); [simpl; lia | reflexivity | reflexivity] |].
  intros _ s' (R' & [K D] & P). eapply wp_mono; [apply (run_ops_spec demo_hash demo_hash_range growing_ops s' ∅ ∅ rs m); [done | by rewrite K | by rewrite D | rewrite P; vm_compute; discriminate | exact E]|].
  by intros ? ? [_ ?].
Qed.
Lemma growing : exists s m, rep demo_hash s m /\ expanding s = true /\ hashpower s = 2 /\ expand_bucket s = 0.
Proof.
  destruct growing_runs as [H1 H2]. destruct (spec_run growing_ops ∅ ∅) as [[rs m]|] eqn:E; [|discriminate H2].
  pose proof (growing_rep rs m E) as H. unfold wp in H. fold growing_run in H. destruct growing_run as [a s| | |]; try discriminate H1.
  apply andb_prop in H1 as [H1 H4%Z.eqb_eq]. apply andb_prop in H1 as [H1 H3%Z.eqb_eq]. exists s, m. tauto.
Qed.
Lemma growth_ends_witness :
  exists s m, expanding s = true /\ wp (bulk_move demo_hash [true; false; true]) s (fun _ s' => expanding s' = false /\ rep demo_hash s' m /\ same_items s s' /\
    forall k, home s' (demo_hash k) = (false, Z.land (demo_hash k) (hashmask (hashpower s)))).
Proof.
  destruct growing as (s & m & R & He & Hp & Hb). exists s, m. split; [exact He |].
  apply (growth_ends demo_hash s m [true; false; true]); [apply demo_hash_range | exact R | exact He | rewrite Hp; lia | rewrite Hp, Hb; vm_compute; discriminate].
Defined.
