(* ===== verification/DList.v ===== *)
(** Families of disjoint doubly linked lists over two maps of links, [nx] and [pv]:
    linking an item at the front of a list, taking one out of the middle. *)
From S2P Require Import Prelude Assoc.

Section DList.
Context {A : Type} `{EqDecision A}.
Implicit Types (nx pv : gmap ptr (option ptr)) (Q : A -> list ptr) (l : list ptr).

(** Each item of the list points to its neighbours. *)
Definition dl nx pv l : Prop := forall l1 x l2, l = l1 ++ x :: l2 -> nx !! x = Some (head l2) /\ pv !! x = Some (last l1).

Record shape nx pv Q : Prop := {
  sh_dl a : dl nx pv (Q a);
  sh_nodup a : NoDup (Q a);
  sh_disjoint a b x : x ∈ Q a -> x ∈ Q b -> a = b
}.

Definition relist (a : A) l Q : A -> list ptr := fun b => if decide (b = a) then l else Q b.
Lemma relist_eq a l Q : relist a l Q a = l.
Proof. unfold relist. by rewrite decide_True. Qed.
Lemma relist_ne a b l Q : b <> a -> relist a l Q b = Q b.
Proof. intros. unfold relist. by rewrite decide_False. Qed.

(** Links of other items may change. *)
Lemma dl_frame nx pv nx' pv' l : (forall x, x ∈ l -> nx' !! x = nx !! x /\ pv' !! x = pv !! x) -> dl nx pv l -> dl nx' pv' l.
Proof. intros H Hd l1 x l2 E. destruct (H x) as [-> ->]; [rewrite E; set_solver |]. by apply Hd. Qed.

Definition put_opt {B} (p : option ptr) (v : B) (m : gmap ptr B) : gmap ptr B := match p with Some y => <[y := v]> m | None => m end.
Lemma put_opt_ne {B} p (v : B) m x : p <> Some x -> put_opt p v m !! x = m !! x.
Proof. destruct p as [y|]; simpl; [|done]. intros H. apply lookup_insert_ne. by intros ->. Qed.
Lemma put_opt_eq {B} x (v : B) m : put_opt (Some x) v m !! x = Some v.
Proof. apply lookup_insert_eq. Qed.
Lemma dom_put_opt {B} p (v : B) m : (forall y, p = Some y -> is_Some (m !! y)) -> dom (put_opt p v m) = dom m.
Proof. intros H. destruct p as [y|]; [|done]. simpl. apply dom_insert_lookup_L. by apply H. Qed.

Lemma head_in l x : head l = Some x -> x ∈ l.
Proof. destruct l; simpl; [done |]. intros [= ->]. set_solver. Qed.
Lemma last_in l x : last l = Some x -> x ∈ l.
Proof. rewrite last_Some. intros [l' ->]. set_solver. Qed.

(** * Linking *)

Lemma dl_push nx pv l x :
  x ∉ l -> NoDup l -> dl nx pv l -> dl (<[x := head l]> nx) (put_opt (head l) (Some x) (<[x := None]> pv)) (x :: l).
Proof.
  intros Hx Hnd Hd l1 y l2 E. destruct l1 as [|z l1]; simpl in E; injection E as -> ->.
  - rewrite lookup_insert_eq. split; [done |]. rewrite put_opt_ne, lookup_insert_eq; [done |]. intros H. by apply Hx, head_in.
  - destruct (Hd l1 y l2 eq_refl) as [Hn Hp]. assert (Hyx : y <> z) by (intros ->; apply Hx; set_solver).
    rewrite lookup_insert_ne by done. split; [done |]. rewrite last_cons. destruct l1 as [|w l1]; simpl.
    + by rewrite lookup_insert_eq.
    + assert (w <> y) by (intros ->; apply NoDup_cons in Hnd as [Hnd _]; apply Hnd; set_solver).
      rewrite !lookup_insert_ne, Hp by done. destruct (last (w :: l1)) eqn:El; [done |]. by apply last_None in El.
Qed.
Lemma shape_push nx pv Q a x :
  shape nx pv Q -> (forall b, x ∉ Q b) ->
  shape (<[x := head (Q a)]> nx) (put_opt (head (Q a)) (Some x) (<[x := None]> pv)) (relist a (x :: Q a) Q).
Proof.
  intros [Hd Hnd Hdis] Hx. constructor.
  - intros b. unfold relist. case_decide as E; [by apply dl_push |]. apply (dl_frame nx pv); [|done]. intros y Hy.
    assert (y <> x) by (intros ->; by apply (Hx b)). rewrite lookup_insert_ne by done. split; [done |].
    rewrite put_opt_ne, lookup_insert_ne; [done | done |]. intros Hh%head_in. apply E, eq_sym. by eapply Hdis.
  - intros b. unfold relist. case_decide; [by apply NoDup_cons | done].
  - intros b c y. unfold relist. do 2 case_decide; subst; rewrite ?elem_of_cons; try done.
    + intros [->|Hy] Hc; [by destruct (Hx c) | by apply (Hdis a c y)].
    + intros Hb [->|Hy]; [by destruct (Hx b) | by apply (Hdis b a y)].
    + by apply Hdis.
Qed.

(** * Taking out *)

(** What is before an item of [l1 ++ l2] is before it in [l1 ++ x :: l2], but for
    the first of [l2]; likewise what is after it. *)
Lemma dl_unlink nx pv l1 x l2 :
  NoDup (l1 ++ x :: l2) -> dl nx pv (l1 ++ x :: l2) -> dl (put_opt (last l1) (head l2) nx) (put_opt (head l2) (last l1) pv) (l1 ++ l2).
Proof.
  intros Hnd Hd k1 y k2 E. assert (Hnd' : NoDup (l1 ++ l2)).
  { apply NoDup_app in Hnd as (H1 & H2 & [_ H3]%NoDup_cons). apply NoDup_app. split; [done |]. split; [|done]. intros z Hz Hz2. apply (H2 z Hz). set_solver. }
  apply app_eq_inv in E as [(k & -> & Ek)|(k & -> & ->)].
  - (* the item is in l1 *)
    destruct k as [|z k]; simpl in Ek.
    + (* the first of l2, with nothing of l1 after it *)
      rewrite app_nil_r in *. subst l2. destruct (Hd (k1 ++ [x]) y k2) as [Hn Hp]; [by rewrite <- app_assoc |].
      assert (Hy1 : y ∉ k1) by (apply NoDup_app in Hnd' as (_ & H2 & _); intros Hy; apply (H2 y Hy); set_solver).
      split; [rewrite put_opt_ne; [done |]; by intros ?%last_in |]. simpl. by rewrite lookup_insert_eq.
    + injection Ek as -> ->. destruct (Hd k1 z (k ++ x :: l2)) as [Hn Hp]; [by rewrite <- app_assoc |].
      assert (Hz2 : head l2 <> Some z).
      { intros H%head_in. apply NoDup_app in Hnd' as (_ & H2 & _). apply (H2 z); set_solver. }
      split; [|by rewrite put_opt_ne]. destruct k as [|w k] using rev_ind; simpl.
      * by rewrite last_snoc, put_opt_eq.
      * clear IHk. replace (k1 ++ z :: k ++ [w]) with ((k1 ++ z :: k) ++ [w]) in * by (by rewrite <- app_assoc).
        rewrite last_snoc. simpl. rewrite lookup_insert_ne.
        -- rewrite Hn. destruct k; done.
        -- intros ->. apply NoDup_app in Hnd' as (H1 & _ & _). apply NoDup_app in H1 as (_ & H2 & _). apply (H2 z); set_solver.
  - (* the item is in l2 *)
    destruct (Hd (l1 ++ x :: k) y k2) as [Hn Hp]; [by rewrite <- app_assoc |].
    assert (Hy1 : y ∉ l1) by (apply NoDup_app in Hnd' as (_ & H2 & _); intros Hy; apply (H2 y Hy); set_solver).
    split; [rewrite put_opt_ne; [done |]; by intros ?%last_in |]. destruct k as [|z k]; simpl.
    + rewrite lookup_insert_eq. by rewrite app_nil_r.
    + rewrite lookup_insert_ne, Hp, !last_app, !last_cons.
      * destruct (last k); done.
      * intros ->. apply NoDup_app in Hnd' as (_ & _ & [H3 _]%NoDup_cons). apply H3. set_solver.
Qed.
Lemma shape_unlink nx pv Q a l1 x l2 :
  shape nx pv Q -> Q a = l1 ++ x :: l2 ->
  shape (put_opt (last l1) (head l2) nx) (put_opt (head l2) (last l1) pv) (relist a (l1 ++ l2) Q).
Proof.
  intros [Hd Hnd Hdis] E. constructor.
  - intros b. unfold relist. case_decide as Eb.
    + apply (dl_unlink _ _ _ x); rewrite <- E; [apply Hnd | apply Hd].
    + apply (dl_frame nx pv); [|apply Hd]. intros y Hy.
      assert (Hne : y ∉ Q a) by (intros Hya; apply Eb; by eapply Hdis). rewrite E in Hne.
      rewrite !put_opt_ne; [done | |]; [intros H%head_in | intros H%last_in]; apply Hne; set_solver.
  - intros b. unfold relist. case_decide; [|apply Hnd]. specialize (Hnd a). rewrite E in Hnd.
    apply NoDup_app in Hnd as (H1 & H2 & [_ H3]%NoDup_cons). apply NoDup_app. split; [done |]. split; [|done]. intros z Hz Hz2. apply (H2 z Hz). set_solver.
  - intros b c y. unfold relist. do 2 case_decide; subst; try done.
    + intros Hy. apply Hdis. rewrite E. set_solver.
    + intros Hb Hy. apply (Hdis b a y Hb). rewrite E. set_solver.
    + apply Hdis.
Qed.

(** The links of an item in a list, and of one that is not in any. *)
Lemma shape_links nx pv Q a l1 x l2 : shape nx pv Q -> Q a = l1 ++ x :: l2 -> nx !! x = Some (head l2) /\ pv !! x = Some (last l1).
Proof. intros S E. by apply (sh_dl _ _ _ S a). Qed.
Lemma shape_other nx pv Q x p q : shape nx pv Q -> (forall a, x ∉ Q a) -> shape (<[x := p]> nx) (<[x := q]> pv) Q.
Proof.
  intros [Hd Hnd Hdis] Hx. constructor; [|done..]. intros a. apply (dl_frame nx pv); [|done]. intros y Hy.
  rewrite !lookup_insert_ne; [done | |]; intros ->; by apply (Hx a).
Qed.
Lemma shape_frame nx pv nx' pv' Q :
  shape nx pv Q -> (forall a x, x ∈ Q a -> nx' !! x = nx !! x /\ pv' !! x = pv !! x) -> shape nx' pv' Q.
Proof. intros [H1 H2 H3] H. constructor; try done. intros a. apply (dl_frame nx pv); [apply H | done]. Qed.
Lemma shape_ext nx pv Q Q' : (forall a, Q a = Q' a) -> shape nx pv Q -> shape nx pv Q'.
Proof. intros E [H1 H2 H3]. constructor; [intros a; rewrite <- E; apply H1 | intros a; rewrite <- E; apply H2 | intros a b x; rewrite <- !E; apply H3]. Qed.
Lemma relist_twice a l l' Q b : relist a l (relist a l' Q) b = relist a l Q b.
Proof. unfold relist. by case_decide. Qed.
Lemma relist_self a Q b : relist a (Q a) Q b = Q b.
Proof. unfold relist. case_decide; by subst. Qed.
End DList.
