(* ===== verification/Store.v ===== *)
(** The state of the cache server's store (lib/memcached-1.4.25): items, the LRU
    lists, the slab classes, counters and settings, and the accesses the other
    files are written with. *)
From S2P Require Import Prelude CStr CDec Assoc.
Local Open Scope Z_scope.

(** * Items (memcached.h) *)

(** The fields of an item beside its links, its key and [h_next]. [it_suffix] are
    the bytes at [ITEM_suffix], [it_data] those from [ITEM_data] to the end of the
    chunk the item is in. *)
Record hdr := MkHdr {
  it_time : Z;
  it_exptime : Z;
  it_nbytes : Z;
  it_refcount : Z;
  it_flags : Z;
  it_clsid : Z;
  it_cas : Z;
  it_suffix : list ascii;
  it_data : list ascii
}.
Definition set_time v h := MkHdr v (it_exptime h) (it_nbytes h) (it_refcount h) (it_flags h) (it_clsid h) (it_cas h) (it_suffix h) (it_data h).
Definition set_exptime v h := MkHdr (it_time h) v (it_nbytes h) (it_refcount h) (it_flags h) (it_clsid h) (it_cas h) (it_suffix h) (it_data h).
Definition set_refcount v h := MkHdr (it_time h) (it_exptime h) (it_nbytes h) v (it_flags h) (it_clsid h) (it_cas h) (it_suffix h) (it_data h).
Definition set_flags v h := MkHdr (it_time h) (it_exptime h) (it_nbytes h) (it_refcount h) v (it_clsid h) (it_cas h) (it_suffix h) (it_data h).
Definition set_clsid v h := MkHdr (it_time h) (it_exptime h) (it_nbytes h) (it_refcount h) (it_flags h) v (it_cas h) (it_suffix h) (it_data h).
Definition set_cas v h := MkHdr (it_time h) (it_exptime h) (it_nbytes h) (it_refcount h) (it_flags h) (it_clsid h) v (it_suffix h) (it_data h).
Definition set_data v h := MkHdr (it_time h) (it_exptime h) (it_nbytes h) (it_refcount h) (it_flags h) (it_clsid h) (it_cas h) (it_suffix h) v.

Definition ITEM_LINKED : Z := 1.
Definition ITEM_CAS : Z := 2.
Definition ITEM_SLABBED : Z := 4.
Definition ITEM_FETCHED : Z := 8.
Definition ITEM_ACTIVE : Z := 16.
Definition has (flag : Z) (h : hdr) : bool := negb (Z.land (it_flags h) flag =? 0).

Definition ITEM_get_cas (h : hdr) : Z := if has ITEM_CAS h then it_cas h else 0.
Definition ITEM_set_cas (v : Z) (h : hdr) : hdr := if has ITEM_CAS h then set_cas v h else h.
(** The number of bytes of [struct _stritem] on a 64-bit machine. *)
Definition sizeof_item : Z := 48.
Definition ITEM_ntotal (nkey : Z) (h : hdr) : Z :=
  sizeof_item + nkey + 1 + Z.of_nat (length (it_suffix h)) + it_nbytes h + (if has ITEM_CAS h then 8 else 0).
Definition CLEAR_LRU (id : Z) : Z := Z.land id (Z.lnot 192).
Definition ITEM_clsid (h : hdr) : Z := CLEAR_LRU (it_clsid h).

Definition HOT_LRU : Z := 0.
Definition WARM_LRU : Z := 64.
Definition COLD_LRU : Z := 128.
Definition NOEXP_LRU : Z := 192.
Definition POWER_SMALLEST : Z := 1.
Definition POWER_LARGEST : Z := 256.
Definition SLAB_GLOBAL_PAGE_POOL : Z := 0.
Definition CHUNK_ALIGN_BYTES : Z := 8.
Definition MAX_NUMBER_OF_SLAB_CLASSES : Z := 64.
Definition ITEM_UPDATE_INTERVAL : Z := 60.

(** * The other variables *)

Record lrus := MkLrus { heads : list (option ptr); tails : list (option ptr); sizes : list Z }.
Definition set_heads v l := MkLrus v (tails l) (sizes l).
Definition set_tails v l := MkLrus (heads l) v (sizes l).
Definition set_sizes v l := MkLrus (heads l) (tails l) v.

(** [slab_list] is the array of [list_size] pages. *)
Record slabclass_t := MkSlabclass {
  c_size : Z;
  perslab : Z;
  slots : option ptr;
  sl_curr : Z;
  slabs : Z;
  slab_list : list (option ptr);
  requested : Z
}.
Definition set_slots v c := MkSlabclass (c_size c) (perslab c) v (sl_curr c) (slabs c) (slab_list c) (requested c).
Definition set_sl_curr v c := MkSlabclass (c_size c) (perslab c) (slots c) v (slabs c) (slab_list c) (requested c).
Definition set_slabs v c := MkSlabclass (c_size c) (perslab c) (slots c) (sl_curr c) v (slab_list c) (requested c).
Definition set_slab_list v c := MkSlabclass (c_size c) (perslab c) (slots c) (sl_curr c) (slabs c) v (requested c).
Definition set_requested v c := MkSlabclass (c_size c) (perslab c) (slots c) (sl_curr c) (slabs c) (slab_list c) v.

(** malloc gives out the addresses from [brk] on, up to [mem_top]; [malloc_ok] says
    of the calls of malloc and realloc to come which succeed, all when it is at its
    end. *)
Record slabmem := MkSlabmem {
  slabclass : list slabclass_t;
  mem_limit : Z;
  mem_malloced : Z;
  mem_limit_reached : bool;
  power_largest : Z;
  mem_base : option Z;
  mem_current : Z;
  mem_avail : Z;
  brk : Z;
  mem_top : Z;
  malloc_ok : list bool
}.
Definition set_slabclass v m := MkSlabmem v (mem_limit m) (mem_malloced m) (mem_limit_reached m) (power_largest m) (mem_base m) (mem_current m) (mem_avail m) (brk m) (mem_top m) (malloc_ok m).
Definition set_mem_malloced v m := MkSlabmem (slabclass m) (mem_limit m) v (mem_limit_reached m) (power_largest m) (mem_base m) (mem_current m) (mem_avail m) (brk m) (mem_top m) (malloc_ok m).
Definition set_limit_reached v m := MkSlabmem (slabclass m) (mem_limit m) (mem_malloced m) v (power_largest m) (mem_base m) (mem_current m) (mem_avail m) (brk m) (mem_top m) (malloc_ok m).
Definition set_pool c a m := MkSlabmem (slabclass m) (mem_limit m) (mem_malloced m) (mem_limit_reached m) (power_largest m) (mem_base m) c a (brk m) (mem_top m) (malloc_ok m).
Definition set_heap b o m := MkSlabmem (slabclass m) (mem_limit m) (mem_malloced m) (mem_limit_reached m) (power_largest m) (mem_base m) (mem_current m) (mem_avail m) b (mem_top m) o.

(** The counters of items.c. *)
Inductive istat := evicted | evicted_nonzero | reclaimed | outofmemory | tailrepairs | expired_unfetched | evicted_unfetched
  | lrutail_reflocked | moves_to_cold | moves_to_warm | moves_within_lru | direct_reclaims | evicted_time.
#[export] Instance istat_eq_dec : EqDecision istat.
Proof. solve_decision. Defined.
Record counters := MkCounters { cas_id : Z; current_time : Z; curr_bytes : Z; curr_items : Z; total_items : Z; itemstats : Z -> istat -> Z }.
Definition set_cas_id v c := MkCounters v (current_time c) (curr_bytes c) (curr_items c) (total_items c) (itemstats c).
Definition set_totals b n t c := MkCounters (cas_id c) (current_time c) b n t (itemstats c).
Definition set_itemstats v c := MkCounters (cas_id c) (current_time c) (curr_bytes c) (curr_items c) (total_items c) v.

Record settings := MkSettings {
  oldest_live : Z;
  oldest_cas : Z;
  evict_to_free : bool;
  chunk_size : Z;
  use_cas : bool;
  item_size_max : Z;
  lru_maintainer_thread : bool;
  slab_reassign : bool;
  tail_repair_time : Z;
  hot_lru_pct : Z;
  warm_lru_pct : Z;
  expirezero_does_not_evict : bool
}.

Record store := MkStore {
  tbl : assoc;
  i_next : gmap ptr (option ptr);
  i_prev : gmap ptr (option ptr);
  hdrs : gmap ptr hdr;
  lru : lrus;
  mem : slabmem;
  cnt : counters;
  cfg : settings
}.
Abbreviation SM := (CM store).
Definition set_tbl v s := MkStore v (i_next s) (i_prev s) (hdrs s) (lru s) (mem s) (cnt s) (cfg s).
Definition set_i_next v s := MkStore (tbl s) v (i_prev s) (hdrs s) (lru s) (mem s) (cnt s) (cfg s).
Definition set_i_prev v s := MkStore (tbl s) (i_next s) v (hdrs s) (lru s) (mem s) (cnt s) (cfg s).
Definition set_hdrs v s := MkStore (tbl s) (i_next s) (i_prev s) v (lru s) (mem s) (cnt s) (cfg s).
Definition set_lru v s := MkStore (tbl s) (i_next s) (i_prev s) (hdrs s) v (mem s) (cnt s) (cfg s).
Definition set_mem v s := MkStore (tbl s) (i_next s) (i_prev s) (hdrs s) (lru s) v (cnt s) (cfg s).
Definition set_cnt v s := MkStore (tbl s) (i_next s) (i_prev s) (hdrs s) (lru s) (mem s) v (cfg s).

(** * Accesses *)

Definition arr {A} (l : list A) (i : Z) : option A := if i <? 0 then None else l !! Z.to_nat i.
Definition upd_arr {A} (l : list A) (i : Z) (v : A) : list A := <[Z.to_nat i := v]> l.

(** assert: the checks are compiled in unless NDEBUG is set; a failing one counts
    as undefined. *)
Definition assert (b : bool) : SM unit := if b then ret tt else undef.

Definition hdr_of (it : ptr) : SM hdr := get_or_undef (fun s => hdrs s !! it).
Definition upd_hdr (it : ptr) (f : hdr -> hdr) : SM unit :=
  h <- hdr_of it ;; modify (fun s => set_hdrs (<[it := f h]> (hdrs s)) s).
Definition get_next (it : ptr) : SM (option ptr) := get_or_undef (fun s => i_next s !! it).
Definition get_prev (it : ptr) : SM (option ptr) := get_or_undef (fun s => i_prev s !! it).
Definition set_next (it : ptr) (v : option ptr) : SM unit := get_next it ;;; modify (fun s => set_i_next (<[it := v]> (i_next s)) s).
Definition set_prev (it : ptr) (v : option ptr) : SM unit := get_prev it ;;; modify (fun s => set_i_prev (<[it := v]> (i_prev s)) s).
Definition ITEM_key (it : ptr) : SM (list ascii) := zoom tbl set_tbl (key_of it).

Definition class_of (id : Z) : SM slabclass_t := get_or_undef (fun s => arr (slabclass (mem s)) id).
Definition upd_class (id : Z) (f : slabclass_t -> slabclass_t) : SM unit :=
  c <- class_of id ;; modify (fun s => set_mem (set_slabclass (upd_arr (slabclass (mem s)) id (f c)) (mem s)) s).

Definition refcount_incr (it : ptr) : SM Z :=
  h <- hdr_of it ;; upd_hdr it (set_refcount (u16 (it_refcount h + 1))) ;;; ret (u16 (it_refcount h + 1)).
Definition refcount_decr (it : ptr) : SM Z :=
  h <- hdr_of it ;; upd_hdr it (set_refcount (u16 (it_refcount h - 1))) ;;; ret (u16 (it_refcount h - 1)).

Definition bump (id : Z) (st : istat) : SM unit :=
  modify (fun s => set_cnt (set_itemstats (fun i x => if (i =? id) && bool_decide (x = st) then u64 (itemstats (cnt s) i x + 1) else itemstats (cnt s) i x) (cnt s)) s).
Definition put_stat (id : Z) (st : istat) (v : Z) : SM unit :=
  modify (fun s => set_cnt (set_itemstats (fun i x => if (i =? id) && bool_decide (x = st) then v else itemstats (cnt s) i x) (cnt s)) s).
