(* ===== verification/Slabs.v ===== *)
(** The slab allocator of the cache server (lib/memcached-1.4.25/slabs.c): chunk
    sizes, pages cut into free lists, allocation and release of chunks. *)
From S2P Require Import Prelude CStr CDec CFloat Assoc Store.
From Stdlib Require Import SpecFloat.
Local Open Scope Z_scope.

Fixpoint clsid_loop (fuel : nat) (size : Z) (res : Z) : SM Z :=
  c <- class_of res ;;
  if size <=? c_size c then ret res
  else
    pl <- gets (fun s => power_largest (mem s)) ;;
    if res =? pl then ret 0 else match fuel with O => nofuel | S fuel => clsid_loop fuel size (res + 1) end.
Definition slabs_clsid (size : Z) : SM Z :=
  if size =? 0 then ret 0 else clsid_loop (Z.to_nat MAX_NUMBER_OF_SLAB_CLASSES) size POWER_SMALLEST.

(** ** Start *)

(** [size *= factor], [item_size_max / factor]: by way of doubles. *)
Definition u32_of_f64 (x : spec_float) : option Z :=
  match x with
  | S754_zero _ => Some 0
  | S754_finite false m e =>
      let v := if 0 <=? e then Zpos m * 2 ^ e else Zpos m / 2 ^ (- e) in
      if v <? 2 ^ 32 then Some v else None
  | _ => None
  end.
Definition f64_mul : spec_float -> spec_float -> spec_float := SFmul 53 1024.
Definition align (size : Z) : Z :=
  if size mod CHUNK_ALIGN_BYTES =? 0 then size else u32 (size + (CHUNK_ALIGN_BYTES - size mod CHUNK_ALIGN_BYTES)).
(** The classes from [i] on; the result is [power_largest]. *)
Fixpoint init_classes (fuel : nat) (factor : spec_float) (i size : Z) : SM Z :=
  max <- gets (fun s => item_size_max (cfg s)) ;;
  if (i <? MAX_NUMBER_OF_SLAB_CLASSES - 1) && negb (f_gt (f64_of_Z size) (f64_div (f64_of_Z max) factor)) then
    match fuel with
    | O => nofuel
    | S fuel =>
        let size := align size in
        upd_class i (fun c => MkSlabclass size (u32 (max / size)) (slots c) (sl_curr c) (slabs c) (slab_list c) (requested c)) ;;;
        size <- get_or_undef (fun _ => u32_of_f64 (f64_mul (f64_of_Z size) factor)) ;;
        init_classes fuel factor (i + 1) size
    end
  else ret i.
Definition class0 : slabclass_t := MkSlabclass 0 0 None 0 0 [] 0.
Definition set_limits (limit largest : Z) (m : slabmem) : slabmem :=
  MkSlabmem (slabclass m) limit (mem_malloced m) (mem_limit_reached m) largest (mem_base m) (mem_current m) (mem_avail m) (brk m) (mem_top m) (malloc_ok m).
(** Without preallocation, as the start script runs the server. *)
Definition slabs_init (limit : Z) (factor : spec_float) : SM unit :=
  cs <- gets (fun s => chunk_size (cfg s)) ;;
  modify (fun s => set_mem (set_limits limit (power_largest (mem s)) (set_slabclass (replicate (Z.to_nat MAX_NUMBER_OF_SLAB_CLASSES) class0) (mem s))) s) ;;;
  largest <- init_classes (Z.to_nat MAX_NUMBER_OF_SLAB_CLASSES) factor POWER_SMALLEST (u32 (sizeof_item + cs)) ;;
  max <- gets (fun s => item_size_max (cfg s)) ;;
  modify (fun s => set_mem (set_limits limit largest (mem s)) s) ;;;
  upd_class largest (fun c => MkSlabclass (u32 max) 1 (slots c) (sl_curr c) (slabs c) (slab_list c) (requested c)).

(** ** Pages *)

(** Whether the next malloc or realloc succeeds. *)
Definition alloc_ok : SM bool :=
  m <- gets mem ;;
  modify (set_mem (set_heap (brk m) (tail (malloc_ok m)) m)) ;;;
  ret (default true (head (malloc_ok m))).
Definition malloc (n : Z) : SM (option Z) :=
  ok <- alloc_ok ;;
  m <- gets mem ;;
  if ok && (brk m + n <=? mem_top m) then modify (set_mem (set_heap (brk m + n) (malloc_ok m) m)) ;;; ret (Some (brk m)) else ret None.
Definition memory_allocate (size : Z) : SM (option Z) :=
  m <- gets mem ;;
  match mem_base m with
  | None =>
      r <- malloc size ;;
      modify (fun s => set_mem (set_mem_malloced (u64 (mem_malloced (mem s) + size)) (mem s)) s) ;;;
      ret r
  | Some _ =>
      if mem_avail m <? size then ret None
      else
        let size := if size mod CHUNK_ALIGN_BYTES =? 0 then size else size + (CHUNK_ALIGN_BYTES - size mod CHUNK_ALIGN_BYTES) in
        modify (fun s => set_mem (set_pool (mem_current m + size) (if size <? mem_avail m then mem_avail m - size else 0) (mem s)) s) ;;;
        modify (fun s => set_mem (set_mem_malloced (u64 (mem_malloced (mem s) + size)) (mem s)) s) ;;;
        ret (Some (mem_current m))
  end.

Definition grow_slab_list (id : Z) : SM bool :=
  p <- class_of id ;;
  if slabs p =? Z.of_nat (length (slab_list p)) then
    ok <- alloc_ok ;;
    if ok : bool then
      let new_size := if Z.of_nat (length (slab_list p)) =? 0 then 16 else Z.of_nat (length (slab_list p)) * 2 in
      upd_class id (set_slab_list (slab_list p ++ replicate (Z.to_nat new_size - length (slab_list p)) None)) ;;; ret true
    else ret false
  else ret true.

Definition do_slabs_free (it : ptr) (size : Z) (id : Z) : SM unit :=
  pl <- gets (fun s => power_largest (mem s)) ;;
  assert ((POWER_SMALLEST <=? id) && (id <=? pl)) ;;;
  upd_hdr it (set_flags ITEM_SLABBED) ;;;
  upd_hdr it (set_clsid 0) ;;;
  set_prev it None ;;;
  p <- class_of id ;;
  set_next it (slots p) ;;;
  match slots p with Some n => set_prev n (Some it) | None => ret tt end ;;;
  upd_class id (set_slots (Some it)) ;;;
  upd_class id (fun c => set_sl_curr (u32 (sl_curr c + 1)) c) ;;;
  upd_class id (fun c => set_requested (u64 (requested c - size)) c).

Fixpoint split_loop (n : nat) (addr size id : Z) : SM unit :=
  match n with
  | O => ret tt
  | S n => do_slabs_free (Z.to_pos addr) 0 id ;;; split_loop n (addr + size) size id
  end.
Definition split_slab_page_into_freelist (addr id : Z) : SM unit :=
  p <- class_of id ;; split_loop (Z.to_nat (perslab p)) addr (c_size p) id.

Definition get_page_from_global_pool : SM (option Z) :=
  p <- class_of SLAB_GLOBAL_PAGE_POOL ;;
  if slabs p <? 1 then ret None
  else
    r <- get_or_undef (fun _ => arr (slab_list p) (slabs p - 1)) ;;
    upd_class SLAB_GLOBAL_PAGE_POOL (set_slabs (slabs p - 1)) ;;;
    ret (Zpos <$> r).

(** [memset(ptr, 0, len)] of a page: what was in it is gone, and each chunk to come
    is an item of zeros. *)
Definition item0 : hdr := MkHdr 0 0 0 0 0 0 0 [] [].
Definition chunks (addr size : Z) (n : nat) : list ptr := map (fun x => Z.to_pos (addr + Z.of_nat x * size)) (seq 0 n).
Definition zeroed {A} (addr len : Z) (cs : list ptr) (v : A) (m : gmap ptr A) : gmap ptr A :=
  foldr (fun x m => <[x := v]> m) (filter (fun '(x, _) => ~ (addr <= Zpos x < addr + len)) m) cs.
Definition clear_page (addr len : Z) (cs : list ptr) (s : store) : store :=
  let t := tbl s in
  MkStore (MkAssoc (zeroed addr len cs [] (item_key t)) (zeroed addr len cs None (h_next t)) (hashpower t) (primary_hashtable t) (old_hashtable t)
             (hash_items t) (expanding t) (started_expanding t) (expand_bucket t))
    (zeroed addr len cs None (i_next s)) (zeroed addr len cs None (i_prev s)) (zeroed addr len cs item0 (hdrs s)) (lru s) (mem s) (cnt s) (cfg s).

(** [p->slab_list[p->slabs++] = ptr]. *)
Definition add_page (id addr : Z) : SM unit :=
  p <- class_of id ;;
  if slabs p <? Z.of_nat (length (slab_list p)) then
    upd_class id (fun c => set_slabs (u32 (slabs c + 1)) (set_slab_list (upd_arr (slab_list c) (slabs c) (Some (Z.to_pos addr))) c))
  else undef.
Definition do_slabs_newslab (id : Z) : SM bool :=
  p <- class_of id ;;
  g <- class_of SLAB_GLOBAL_PAGE_POOL ;;
  s <- gets (fun s => s) ;;
  let len := if slab_reassign (cfg s) then item_size_max (cfg s) else i32 (c_size p * perslab p) in
  if negb (mem_limit (mem s) =? 0) && (mem_limit (mem s) <? u64 (mem_malloced (mem s) + len)) && (0 <? slabs p) && (slabs g =? 0) then
    modify (fun s => set_mem (set_limit_reached true (mem s)) s) ;;; ret false
  else
    grown <- grow_slab_list id ;;
    if negb grown then ret false
    else
      page <- get_page_from_global_pool ;;
      page <- match page with Some a => ret (Some a) | None => memory_allocate len end ;;
      match page with
      | None => ret false
      | Some addr =>
          modify (clear_page addr len (chunks addr (c_size p) (Z.to_nat (perslab p)))) ;;;
          split_slab_page_into_freelist addr id ;;;
          add_page id addr ;;;
          ret true
      end.

(** ** Chunks *)

Definition SLABS_ALLOC_NO_NEWPAGE : Z := 1.
(** The chunk, and [*total_chunks] when the code gets to write it. *)
Definition do_slabs_alloc (size id flags : Z) : SM (option ptr * option Z) :=
  pl <- gets (fun s => power_largest (mem s)) ;;
  if (id <? POWER_SMALLEST) || (pl <? id) then ret (None, None)
  else
    p <- class_of id ;;
    match slots p with
    | Some x => if sl_curr p =? 0 then ret tt else h <- hdr_of x ;; assert (it_clsid h =? 0)
    | None => assert (sl_curr p =? 0)
    end ;;;
    (if (sl_curr p =? 0) && negb (flags =? SLABS_ALLOC_NO_NEWPAGE) then do_slabs_newslab id ;;; ret tt else ret tt) ;;;
    let total := u32 (slabs p * perslab p) in
    p <- class_of id ;;
    if sl_curr p =? 0 then ret (None, Some total)
    else
      match slots p with
      | None => undef
      | Some it =>
          n <- get_next it ;;
          upd_class id (set_slots n) ;;;
          match n with Some y => set_prev y None | None => ret tt end ;;;
          upd_hdr it (fun h => set_flags (Z.land (it_flags h) (Z.lnot ITEM_SLABBED)) h) ;;;
          upd_hdr it (set_refcount 1) ;;;
          upd_class id (fun c => set_sl_curr (u32 (sl_curr c - 1)) c) ;;;
          upd_class id (fun c => set_requested (u64 (requested c + size)) c) ;;;
          ret (Some it, Some total)
      end.
(** With [slabs_lock] around them. *)
Definition slabs_alloc : Z -> Z -> Z -> SM (option ptr * option Z) := do_slabs_alloc.
Definition slabs_free : ptr -> Z -> Z -> SM unit := do_slabs_free.
