(* ===== verification/Items.v ===== *)
(** Items of the cache server (lib/memcached-1.4.25/items.c, and the functions of
    thread.c that take the item lock around them): allocation with eviction, the
    LRU lists, linking and unlinking, look-up with expiry. *)
From S2P Require Import Prelude CStr CDec Assoc Store Slabs.
Local Open Scope Z_scope.

Definition get_cas_id : SM Z :=
  c <- gets cnt ;; modify (set_cnt (set_cas_id (u64 (cas_id c + 1)) c)) ;;; ret (u64 (cas_id c + 1)).

Definition item_is_flushed (h : hdr) (s : store) : bool :=
  let live := oldest_live (cfg s) in
  let oldest := oldest_cas (cfg s) in
  if (live =? 0) || (current_time (cnt s) <? live) then false
  else (it_time h <=? live) || (negb (oldest =? 0) && negb (ITEM_get_cas h =? 0) && (ITEM_get_cas h <? oldest)).

Definition noexp_lru_size (clsid : Z) : SM Z := get_or_undef (fun s => arr (sizes (lru s)) (Z.lor (CLEAR_LRU clsid) NOEXP_LRU)).

(** The suffix, of at most 26 characters, and the size; [nkey] is a byte. *)
Definition item_suffix (flags nbytes : Z) : list ascii := [SP] ++ show_int flags ++ [SP] ++ show_int (nbytes - 2) ++ [CR; LF].
Definition item_make_header (nkey flags nbytes : Z) : list ascii * Z :=
  let suffix := item_suffix flags nbytes in
  (suffix, u64 (sizeof_item + nkey mod 256 + Z.of_nat (length suffix) + nbytes)).
Definition item_total (nkey flags nbytes : Z) (s : store) : list ascii * Z :=
  let '(suffix, ntotal) := item_make_header (nkey + 1) flags nbytes in
  (suffix, if use_cas (cfg s) then u64 (ntotal + 8) else ntotal).

(** ** The LRU lists *)

Definition lru_head (id : Z) : SM (option ptr) := get_or_undef (fun s => arr (heads (lru s)) id).
Definition lru_tail (id : Z) : SM (option ptr) := get_or_undef (fun s => arr (tails (lru s)) id).
Definition lru_size (id : Z) : SM Z := get_or_undef (fun s => arr (sizes (lru s)) id).
Definition set_head (id : Z) (v : option ptr) : SM unit := lru_head id ;;; modify (fun s => set_lru (set_heads (upd_arr (heads (lru s)) id v) (lru s)) s).
Definition set_tail (id : Z) (v : option ptr) : SM unit := lru_tail id ;;; modify (fun s => set_lru (set_tails (upd_arr (tails (lru s)) id v) (lru s)) s).
Definition set_size (id : Z) (v : Z) : SM unit := lru_size id ;;; modify (fun s => set_lru (set_sizes (upd_arr (sizes (lru s)) id v) (lru s)) s).
Definition is_null (p : option ptr) : bool := bool_decide (p = None).

Definition do_item_link_q (it : ptr) : SM unit :=
  h <- hdr_of it ;;
  assert (negb (has ITEM_SLABBED h)) ;;;
  let id := it_clsid h in
  head <- lru_head id ;;
  tail <- lru_tail id ;;
  assert (negb (bool_decide (head = Some it))) ;;;
  assert (bool_decide (is_null head = is_null tail)) ;;;
  set_prev it None ;;;
  set_next it head ;;;
  match head with Some y => set_prev y (Some it) | None => ret tt end ;;;
  set_head id (Some it) ;;;
  (if is_null tail then set_tail id (Some it) else ret tt) ;;;
  n <- lru_size id ;; set_size id (u32 (n + 1)).
Definition item_link_q : ptr -> SM unit := do_item_link_q.

Definition do_item_unlink_q (it : ptr) : SM unit :=
  h <- hdr_of it ;;
  let id := it_clsid h in
  n <- get_next it ;;
  p <- get_prev it ;;
  head <- lru_head id ;;
  (if bool_decide (head = Some it) then assert (is_null p) ;;; set_head id n else ret tt) ;;;
  tail <- lru_tail id ;;
  (if bool_decide (tail = Some it) then assert (is_null n) ;;; set_tail id p else ret tt) ;;;
  assert (negb (bool_decide (n = Some it))) ;;;
  assert (negb (bool_decide (p = Some it))) ;;;
  match n with Some y => set_prev y p | None => ret tt end ;;;
  match p with Some y => set_next y n | None => ret tt end ;;;
  k <- lru_size id ;; set_size id (u32 (k - 1)).
Definition item_unlink_q : ptr -> SM unit := do_item_unlink_q.

(** ** Linking *)

Definition item_free (it : ptr) : SM unit :=
  h <- hdr_of it ;;
  k <- ITEM_key it ;;
  let ntotal := ITEM_ntotal (Z.of_nat (length k)) h in
  assert (negb (has ITEM_LINKED h)) ;;;
  head <- lru_head (it_clsid h) ;; assert (negb (bool_decide (head = Some it))) ;;;
  tail <- lru_tail (it_clsid h) ;; assert (negb (bool_decide (tail = Some it))) ;;;
  assert (it_refcount h =? 0) ;;;
  slabs_free it ntotal (ITEM_clsid h).

Definition do_item_remove (it : ptr) : SM unit :=
  h <- hdr_of it ;;
  assert (negb (has ITEM_SLABBED h)) ;;;
  assert (0 <? it_refcount h) ;;;
  r <- refcount_decr it ;;
  if r =? 0 then item_free it else ret tt.

Definition add_totals (bytes items total : Z) : SM unit :=
  modify (fun s => set_cnt (set_totals (u64 (curr_bytes (cnt s) + bytes)) (u32 (curr_items (cnt s) + items)) (u32 (total_items (cnt s) + total)) (cnt s)) s).

Definition do_item_link (it : ptr) (hv : Z) : SM Z :=
  h <- hdr_of it ;;
  k <- ITEM_key it ;;
  assert (Z.land (it_flags h) (Z.lor ITEM_LINKED ITEM_SLABBED) =? 0) ;;;
  upd_hdr it (fun h => set_flags (Z.lor (it_flags h) ITEM_LINKED) h) ;;;
  now <- gets (fun s => current_time (cnt s)) ;;
  upd_hdr it (set_time now) ;;;
  add_totals (ITEM_ntotal (Z.of_nat (length k)) h) 1 1 ;;;
  u <- gets (fun s => use_cas (cfg s)) ;;
  cas <- (if u : bool then get_cas_id else ret 0) ;;
  upd_hdr it (ITEM_set_cas cas) ;;;
  zoom tbl set_tbl (assoc_insert it hv) ;;;
  item_link_q it ;;;
  refcount_incr it ;;;
  ret 1.

Definition do_item_unlink (it : ptr) (hv : Z) : SM unit :=
  h <- hdr_of it ;;
  if has ITEM_LINKED h then
    upd_hdr it (fun h => set_flags (Z.land (it_flags h) (Z.lnot ITEM_LINKED)) h) ;;;
    k <- ITEM_key it ;;
    add_totals (- ITEM_ntotal (Z.of_nat (length k)) h) (-1) 0 ;;;
    zoom tbl set_tbl (assoc_delete k hv) ;;;
    item_unlink_q it ;;;
    do_item_remove it
  else ret tt.
(** The same, for a caller that holds the lock of the list. *)
Definition do_item_unlink_nolock (it : ptr) (hv : Z) : SM unit :=
  h <- hdr_of it ;;
  if has ITEM_LINKED h then
    upd_hdr it (fun h => set_flags (Z.land (it_flags h) (Z.lnot ITEM_LINKED)) h) ;;;
    k <- ITEM_key it ;;
    add_totals (- ITEM_ntotal (Z.of_nat (length k)) h) (-1) 0 ;;;
    zoom tbl set_tbl (assoc_delete k hv) ;;;
    do_item_unlink_q it ;;;
    do_item_remove it
  else ret tt.

(** [current_time - ITEM_UPDATE_INTERVAL] is unsigned. *)
Definition stale (h : hdr) (s : store) : bool := it_time h <? u32 (current_time (cnt s) - ITEM_UPDATE_INTERVAL).
Definition do_item_update_nolock (it : ptr) : SM unit :=
  h <- hdr_of it ;;
  s <- gets (fun s => s) ;;
  if stale h s then
    assert (negb (has ITEM_SLABBED h)) ;;;
    if has ITEM_LINKED h then
      do_item_unlink_q it ;;; upd_hdr it (set_time (current_time (cnt s))) ;;; do_item_link_q it
    else ret tt
  else ret tt.
Definition do_item_update (it : ptr) : SM unit :=
  h <- hdr_of it ;;
  s <- gets (fun s => s) ;;
  if stale h s then
    assert (negb (has ITEM_SLABBED h)) ;;;
    if has ITEM_LINKED h then
      upd_hdr it (set_time (current_time (cnt s))) ;;;
      if negb (lru_maintainer_thread (cfg s)) then item_unlink_q it ;;; item_link_q it else ret tt
    else ret tt
  else ret tt.

Definition do_item_replace (it new_it : ptr) (hv : Z) : SM Z :=
  h <- hdr_of it ;;
  assert (negb (has ITEM_SLABBED h)) ;;;
  do_item_unlink it hv ;;;
  do_item_link new_it hv.

Definition expired (h : hdr) (s : store) : bool := negb (it_exptime h =? 0) && (it_exptime h <=? current_time (cnt s)).
Definition do_item_get (key : list ascii) (hv : Z) : SM (option ptr) :=
  r <- zoom tbl set_tbl (assoc_find key hv) ;;
  match r with
  | None => ret None
  | Some it =>
      refcount_incr it ;;;
      h <- hdr_of it ;;
      s <- gets (fun s => s) ;;
      if item_is_flushed h s then do_item_unlink it hv ;;; do_item_remove it ;;; ret None
      else if expired h s then do_item_unlink it hv ;;; do_item_remove it ;;; ret None
      else upd_hdr it (fun h => set_flags (Z.lor (it_flags h) (Z.lor ITEM_FETCHED ITEM_ACTIVE)) h) ;;; ret (Some it)
  end.
Definition do_item_touch (key : list ascii) (exptime hv : Z) : SM (option ptr) :=
  r <- do_item_get key hv ;;
  match r with Some it => upd_hdr it (set_exptime exptime) ;;; ret (Some it) | None => ret None end.

(** ** Taking memory from the lists *)

Section Locks.
(** [hash]: the hash function; [lockable hv]: whether item_trylock succeeds;
    [junk n]: the [n] bytes found in the rest of a chunk. *)
Variable hash : list ascii -> Z.
Variable lockable : Z -> bool.
Variable junk : Z -> list ascii.

(** A round of the search is over: on to the next item, or stop with the item that
    was chosen and the list it moves to (0: none). *)
Inductive verdict := Next | Chosen (it : option ptr) (move_to_lru : Z).

Definition pull_hot_warm (id cur_lru total_chunks : Z) (search : ptr) (h : hdr) : SM (verdict * Z) :=
  pct <- gets (fun s => warm_lru_pct (cfg s)) ;;
  n <- lru_size id ;;
  if u64 (u32 (total_chunks * pct) / 100) <? n then
    bump id moves_to_cold ;;; do_item_unlink_q search ;;; ret (Chosen (Some search) COLD_LRU, 1)
  else if has ITEM_ACTIVE h then
    bump id moves_within_lru ;;;
    upd_hdr search (fun h => set_flags (Z.land (it_flags h) (Z.lnot ITEM_ACTIVE)) h) ;;;
    do_item_update_nolock search ;;; do_item_remove search ;;; ret (Next, 0)
  else ret (Chosen (Some search) 0, 0).

Definition pull_cold (id : Z) (do_evict : bool) (search : ptr) (hv : Z) (h : hdr) : SM (verdict * Z) :=
  s <- gets (fun s => s) ;;
  if do_evict then
    if negb (evict_to_free (cfg s)) then ret (Chosen (Some search) 0, 0)
    else
      bump id evicted ;;;
      put_stat id evicted_time (u32 (current_time (cnt s) - it_time h)) ;;;
      (if it_exptime h =? 0 then ret tt else bump id evicted_nonzero) ;;;
      (if has ITEM_FETCHED h then ret tt else bump id evicted_unfetched) ;;;
      do_item_unlink_nolock search hv ;;;
      ret (Chosen (Some search) 0, 1)
  else if has ITEM_ACTIVE h && lru_maintainer_thread (cfg s) then
    bump id moves_to_warm ;;;
    upd_hdr search (fun h => set_flags (Z.land (it_flags h) (Z.lnot ITEM_ACTIVE)) h) ;;;
    do_item_unlink_q search ;;; ret (Chosen (Some search) WARM_LRU, 1)
  else ret (Chosen (Some search) 0, 0).

(** What is done with the item at [search], its lock held; and what is added to
    [removed]. *)
Definition pull_item (id cur_lru total_chunks : Z) (do_evict : bool) (search : ptr) (hv : Z) : SM (verdict * Z) :=
  r <- refcount_incr search ;;
  h <- hdr_of search ;;
  s <- gets (fun s => s) ;;
  (if negb (r =? 2) then bump id lrutail_reflocked else ret tt) ;;;
  if negb (r =? 2) && negb (tail_repair_time (cfg s) =? 0) && (u32 (it_time h + tail_repair_time (cfg s)) <? current_time (cnt s)) then
    bump id tailrepairs ;;;
    upd_hdr search (set_refcount 1) ;;;
    do_item_unlink_nolock search hv ;;;
    ret (Next, 0)
  else if (negb (it_exptime h =? 0) && (it_exptime h <? current_time (cnt s))) || item_is_flushed h s then
    bump id reclaimed ;;;
    (if has ITEM_FETCHED h then ret tt else bump id expired_unfetched) ;;;
    do_item_unlink_nolock search hv ;;;
    do_item_remove search ;;;
    ret (Next, 1)
  else if (cur_lru =? HOT_LRU) || (cur_lru =? WARM_LRU) then pull_hot_warm id cur_lru total_chunks search h
  else if cur_lru =? COLD_LRU then pull_cold id do_evict search hv h
  else ret (Next, 0).

Fixpoint pull_loop (fuel : nat) (id cur_lru total_chunks : Z) (do_evict : bool) (cur_hv : Z) (tries : Z) (search : option ptr) (removed : Z) : SM (verdict * Z) :=
  match search with
  | None => ret (Chosen None 0, removed)
  | Some it =>
      if tries <=? 0 then ret (Chosen None 0, removed)
      else
        match fuel with
        | O => nofuel
        | S fuel =>
            next_it <- get_prev it ;;
            h <- hdr_of it ;;
            k <- ITEM_key it ;;
            if (it_nbytes h =? 0) && (Z.of_nat (length k) =? 0) && (it_flags h =? 1) then
              pull_loop fuel id cur_lru total_chunks do_evict cur_hv tries next_it removed
            else
              let hv := hash k in
              if (hv =? cur_hv) || negb (lockable hv) then pull_loop fuel id cur_lru total_chunks do_evict cur_hv (tries - 1) next_it removed
              else
                v <- pull_item id cur_lru total_chunks do_evict it hv ;;
                match v with
                | (Next, n) => pull_loop fuel id cur_lru total_chunks do_evict cur_hv (tries - 1) next_it (removed + n)
                | (c, n) => ret (c, removed + n)
                end
        end
  end.
(** [orig_id]: the slab class. *)
Definition lru_pull_tail (orig_id cur_lru total_chunks : Z) (do_evict : bool) (cur_hv : Z) : SM Z :=
  if orig_id =? 0 then ret 0
  else
    let id := Z.lor orig_id cur_lru in
    search <- lru_tail id ;;
    fuel <- gets (fun s => (size (hdrs s) + 5)%nat) ;;
    v <- pull_loop fuel id cur_lru total_chunks do_evict cur_hv 5 search 0 ;;
    match v with
    | (Chosen (Some it) move_to_lru, removed) =>
        (if move_to_lru =? 0 then ret tt
         else
           upd_hdr it (fun h => set_clsid (ITEM_clsid h) h) ;;;
           upd_hdr it (fun h => set_clsid (Z.lor (it_clsid h) move_to_lru) h) ;;;
           item_link_q it) ;;;
        do_item_remove it ;;;
        ret removed
    | (_, removed) => ret removed
    end.

(** ** Allocation *)

(** The rounds of the loop of do_item_alloc; the item and the number of rounds
    that did not get one. *)
Fixpoint alloc_rounds (n : nat) (i : Z) (ntotal id cur_hv : Z) : SM (option ptr * Z) :=
  match n with
  | O => ret (None, i)
  | S n =>
      c <- gets cfg ;;
      (if negb (lru_maintainer_thread c) then lru_pull_tail id COLD_LRU 0 false cur_hv ;;; ret tt else ret tt) ;;;
      r <- slabs_alloc ntotal id 0 ;;
      let '(it, total) := r in
      total <- get_or_undef (fun _ => total) ;;
      total <- (if expirezero_does_not_evict c then k <- noexp_lru_size id ;; ret (u32 (total - k)) else ret total) ;;
      match it with
      | Some it => ret (Some it, i)
      | None =>
          (if lru_maintainer_thread c then
             lru_pull_tail id HOT_LRU total false cur_hv ;;;
             lru_pull_tail id WARM_LRU total false cur_hv ;;;
             lru_pull_tail id COLD_LRU total true cur_hv ;;; ret tt
           else lru_pull_tail id COLD_LRU 0 true cur_hv ;;; ret tt) ;;;
          alloc_rounds n (i + 1) ntotal id cur_hv
      end
  end.

(** The header is written into the chunk: its links, flags, key, suffix; the rest
    of the chunk is what [junk] says.  memcpy must stay inside the chunk, and the
    length of the key must fit [nkey]. *)
Definition write_item (it : ptr) (key suffix : list ascii) (exptime nbytes id chunk : Z) : SM unit :=
  h <- hdr_of it ;;
  assert (it_clsid h =? 0) ;;;
  set_next it None ;;;
  set_prev it None ;;;
  zoom tbl set_tbl (put_next it None) ;;;
  c <- gets cfg ;;
  let id := Z.lor id (if lru_maintainer_thread c then (if (exptime =? 0) && expirezero_does_not_evict c then NOEXP_LRU else HOT_LRU) else COLD_LRU) in
  let flags := if use_cas c then ITEM_CAS else 0 in
  let room := chunk - (sizeof_item + (if use_cas c then 8 else 0) + Z.of_nat (length key) + 1 + Z.of_nat (length suffix)) in
  if (room <? 0) || (255 <? Z.of_nat (length key)) then undef
  else
    modify (fun s => set_tbl (MkAssoc (<[it := key]> (item_key (tbl s))) (h_next (tbl s)) (hashpower (tbl s)) (primary_hashtable (tbl s)) (old_hashtable (tbl s))
      (hash_items (tbl s)) (expanding (tbl s)) (started_expanding (tbl s)) (expand_bucket (tbl s))) s) ;;;
    upd_hdr it (fun h => MkHdr (it_time h) exptime nbytes (it_refcount h) flags (id mod 256) (it_cas h) suffix (junk room)).

Definition do_item_alloc (key : list ascii) (flags exptime nbytes cur_hv : Z) : SM (option ptr) :=
  t <- gets (item_total (Z.of_nat (length key)) flags nbytes) ;;
  let '(suffix, ntotal) := t in
  id <- slabs_clsid ntotal ;;
  if id =? 0 then ret None
  else
    r <- alloc_rounds 5 0 ntotal id cur_hv ;;
    let '(it, i) := r in
    (if 0 <? i then d <- gets (fun s => itemstats (cnt s) id direct_reclaims) ;; put_stat id direct_reclaims (u64 (d + i)) else ret tt) ;;;
    match it with
    | None => bump id outofmemory ;;; ret None
    | Some it =>
        c <- class_of id ;;
        write_item it key suffix exptime nbytes id (c_size c) ;;;
        ret (Some it)
    end.
Definition item_size_ok (nkey flags nbytes : Z) : SM bool :=
  t <- gets (item_total nkey flags nbytes) ;;
  id <- slabs_clsid t.2 ;;
  ret (negb (id =? 0)).

(** ** With the item lock (thread.c) *)

Definition item_alloc (key : list ascii) (flags exptime nbytes : Z) : SM (option ptr) := do_item_alloc key flags exptime nbytes 0.
Definition item_get (key : list ascii) : SM (option ptr) := do_item_get key (hash key).
Definition item_touch (key : list ascii) (exptime : Z) : SM (option ptr) := do_item_touch key exptime (hash key).
Definition item_link (it : ptr) : SM Z := k <- ITEM_key it ;; do_item_link it (hash k).
Definition item_remove (it : ptr) : SM unit := ITEM_key it ;;; do_item_remove it.
Definition item_replace (old_it new_it : ptr) (hv : Z) : SM Z := do_item_replace old_it new_it hv.
Definition item_unlink (it : ptr) : SM unit := k <- ITEM_key it ;; do_item_unlink it (hash k).
Definition item_update (it : ptr) : SM unit := ITEM_key it ;;; do_item_update it.
End Locks.
