(* ===== verification/StoreCmd.v ===== *)
(** Commands of the cache server on its store (lib/memcached-1.4.25/memcached.c,
    and safe_strtoull of util.c): storing, look-up, deletion, touch, arithmetic,
    flush.  The replies are the strings of the text protocol. *)
From S2P Require Import Prelude CStr CDec Assoc Store Slabs Items.
Local Open Scope Z_scope.

(** ** Numbers in text (util.c) *)

Definition skip_digits (s : list ascii) : list ascii :=
  (fix go s := match s with [] => [] | c :: s' => if isdigit c then go s' else s end) s.
(** strtoull: sign, magnitude, and the rest; none when there are no digits. *)
Definition strtoull (s : list ascii) : option (bool * Z * list ascii) :=
  let s := skip_space s in
  let '(neg, s) := match s with c :: s' => if c =c "-"%char then (true, s') else if c =c "+"%char then (false, s') else (false, s) | [] => (false, s) end in
  match s with
  | c :: _ => if isdigit c then Some (neg, digits 0 s, skip_digits s) else None
  | [] => None
  end.
(** strchr for a minus sign; none when it reads beyond the bytes there are. *)
Fixpoint strchr_minus (s : list ascii) : option bool :=
  match s with
  | [] => None
  | c :: s => if c =c "-"%char then Some true else if c =c NUL then Some false else strchr_minus s
  end.
Definition safe_strtoull (s : list ascii) : SM (option Z) :=
  match strtoull s with
  | None => ret None
  | Some (neg, v, rest) =>
      if 2 ^ 64 <=? v then ret None
      else
        e <- get_or_undef (fun _ => head rest) ;;
        if isspace e || (e =c NUL) then
          let ull := if neg : bool then u64 (- v) else v in
          if 2 ^ 63 <=? ull then
            m <- get_or_undef (fun _ => strchr_minus s) ;; ret (if m : bool then None else Some ull)
          else ret (Some ull)
        else ret None
  end.

Definition REALTIME_MAXDELTA : Z := 60 * 60 * 24 * 30.
Definition realtime_at (process_started exptime now : Z) : Z :=
  if exptime =? 0 then 0
  else if REALTIME_MAXDELTA <? exptime then
    if exptime <=? process_started then 1 else u32 (exptime - process_started)
  else u32 (exptime + now).
Definition realtime (process_started exptime : Z) (s : store) : Z := realtime_at process_started exptime (current_time (cnt s)).

(** ** Storing *)

Definition NREAD_ADD : Z := 1.
Definition NREAD_SET : Z := 2.
Definition NREAD_REPLACE : Z := 3.
Definition NREAD_APPEND : Z := 4.
Definition NREAD_PREPEND : Z := 5.
Definition NREAD_CAS : Z := 6.
Inductive store_item_type := NOT_STORED | STORED | EXISTS | NOT_FOUND.

(** memcpy to [ITEM_data(it) + off]; reading [nbytes] bytes of an item. *)
Definition write_data (it : ptr) (off : Z) (bytes : list ascii) : SM unit :=
  h <- hdr_of it ;;
  if (off <? 0) || (Z.of_nat (length (it_data h)) <? off + Z.of_nat (length bytes)) then undef
  else upd_hdr it (set_data (take (Z.to_nat off) (it_data h) ++ bytes ++ drop (Z.to_nat off + length bytes) (it_data h))).
Definition read_data (h : hdr) : SM (list ascii) :=
  if Z.of_nat (length (it_data h)) <? it_nbytes h then undef else ret (take (Z.to_nat (it_nbytes h)) (it_data h)).

Section Locks.
Variable hash : list ascii -> Z.
Variable lockable : Z -> bool.
Variable junk : Z -> list ascii.

(** The item that append and prepend make of both; none when there is no memory. *)
Definition combine (it old_it : ptr) (key : list ascii) (comm hv : Z) : SM (option ptr) :=
  h <- hdr_of it ;;
  ho <- hdr_of old_it ;;
  let flags := atoi (it_suffix ho) in
  new_it <- do_item_alloc hash lockable junk key flags (it_exptime ho) (it_nbytes h + it_nbytes ho - 2) hv ;;
  match new_it with
  | None => ret None
  | Some n =>
      d <- read_data h ;;
      d_old <- read_data ho ;;
      (if comm =? NREAD_APPEND then write_data n 0 d_old ;;; write_data n (it_nbytes ho - 2) d
       else write_data n 0 d ;;; write_data n (it_nbytes h - 2) d_old) ;;;
      ret (Some n)
  end.
(** The last branch of do_store_item, which links an item: the outcome, and the
    new item when one was made; none when there was no memory for it. *)
Definition store_new (it : ptr) (old_it : option ptr) (key : list ascii) (comm hv : Z) : SM (option (store_item_type * option ptr)) :=
  let link (x : ptr) (new_it : option ptr) : SM (option (store_item_type * option ptr)) :=
    (match old_it with Some o => item_replace o x hv ;;; ret tt | None => do_item_link x hv ;;; ret tt end) ;;;
    ret (Some (STORED, new_it)) in
  if (comm =? NREAD_APPEND) || (comm =? NREAD_PREPEND) then
    match old_it with
    | None => undef
    | Some o =>
        h <- hdr_of it ;;
        ho <- hdr_of o ;;
        if negb (ITEM_get_cas h =? 0) && negb (ITEM_get_cas h =? ITEM_get_cas ho) then ret (Some (EXISTS, None))
        else
          n <- combine it o key comm hv ;;
          match n with None => ret None | Some n => link n (Some n) end
    end
  else link it None.

(** The outcome, and what [c->cas] is set to. *)
Definition do_store_item (it : ptr) (comm hv : Z) : SM (store_item_type * option Z) :=
  key <- ITEM_key it ;;
  old_it <- do_item_get key hv ;;
  r <- match old_it with
       | Some o =>
           if comm =? NREAD_ADD then do_item_update o ;;; ret (Some (NOT_STORED, None))
           else if comm =? NREAD_CAS then
             h <- hdr_of it ;;
             ho <- hdr_of o ;;
             if ITEM_get_cas h =? ITEM_get_cas ho then item_replace o it hv ;;; ret (Some (STORED, None)) else ret (Some (EXISTS, None))
           else store_new it old_it key comm hv
       | None =>
           if (comm =? NREAD_REPLACE) || (comm =? NREAD_APPEND) || (comm =? NREAD_PREPEND) then ret (Some (NOT_STORED, None))
           else if comm =? NREAD_CAS then ret (Some (NOT_FOUND, None))
           else store_new it None key comm hv
       end ;;
  match old_it with Some o => do_item_remove o | None => ret tt end ;;;
  match r with
  | None => ret (NOT_STORED, None)
  | Some (stored, new_it) =>
      match new_it with Some n => do_item_remove n | None => ret tt end ;;;
      match stored with
      | STORED => h <- hdr_of (default it new_it) ;; ret (STORED, Some (ITEM_get_cas h))
      | _ => ret (stored, None)
      end
  end.
Definition store_item (it : ptr) (comm : Z) : SM (store_item_type * option Z) := k <- ITEM_key it ;; do_store_item it comm (hash k).

(** process_update_command once the tokens are read, for a key of at most
    KEY_MAX_LENGTH characters: the item the data is read into, or a reply. *)
Definition KEY_MAX_LENGTH : Z := 250.
(** From the allocation on. *)
Definition update_item (process_started : Z) (key : list ascii) (flags exptime vlen comm req_cas_id : Z) : SM (ptr + list ascii) :=
  rt <- gets (realtime process_started exptime) ;;
  it <- item_alloc hash lockable junk key (i32 flags) rt vlen ;;
  match it with
  | None =>
      ok <- item_size_ok (Z.of_nat (length key)) (i32 flags) vlen ;;
      (if comm =? NREAD_SET then
         old <- item_get hash key ;;
         match old with Some o => item_unlink hash o ;;; item_remove o | None => ret tt end
       else ret tt) ;;;
      ret (inr (if ok : bool then lit "SERVER_ERROR out of memory storing object" else lit "SERVER_ERROR object too large for cache"))
  | Some it => upd_hdr it (ITEM_set_cas req_cas_id) ;;; ret (inl it)
  end.
Definition process_update (process_started : Z) (key : list ascii) (flags exptime_int vlen comm req_cas_id : Z) : SM (ptr + list ascii) :=
  if KEY_MAX_LENGTH <? Z.of_nat (length key) then ret (inr (lit "CLIENT_ERROR bad command line format"))
  else
    let exptime := if exptime_int <? 0 then REALTIME_MAXDELTA + 1 else exptime_int in
    let vlen := i32 (vlen + 2) in
    if (vlen <? 0) || (vlen - 2 <? 0) then ret (inr (lit "CLIENT_ERROR bad command line format"))
    else update_item process_started key flags exptime vlen comm req_cas_id.

(** conn_nread: [nbytes] bytes are read into the item. *)
Definition nread (it : ptr) (data : list ascii) : SM unit :=
  h <- hdr_of it ;; assert (Z.of_nat (length data) =? it_nbytes h) ;;; write_data it 0 data.
Definition reply_of (r : store_item_type) : list ascii :=
  match r with STORED => lit "STORED" | EXISTS => lit "EXISTS" | NOT_FOUND => lit "NOT_FOUND" | NOT_STORED => lit "NOT_STORED" end.
Definition complete_nread_ascii (it : ptr) (comm : Z) : SM (list ascii) :=
  h <- hdr_of it ;;
  d <- read_data h ;;
  reply <- (if bool_decide (drop (length d - 2) d = [CR; LF]) then r <- store_item it comm ;; ret (reply_of r.1)
            else ret (lit "CLIENT_ERROR bad data chunk")) ;;
  item_remove it ;;;
  ret reply.

(** The command with its data block, of [vlen + 2] bytes. *)
Definition update_command (process_started : Z) (key : list ascii) (flags exptime_int vlen comm req_cas_id : Z) (data : list ascii) : SM (list ascii) :=
  r <- process_update process_started key flags exptime_int vlen comm req_cas_id ;;
  match r with
  | inr reply => ret reply
  | inl it => nread it data ;;; complete_nread_ascii it comm
  end.

(** ** The other commands *)

(** What a hit sends; gets sends the number of the entry besides. *)
Definition value_text (return_cas : bool) (k suffix : list ascii) (cas : Z) (data : list ascii) : list ascii :=
  if return_cas then lit "VALUE " ++ k ++ take (length suffix - 2) suffix ++ [SP] ++ show_u64 cas ++ [CR; LF] ++ data
  else lit "VALUE " ++ k ++ suffix ++ data.
(** The loop of process_get_command: what is to be sent, nothing when a key is too
    long, and the items that are held until it has been. *)
Fixpoint get_items (return_cas : bool) (keys : list (list ascii)) : SM (option (list ascii) * list ptr) :=
  match keys with
  | [] => ret (Some (lit "END" ++ [CR; LF]), [])
  | key :: keys =>
      if KEY_MAX_LENGTH <? Z.of_nat (length key) then ret (None, [])
      else
        it <- item_get hash key ;;
        match it with
        | None => get_items return_cas keys
        | Some it =>
            k <- ITEM_key it ;;
            h <- hdr_of it ;;
            d <- read_data h ;;
            item_update it ;;;
            r <- get_items return_cas keys ;;
            ret (app (value_text return_cas k (it_suffix h) (ITEM_get_cas h) d) <$> r.1, it :: r.2)
        end
  end.
Fixpoint conn_release_items (l : list ptr) : SM unit :=
  match l with [] => ret tt | it :: l => item_remove it ;;; conn_release_items l end.
(** The whole command when nothing comes between it and its end: what is sent. *)
Definition bad_line : list ascii := lit "CLIENT_ERROR bad command line format".
Definition process_get_command (return_cas : bool) (keys : list (list ascii)) : SM (list ascii) :=
  r <- get_items return_cas keys ;;
  match r.1 with
  | Some text => conn_release_items r.2 ;;; ret text
  | None => conn_release_items (rev r.2) ;;; ret (bad_line ++ [CR; LF])
  end.

Definition process_delete_command (key : list ascii) : SM (list ascii) :=
  it <- item_get hash key ;;
  match it with
  | Some it => item_unlink hash it ;;; item_remove it ;;; ret (lit "DELETED")
  | None => ret (lit "NOT_FOUND")
  end.

Definition process_touch_command (process_started : Z) (key : list ascii) (exptime : Z) : SM (list ascii) :=
  rt <- gets (realtime process_started exptime) ;;
  it <- item_touch hash key rt ;;
  match it with
  | Some it => item_update it ;;; item_remove it ;;; ret (lit "TOUCHED")
  | None => ret (lit "NOT_FOUND")
  end.

Inductive delta_result_type := DELTA_OK | NON_NUMERIC | EOM | DELTA_ITEM_NOT_FOUND | DELTA_ITEM_CAS_MISMATCH.
(** [cas]: [*cas], none for a null pointer; the result, [buf] and [*cas] after it. *)
Definition in_place (it : ptr) (h : hdr) (buf : list ascii) : SM unit :=
  u <- gets (fun s => use_cas (cfg s)) ;;
  v <- (if u : bool then get_cas_id else ret 0) ;;
  upd_hdr it (ITEM_set_cas v) ;;;
  write_data it 0 buf ;;;
  write_data it (Z.of_nat (length buf)) (replicate (Z.to_nat (it_nbytes h - Z.of_nat (length buf) - 2)) SP) ;;;
  do_item_update it.
Definition in_new (it : ptr) (h : hdr) (key buf : list ascii) (hv : Z) : SM bool :=
  new_it <- do_item_alloc hash lockable junk key (atoi (tail (it_suffix h))) (it_exptime h) (Z.of_nat (length buf) + 2) hv ;;
  match new_it with
  | None => ret false
  | Some n =>
      write_data n 0 buf ;;;
      write_data n (Z.of_nat (length buf)) [CR; LF] ;;;
      item_replace it n hv ;;;
      hn <- hdr_of n ;;
      u <- gets (fun s => use_cas (cfg s)) ;;
      upd_hdr it (ITEM_set_cas (if u : bool then ITEM_get_cas hn else 0)) ;;;
      do_item_remove n ;;;
      ret true
  end.
Definition do_add_delta (key : list ascii) (incr : bool) (delta : Z) (cas : option Z) (hv : Z) : SM (delta_result_type * list ascii * option Z) :=
  it <- do_item_get key hv ;;
  match it with
  | None => ret (DELTA_ITEM_NOT_FOUND, [], cas)
  | Some it =>
      h <- hdr_of it ;;
      if it_nbytes h <=? 2 then ret (NON_NUMERIC, [], cas)
      else if (match cas with Some c => negb (c =? 0) && negb (ITEM_get_cas h =? c) | None => false end) then
        do_item_remove it ;;; ret (DELTA_ITEM_CAS_MISMATCH, [], cas)
      else
        v <- safe_strtoull (it_data h) ;;
        match v with
        | None => do_item_remove it ;;; ret (NON_NUMERIC, [], cas)
        | Some v =>
            let value := if incr then u64 (v + delta) else if v <? u64 delta then 0 else u64 (v - delta) in
            let buf := show_u64 value in
            done <- (if (Z.of_nat (length buf) + 2 <=? it_nbytes h) && (it_refcount h =? 2) then in_place it h buf ;;; ret DELTA_OK
                     else if 1 <? it_refcount h then
                       key <- ITEM_key it ;; ok <- in_new it h key buf hv ;; ret (if ok : bool then DELTA_OK else EOM)
                     else ret DELTA_ITEM_NOT_FOUND) ;;
            match done with
            | DELTA_OK => hf <- hdr_of it ;; do_item_remove it ;;; ret (DELTA_OK, buf, match cas with Some _ => Some (ITEM_get_cas hf) | None => None end)
            | DELTA_ITEM_NOT_FOUND => (if it_refcount h =? 1 then do_item_remove it else ret tt) ;;; ret (DELTA_ITEM_NOT_FOUND, buf, cas)
            | r => do_item_remove it ;;; ret (r, buf, cas)
            end
        end
  end.
Definition add_delta (key : list ascii) (incr : bool) (delta : Z) (cas : option Z) : SM (delta_result_type * list ascii * option Z) :=
  do_add_delta key incr delta cas (hash key).
Definition process_arithmetic_command (key : list ascii) (incr : bool) (delta : Z) : SM (list ascii) :=
  if KEY_MAX_LENGTH <? Z.of_nat (length key) then ret (lit "CLIENT_ERROR bad command line format")
  else
    r <- add_delta key incr delta None ;;
    ret (match r.1.1 with
         | DELTA_OK => r.1.2
         | NON_NUMERIC => lit "CLIENT_ERROR cannot increment or decrement non-numeric value"
         | EOM => lit "SERVER_ERROR out of memory"
         | _ => lit "NOT_FOUND"
         end).
End Locks.

(** The clock: once a second, [current_time] is set. *)
Definition clock_tick (now : Z) : SM unit := modify (fun s => set_cnt (MkCounters (cas_id (cnt s)) now (curr_bytes (cnt s)) (curr_items (cnt s)) (total_items (cnt s)) (itemstats (cnt s))) s).

(** flush_all, with the delay read. *)
Definition set_oldest (live cas : Z) (c : settings) : settings :=
  MkSettings live cas (evict_to_free c) (chunk_size c) (use_cas c) (item_size_max c) (lru_maintainer_thread c) (slab_reassign c)
    (tail_repair_time c) (hot_lru_pct c) (warm_lru_pct c) (expirezero_does_not_evict c).
Definition set_cfg v s := MkStore (tbl s) (i_next s) (i_prev s) (hdrs s) (lru s) (mem s) (cnt s) v.
Definition flush_all (process_started exptime : Z) : SM (list ascii) :=
  new_oldest <- gets (fun s => if 0 <? exptime then realtime process_started exptime s else current_time (cnt s)) ;;
  c <- gets cfg ;;
  (if use_cas c then
     modify (set_cfg (set_oldest (u32 (new_oldest - 1)) (oldest_cas c) c)) ;;;
     now <- gets (fun s => current_time (cnt s)) ;;
     if u32 (new_oldest - 1) <=? now then
       v <- get_cas_id ;; modify (fun s => set_cfg (set_oldest (oldest_live (cfg s)) v (cfg s)) s)
     else ret tt
   else modify (set_cfg (set_oldest new_oldest (oldest_cas c) c))) ;;;
  ret (lit "OK").
