(* ===== verification/StoreInv.v ===== *)
(** The invariant of the cache server's store: the LRU lists and free lists, the
    hash table and the reference counts agree about every item. *)
From S2P Require Import Prelude CStr CDec Assoc AssocThm DList Store Slabs Items.
Local Open Scope Z_scope.

(** * Rules for the accesses *)

Lemma wp_assert b s (Q : unit -> store -> Prop) : b = true -> Q tt s -> wp (assert b) s Q.
Proof. by intros ->. Qed.
Lemma wp_hdr_of x h s (Q : hdr -> store -> Prop) : hdrs s !! x = Some h -> Q h s -> wp (hdr_of x) s Q.
Proof. intros H HQ. by eapply wp_get_or_undef. Qed.
Lemma wp_upd_hdr x h f s (Q : unit -> store -> Prop) : hdrs s !! x = Some h -> Q tt (set_hdrs (<[x := f h]> (hdrs s)) s) -> wp (upd_hdr x f) s Q.
Proof. intros H HQ. unfold upd_hdr. apply wp_bind. eapply wp_hdr_of; [exact H |]. by apply wp_modify. Qed.
Lemma wp_get_next x n s (Q : option ptr -> store -> Prop) : i_next s !! x = Some n -> Q n s -> wp (get_next x) s Q.
Proof. intros H HQ. by eapply wp_get_or_undef. Qed.
Lemma wp_get_prev x n s (Q : option ptr -> store -> Prop) : i_prev s !! x = Some n -> Q n s -> wp (get_prev x) s Q.
Proof. intros H HQ. by eapply wp_get_or_undef. Qed.
Lemma wp_set_next x v s (Q : unit -> store -> Prop) : is_Some (i_next s !! x) -> Q tt (set_i_next (<[x := v]> (i_next s)) s) -> wp (set_next x v) s Q.
Proof. intros [n H] HQ. unfold set_next. apply wp_bind. eapply wp_get_next; [exact H |]. by apply wp_modify. Qed.
Lemma wp_set_prev x v s (Q : unit -> store -> Prop) : is_Some (i_prev s !! x) -> Q tt (set_i_prev (<[x := v]> (i_prev s)) s) -> wp (set_prev x v) s Q.
Proof. intros [n H] HQ. unfold set_prev. apply wp_bind. eapply wp_get_prev; [exact H |]. by apply wp_modify. Qed.
(** [if (p) p->prev = v], [if (p) p->next = v]. *)
Lemma wp_opt_prev p v s (Q : unit -> store -> Prop) :
  (forall y, p = Some y -> is_Some (i_prev s !! y)) -> Q tt (set_i_prev (put_opt p v (i_prev s)) s) ->
  wp (match p with Some y => set_prev y v | None => ret tt end) s Q.
Proof. destruct p as [y|]; intros H HQ; [apply wp_set_prev; [by apply H | done] | apply wp_ret; by destruct s]. Qed.
Lemma wp_opt_next p v s (Q : unit -> store -> Prop) :
  (forall y, p = Some y -> is_Some (i_next s !! y)) -> Q tt (set_i_next (put_opt p v (i_next s)) s) ->
  wp (match p with Some y => set_next y v | None => ret tt end) s Q.
Proof. destruct p as [y|]; intros H HQ; [apply wp_set_next; [by apply H | done] | apply wp_ret; by destruct s]. Qed.
Lemma wp_ITEM_key x k s (Q : list ascii -> store -> Prop) : item_key (tbl s) !! x = Some k -> Q k s -> wp (ITEM_key x) s Q.
Proof. intros H HQ. unfold ITEM_key. apply wp_zoom. eapply wp_get_or_undef; [exact H |]. by destruct s. Qed.
Lemma wp_class_of c p s (Q : slabclass_t -> store -> Prop) : arr (slabclass (mem s)) c = Some p -> Q p s -> wp (class_of c) s Q.
Proof. intros H HQ. by eapply wp_get_or_undef. Qed.
Lemma wp_upd_class c p f s (Q : unit -> store -> Prop) :
  arr (slabclass (mem s)) c = Some p -> Q tt (set_mem (set_slabclass (upd_arr (slabclass (mem s)) c (f p)) (mem s)) s) -> wp (upd_class c f) s Q.
Proof. intros H HQ. unfold upd_class. apply wp_bind. eapply wp_class_of; [exact H |]. by apply wp_modify. Qed.
Lemma wp_bump i st s (Q : unit -> store -> Prop) : (forall c, cas_id c = cas_id (cnt s) -> current_time c = current_time (cnt s) -> Q tt (set_cnt c s)) -> wp (bump i st) s Q.
Proof. intros H. apply wp_modify. by apply H. Qed.
Lemma wp_put_stat i st v s (Q : unit -> store -> Prop) :
  (forall c, cas_id c = cas_id (cnt s) -> current_time c = current_time (cnt s) -> Q tt (set_cnt c s)) -> wp (put_stat i st v) s Q.
Proof. intros H. apply wp_modify. by apply H. Qed.

Lemma arr_range {A} (l : list A) i : 0 <= i < Z.of_nat (length l) <-> is_Some (arr l i).
Proof.
  unfold arr. destruct (Z.ltb_spec i 0); [split; [lia | by intros [? ?]] |]. rewrite lookup_lt_is_Some. lia.
Qed.
Lemma arr_upd_eq {A} (l : list A) i v : is_Some (arr l i) -> arr (upd_arr l i v) i = Some v.
Proof. intros H%arr_range. unfold arr, upd_arr. rewrite (proj2 (Z.ltb_ge _ _)) by lia. apply list_lookup_insert_eq. lia. Qed.
Lemma arr_upd_ne {A} (l : list A) i j v : 0 <= i -> i <> j -> arr (upd_arr l i v) j = arr l j.
Proof. intros Hi Hne. unfold arr, upd_arr. destruct (Z.ltb_spec j 0); [done |]. apply list_lookup_insert_ne. lia. Qed.
Lemma arr_upd {A} (l : list A) i j v : is_Some (arr l i) -> arr (upd_arr l i v) j = if decide (j = i) then Some v else arr l j.
Proof. intros H. case_decide as E; [subst; by apply arr_upd_eq |]. apply arr_upd_ne; [by apply arr_range in H as [? _] | done]. Qed.

(** * Flags *)

Definition tst (f b : Z) : bool := negb (Z.land f b =? 0).
Definition u8s : list Z := map Z.of_nat (seq 0 256).
Lemma by_enum (P : Z -> bool) : forallb P u8s = true -> forall f, 0 <= f < 256 -> P f = true.
Proof.
  intros H f Hf. rewrite forallb_forall in H. apply H. unfold u8s. apply in_map_iff. exists (Z.to_nat f). split; [lia |]. apply in_seq. lia.
Qed.
(** Setting and clearing one flag. *)
Definition flag_bits : list Z := [1; 2; 4; 8; 16].
Lemma flag_lor f b : 0 <= f < 256 -> b ∈ flag_bits -> 0 <= Z.lor f b < 256 /\ forall c, c ∈ flag_bits -> tst (Z.lor f b) c = (c =? b) || tst f c.
Proof.
  intros Hf Hb. pose proof (by_enum (fun f => forallb (fun b => (0 <=? Z.lor f b) && (Z.lor f b <? 256) &&
    forallb (fun c => Bool.eqb (tst (Z.lor f b) c) ((c =? b) || tst f c)) flag_bits) flag_bits) ltac:(vm_compute; reflexivity) f Hf) as H.
  rewrite forallb_forall in H. specialize (H b (proj1 (list_elem_of_In _ _) Hb)). apply andb_prop in H as [[H1 H2]%andb_prop H3].
  split; [lia |]. intros c Hc. rewrite forallb_forall in H3. apply Bool.eqb_prop, H3. by apply list_elem_of_In.
Qed.
Lemma flag_clear f b : 0 <= f < 256 -> b ∈ flag_bits -> 0 <= Z.land f (Z.lnot b) < 256 /\ forall c, c ∈ flag_bits -> tst (Z.land f (Z.lnot b)) c = negb (c =? b) && tst f c.
Proof.
  intros Hf Hb. pose proof (by_enum (fun f => forallb (fun b => (0 <=? Z.land f (Z.lnot b)) && (Z.land f (Z.lnot b) <? 256) &&
    forallb (fun c => Bool.eqb (tst (Z.land f (Z.lnot b)) c) (negb (c =? b) && tst f c)) flag_bits) flag_bits) ltac:(vm_compute; reflexivity) f Hf) as H.
  rewrite forallb_forall in H. specialize (H b (proj1 (list_elem_of_In _ _) Hb)). apply andb_prop in H as [[H1 H2]%andb_prop H3].
  split; [lia |]. intros c Hc. rewrite forallb_forall in H3. apply Bool.eqb_prop, H3. by apply list_elem_of_In.
Qed.
(** A class number with the bits of a list. *)
Definition lru_bits : list Z := [HOT_LRU; WARM_LRU; COLD_LRU; NOEXP_LRU].
Lemma lru_id c l : 0 <= c < 64 -> l ∈ lru_bits -> 0 <= Z.lor c l < 256 /\ CLEAR_LRU (Z.lor c l) = c.
Proof.
  intros Hc Hl. pose proof (by_enum (fun c => (64 <=? c) || forallb (fun l => (0 <=? Z.lor c l) && (Z.lor c l <? 256) && (CLEAR_LRU (Z.lor c l) =? c)) lru_bits)
    ltac:(vm_compute; reflexivity) c ltac:(lia)) as H. apply orb_prop in H as [H|H]; [lia |].
  rewrite forallb_forall in H. specialize (H l (proj1 (list_elem_of_In _ _) Hl)). apply andb_prop in H as [[H1 H2]%andb_prop H3]. lia.
Qed.
Lemma clear_lru_range i : 0 <= i < 256 -> 0 <= CLEAR_LRU i < 64.
Proof. intros Hi. pose proof (by_enum (fun i => (0 <=? CLEAR_LRU i) && (CLEAR_LRU i <? 64)) ltac:(vm_compute; reflexivity) i Hi) as [H1 H2]%andb_prop. lia. Qed.

(** * The invariant *)

Definition linked (h : hdr) : bool := tst (it_flags h) ITEM_LINKED.
Definition slabbed (h : hdr) : bool := tst (it_flags h) ITEM_SLABBED.

(** The lists: an LRU list of each kind and class, a free list of each class. *)
Inductive lid := Lru (i : Z) | Free (c : Z).
#[export] Instance lid_eq_dec : EqDecision lid.
Proof. solve_decision. Defined.

(** What a state stands for: the table, the lists, the class that each chunk was cut
    for, and how many references to each item are held outside the store. *)
Record view := View {
  v_map : gmap (list ascii) ptr;
  v_q : lid -> list ptr;
  v_cls : ptr -> Z;
  v_held : ptr -> Z
}.
Definition set_map m V := View m (v_q V) (v_cls V) (v_held V).
Definition set_q q V := View (v_map V) q (v_cls V) (v_held V).
Definition set_cls c V := View (v_map V) (v_q V) c (v_held V).
Definition hold (x : ptr) (n : Z) (V : view) : view := View (v_map V) (v_q V) (v_cls V) (fun y => if decide (y = x) then v_held V y + n else v_held V y).

(** What an item holds. *)
Definition content (h : hdr) : list ascii * list ascii * Z * Z * Z * Z := (it_suffix h, it_data h, it_nbytes h, it_exptime h, ITEM_get_cas h, it_time h).
(** From [s] to [s'] items may have been dropped from the table; what is still there
    and what is held is as it was. *)
Definition kept (s s' : store) (x : ptr) : Prop :=
  item_key (tbl s') !! x = item_key (tbl s) !! x /\ exists h h', hdrs s !! x = Some h /\ hdrs s' !! x = Some h' /\ content h' = content h.
Record stays (s : store) (V : view) (s' : store) (V' : view) : Prop := {
  st_map k x : v_map V' !! k = Some x -> v_map V !! k = Some x;
  st_held x : 0 < v_held V x -> 0 < v_held V' x;
  st_kept x : 0 < v_held V x \/ (exists k, v_map V' !! k = Some x) -> kept s s' x;
  st_cfg : cfg s' = cfg s;
  st_time : current_time (cnt s') = current_time (cnt s)
}.
Lemma kept_trans s1 s2 s3 x : kept s1 s2 x -> kept s2 s3 x -> kept s1 s3 x.
Proof.
  intros (K1 & h1 & h2 & H1 & H2 & E1) (K2 & h2' & h3 & H2' & H3 & E2). rewrite H2 in H2'. injection H2' as <-.
  split; [congruence |]. exists h1, h3. split; [done |]. split; [done |]. congruence.
Qed.
Lemma stays_trans s1 V1 s2 V2 s3 V3 : stays s1 V1 s2 V2 -> stays s2 V2 s3 V3 -> stays s1 V1 s3 V3.
Proof.
  intros [A1 A2 A3 A4 A5] [B1 B2 B3 B4 B5]. constructor; try congruence; eauto.
  intros x H. apply (kept_trans _ s2); [apply A3 | apply B3]; (destruct H as [H | [k H]]; [left; eauto | right; eauto]).
Qed.

(** The list an item is on. *)
Definition place_of (cls : Z) (h : hdr) : option lid :=
  if linked h then Some (Lru (it_clsid h)) else if slabbed h then Some (Free cls) else None.

(** An item with [held] references, in a chunk of class [cls] of [chunk] bytes;
    [raw]: it has come from its free list and has no header yet. *)
Definition item_used (h : hdr) (nkey cls chunk : Z) : Prop :=
  CLEAR_LRU (it_clsid h) = cls /\ 2 <= it_nbytes h <= Z.of_nat (length (it_data h)) /\ it_nbytes h <= chunk /\ nkey < 256 /\ Z.of_nat (length (it_suffix h)) < 256.
Definition item_ok (h : hdr) (nkey held cls chunk : Z) (raw : bool) : Prop :=
  0 <= it_flags h < 256 /\ 0 <= it_clsid h < 256 /\ 0 <= held /\ it_refcount h = held + Z.b2z (linked h) /\ it_refcount h < 65536 /\
  (linked h = true -> slabbed h = false) /\
  if slabbed h then held = 0 /\ it_clsid h = 0
  else 0 < it_refcount h /\ if raw then linked h = false /\ it_clsid h = 0 else item_used h nkey cls chunk.

Record class_ok (m : slabmem) (max : Z) (q : list ptr) (p : slabclass_t) : Prop := {
  c_slots : slots p = head q;
  c_curr : sl_curr p = Z.of_nat (length q);
  c_chunk : 1 <= c_size p /\ 1 <= perslab p /\ c_size p * perslab p <= max;
  c_slabs : 0 <= slabs p < brk m /\ slabs p <= Z.of_nat (length (slab_list p))
}.
Record mem_ok (m : slabmem) (max : Z) (Q : lid -> list ptr) : Prop := {
  m_largest : 1 <= power_largest m < 64;
  m_base : mem_base m = None;
  m_brk : 1 <= brk m <= 2 ^ 32 /\ mem_top m <= 2 ^ 32;
  m_pool : exists g, arr (slabclass m) SLAB_GLOBAL_PAGE_POOL = Some g /\ slabs g = 0;
  m_class c : 1 <= c <= power_largest m -> exists p, arr (slabclass m) c = Some p /\ class_ok m max (Q (Free c)) p
}.
Definition lru_ok (l : lrus) (Q : lid -> list ptr) : Prop := forall i, 0 <= i < 256 ->
  arr (heads l) i = Some (head (Q (Lru i))) /\ arr (tails l) i = Some (last (Q (Lru i))) /\
  arr (sizes l) i = Some (u32 (Z.of_nat (length (Q (Lru i))))).

(** The links and anchors stand for [Q]. *)
Definition listed (s : store) (Q : lid -> list ptr) : Prop :=
  shape (i_next s) (i_prev s) Q /\ lru_ok (lru s) Q /\ forall a x, x ∈ Q a -> is_Some (i_next s !! x) /\ is_Some (i_prev s !! x).

Section Ok.
Variable hash : list ascii -> Z.
Hypothesis hash_range : forall k, 0 <= hash k < 2 ^ 32.

(** The size of the chunks of a class. *)
Definition chunk_of (s : store) (c : Z) : Z := match arr (slabclass (mem s)) c with Some p => c_size p | None => 0 end.
Definition nkey_of (s : store) (x : ptr) : Z := match item_key (tbl s) !! x with Some k => Z.of_nat (length k) | None => 0 end.

Record ok_raw (raw : option ptr) (s : store) (V : view) : Prop := {
  ok_rep : rep hash (tbl s) (v_map V);
  ok_shape : shape (i_next s) (i_prev s) (v_q V);
  ok_lru : lru_ok (lru s) (v_q V);
  ok_mem : mem_ok (mem s) (item_size_max (cfg s)) (v_q V);
  ok_max : 0 < item_size_max (cfg s) < 2 ^ 30;
  ok_dom : dom (i_next s) = dom (hdrs s) /\ dom (i_prev s) = dom (hdrs s) /\ dom (h_next (tbl s)) = dom (hdrs s) /\ dom (item_key (tbl s)) = dom (hdrs s);
  ok_below x h : hdrs s !! x = Some h -> Zpos x < brk (mem s) /\ 1 <= v_cls V x <= power_largest (mem s);
  ok_place x a : x ∈ v_q V a <-> exists h, hdrs s !! x = Some h /\ place_of (v_cls V x) h = Some a;
  ok_item x h : hdrs s !! x = Some h -> item_ok h (nkey_of s x) (v_held V x) (v_cls V x) (chunk_of s (v_cls V x)) (bool_decide (raw = Some x));
  ok_linked x h : hdrs s !! x = Some h -> linked h = true <-> exists k, v_map V !! k = Some x;
  ok_unheld x : hdrs s !! x = None -> v_held V x = 0
}.
Definition ok : store -> view -> Prop := ok_raw None.

Lemma ok_links raw s V x : ok_raw raw s V -> is_Some (hdrs s !! x) ->
  is_Some (i_next s !! x) /\ is_Some (i_prev s !! x) /\ is_Some (h_next (tbl s) !! x) /\ is_Some (item_key (tbl s) !! x).
Proof.
  intros O Hx. destruct (ok_dom _ _ _ O) as (E1 & E2 & E3 & E4). rewrite <- !elem_of_dom, E1, E2, E3, E4, !elem_of_dom. tauto.
Qed.
Lemma ok_in_q raw s V a x : ok_raw raw s V -> x ∈ v_q V a -> is_Some (hdrs s !! x).
Proof. intros O Hx. apply (ok_place _ _ _ O) in Hx as (h & Hh & _). by eexists. Qed.
Lemma ok_listed raw s V : ok_raw raw s V -> listed s (v_q V).
Proof.
  intros O. split; [apply O |]. split; [apply O |]. intros a x Hx. destruct (ok_links _ _ _ x O (ok_in_q _ _ _ _ _ O Hx)) as (? & ? & _). done.
Qed.
(** A linked item: its key, and its list. *)
Lemma ok_link_of raw s V x h : ok_raw raw s V -> hdrs s !! x = Some h -> linked h = true ->
  exists k, item_key (tbl s) !! x = Some k /\ v_map V !! k = Some x /\ x ∈ v_q V (Lru (it_clsid h)).
Proof.
  intros O Hh Hl. destruct (proj1 (ok_linked _ _ _ O x h Hh) Hl) as [k Hk]. exists k. destruct (rep_item hash hash_range _ _ _ _ (ok_rep _ _ _ O) Hk) as [? _].
  split; [done |]. split; [done |]. apply (ok_place _ _ _ O). exists h. split; [done |]. unfold place_of. by rewrite Hl.
Qed.
Lemma ok_mapped raw s V k x : ok_raw raw s V -> v_map V !! k = Some x -> item_key (tbl s) !! x = Some k /\ exists h, hdrs s !! x = Some h /\ linked h = true.
Proof.
  intros O Hk. destruct (rep_item hash hash_range _ _ _ _ (ok_rep _ _ _ O) Hk) as [Hik Hn]. split; [done |].
  assert (Hd : is_Some (hdrs s !! x)). { destruct (ok_dom _ _ _ O) as (_ & _ & E3 & _). apply elem_of_dom. rewrite <- E3. by apply elem_of_dom. }
  destruct Hd as [h Hh]. exists h. split; [done |]. apply (ok_linked _ _ _ O x h Hh). by exists k.
Qed.
End Ok.
