(* ===== verification/LruThm.v ===== *)
(** The LRU lists of the cache server: linking and unlinking an item. *)
From S2P Require Import Prelude CStr CDec Assoc AssocThm DList Store Slabs Items StoreInv.
Local Open Scope Z_scope.

Lemma wp_lru_head i v s (Q : option ptr -> store -> Prop) : arr (heads (lru s)) i = Some v -> Q v s -> wp (lru_head i) s Q.
Proof. intros H HQ. by eapply wp_get_or_undef. Qed.
Lemma wp_lru_tail i v s (Q : option ptr -> store -> Prop) : arr (tails (lru s)) i = Some v -> Q v s -> wp (lru_tail i) s Q.
Proof. intros H HQ. by eapply wp_get_or_undef. Qed.
Lemma wp_lru_size i v s (Q : Z -> store -> Prop) : arr (sizes (lru s)) i = Some v -> Q v s -> wp (lru_size i) s Q.
Proof. intros H HQ. by eapply wp_get_or_undef. Qed.
Lemma wp_set_head i v s (Q : unit -> store -> Prop) :
  is_Some (arr (heads (lru s)) i) -> Q tt (set_lru (set_heads (upd_arr (heads (lru s)) i v) (lru s)) s) -> wp (set_head i v) s Q.
Proof. intros [n H] HQ. unfold set_head. apply wp_bind. eapply wp_lru_head; [exact H |]. by apply wp_modify. Qed.
Lemma wp_set_tail i v s (Q : unit -> store -> Prop) :
  is_Some (arr (tails (lru s)) i) -> Q tt (set_lru (set_tails (upd_arr (tails (lru s)) i v) (lru s)) s) -> wp (set_tail i v) s Q.
Proof. intros [n H] HQ. unfold set_tail. apply wp_bind. eapply wp_lru_tail; [exact H |]. by apply wp_modify. Qed.
Lemma wp_set_size i v s (Q : unit -> store -> Prop) :
  is_Some (arr (sizes (lru s)) i) -> Q tt (set_lru (set_sizes (upd_arr (sizes (lru s)) i v) (lru s)) s) -> wp (set_size i v) s Q.
Proof. intros [n H] HQ. unfold set_size. apply wp_bind. eapply wp_lru_size; [exact H |]. by apply wp_modify. Qed.

(** The anchors of one list changed. *)
Definition anchored (l : lrus) (i : Z) (hd tl : option ptr) (n : Z) : lrus := MkLrus (upd_arr (heads l) i hd) (upd_arr (tails l) i tl) (upd_arr (sizes l) i n).
Lemma upd_arr_same {A} (l : list A) i v : arr l i = Some v -> upd_arr l i v = l.
Proof. unfold arr, upd_arr. destruct (i <? 0); [done |]. apply list_insert_id. Qed.
Lemma upd_arr_twice {A} (l : list A) i v w : upd_arr (upd_arr l i v) i w = upd_arr l i w.
Proof. apply list_insert_insert_eq. Qed.
Lemma lru_ok_anchored l Q i q :
  lru_ok l Q -> 0 <= i < 256 -> lru_ok (anchored l i (head q) (last q) (u32 (Z.of_nat (length q)))) (relist (Lru i) q Q).
Proof.
  intros H Hi j Hj. destruct (H i Hi) as (H1 & H2 & H3). destruct (H j Hj) as (J1 & J2 & J3). unfold anchored. cbn [heads tails sizes].
  rewrite !arr_upd by (by eexists). unfold relist. destruct (decide (j = i)) as [->|Hne].
  - by rewrite decide_True.
  - by rewrite decide_False by congruence.
Qed.

Lemma u32_succ n : u32 (u32 (Z.of_nat n) + 1) = u32 (Z.of_nat (S n)).
Proof. unfold u32, wrap_u. rewrite Zplus_mod_idemp_l. f_equal. lia. Qed.
Lemma u32_pred n : u32 (u32 (Z.of_nat (S n)) - 1) = u32 (Z.of_nat n).
Proof. unfold u32, wrap_u. rewrite Zminus_mod_idemp_l. f_equal. lia. Qed.

(** [s'] differs from [s] in the links and anchors, which stand for [Q']. *)
Definition relinked (s : store) (Q' : lid -> list ptr) (s' : store) : Prop := exists nx pv l,
  s' = set_lru l (set_i_prev pv (set_i_next nx s)) /\ shape nx pv Q' /\ lru_ok l Q' /\ dom nx = dom (i_next s) /\ dom pv = dom (i_prev s).

Lemma dom_put_at x v (m : gmap ptr (option ptr)) : is_Some (m !! x) -> dom (<[x := v]> m) = dom m.
Proof. intros H. by apply dom_insert_lookup_L. Qed.
Lemma link_q_spec x h s Q :
  listed s Q -> hdrs s !! x = Some h -> slabbed h = false -> 0 <= it_clsid h < 256 -> (forall a, x ∉ Q a) ->
  is_Some (i_next s !! x) -> is_Some (i_prev s !! x) ->
  wp (do_item_link_q x) s (fun _ s' => relinked s (relist (Lru (it_clsid h)) (x :: Q (Lru (it_clsid h))) Q) s').
Proof.
  intros (Hs & Hl & Hd) Hh Hsl Hi Hx Hnx Hpv. set (i := it_clsid h) in *. set (q := Q (Lru i)). destruct (Hl i Hi) as (H1 & H2 & H3). fold q in H1, H2, H3.
  unfold do_item_link_q. apply wp_bind. eapply wp_hdr_of; [exact Hh |].
  apply wp_bind, wp_assert; [unfold slabbed, tst in Hsl; unfold has; by rewrite Hsl |].
  fold i. apply wp_bind. eapply wp_lru_head; [exact H1 |]. apply wp_bind. eapply wp_lru_tail; [exact H2 |].
  assert (Hhead : head q <> Some x) by (intros E%head_in; by apply (Hx (Lru i))).
  apply wp_bind, wp_assert; [by rewrite bool_decide_false |].
  assert (Hnull : is_null (head q) = is_null (last q)).
  { unfold is_null. destruct q as [|y q' _] using rev_ind; [done |]. rewrite last_snoc. by destruct q'. }
  apply wp_bind, wp_assert; [by apply bool_decide_true |].
  apply wp_bind, wp_set_prev; [done |]. apply wp_bind, wp_set_next; [done |].
  apply wp_bind, wp_opt_prev.
  { intros y Hy%head_in. simpl. apply Hd in Hy as [_ Hy]. destruct (decide (y = x)) as [->|]; [rewrite lookup_insert_eq; by eexists | by rewrite lookup_insert_ne]. }
  apply wp_bind, wp_set_head; [by eexists |]. apply wp_bind.
  set (s1 := set_lru _ _).
  assert (Hfin : wp (n <- lru_size i ;; set_size i (u32 (n + 1))) (set_lru (set_tails (upd_arr (tails (lru s)) i (last (x :: q))) (lru s1)) s1)
     (fun _ s' => relinked s (relist (Lru i) (x :: q) Q) s')).
  { apply wp_bind. eapply wp_lru_size; [exact H3 |]. apply wp_set_size; [by eexists |].
    exists (<[x := head q]> (i_next s)), (put_opt (head q) (Some x) (<[x := None]> (i_prev s))), (anchored (lru s) i (head (x :: q)) (last (x :: q)) (u32 (Z.of_nat (length (x :: q))))).
    split; [|split; [by apply shape_push | split; [by apply lru_ok_anchored | split; [by apply dom_put_at |]]]].
    - by rewrite u32_succ.
    - rewrite dom_put_opt; [by apply dom_put_at |]. intros y Hy%head_in. apply Hd in Hy as [_ Hy].
      destruct (decide (y = x)) as [->|]; [rewrite lookup_insert_eq; by eexists | by rewrite lookup_insert_ne]. }
  destruct (is_null (last q)) eqn:En.
  - apply bool_decide_eq_true, last_None in En. rewrite En in *. apply wp_set_tail; [by eexists |]. exact Hfin.
  - apply wp_ret. assert (E : last (x :: q) = last q) by (rewrite last_cons; apply bool_decide_eq_false in En; by destruct (last q)).
    rewrite E, upd_arr_same in Hfin by done. exact Hfin.
Qed.

Lemma unlink_q_spec x h s Q l1 l2 :
  listed s Q -> hdrs s !! x = Some h -> 0 <= it_clsid h < 256 -> Q (Lru (it_clsid h)) = l1 ++ x :: l2 ->
  wp (do_item_unlink_q x) s (fun _ s' => relinked s (relist (Lru (it_clsid h)) (l1 ++ l2) Q) s').
Proof.
  intros (Hs & Hl & Hd) Hh Hi Hq. set (i := it_clsid h) in *. destruct (Hl i Hi) as (H1 & H2 & H3).
  destruct (shape_links _ _ _ _ _ _ _ Hs Hq) as [Hn Hp]. pose proof (sh_nodup _ _ _ Hs (Lru i)) as Hnd. rewrite Hq in Hnd.
  assert (Hx12 : x ∉ l1 /\ x ∉ l2).
  { apply NoDup_app in Hnd as (_ & Hd' & [Hx2 _]%NoDup_cons). split; [|done]. intros H. apply (Hd' x H). set_solver. }
  assert (Hin : forall y, y ∈ l1 ++ x :: l2 -> is_Some (i_next s !! y) /\ is_Some (i_prev s !! y)) by (intros y Hy; apply (Hd (Lru i)); by rewrite Hq).
  unfold do_item_unlink_q. apply wp_bind. eapply wp_hdr_of; [exact Hh |]. apply wp_bind. eapply wp_get_next; [exact Hn |].
  apply wp_bind. eapply wp_get_prev; [exact Hp |]. fold i. apply wp_bind. eapply wp_lru_head; [exact H1 |]. apply wp_bind.
  assert (Hstart : forall K : unit -> store -> Prop, K tt (set_lru (set_heads (upd_arr (heads (lru s)) i (head (l1 ++ l2))) (lru s)) s) ->
    wp (if bool_decide (head (Q (Lru i)) = Some x) then assert (is_null (last l1)) ;;; set_head i (head l2) else ret tt) s K).
  { intros K HK. rewrite Hq in *. destruct l1 as [|y l1]; cbn [head app last hd_error] in *.
    - rewrite bool_decide_true by done. apply wp_bind, wp_assert; [done |]. by apply wp_set_head; [eexists |].
    - rewrite bool_decide_false by (intros [= ->]; apply (proj1 Hx12); set_solver). apply wp_ret. rewrite upd_arr_same in HK by done. by destruct s as [? ? ? ? [? ? ?] ? ? ?]. }
  apply Hstart. set (s1 := set_lru _ s). apply wp_bind. eapply wp_lru_tail; [exact H2 |]. apply wp_bind.
  assert (Hend : forall K : unit -> store -> Prop, K tt (set_lru (set_tails (upd_arr (tails (lru s)) i (last (l1 ++ l2))) (lru s1)) s1) ->
    wp (if bool_decide (last (Q (Lru i)) = Some x) then assert (is_null (head l2)) ;;; set_tail i (last l1) else ret tt) s1 K).
  { intros K HK. rewrite Hq, !last_app, last_cons in *. destruct (last l2) as [z|] eqn:El.
    - rewrite bool_decide_false by (intros [= ->]; apply (proj2 Hx12), last_in, El). apply wp_ret. rewrite upd_arr_same in HK by done. by destruct s as [? ? ? ? [? ? ?] ? ? ?].
    - rewrite bool_decide_true by done. apply last_None in El. subst l2. apply wp_bind, wp_assert; [done |]. by apply wp_set_tail; [eexists |]. }
  apply Hend. set (s2 := set_lru _ s1).
  apply wp_bind, wp_assert; [rewrite bool_decide_false; [done |]; intros E%head_in; tauto |].
  apply wp_bind, wp_assert; [rewrite bool_decide_false; [done |]; intros E%last_in; tauto |].
  apply wp_bind, wp_opt_prev; [intros y Hy%head_in; apply Hin; set_solver |].
  apply wp_bind, wp_opt_next; [intros y Hy%last_in; apply Hin; set_solver |].
  apply wp_bind. eapply wp_lru_size; [exact H3 |]. apply wp_set_size; [by eexists |].
  exists (put_opt (last l1) (head l2) (i_next s)), (put_opt (head l2) (last l1) (i_prev s)), (anchored (lru s) i (head (l1 ++ l2)) (last (l1 ++ l2)) (u32 (Z.of_nat (length (l1 ++ l2))))).
  split; [|split; [by eapply shape_unlink | split; [by apply lru_ok_anchored |]]].
  - rewrite Hq. replace (length (l1 ++ x :: l2)) with (S (length (l1 ++ l2))) by (rewrite !length_app; simpl; lia). by rewrite u32_pred.
  - split; apply dom_put_opt; [intros y Hy%last_in | intros y Hy%head_in]; apply Hin; set_solver.
Qed.
