(* ===== verification/SlabsThm.v ===== *)
(** The slab allocator of the cache server: chunks on free lists, pages cut into
    chunks, the class of a size. *)
From S2P Require Import Prelude CStr CDec Assoc AssocThm DList Store Slabs Items StoreInv LruThm.
Local Open Scope Z_scope.

(** * Lists of addresses *)

Lemma below_length (l : list ptr) b : NoDup l -> (forall x, x ∈ l -> Zpos x < b) -> 1 <= b -> Z.of_nat (length l) < b.
Proof.
  intros Hnd Hb H1. assert (H : (length (map Pos.to_nat l) <= length (seq 1 (Z.to_nat b - 1)))%nat).
  { apply List.NoDup_incl_length.
    - apply NoDup_ListNoDup. apply (NoDup_fmap_2 (Inj0 := Pos2Nat.inj) Pos.to_nat l Hnd).
    - intros n Hn. apply in_map_iff in Hn as (x & <- & Hx). apply list_elem_of_In, Hb in Hx. apply in_seq. lia. }
  rewrite length_map, length_seq in H. lia.
Qed.

(** * Classes *)

Lemma mem_ok_class m max Q c p' q :
  mem_ok m max Q -> 1 <= c <= power_largest m -> class_ok m max q p' ->
  mem_ok (set_slabclass (upd_arr (slabclass m) c p') m) max (relist (Free c) q Q).
Proof.
  intros [H1 H2 H3 H4 H5] Hc Hp. destruct (H5 c Hc) as (p & Ep & _). constructor; try done.
  - destruct H4 as (g & Hg & Hz). exists g. split; [|done]. simpl. unfold SLAB_GLOBAL_PAGE_POOL in *. by rewrite arr_upd_ne by lia.
  - intros d Hd. simpl. rewrite arr_upd by (by eexists). unfold relist. destruct (decide (d = c)) as [->|Hne].
    + rewrite decide_True by done. exists p'. split; [done |]. by destruct Hp.
    + rewrite decide_False by congruence. destruct (H5 d Hd) as (pd & Ed & Hpd). exists pd. split; [done |]. by destruct Hpd.
Qed.
Lemma mem_ok_lru m max Q i q : mem_ok m max Q -> mem_ok m max (relist (Lru i) q Q).
Proof. intros [H1 H2 H3 H4 H5]. constructor; done. Qed.
Lemma lru_ok_free l Q c q : lru_ok l Q -> lru_ok l (relist (Free c) q Q).
Proof. intros H i Hi. exact (H i Hi). Qed.
Lemma mem_ok_ext m max Q Q' : (forall a, Q a = Q' a) -> mem_ok m max Q -> mem_ok m max Q'.
Proof. intros E [H1 H2 H3 H4 H5]. constructor; try done. intros c Hc. destruct (H5 c Hc) as (p & Ep & Hp). exists p. by rewrite <- E. Qed.

(** What the operations on chunks leave of the memory. *)
Definition same_chunks (m m' : slabmem) : Prop :=
  power_largest m' = power_largest m /\ brk m <= brk m' /\
  forall c, (c_size <$> arr (slabclass m') c) = (c_size <$> arr (slabclass m) c) /\ (perslab <$> arr (slabclass m') c) = (perslab <$> arr (slabclass m) c).
Lemma same_chunks_refl m : same_chunks m m.
Proof. split; [done |]. split; [lia | done]. Qed.
Lemma same_chunks_trans m1 m2 m3 : same_chunks m1 m2 -> same_chunks m2 m3 -> same_chunks m1 m3.
Proof.
  intros (A1 & A2 & A3) (B1 & B2 & B3). split; [congruence |]. split; [lia |]. intros c. destruct (A3 c), (B3 c). split; congruence.
Qed.
Lemma same_chunks_class m c p p' :
  arr (slabclass m) c = Some p -> c_size p' = c_size p -> perslab p' = perslab p -> same_chunks m (set_slabclass (upd_arr (slabclass m) c p') m).
Proof.
  intros Hp H1 H2. split; [done |]. split; [simpl; lia |]. intros d. simpl. rewrite arr_upd by (by eexists). case_decide; [subst; rewrite Hp; simpl; by rewrite H1, H2 | done].
Qed.
Lemma same_chunks_heap m b o : brk m <= b -> same_chunks m (set_heap b o m).
Proof. intros H. split; [done |]. split; [done |]. done. Qed.
(** What cutting and freeing leave of the page lists. *)
Definition same_pages (m m' : slabmem) : Prop := forall c, ((fun p => (slabs p, slab_list p)) <$> arr (slabclass m') c) = ((fun p => (slabs p, slab_list p)) <$> arr (slabclass m) c).
Lemma same_pages_class m c p p' :
  arr (slabclass m) c = Some p -> slabs p' = slabs p -> slab_list p' = slab_list p -> same_pages m (set_slabclass (upd_arr (slabclass m) c p') m).
Proof. intros Hp H1 H2 d. simpl. rewrite arr_upd by (by eexists). case_decide; [subst; rewrite Hp; simpl; by rewrite H1, H2 | done]. Qed.
Lemma same_chunk_of s s' c : same_chunks (mem s) (mem s') -> chunk_of s' c = chunk_of s c.
Proof. intros (_ & _ & H). unfold chunk_of. destruct (H c) as [E _]. destruct (arr (slabclass (mem s')) c), (arr (slabclass (mem s)) c); simpl in E; congruence. Qed.

(** * Release of a chunk *)

Definition freed (h : hdr) : hdr := set_clsid 0 (set_flags ITEM_SLABBED h).
(** [s'] differs from [s] in the links, the free lists, and the header of [x]. *)
Definition rechunked (s : store) (x : ptr) (h' : hdr) (Q' : lid -> list ptr) (s' : store) : Prop := exists nx pv m,
  s' = set_mem m (set_i_prev pv (set_i_next nx (set_hdrs (<[x := h']> (hdrs s)) s))) /\ shape nx pv Q' /\ mem_ok m (item_size_max (cfg s)) Q' /\
  dom nx = dom (i_next s) /\ dom pv = dom (i_prev s) /\ same_chunks (mem s) m /\ brk m = brk (mem s) /\ same_pages (mem s) m.

Definition all_below (s : store) (Q : lid -> list ptr) : Prop := forall a y, y ∈ Q a -> Zpos y < brk (mem s) /\ is_Some (i_next s !! y) /\ is_Some (i_prev s !! y).

Lemma slabs_free_spec x h size c s Q :
  shape (i_next s) (i_prev s) Q -> mem_ok (mem s) (item_size_max (cfg s)) Q -> all_below s Q ->
  hdrs s !! x = Some h -> is_Some (i_next s !! x) -> is_Some (i_prev s !! x) -> Zpos x < brk (mem s) -> (forall a, x ∉ Q a) ->
  1 <= c <= power_largest (mem s) ->
  wp (do_slabs_free x size c) s (fun _ s' => rechunked s x (freed h) (relist (Free c) (x :: Q (Free c)) Q) s').
Proof.
  intros Hs Hm Hb Hh Hn Hp Hx Hno Hc. destruct (m_class _ _ _ Hm c Hc) as (p & Ep & Hcl). set (q := Q (Free c)) in *.
  assert (Hnd : NoDup (x :: q)) by (apply NoDup_cons; split; [apply Hno | apply Hs]).
  assert (Hlen : Z.of_nat (length (x :: q)) < brk (mem s)).
  { apply below_length; [done | | apply Hm]. intros y [->|Hy]%elem_of_cons; [done | by apply (Hb (Free c))]. }
  unfold do_slabs_free. apply wp_bind, wp_gets. apply wp_bind, wp_assert; [rewrite !(proj2 (Z.leb_le _ _)) by (unfold POWER_SMALLEST; lia); done |].
  apply wp_bind. eapply wp_upd_hdr; [exact Hh |]. apply wp_bind. eapply wp_upd_hdr; [simpl; apply lookup_insert_eq |].
  apply wp_bind, wp_set_prev; [done |]. apply wp_bind. eapply wp_class_of; [exact Ep |].
  apply wp_bind, wp_set_next; [done |]. rewrite (c_slots _ _ _ _ Hcl). apply wp_bind, wp_opt_prev.
  { intros y Hy%head_in. simpl. destruct (Hb _ _ Hy) as (_ & _ & Hyp). destruct (decide (y = x)) as [->|]; [rewrite lookup_insert_eq; by eexists | by rewrite lookup_insert_ne]. }
  apply wp_bind. eapply wp_upd_class; [exact Ep |]. apply wp_bind. eapply wp_upd_class; [simpl; apply arr_upd_eq; by eexists |].
  eapply wp_upd_class; [simpl; apply arr_upd_eq, arr_range; unfold upd_arr; rewrite length_insert; apply arr_range; by eexists |].
  set (p' := set_requested _ _). exists (<[x := head q]> (i_next s)), (put_opt (head q) (Some x) (<[x := None]> (i_prev s))), (set_slabclass (upd_arr (slabclass (mem s)) c p') (mem s)).
  split; [|split; [by apply shape_push |]].
  - unfold set_mem. simpl. unfold upd_arr. rewrite !list_insert_insert_eq. by rewrite insert_insert_eq.
  - assert (Hp' : class_ok (mem s) (item_size_max (cfg s)) (x :: q) p').
    { destruct Hcl as [C1 C2 C3 C4]. constructor; try done. unfold p'. simpl. rewrite C2, u32_small; [simpl; lia |].
      pose proof (m_brk _ _ _ Hm) as [[_ Hbrk] _]. change (2 ^ 32) with 4294967296 in Hbrk. simpl in Hlen. lia. }
    split; [by apply mem_ok_class |]. split; [by apply dom_put_at |]. split; [|split; [by eapply same_chunks_class | split; [done | by eapply same_pages_class]]].
    rewrite dom_put_opt; [by apply dom_put_at |]. intros y Hy%head_in. destruct (Hb _ _ Hy) as (_ & _ & Hyp).
    destruct (decide (y = x)) as [->|]; [rewrite lookup_insert_eq; by eexists | by rewrite lookup_insert_ne].
Qed.

(** * Pages *)

Lemma chunks_cons addr size n : chunks addr size (S n) = Z.to_pos addr :: chunks (addr + size) size n.
Proof.
  unfold chunks. cbn [seq map]. f_equal; [f_equal; lia |]. rewrite <- seq_shift, map_map. apply map_ext. intros x. f_equal. lia.
Qed.
Lemma chunks_range addr size n x : 0 < addr -> 1 <= size -> x ∈ chunks addr size n -> addr <= Zpos x < addr + Z.of_nat n * size.
Proof.
  intros Ha Hs Hx. apply list_elem_of_In, in_map_iff in Hx as (i & <- & Hi%in_seq). rewrite Z2Pos.id by nia. nia.
Qed.
Lemma chunks_nodup addr size n : 0 < addr -> 1 <= size -> NoDup (chunks addr size n).
Proof.
  intros Ha Hs. revert addr Ha. induction n as [|n IH]; intros addr Ha; [constructor |]. rewrite chunks_cons. apply NoDup_cons.
  split; [|apply IH; lia]. intros H%chunks_range; lia.
Qed.

(** [s'] differs from [s] in the links, the free lists, and the headers of [cs]. *)
Definition rechunked_all (s : store) (cs : list ptr) (h' : hdr) (Q' : lid -> list ptr) (s' : store) : Prop := exists nx pv m hd,
  s' = set_mem m (set_i_prev pv (set_i_next nx (set_hdrs hd s))) /\ shape nx pv Q' /\ mem_ok m (item_size_max (cfg s)) Q' /\
  dom nx = dom (i_next s) /\ dom pv = dom (i_prev s) /\ same_chunks (mem s) m /\ brk m = brk (mem s) /\ same_pages (mem s) m /\
  forall x, hd !! x = if decide (x ∈ cs) then Some h' else hdrs s !! x.

Lemma split_loop_spec n addr size c s Q :
  shape (i_next s) (i_prev s) Q -> mem_ok (mem s) (item_size_max (cfg s)) Q -> all_below s Q ->
  1 <= c <= power_largest (mem s) -> 0 < addr -> 1 <= size -> addr + Z.of_nat n * size <= brk (mem s) ->
  (forall x, x ∈ chunks addr size n -> hdrs s !! x = Some item0 /\ is_Some (i_next s !! x) /\ is_Some (i_prev s !! x) /\ forall a, x ∉ Q a) ->
  wp (split_loop n addr size c) s (fun _ s' => rechunked_all s (chunks addr size n) (freed item0) (relist (Free c) (rev (chunks addr size n) ++ Q (Free c)) Q) s').
Proof.
  revert addr s Q. induction n as [|n IH]; intros addr s Q Hs Hm Hb Hc Ha Hsz Hend Hch.
  - apply wp_ret. exists (i_next s), (i_prev s), (mem s), (hdrs s). split; [by destruct s |]. cbn [chunks seq map rev app].
    split; [apply (shape_ext _ _ Q); [intros a; by rewrite relist_self | done] |]. split; [apply (mem_ok_ext _ _ Q); [intros a; by rewrite relist_self | done] |].
    repeat (split; [done || apply same_chunks_refl |]). intros x. by rewrite decide_False by set_solver.
  - rewrite chunks_cons in *. cbn [split_loop]. set (x0 := Z.to_pos addr) in *. destruct (Hch x0 ltac:(set_solver)) as (Hh & Hn & Hp & Hno).
    assert (Hx0 : Zpos x0 = addr) by (unfold x0; lia).
    apply wp_bind. eapply wp_mono; [apply (slabs_free_spec x0 item0 0 c s Q); try done; nia |].
    intros _ s1 (nx & pv & m & -> & S1 & M1 & D1 & D2 & C1 & B1 & G1). set (s1 := set_mem _ _).
    assert (Hx0n : x0 ∉ chunks (addr + size) size n) by (intros H%chunks_range; lia).
    eapply wp_mono; [apply (IH (addr + size) s1 (relist (Free c) (x0 :: Q (Free c)) Q)); try done|].
    + intros a y Hy. unfold s1. cbn [mem i_next i_prev set_mem set_i_prev set_i_next]. rewrite B1, <- !elem_of_dom, D1, D2, !elem_of_dom.
      unfold relist in Hy. case_decide; [|by apply (Hb a)]. apply elem_of_cons in Hy as [->|Hy]; [split; [nia | done] | by apply (Hb (Free c))].
    + unfold s1. simpl. rewrite (proj1 C1). done.
    + lia.
    + unfold s1. simpl. rewrite B1. lia.
    + intros x Hx. destruct (Hch x ltac:(set_solver)) as (Hhx & Hnx & Hpx & Hnox). assert (x <> x0) by (intros ->; done).
      unfold s1. cbn [hdrs i_next i_prev set_mem set_i_prev set_i_next set_hdrs]. rewrite lookup_insert_ne, <- !elem_of_dom, D1, D2, !elem_of_dom by done.
      repeat (split; [done |]). intros a. unfold relist. case_decide; [|apply Hnox]. rewrite not_elem_of_cons. split; [done | apply Hnox].
    + intros _ s2 (nx2 & pv2 & m2 & hd2 & -> & S2 & M2 & E1 & E2 & C2 & B2 & G2 & H2). exists nx2, pv2, m2, hd2.
      assert (HQ : forall a, relist (Free c) (rev (chunks (addr + size) size n) ++ relist (Free c) (x0 :: Q (Free c)) Q (Free c)) (relist (Free c) (x0 :: Q (Free c)) Q) a =
        relist (Free c) (rev (x0 :: chunks (addr + size) size n) ++ Q (Free c)) Q a).
      { intros a. rewrite relist_twice, relist_eq. cbn [rev]. by rewrite <- app_assoc. }
      split; [done |]. split; [by apply (shape_ext _ _ _ _ HQ) |]. split; [by apply (mem_ok_ext _ _ _ _ HQ) |].
      split; [by rewrite E1 |]. split; [by rewrite E2 |]. split; [by apply (same_chunks_trans _ m) |]. split; [by rewrite B2 |].
      split; [intros d; by rewrite G2, <- G1 |]. intros x. rewrite H2. unfold s1. cbn [hdrs set_mem set_i_prev set_i_next set_hdrs]. destruct (decide (x = x0)) as [->|Hne].
      * rewrite decide_False by done. rewrite decide_True by set_solver. by rewrite lookup_insert_eq.
      * rewrite lookup_insert_ne by done. destruct (decide (x ∈ chunks (addr + size) size n)); [rewrite decide_True by set_solver | rewrite decide_False by set_solver]; done.
Qed.

Lemma zeroed_lookup {A} addr len cs (v : A) (m : gmap ptr A) x :
  (forall y, is_Some (m !! y) -> Zpos y < addr) -> zeroed addr len cs v m !! x = if decide (x ∈ cs) then Some v else m !! x.
Proof.
  intros Hm. unfold zeroed. rewrite map_filter_id.
  - induction cs as [|c cs IH]; cbn [foldr]; [by rewrite decide_False by set_solver |]. destruct (decide (x = c)) as [->|Hne].
    + rewrite lookup_insert_eq. by rewrite decide_True by set_solver.
    + rewrite lookup_insert_ne, IH by done. destruct (decide (x ∈ cs)); [by rewrite decide_True by set_solver | by rewrite decide_False by set_solver].
  - intros y a Hy. specialize (Hm y ltac:(by eexists)). lia.
Qed.
Lemma zeroed_dom {A B} addr len cs (v : A) (w : B) (m : gmap ptr A) (m' : gmap ptr B) :
  (forall y, is_Some (m !! y) -> Zpos y < addr) -> dom m = dom m' -> dom (zeroed addr len cs v m) = dom (zeroed addr len cs w m').
Proof.
  intros Hm E. assert (Hm' : forall y, is_Some (m' !! y) -> Zpos y < addr) by (intros y Hy; apply Hm; by rewrite <- elem_of_dom, E, elem_of_dom).
  apply set_eq. intros x. rewrite !elem_of_dom, !zeroed_lookup by done. case_decide; [by split; eexists |]. by rewrite <- !elem_of_dom, E.
Qed.

Section Ok.
Variable hash : list ascii -> Z.
Hypothesis hash_range : forall k, 0 <= hash k < 2 ^ 32.

(** Memory may be given out, and page lists may grow. *)
Lemma ok_set_mem raw s V m :
  ok_raw hash raw s V -> mem_ok m (item_size_max (cfg s)) (v_q V) -> same_chunks (mem s) m -> ok_raw hash raw (set_mem m s) V.
Proof.
  intros O Hm Hs. destruct O as [O1 O2 O3 O4 O5 O6 O7 O8 O9 O10 O11]. constructor; try done.
  - intros x h Hh. destruct (O7 x h Hh). destruct Hs as (E1 & E2 & _). simpl. split; [lia | by rewrite E1].
  - intros x h Hh. rewrite (same_chunk_of s (set_mem m s)) by done. by apply O9.
Qed.

Lemma mem_ok_plain m m' max Q :
  mem_ok m max Q -> slabclass m' = slabclass m -> power_largest m' = power_largest m -> mem_base m' = None -> brk m <= brk m' <= 2 ^ 32 -> mem_top m' <= 2 ^ 32 ->
  mem_ok m' max Q /\ same_chunks m m'.
Proof.
  intros [H1 H2 H3 H4 H5] E1 E2 E3 E4 E5. split.
  - constructor; rewrite ?E1, ?E2; try done; [lia |]. intros c Hc. destruct (H5 c Hc) as (p & Ep & [C1 C2 C3 C4]). exists p. split; [done |]. constructor; try done. lia.
  - split; [done |]. split; [lia |]. by rewrite E1.
Qed.

Definition memory_step (s : store) (Q : lid -> list ptr) (s' : store) : Prop := exists m,
  s' = set_mem m s /\ mem_ok m (item_size_max (cfg s)) Q /\ same_chunks (mem s) m.
Lemma memory_step_refl s Q : mem_ok (mem s) (item_size_max (cfg s)) Q -> memory_step s Q s.
Proof. intros H. exists (mem s). split; [by destruct s |]. split; [done | apply same_chunks_refl]. Qed.

Lemma grow_slab_list_spec c p s Q :
  mem_ok (mem s) (item_size_max (cfg s)) Q -> 1 <= c <= power_largest (mem s) -> arr (slabclass (mem s)) c = Some p ->
  wp (grow_slab_list c) s (fun r s' => memory_step s Q s' /\ brk (mem s') = brk (mem s) /\
    (r = true -> exists p', arr (slabclass (mem s')) c = Some p' /\ slabs p' < Z.of_nat (length (slab_list p')))).
Proof.
  intros Hm Hc Ep. destruct (m_class _ _ _ Hm c Hc) as (p0 & Ep0 & Hcl). rewrite Ep in Ep0. injection Ep0 as <-.
  unfold grow_slab_list. apply wp_bind. eapply wp_class_of; [exact Ep |]. destruct (Z.eqb_spec (slabs p) (Z.of_nat (length (slab_list p)))) as [E|E].
  - apply wp_bind. unfold alloc_ok. apply wp_bind, wp_gets, wp_bind, wp_modify. set (m1 := set_heap _ _ _). apply wp_ret.
    destruct (mem_ok_plain (mem s) m1 (item_size_max (cfg s)) Q Hm eq_refl eq_refl (m_base _ _ _ Hm)) as [M1 S1]; [pose proof (m_brk _ _ _ Hm); simpl; lia | apply Hm |].
    assert (Hstep : memory_step s Q (set_mem m1 s)) by (by exists m1).
    destruct (default true _).
    + apply wp_bind. eapply wp_upd_class; [exact Ep |]. apply wp_ret. set (p' := set_slab_list _ _).
      assert (Hlen : length (slab_list p') = Z.to_nat (if Z.of_nat (length (slab_list p)) =? 0 then 16 else Z.of_nat (length (slab_list p)) * 2)).
      { unfold p'. simpl. rewrite length_app, length_replicate. destruct (Z.eqb_spec (Z.of_nat (length (slab_list p))) 0); lia. }
      assert (Hp' : class_ok m1 (item_size_max (cfg s)) (Q (Free c)) p').
      { destruct Hcl as [C1 C2 C3 C4]. constructor; try done. split; [apply C4 |]. rewrite Hlen. simpl. destruct (Z.eqb_spec (Z.of_nat (length (slab_list p))) 0); lia. }
      split; [|split; [done |]].
      * exists (set_slabclass (upd_arr (slabclass m1) c p') m1). split; [done |]. split.
        -- apply (mem_ok_ext _ _ (relist (Free c) (Q (Free c)) Q)); [apply relist_self |]. by apply mem_ok_class.
        -- apply (same_chunks_trans _ m1); [done |]. by eapply same_chunks_class.
      * intros _. exists p'. split; [simpl; apply arr_upd_eq; by eexists |]. rewrite Hlen. simpl. destruct Hcl as [_ _ _ [C4 _]]. destruct (Z.eqb_spec (Z.of_nat (length (slab_list p))) 0); lia.
    + apply wp_ret. done.
  - apply wp_ret. split; [by apply memory_step_refl |]. split; [done |]. intros _. exists p. split; [done |]. destruct Hcl as [_ _ _ C4]. lia.
Qed.

Lemma memory_allocate_spec len s Q :
  mem_ok (mem s) (item_size_max (cfg s)) Q -> 0 < len ->
  wp (memory_allocate len) s (fun r s' => memory_step s Q s' /\ slabclass (mem s') = slabclass (mem s) /\
    match r with Some a => a = brk (mem s) /\ brk (mem s') = a + len | None => brk (mem s') = brk (mem s) end).
Proof.
  intros Hm Hlen. pose proof (m_brk _ _ _ Hm) as [Hb Ht]. unfold memory_allocate. apply wp_bind, wp_gets. rewrite (m_base _ _ _ Hm).
  apply wp_bind. unfold malloc, alloc_ok. apply wp_bind, wp_bind, wp_gets, wp_bind, wp_modify. set (m1 := set_heap _ _ _). apply wp_ret. apply wp_bind, wp_gets.
  cbn [mem set_mem]. destruct (default true _ && _) eqn:E.
  - apply andb_prop in E as [_ E%Z.leb_le]. apply wp_bind, wp_modify, wp_ret. apply wp_bind, wp_modify, wp_ret. simpl in *.
    set (m3 := set_mem_malloced _ _). destruct (mem_ok_plain (mem s) m3 (item_size_max (cfg s)) Q Hm eq_refl eq_refl (m_base _ _ _ Hm)) as [M1 S1]; [simpl; lia | done |].
    split; [by exists m3 |]. split; [done |]. done.
  - apply wp_ret. apply wp_bind, wp_modify, wp_ret. set (m3 := set_mem_malloced _ _).
    destruct (mem_ok_plain (mem s) m3 (item_size_max (cfg s)) Q Hm eq_refl eq_refl (m_base _ _ _ Hm)) as [M1 S1]; [simpl; lia | done |].
    split; [by exists m3 |]. done.
Qed.

(** Chunks may be added; nothing else changes. *)
Definition grown (s : store) (V : view) (s' : store) (V' : view) : Prop :=
  v_map V' = v_map V /\ v_held V' = v_held V /\ (forall i, v_q V' (Lru i) = v_q V (Lru i)) /\
  (forall x h, hdrs s !! x = Some h -> hdrs s' !! x = Some h /\ item_key (tbl s') !! x = item_key (tbl s) !! x /\ v_cls V' x = v_cls V x) /\
  lru s' = lru s /\ cnt s' = cnt s /\ cfg s' = cfg s /\ same_chunks (mem s) (mem s').

Lemma memory_step_grown raw s V s' : ok_raw hash raw s V -> memory_step s (v_q V) s' -> ok_raw hash raw s' V /\ grown s V s' V.
Proof. intros O (m & -> & M & S). split; [by apply ok_set_mem |]. repeat (split; [done |]). done. Qed.

(** The items of a page that is cut. *)
Lemma ok_page raw s V c p addr len n nx pv m hd :
  let cs := chunks addr (c_size p) n in
  let s3 := clear_page addr len cs s in
  let Q' := relist (Free c) (rev cs ++ v_q V (Free c)) (v_q V) in
  let s' := set_mem m (set_i_prev pv (set_i_next nx (set_hdrs hd s3))) in
  ok_raw hash raw s V -> 1 <= c <= power_largest (mem s) -> 0 < addr -> 1 <= c_size p ->
  (forall x, is_Some (hdrs s !! x) -> Zpos x < addr) -> addr + Z.of_nat n * c_size p <= brk m -> brk (mem s) <= brk m ->
  shape nx pv Q' -> mem_ok m (item_size_max (cfg s)) Q' -> dom nx = dom (i_next s3) -> dom pv = dom (i_prev s3) -> same_chunks (mem s) m ->
  (forall x, hd !! x = if decide (x ∈ cs) then Some (freed item0) else hdrs s3 !! x) ->
  let V' := View (v_map V) Q' (fun x => if decide (x ∈ cs) then c else v_cls V x) (v_held V) in
  ok_raw hash raw s' V' /\ grown s V s' V'.
Proof.
  intros cs s3 Q' s' O Hc Ha Hsz Hbelow Hend Hbrk Hsh Hm D1 D2 Hsc Hhd V'.
  assert (Hnot : forall x, x ∈ cs -> hdrs s !! x = None).
  { intros x Hx. destruct (hdrs s !! x) as [h|] eqn:E; [|done]. pose proof (Hbelow x ltac:(by eexists)). apply chunks_range in Hx; [lia | done | done]. }
  assert (Hold : forall x h, hdrs s !! x = Some h -> x ∉ cs) by (intros x h Hh Hx; by rewrite Hnot in Hh).
  assert (Hdoms : forall A (mm : gmap ptr A), dom mm = dom (hdrs s) -> forall y, is_Some (mm !! y) -> Zpos y < addr).
  { intros A mm E y Hy. apply Hbelow. by rewrite <- elem_of_dom, <- E, elem_of_dom. }
  destruct (ok_dom _ _ _ _ O) as (E1 & E2 & E3 & E4).
  assert (Hd3 : forall x, hdrs s' !! x = if decide (x ∈ cs) then Some (freed item0) else hdrs s !! x).
  { intros x. change (hd !! x = if decide (x ∈ cs) then Some (freed item0) else hdrs s !! x). rewrite Hhd. case_decide; [done |].
    unfold s3, clear_page. cbn [hdrs]. rewrite zeroed_lookup by (by apply Hdoms). by rewrite decide_False. }
  assert (Hk3 : forall x, item_key (tbl s') !! x = if decide (x ∈ cs) then Some [] else item_key (tbl s) !! x).
  { intros x. unfold s', s3, clear_page. cbn. apply zeroed_lookup. apply Hdoms. done. }
  assert (Hdhd : dom hd = dom (zeroed addr len cs item0 (hdrs s))).
  { apply set_eq. intros x. rewrite !elem_of_dom, Hhd. unfold s3, clear_page. cbn [hdrs]. rewrite zeroed_lookup by (by apply Hdoms). case_decide; [split; intros _; by eexists | done]. }
  split; [|unfold grown; repeat (split; [done |]); split; [|done]].
  - destruct O as [O1 O2 O3 O4 O5 O6 O7 O8 O9 O10 O11]. constructor.
    + apply (rep_frame hash (tbl s)); [done |]. intros k x Hkx. destruct (rep_item hash hash_range _ _ _ _ O1 Hkx) as [Hi Hn].
      assert (Hx : x ∉ cs). { apply elem_of_dom in Hn. rewrite E3 in Hn. apply elem_of_dom in Hn as [h Hh]. by apply (Hold x h). }
      rewrite !zeroed_lookup by (by apply Hdoms). by rewrite !decide_False.
    + done.
    + by apply lru_ok_free.
    + done.
    + done.
    + cbn. rewrite D1, D2, Hdhd. unfold s3, clear_page. cbn. repeat split; apply zeroed_dom; (done || by apply Hdoms).
    + intros x h. rewrite Hd3. simpl. destruct Hsc as (P & _). case_decide as E; intros Hh.
      * apply chunks_range in E; [|done..]. rewrite P. lia.
      * destruct (O7 x h Hh). rewrite P. lia.
    + intros x a. simpl. split.
      * intros Hx. assert (Hcase : x ∈ cs /\ a = Free c \/ x ∈ v_q V a).
        { unfold Q', relist in Hx. case_decide as Ea; [subst a|by right]. apply elem_of_app in Hx as [Hx|Hx]; [left; split; [by apply list_elem_of_In, in_rev, list_elem_of_In |done] | by right]. }
        destruct Hcase as [[Hx' ->]|Hx'].
        -- exists (freed item0). rewrite Hd3, !decide_True by done. done.
        -- apply O8 in Hx' as (h & Hh & Hp). exists h. rewrite Hd3, !decide_False by (by eapply Hold). done.
      * intros (h & Hh & Hp). rewrite Hd3 in Hh. case_decide as E.
        -- injection Hh as <-. injection Hp as <-. unfold Q'. rewrite relist_eq. apply elem_of_app. left. rewrite list_elem_of_In, <- in_rev. by apply list_elem_of_In.
        -- assert (Hx : x ∈ v_q V a) by (apply O8; by exists h). unfold Q', relist. case_decide; [subst a; apply elem_of_app; by right | done].
    + intros x h. rewrite Hd3. simpl. intros Hh. case_decide as E.
      * injection Hh as <-. rewrite (O11 x (Hnot x E)). unfold item_ok. change (slabbed (freed item0)) with true. change (linked (freed item0)) with false. simpl. repeat split; lia || done.
      * specialize (O9 x h Hh). rewrite (same_chunk_of s s') by done. unfold nkey_of in *. rewrite Hk3, decide_False by done. done.
    + intros x h. rewrite Hd3. simpl. intros Hh. case_decide as E; [|by apply O10]. injection Hh as <-. split; [done |]. intros [k Hk].
      destruct (rep_item hash hash_range _ _ _ _ O1 Hk) as [_ Hn]. apply elem_of_dom in Hn. rewrite E3 in Hn. apply elem_of_dom in Hn as [h Hh]. by rewrite (Hnot x E) in Hh.
    + intros x. rewrite Hd3. simpl. case_decide; [done | apply O11].
  - intros x h Hh. rewrite Hd3, Hk3. simpl. rewrite !decide_False by (by eapply Hold). done.
Qed.

Lemma grown_trans s1 V1 s2 V2 s3 V3 : grown s1 V1 s2 V2 -> grown s2 V2 s3 V3 -> grown s1 V1 s3 V3.
Proof.
  intros (A1 & A2 & A3 & A4 & A5 & A6 & A7 & A8) (B1 & B2 & B3 & B4 & B5 & B6 & B7 & B8).
  split; [congruence |]. split; [congruence |]. split; [intros i; by rewrite B3 |]. split; [|do 3 (split; [congruence |]); by eapply same_chunks_trans].
  - intros x h Hh. destruct (A4 x h Hh) as (H1 & H2 & H3). destruct (B4 x h H1) as (H4 & H5 & H6). split; [done |]. split; congruence.
Qed.

(** A page cleared: the lists are as they were, and its chunks are on none. *)
Lemma page_parts raw s V addr len cs :
  ok_raw hash raw s V -> (forall x, is_Some (hdrs s !! x) -> Zpos x < addr) -> (forall x, x ∈ cs -> addr <= Zpos x) ->
  let s3 := clear_page addr len cs s in
  shape (i_next s3) (i_prev s3) (v_q V) /\ all_below s3 (v_q V) /\
  forall x, x ∈ cs -> hdrs s3 !! x = Some item0 /\ is_Some (i_next s3 !! x) /\ is_Some (i_prev s3 !! x) /\ forall a, x ∉ v_q V a.
Proof.
  intros O Hbelow Hcs s3. destruct (ok_dom _ _ _ _ O) as (E1 & E2 & E3 & E4).
  assert (Hdoms : forall A (mm : gmap ptr A), dom mm = dom (hdrs s) -> forall y, is_Some (mm !! y) -> Zpos y < addr).
  { intros A mm E y Hy. apply Hbelow. by rewrite <- elem_of_dom, <- E, elem_of_dom. }
  assert (Hq : forall a x, x ∈ v_q V a -> x ∉ cs /\ is_Some (hdrs s !! x)).
  { intros a x Hx. pose proof (ok_in_q _ _ _ _ _ _ O Hx) as Hh. split; [|done]. intros Hx'. specialize (Hbelow x Hh). specialize (Hcs x Hx'). lia. }
  unfold s3, clear_page. cbn [i_next i_prev hdrs]. split; [|split].
  - apply (shape_frame (i_next s) (i_prev s)); [apply O |]. intros a x Hx. destruct (Hq a x Hx) as [Hn _].
    rewrite !zeroed_lookup by (by apply Hdoms). by rewrite !decide_False.
  - intros a x Hx. destruct (Hq a x Hx) as [Hn Hh]. cbn [mem i_next i_prev]. rewrite !zeroed_lookup by (by apply Hdoms). rewrite !decide_False by done.
    destruct (ok_links _ _ _ _ _ O Hh) as (? & ? & _). destruct Hh as [h Hh]. destruct (ok_below _ _ _ _ O x h Hh). done.
  - intros x Hx. rewrite !zeroed_lookup by (by apply Hdoms). rewrite !decide_True by done. split; [done |]. split; [by eexists |]. split; [by eexists |].
    intros a Ha. by destruct (Hq a x Ha).
Qed.

Lemma newslab_spec raw s V c :
  ok_raw hash raw s V -> 1 <= c <= power_largest (mem s) ->
  wp (do_slabs_newslab c) s (fun _ s' => exists V', ok_raw hash raw s' V' /\ grown s V s' V').
Proof.
  intros O Hc. pose proof (ok_mem _ _ _ _ O) as Hm. destruct (m_class _ _ _ Hm c Hc) as (p & Ep & Hcl). destruct (m_pool _ _ _ Hm) as (g & Eg & Hg).
  destruct (c_chunk _ _ _ _ Hcl) as (Hsz & Hper & Hprod). pose proof (ok_max _ _ _ _ O) as Hmax. change (2 ^ 30) with 1073741824 in Hmax.
  unfold do_slabs_newslab. apply wp_bind. eapply wp_class_of; [exact Ep |]. apply wp_bind. eapply wp_class_of; [exact Eg |]. apply wp_bind, wp_gets.
  set (len := if slab_reassign (cfg s) then _ else _).
  assert (Hlen : c_size p * perslab p <= len) by (unfold len; destruct (slab_reassign (cfg s)); [done |]; rewrite i32_small; nia).
  destruct (_ && _ && _ && _).
  { apply wp_bind, wp_modify, wp_ret. exists V. apply memory_step_grown; [done |]. exists (set_limit_reached true (mem s)). split; [done |].
    apply (mem_ok_plain (mem s)); try done; pose proof (m_brk _ _ _ Hm); simpl; [apply Hm | lia | lia]. }
  apply wp_bind. eapply wp_mono; [by apply (grow_slab_list_spec c p s (v_q V)) |]. intros grown_ok s1 (Hs1 & Hb1 & Hroom).
  destruct (memory_step_grown raw s V s1 O Hs1) as [O1 G1]. destruct grown_ok; [|by apply wp_ret; exists V]. cbn [negb].
  destruct (Hroom eq_refl) as (p1 & Ep1 & Hroom1). clear Hroom.
  pose proof (ok_mem _ _ _ _ O1) as Hm1. destruct (m_pool _ _ _ Hm1) as (g1 & Eg1 & Hg1).
  apply wp_bind. unfold get_page_from_global_pool. apply wp_bind. eapply wp_class_of; [exact Eg1 |]. rewrite Hg1. apply wp_ret.
  apply wp_bind. eapply wp_mono; [apply (memory_allocate_spec len s1 (v_q V) Hm1); nia |]. intros r s2 (Hs2 & Hcl2 & Hr).
  destruct (memory_step_grown raw s1 V s2 O1 Hs2) as [O2 G2]. pose proof (grown_trans _ _ _ _ _ _ G1 G2) as G12.
  destruct r as [addr|]; [|by apply wp_ret; exists V]. destruct Hr as [-> Hbrk2]. set (addr := brk (mem s1)) in *.
  pose proof (ok_mem _ _ _ _ O2) as Hm2. pose proof (m_brk _ _ _ Hm1) as [Hb _]. pose proof (m_brk _ _ _ Hm2) as [Hb2 _]. fold addr in Hb.
  assert (Hbelow : forall x, is_Some (hdrs s2 !! x) -> Zpos x < addr).
  { intros x Hx. destruct Hs2 as (m & -> & _). destruct Hx as [h Hh]. by apply (ok_below _ _ _ _ O1 x h). }
  assert (Hc2 : 1 <= c <= power_largest (mem s2)) by (destruct G12 as (_ & _ & _ & _ & _ & _ & _ & E & _); by rewrite E).
  assert (Hsame : c_size p1 = c_size p /\ perslab p1 = perslab p).
  { destruct G1 as (_ & _ & _ & _ & _ & _ & _ & _ & _ & E). destruct (E c) as [E1 E2]. rewrite Ep, Ep1 in *. simpl in *. split; congruence. }
  assert (Ep2 : arr (slabclass (mem s2)) c = Some p1) by (by rewrite Hcl2).
  apply wp_bind, wp_modify. rewrite <- (proj1 Hsame) in *. rewrite <- (proj2 Hsame) in *. set (n := Z.to_nat (perslab p1)). set (cs := chunks addr (c_size p1) n).
  assert (Hn : Z.of_nat n * c_size p1 <= len) by (unfold n; nia).
  apply wp_bind. unfold split_slab_page_into_freelist. apply wp_bind. eapply wp_class_of; [exact Ep2 |]. fold n.
  destruct (page_parts raw s2 V addr len cs O2 Hbelow) as (Hsh3 & Hbl3 & Hcs3); [intros x Hx; apply chunks_range in Hx; lia |].
  eapply wp_mono; [apply (split_loop_spec n addr (c_size p1) c (clear_page addr len cs s2) (v_q V) Hsh3 Hm2 Hbl3 Hc2); try lia |].
  { simpl. rewrite Hbrk2. lia. }
  { apply Hcs3. }
  intros _ s4 (nx & pv & m & hd & -> & Sh4 & M4 & D1 & D2 & C4 & B4 & P4 & H4). cbn [cfg mem clear_page] in *. fold cs in Sh4, M4, H4.
  destruct (m_class _ _ _ M4 c) as (p4 & Ep4 & Hcl4); [by rewrite (proj1 C4) |].
  assert (Hpages : slabs p4 = slabs p1 /\ slab_list p4 = slab_list p1).
  { specialize (P4 c). cbn [mem clear_page] in P4. rewrite Ep4, Ep2 in P4. simpl in P4. injection P4 as -> ->. done. }
  destruct Hpages as [Hp4 Hl4]. apply wp_bind. unfold add_page. apply wp_bind. eapply wp_class_of; [exact Ep4 |].
  rewrite Hp4, Hl4, (proj2 (Z.ltb_lt _ _) Hroom1). eapply wp_upd_class; [exact Ep4 |]. apply wp_ret. set (p5 := set_slabs _ _).
  set (m5 := set_slabclass _ _). set (Q' := relist (Free c) _ _) in *.
  assert (M5 : mem_ok m5 (item_size_max (cfg s2)) Q').
  { apply (mem_ok_ext _ _ (relist (Free c) (Q' (Free c)) Q')); [apply relist_self |]. apply mem_ok_class; [done | simpl; by rewrite (proj1 C4) |].
    destruct Hcl4 as [K1 K2 K3 K4]. constructor; try done. unfold p5. cbn [slabs slab_list set_slabs set_slab_list]. unfold upd_arr. rewrite length_insert, Hp4, Hl4.
    destruct (m_class _ _ _ Hm1 c) as (q1 & Eq1 & Hq1); [destruct G1 as (_ & _ & _ & _ & _ & _ & _ & E & _); by rewrite E |].
    rewrite Ep1 in Eq1. injection Eq1 as <-. destruct (c_slabs _ _ _ _ Hq1) as [[L1 L2] _]. cbn [brk mem set_mem]. rewrite B4. change (2 ^ 32) with 4294967296 in *. rewrite u32_small by lia. lia. }
  assert (C5 : same_chunks (mem s2) m5).
  { apply (same_chunks_trans _ m); [done |]. by apply (same_chunks_class m c p4). }
  assert (E5 : brk m5 = brk (mem s2)) by (change (brk m5) with (brk m); by rewrite B4).
  destruct (ok_page raw s2 V c p1 addr len n nx pv m5 hd) as [O5 G5]; try done; try lia.
  - eexists. split; [exact O5 |]. by eapply grown_trans.
Qed.

Lemma grown_stays s V s' V' : ok_raw hash None s V -> grown s V s' V' -> stays s V s' V'.
Proof.
  intros O (A1 & A2 & A3 & A4 & A5 & A6 & A7 & A8). constructor; try congruence.
  intros x Hx. assert (Hh : is_Some (hdrs s !! x)).
  { destruct Hx as [Hx|[k Hk]].
    - destruct (hdrs s !! x) eqn:E; [by eexists |]. rewrite (ok_unheld _ _ _ _ O x E) in Hx. lia.
    - rewrite A1 in Hk. destruct (ok_mapped _ hash_range _ _ _ _ _ O Hk) as (_ & h & Hh & _). by eexists. }
  destruct Hh as [h Hh]. destruct (A4 x h Hh) as (H1 & H2 & _). split; [done |]. by exists h, h.
Qed.

(** * Allocation of a chunk *)

(** [x] is a chunk of class [c] that has just been given out. *)
Definition given (s' : store) (V' : view) (x : ptr) (c : Z) : Prop :=
  ok_raw hash (Some x) s' V' /\ v_cls V' x = c /\ v_held V' x = 1 /\ exists h, hdrs s' !! x = Some h /\ slabbed h = false /\ it_clsid h = 0.

Definition given_hdr (h : hdr) : hdr := set_refcount 1 (set_flags (Z.land (it_flags h) (Z.lnot ITEM_SLABBED)) h).
Lemma given_hdr_flags h : 0 <= it_flags h < 256 -> 0 <= it_flags (given_hdr h) < 256 /\ slabbed (given_hdr h) = false /\ linked (given_hdr h) = linked h.
Proof.
  intros Hf. destruct (flag_clear (it_flags h) ITEM_SLABBED Hf) as [H1 H2]; [unfold flag_bits, ITEM_SLABBED; set_solver |].
  split; [done |]. unfold slabbed, linked. cbn [it_flags given_hdr set_refcount set_flags]. rewrite !H2 by (unfold flag_bits, ITEM_SLABBED, ITEM_LINKED; set_solver). done.
Qed.

Lemma pop_ok s V c x l nx pv m h :
  let Q' := relist (Free c) l (v_q V) in
  let s' := set_mem m (set_hdrs (<[x := given_hdr h]> (hdrs s)) (set_i_prev pv (set_i_next nx s))) in
  let V' := View (v_map V) Q' (v_cls V) (fun y => if decide (y = x) then 1 else v_held V y) in
  ok_raw hash None s V -> v_q V (Free c) = x :: l -> hdrs s !! x = Some h ->
  shape nx pv Q' -> mem_ok m (item_size_max (cfg s)) Q' -> dom nx = dom (i_next s) -> dom pv = dom (i_prev s) -> same_chunks (mem s) m ->
  given s' V' x c /\ stays s V s' V'.
Proof.
  intros Q' s' V' O Hq Hh Hsh Hm D1 D2 Hsc. pose proof (ok_item _ _ _ _ O x h Hh) as Hi.
  assert (Hpl : place_of (v_cls V x) h = Some (Free c)).
  { assert (Hx : x ∈ v_q V (Free c)) by (rewrite Hq; set_solver). apply (ok_place _ _ _ _ O) in Hx as (h' & Hh' & Hp). by rewrite Hh in Hh'; injection Hh' as <-. }
  assert (Hls : linked h = false /\ slabbed h = true /\ v_cls V x = c).
  { unfold place_of in Hpl. destruct (linked h); [done |]. destruct (slabbed h); [|done]. by injection Hpl as ->. }
  destruct Hls as (Hln & Hsl & Hcls). destruct Hi as (F1 & F2 & F3 & F4 & F5 & F6 & F7). rewrite Hsl in F7. destruct F7 as [Fh Fc].
  destruct (given_hdr_flags h F1) as (G1 & G2 & G3). rewrite Hln in G3.
  assert (Hnomap : forall k, v_map V !! k <> Some x) by (intros k Hk; assert (linked h = true) by (apply (ok_linked _ _ _ _ O x h Hh); by exists k); congruence).
  split.
  - split; [|split; [done |]; split; [simpl; by rewrite decide_True |]; exists (given_hdr h); split; [simpl; apply lookup_insert_eq |]; done].
    destruct O as [O1 O2 O3 O4 O5 O6 O7 O8 O9 O10 O11]. constructor; try done.
    + simpl. rewrite D1, D2, dom_insert_lookup_L by (by eexists). done.
    + intros y hy Hy. destruct Hsc as (E1 & E2 & _). simpl in *. rewrite E1. apply lookup_insert_Some in Hy as [[<- <-]|[Hne Hy]]; [destruct (O7 x h Hh) | destruct (O7 y hy Hy)]; lia.
    + intros y a. simpl. split.
      * intros Hy. assert (Hya : y ∈ v_q V a /\ y <> x).
        { unfold Q', relist in Hy. pose proof (sh_nodup _ _ _ O2 (Free c)) as Hnd. rewrite Hq in Hnd. apply NoDup_cons in Hnd as [Hnd _].
          case_decide as Ea; [subst a; rewrite Hq; split; [set_solver | by intros ->] |]. split; [done |]. intros ->.
          apply Ea, (sh_disjoint _ _ _ O2 a (Free c) x Hy). rewrite Hq. set_solver. }
        destruct Hya as [Hya Hne]. apply O8 in Hya as (hy & Hhy & Hp). exists hy. by rewrite lookup_insert_ne.
      * intros (hy & Hhy & Hp). apply lookup_insert_Some in Hhy as [[<- <-]|[Hne Hhy]].
        -- unfold place_of in Hp. by rewrite G3, G2 in Hp.
        -- assert (Hy : y ∈ v_q V a) by (apply O8; by exists hy). unfold Q', relist. case_decide as Ea; [|done]. subst a. rewrite Hq in Hy. set_solver.
    + intros y hy Hy. rewrite (same_chunk_of s s') by done. simpl in *. apply lookup_insert_Some in Hy as [[<- <-]|[Hne Hy]].
      * rewrite decide_True, bool_decide_true by done. unfold item_ok. rewrite G2, G3. simpl. repeat split; lia || done.
      * rewrite decide_False, bool_decide_false by congruence. by apply O9.
    + intros y hy Hy. simpl in *. apply lookup_insert_Some in Hy as [[<- <-]|[Hne Hy]]; [|by apply O10].
      rewrite G3. split; [done |]. intros [k Hk]. by destruct (Hnomap k).
    + intros y Hy. simpl in *. apply lookup_insert_None in Hy as [Hy Hne]. rewrite decide_False by done. by apply O11.
  - constructor; try done.
    + intros y Hy. simpl. case_decide; [lia | done].
    + intros y Hy. assert (Hne : y <> x).
      { destruct Hy as [Hy|[k Hk]]; [intros ->; lia | intros ->; by apply (Hnomap k)]. }
      split; [done |]. assert (Hhy : is_Some (hdrs s !! y)).
      { destruct Hy as [Hy|[k Hk]].
        - destruct (hdrs s !! y) eqn:E; [by eexists |]. rewrite (ok_unheld _ _ _ _ O y E) in Hy. lia.
        - destruct (ok_mapped _ hash_range _ _ _ _ _ O Hk) as (_ & hy & Hhy & _). by eexists. }
      destruct Hhy as [hy Hhy]. exists hy, hy. split; [done |]. split; [|done]. simpl. by rewrite lookup_insert_ne.
Qed.

(** What an allocation gives. *)
Definition gives (s : store) (V : view) (r : option ptr) (c : Z) (s' : store) (V' : view) : Prop :=
  stays s V s' V' /\ same_chunks (mem s) (mem s') /\
  match r with
  | None => ok hash s' V' /\ forall y, v_held V' y = v_held V y
  | Some x => given s' V' x c /\ v_held V x = 0 /\ (forall y, y <> x -> v_held V' y = v_held V y)
  end.

(** The chunk at the head of the free list of a class with free chunks. *)
Lemma pop_spec s V c p size (total : Z) :
  ok hash s V -> 1 <= c <= power_largest (mem s) -> arr (slabclass (mem s)) c = Some p -> sl_curr p <> 0 ->
  wp (match slots p with
      | None => undef
      | Some it =>
          n <- get_next it ;;
          upd_class c (set_slots n) ;;;
          match n with Some y => set_prev y None | None => ret tt end ;;;
          upd_hdr it (fun h => set_flags (Z.land (it_flags h) (Z.lnot ITEM_SLABBED)) h) ;;;
          upd_hdr it (set_refcount 1) ;;;
          upd_class c (fun c => set_sl_curr (u32 (sl_curr c - 1)) c) ;;;
          upd_class c (fun c => set_requested (u64 (requested c + size)) c) ;;;
          ret (Some it, Some total)
      end) s (fun r s' => is_Some r.2 /\ exists V', gives s V r.1 c s' V').
Proof.
  intros O Hc Ep Hne. pose proof (ok_mem _ _ _ _ O) as Hm. destruct (m_class _ _ _ Hm c Hc) as (p0 & Ep0 & Hcl). rewrite Ep in Ep0. injection Ep0 as <-.
  destruct (v_q V (Free c)) as [|x l] eqn:Hq; [by destruct (Hne ltac:(by rewrite (c_curr _ _ _ _ Hcl)))|].
  rewrite (c_slots _ _ _ _ Hcl). cbn [head hd_error].
  destruct (ok_in_q _ _ _ _ (Free c) x O) as [h Hh]; [rewrite Hq; set_solver |].
  destruct (shape_links _ _ _ (Free c) [] x l (ok_shape _ _ _ _ O) Hq) as [Hn Hp].
  assert (Hl : forall y, y ∈ l -> is_Some (i_prev s !! y)).
  { intros y Hy. apply (proj2 (proj2 (ok_listed _ _ _ _ O)) (Free c)). rewrite Hq. set_solver. }
  assert (Hlen : Z.of_nat (length (x :: l)) < brk (mem s)).
  { apply below_length; [rewrite <- Hq; apply O | | apply Hm]. intros y Hy. rewrite <- Hq in Hy. destruct (ok_in_q _ _ _ _ _ _ O Hy) as [hy Hhy].
    by destruct (ok_below _ _ _ _ O y hy Hhy). }
  apply wp_bind. eapply wp_get_next; [exact Hn |]. apply wp_bind. eapply wp_upd_class; [exact Ep |].
  apply wp_bind, wp_opt_prev; [intros y Hy%head_in; by apply Hl |].
  apply wp_bind. eapply wp_upd_hdr; [exact Hh |]. apply wp_bind. eapply wp_upd_hdr; [simpl; apply lookup_insert_eq |].
  apply wp_bind. eapply wp_upd_class; [simpl; apply arr_upd_eq; by eexists |].
  apply wp_bind. eapply wp_upd_class; [simpl; apply arr_upd_eq, arr_range; unfold upd_arr; rewrite length_insert; apply arr_range; by eexists |].
  apply wp_ret. split; [by eexists |]. set (p' := set_requested _ _).
  set (m := set_slabclass (upd_arr (slabclass (mem s)) c p') (mem s)).
  set (s' := set_mem m (set_hdrs (<[x := given_hdr h]> (hdrs s)) (set_i_prev (put_opt (head l) None (i_prev s)) (set_i_next (i_next s) s)))).
  assert (E : forall s2, s2 = s' -> (exists V', gives s V (Some x) c s' V') -> exists V', gives s V (Some x) c s2 V') by (by intros s2 ->).
  apply E; clear E.
  { unfold s', m, set_mem. simpl. unfold upd_arr. rewrite !list_insert_insert_eq, insert_insert_eq. done. }
  assert (Hp' : class_ok (mem s) (item_size_max (cfg s)) l p').
  { destruct Hcl as [C1 C2 C3 C4]. constructor; try done. unfold p'. simpl in C2 |- *. rewrite C2.
    pose proof (m_brk _ _ _ Hm) as [[_ Hb] _]. change (2 ^ 32) with 4294967296 in Hb. simpl in Hlen. rewrite u32_small; lia. }
  destruct (pop_ok s V c x l (i_next s) (put_opt (head l) None (i_prev s)) m h O Hq Hh) as [G1 G2]; try done.
  - exact (shape_unlink _ _ _ (Free c) [] x l (ok_shape _ _ _ _ O) Hq).
  - by apply mem_ok_class.
  - apply dom_put_opt. intros y Hy%head_in. by apply Hl.
  - by apply (same_chunks_class (mem s) c p).
  - eexists. split; [exact G2 |]. split; [by apply (same_chunks_class (mem s) c p) |]. split; [exact G1 |].
    assert (Hx : x ∈ v_q V (Free c)) by (rewrite Hq; set_solver). apply (ok_place _ _ _ _ O) in Hx as (h' & Hh' & Hpl). rewrite Hh in Hh'. injection Hh' as <-.
    destruct (ok_item _ _ _ _ O x h Hh) as (_ & _ & _ & _ & _ & _ & F7). unfold place_of in Hpl. destruct (linked h); [done |]. destruct (slabbed h); [|done].
    split; [apply F7 |]. intros y Hy. simpl. by rewrite decide_False.
Qed.

Lemma slabs_alloc_spec s V c size :
  ok hash s V -> 1 <= c <= power_largest (mem s) ->
  wp (do_slabs_alloc size c 0) s (fun r s' => is_Some r.2 /\ exists V', gives s V r.1 c s' V').
Proof.
  intros O Hc. pose proof (ok_mem _ _ _ _ O) as Hm. destruct (m_class _ _ _ Hm c Hc) as (p & Ep & Hcl). pose proof (m_largest _ _ _ Hm) as Hl.
  unfold do_slabs_alloc. apply wp_bind, wp_gets.
  rewrite (proj2 (Z.ltb_ge _ _)) by (unfold POWER_SMALLEST; lia). rewrite (proj2 (Z.ltb_ge _ _)) by lia. cbn [orb].
  apply wp_bind. eapply wp_class_of; [exact Ep |]. apply wp_bind.
  assert (Hassert : forall K : unit -> store -> Prop, K tt s -> wp (match slots p with
    | Some x => if sl_curr p =? 0 then ret tt else h <- hdr_of x ;; assert (it_clsid h =? 0) | None => assert (sl_curr p =? 0) end) s K).
  { intros K HK. destruct Hcl as [C1 C2 _ _]. rewrite C1, C2. destruct (v_q V (Free c)) as [|x l] eqn:Hq; cbn [head hd_error]; [by apply wp_assert |].
    destruct (Z.eqb_spec (Z.of_nat (length (x :: l))) 0); [by apply wp_ret |].
    assert (Hx : x ∈ v_q V (Free c)) by (rewrite Hq; set_solver). apply (ok_place _ _ _ _ O) in Hx as (h & Hh & Hpl).
    apply wp_bind. eapply wp_hdr_of; [exact Hh |]. apply wp_assert; [|done].
    destruct (ok_item _ _ _ _ O x h Hh) as (_ & _ & _ & _ & _ & _ & F7). unfold place_of in Hpl. destruct (linked h); [done |]. destruct (slabbed h); [|done].
    destruct F7 as [_ ->]. done. }
  apply Hassert. apply wp_bind.
  assert (Hpage : wp (if (sl_curr p =? 0) && negb (0 =? SLABS_ALLOC_NO_NEWPAGE) then do_slabs_newslab c ;;; ret tt else ret tt) s
    (fun _ s' => exists V', ok hash s' V' /\ grown s V s' V')).
  { destruct (_ && _); [|apply wp_ret; exists V; split; [done |]; repeat (split; [done || apply same_chunks_refl |]); apply same_chunks_refl].
    apply wp_bind. eapply wp_mono; [by apply (newslab_spec None s V c) |]. intros r s' H. by apply wp_ret. }
  eapply wp_mono; [exact Hpage |]. intros _ s1 (V1 & O1 & G1). pose proof G1 as (_ & Gh & _ & _ & _ & _ & _ & Gc).
  pose proof (grown_stays s V s1 V1 O G1) as St1.
  assert (Hc1 : 1 <= c <= power_largest (mem s1)) by (by rewrite (proj1 Gc)).
  destruct (m_class _ _ _ (ok_mem _ _ _ _ O1) c Hc1) as (p1 & Ep1 & Hcl1).
  apply wp_bind. eapply wp_class_of; [exact Ep1 |]. destruct (Z.eqb_spec (sl_curr p1) 0) as [E|E].
  - apply wp_ret. split; [by eexists |]. exists V1. split; [done |]. split; [done |]. split; [done |]. intros y. by rewrite Gh.
  - eapply wp_mono; [by apply (pop_spec s1 V1 c p1 size) |]. intros r s2 (Ht & V2 & St2 & C2 & Hr). split; [done |]. exists V2.
    split; [by eapply stays_trans |]. split; [by eapply same_chunks_trans |]. rewrite Gh in Hr. exact Hr.
Qed.

(** * The class of a size *)

Lemma slabs_clsid_spec raw size s V :
  ok_raw hash raw s V -> 0 < size ->
  wp (slabs_clsid size) s (fun c s' => s' = s /\ 0 <= c <= power_largest (mem s) /\
    (c <> 0 -> size <= chunk_of s c /\ forall d, 1 <= d < c -> chunk_of s d < size) /\
    (c = 0 -> forall d, 1 <= d <= power_largest (mem s) -> chunk_of s d < size)).
Proof.
  intros O Hs. pose proof (ok_mem _ _ _ _ O) as Hm. pose proof (m_largest _ _ _ Hm) as Hl. unfold slabs_clsid. rewrite (proj2 (Z.eqb_neq _ _)) by lia.
  assert (H : forall fuel c, power_largest (mem s) - c < Z.of_nat fuel -> 1 <= c <= power_largest (mem s) -> (forall d, 1 <= d < c -> chunk_of s d < size) ->
    wp (clsid_loop fuel size c) s (fun c s' => s' = s /\ 0 <= c <= power_largest (mem s) /\
    (c <> 0 -> size <= chunk_of s c /\ forall d, 1 <= d < c -> chunk_of s d < size) /\ (c = 0 -> forall d, 1 <= d <= power_largest (mem s) -> chunk_of s d < size))).
  { induction fuel as [|fuel IH]; intros c Hf Hc Hd; [lia |]. cbn [clsid_loop]. destruct (m_class _ _ _ Hm c Hc) as (p & Ep & _).
    assert (Hch : chunk_of s c = c_size p) by (unfold chunk_of; by rewrite Ep).
    apply wp_bind. eapply wp_class_of; [exact Ep |]. destruct (Z.leb_spec size (c_size p)).
    - apply wp_ret. split; [done |]. split; [lia |]. split; [intros _; split; [lia | done] | lia].
    - apply wp_bind, wp_gets. destruct (Z.eqb_spec c (power_largest (mem s))) as [Ec|Hne].
      + apply wp_ret. split; [done |]. split; [lia |]. split; [done |]. intros _ d Hd'. destruct (decide (d = c)) as [->|]; [lia |]. apply Hd. lia.
      + apply IH; [lia | lia |]. intros d Hd'. destruct (decide (d = c)) as [->|]; [lia |]. apply Hd. lia. }
  apply H; [unfold MAX_NUMBER_OF_SLAB_CLASSES, POWER_SMALLEST; lia | unfold POWER_SMALLEST; lia | unfold POWER_SMALLEST; lia].
Qed.
End Ok.
