(* ===== verification/ItemsThm.v ===== *)
(** Items of the cache server: references, linking and unlinking keep the
    invariant of the store. *)
From S2P Require Import Prelude CStr CDec Assoc AssocThm DList Store Slabs Items StoreInv LruThm SlabsThm.
Local Open Scope Z_scope.

(** * Flags and contents *)

Definition flag_clear_bit (b : Z) (h : hdr) : hdr := set_flags (Z.land (it_flags h) (Z.lnot b)) h.
Definition flag_set_bit (b : Z) (h : hdr) : hdr := set_flags (Z.lor (it_flags h) b) h.
Lemma clear_linked h : 0 <= it_flags h < 256 -> let h' := flag_clear_bit ITEM_LINKED h in
  0 <= it_flags h' < 256 /\ linked h' = false /\ slabbed h' = slabbed h /\ content h' = content h.
Proof.
  intros Hf h'. destruct (flag_clear (it_flags h) ITEM_LINKED Hf) as [H1 H2]; [unfold flag_bits, ITEM_LINKED; set_solver |].
  split; [done |]. unfold slabbed, linked, content, ITEM_get_cas, has. cbn [h' flag_clear_bit it_flags set_flags it_suffix it_data it_nbytes it_exptime it_cas].
  fold (tst (Z.land (it_flags h) (Z.lnot ITEM_LINKED)) ITEM_CAS). fold (tst (it_flags h) ITEM_CAS).
  rewrite !H2 by (unfold flag_bits, ITEM_SLABBED, ITEM_LINKED, ITEM_CAS; set_solver). done.
Qed.
Lemma set_flag h b : 0 <= it_flags h < 256 -> b ∈ [ITEM_LINKED; ITEM_FETCHED; ITEM_ACTIVE] -> let h' := flag_set_bit b h in
  0 <= it_flags h' < 256 /\ linked h' = (b =? ITEM_LINKED) || linked h /\ slabbed h' = slabbed h /\ content h' = content h.
Proof.
  intros Hf Hb h'. destruct (flag_lor (it_flags h) b Hf) as [H1 H2]; [unfold flag_bits; revert Hb; unfold ITEM_LINKED, ITEM_FETCHED, ITEM_ACTIVE; set_solver |].
  split; [done |]. unfold slabbed, linked, content, ITEM_get_cas, has. cbn [h' flag_set_bit it_flags set_flags it_suffix it_data it_nbytes it_exptime it_cas].
  fold (tst (Z.lor (it_flags h) b) ITEM_CAS). fold (tst (it_flags h) ITEM_CAS).
  rewrite !H2 by (unfold flag_bits, ITEM_SLABBED, ITEM_LINKED, ITEM_CAS; set_solver). rewrite (Z.eqb_sym ITEM_LINKED).
  revert Hb. unfold ITEM_LINKED, ITEM_FETCHED, ITEM_ACTIVE. rewrite !elem_of_cons. intros [-> | [-> | [-> | Hb]]]; [done..|]. by apply not_elem_of_nil in Hb.
Qed.

(** What an item holds but for its number. *)
Definition payload (h : hdr) : list ascii * list ascii * Z * Z := (it_suffix h, it_data h, it_nbytes h, it_exptime h).
Lemma content_payload h h' : content h' = content h -> payload h' = payload h.
Proof. unfold content, payload. intros E. injection E. congruence. Qed.

Lemma flags_free f : 0 <= f < 256 -> tst f ITEM_LINKED = false -> tst f ITEM_SLABBED = false -> (Z.land f (Z.lor ITEM_LINKED ITEM_SLABBED) =? 0) = true.
Proof.
  intros Hf H1 H2. pose proof (by_enum (fun f => (tst f ITEM_LINKED || tst f ITEM_SLABBED) || (Z.land f (Z.lor ITEM_LINKED ITEM_SLABBED) =? 0)) ltac:(vm_compute; reflexivity) f Hf) as H.
  simpl in H. by rewrite H1, H2 in H.
Qed.

Section Ok.
Variable hash : list ascii -> Z.
Hypothesis hash_range : forall k, 0 <= hash k < 2 ^ 32.

(** * One header *)

Lemma ok_upd_hdr raw s V x h h' n :
  ok_raw hash raw s V -> hdrs s !! x = Some h -> linked h' = linked h -> slabbed h' = slabbed h -> it_clsid h' = it_clsid h ->
  item_ok h' (nkey_of s x) (v_held V x + n) (v_cls V x) (chunk_of s (v_cls V x)) (bool_decide (raw = Some x)) ->
  ok_raw hash raw (set_hdrs (<[x := h']> (hdrs s)) s) (hold x n V).
Proof.
  intros O Hh Hl Hs Hc Hi. destruct O as [O1 O2 O3 O4 O5 O6 O7 O8 O9 O10 O11].
  assert (Hpl : place_of (v_cls V x) h' = place_of (v_cls V x) h) by (unfold place_of; by rewrite Hl, Hs, Hc).
  constructor; try done.
  - simpl. rewrite dom_insert_lookup_L by (by eexists). done.
  - intros y hy. simpl. intros [[<- <-]|[Hne Hy]]%lookup_insert_Some; [by apply (O7 x h) | by apply (O7 y hy)].
  - intros y a. simpl. rewrite O8. split; intros (hy & Hy & Hp); destruct (decide (y = x)) as [->|Hne].
    + exists h'. rewrite lookup_insert_eq. split; [done |]. rewrite Hpl. congruence.
    + exists hy. by rewrite lookup_insert_ne.
    + rewrite lookup_insert_eq in Hy. injection Hy as <-. exists h. split; [done |]. by rewrite <- Hpl.
    + rewrite lookup_insert_ne in Hy by done. by exists hy.
  - intros y hy. simpl. intros [[<- <-]|[Hne Hy]]%lookup_insert_Some; [by rewrite decide_True | rewrite decide_False by done; by apply O9].
  - intros y hy. simpl. intros [[<- <-]|[Hne Hy]]%lookup_insert_Some; [rewrite Hl; by apply O10 | by apply O10].
  - intros y. simpl. intros [Hy Hne]%lookup_insert_None. rewrite decide_False by done. by apply O11.
Qed.

(** What an operation on one item leaves alone. *)
Record only (x : ptr) (s : store) (V : view) (s' : store) (V' : view) : Prop := {
  o_hdrs y : y <> x -> hdrs s' !! y = hdrs s !! y;
  o_key : item_key (tbl s') = item_key (tbl s);
  o_held y : y <> x -> v_held V' y = v_held V y;
  o_cls : v_cls V' = v_cls V;
  o_chunks : same_chunks (mem s) (mem s');
  o_cfg : cfg s' = cfg s;
  o_time : current_time (cnt s') = current_time (cnt s)
}.
Lemma only_trans x s1 V1 s2 V2 s3 V3 : only x s1 V1 s2 V2 -> only x s2 V2 s3 V3 -> only x s1 V1 s3 V3.
Proof.
  intros [A1 A2 A3 A4 A5 A6 A7] [B1 B2 B3 B4 B5 B6 B7]. constructor; try congruence.
  - intros y Hy. by rewrite B1, A1.
  - intros y Hy. by rewrite B3, A3.
  - by eapply same_chunks_trans.
Qed.
Lemma only_hdr x s V h' n : only x s V (set_hdrs (<[x := h']> (hdrs s)) s) (hold x n V).
Proof.
  constructor; try done.
  - intros y Hy. simpl. by rewrite lookup_insert_ne.
  - intros y Hy. simpl. by rewrite decide_False.
Qed.
Lemma only_cnt x s V c : current_time c = current_time (cnt s) -> only x s V (set_cnt c s) V.
Proof. intros H. constructor; done. Qed.
Lemma only_refl x s V : only x s V s V.
Proof. constructor; done. Qed.

Lemma hold_eq x n V : v_held (hold x n V) x = v_held V x + n.
Proof. simpl. by rewrite decide_True. Qed.
Lemma hold_ne x y n V : y <> x -> v_held (hold x n V) y = v_held V y.
Proof. intros. simpl. by rewrite decide_False. Qed.

(** * References *)

Definition with_ref (h : hdr) (n : Z) : hdr := set_refcount (it_refcount h + n) h.

Lemma used_not_slabbed raw s V x h : ok_raw hash raw s V -> hdrs s !! x = Some h -> linked h = true -> slabbed h = false.
Proof. intros O Hh Hl. destruct (ok_item _ _ _ _ O x h Hh) as (_ & _ & _ & _ & _ & H & _). by apply H. Qed.
Lemma held_not_slabbed raw s V x h : ok_raw hash raw s V -> hdrs s !! x = Some h -> 0 < v_held V x -> slabbed h = false.
Proof. intros O Hh Hl. destruct (ok_item _ _ _ _ O x h Hh) as (_ & _ & _ & _ & _ & _ & H). destruct (slabbed h); [lia | done]. Qed.
Lemma held_hdr raw s V x : ok_raw hash raw s V -> 0 < v_held V x -> exists h, hdrs s !! x = Some h.
Proof. intros O Hl. destruct (hdrs s !! x) as [h|] eqn:E; [by exists h |]. rewrite (ok_unheld _ _ _ _ O x E) in Hl. lia. Qed.

Lemma refcount_incr_spec raw s V x h (Q : Z -> store -> Prop) :
  ok_raw hash raw s V -> hdrs s !! x = Some h -> slabbed h = false -> it_refcount h + 1 < 65536 ->
  (ok_raw hash raw (set_hdrs (<[x := with_ref h 1]> (hdrs s)) s) (hold x 1 V) -> Q (it_refcount h + 1) (set_hdrs (<[x := with_ref h 1]> (hdrs s)) s)) ->
  wp (refcount_incr x) s Q.
Proof.
  intros O Hh Hs Hr HQ. destruct (ok_item _ _ _ _ O x h Hh) as (F1 & F2 & F3 & F4 & F5 & F6 & F7). rewrite Hs in F7. destruct F7 as [F7 F8].
  unfold refcount_incr. apply wp_bind. eapply wp_hdr_of; [exact Hh |]. rewrite u16_small by lia.
  apply wp_bind. eapply wp_upd_hdr; [exact Hh |]. apply wp_ret. apply HQ. apply (ok_upd_hdr raw s V x h); try done.
  unfold item_ok. change (slabbed (with_ref h 1)) with (slabbed h). change (linked (with_ref h 1)) with (linked h). rewrite Hs. simpl.
  repeat (split; [lia || done |]). done.
Qed.

(** The last reference gone: the chunk goes back to its class. *)
Lemma item_free_spec s V x h :
  ok hash s V -> hdrs s !! x = Some h -> slabbed h = false -> linked h = false -> v_held V x = 1 -> it_refcount h = 1 ->
  let s1 := set_hdrs (<[x := set_refcount 0 h]> (hdrs s)) s in
  wp (item_free x) s1 (fun _ s' => exists V', ok hash s' V' /\ only x s V s' V' /\ v_map V' = v_map V /\ v_held V' x = 0).
Proof.
  intros O Hh Hs Hl Hheld Href s1. destruct (ok_item _ _ _ _ O x h Hh) as (F1 & F2 & F3 & F4 & F5 & F6 & F7). rewrite Hs in F7. destruct F7 as [F7 F8].
  rewrite bool_decide_false in F8 by done. destruct F8 as (F8 & F9 & F10 & F11). destruct (ok_below _ _ _ _ O x h Hh) as [Hb Hcls].
  destruct (ok_links _ _ _ _ x O ltac:(by eexists)) as (Hn & Hp & Hhn & [k Hk]).
  assert (Hno : forall a, x ∉ v_q V a).
  { intros a Ha. apply (ok_place _ _ _ _ O) in Ha as (h' & Hh' & Hpl). rewrite Hh in Hh'. injection Hh' as <-. unfold place_of in Hpl. by rewrite Hl, Hs in Hpl. }
  assert (Hhead : forall i, 0 <= i < 256 -> head (v_q V (Lru i)) <> Some x /\ last (v_q V (Lru i)) <> Some x).
  { intros i Hi. split; [intros E%head_in | intros E%last_in]; by apply (Hno (Lru i)). }
  unfold item_free. apply wp_bind. eapply wp_hdr_of; [simpl; apply lookup_insert_eq |]. apply wp_bind. eapply wp_ITEM_key; [exact Hk |].
  apply wp_bind, wp_assert; [change (has ITEM_LINKED (set_refcount 0 h)) with (linked h); by rewrite Hl |].
  cbn [it_clsid set_refcount]. destruct (ok_lru _ _ _ _ O (it_clsid h) F2) as (L1 & L2 & _). destruct (Hhead (it_clsid h) F2) as [N1 N2].
  apply wp_bind. eapply wp_lru_head; [exact L1 |]. apply wp_bind, wp_assert; [by rewrite bool_decide_false |].
  apply wp_bind. eapply wp_lru_tail; [exact L2 |]. apply wp_bind, wp_assert; [by rewrite bool_decide_false |].
  apply wp_bind, wp_assert; [done |].
  assert (Hclass : ITEM_clsid (set_refcount 0 h) = v_cls V x) by exact F8. rewrite Hclass.
  eapply wp_mono; [apply (slabs_free_spec x (set_refcount 0 h) _ (v_cls V x) s1 (v_q V)); try done; [apply O | apply O | | by simpl; rewrite lookup_insert_eq]|].
  { intros a y Hy. destruct (ok_in_q _ _ _ _ _ _ O Hy) as [hy Hhy]. destruct (ok_below _ _ _ _ O y hy Hhy) as [Hyb _].
    destruct (ok_links _ _ _ _ y O ltac:(by eexists)) as (? & ? & _). done. }
  intros _ s' (nx & pv & m & -> & S1 & M1 & D1 & D2 & C1 & B1 & P1).
  exists (View (v_map V) (relist (Free (v_cls V x)) (x :: v_q V (Free (v_cls V x))) (v_q V)) (v_cls V) (fun y => if decide (y = x) then 0 else v_held V y)).
  set (s' := set_mem _ _). assert (Hd : forall y, hdrs s' !! y = if decide (y = x) then Some (freed (set_refcount 0 h)) else hdrs s !! y).
  { intros y. simpl. case_decide as E; [subst; by rewrite lookup_insert_eq | by rewrite !lookup_insert_ne by done]. }
  split; [|split; [|split; [done | simpl; by rewrite decide_True]]].
  - destruct O as [O1 O2 O3 O4 O5 O6 O7 O8 O9 O10 O11]. constructor; try done.
    + simpl. rewrite D1, D2, !dom_insert_lookup_L by (rewrite ?lookup_insert_eq; by eexists). done.
    + intros y hy. rewrite Hd. simpl. rewrite B1. destruct C1 as (E1 & _). rewrite E1. intros Hy. case_decide; [subst y; by apply (O7 x h) | by apply (O7 y hy)].
    + intros y a. simpl. split.
      * intros Hy. unfold relist in Hy. case_decide as Ea.
        -- subst a. apply elem_of_cons in Hy as [->|Hy].
           ++ exists (freed (set_refcount 0 h)). rewrite Hd, decide_True by done. done.
           ++ pose proof Hy as Hy'. apply O8 in Hy as (hy & Hhy & Hpl). exists hy. rewrite Hd, decide_False by (intros ->; by apply (Hno (Free (v_cls V x)))). done.
        -- pose proof Hy as Hy'. apply O8 in Hy as (hy & Hhy & Hpl). exists hy. rewrite Hd, decide_False by (intros ->; by apply (Hno a)). done.
      * intros (hy & Hhy & Hpl). rewrite Hd in Hhy. case_decide as E.
        -- subst y. injection Hhy as <-. injection Hpl as <-. rewrite relist_eq. set_solver.
        -- assert (Hy : y ∈ v_q V a) by (apply O8; by exists hy). unfold relist. case_decide; [subst a; set_solver | done].
    + intros y hy Hhy. rewrite (same_chunk_of s s') by done. rewrite Hd in Hhy. simpl. case_decide as E.
      * subst y. injection Hhy as <-. unfold item_ok. change (slabbed (freed (set_refcount 0 h))) with true. change (linked (freed (set_refcount 0 h))) with false. simpl.
        repeat split; lia || done.
      * by apply O9.
    + intros y hy Hhy. rewrite Hd in Hhy. simpl. case_decide as E; [|by apply O10]. subst y. injection Hhy as <-. split; [done |].
      intros Hk'. apply (proj2 (O10 x h Hh)) in Hk'. congruence.
    + intros y Hy. rewrite Hd in Hy. simpl. case_decide; [done | by apply O11].
  - constructor; try done.
    + intros y Hy. rewrite Hd. by rewrite decide_False.
    + intros y Hy. simpl. by rewrite decide_False.
Qed.

(** Giving a reference back. *)
Lemma do_item_remove_spec s V x h :
  ok hash s V -> hdrs s !! x = Some h -> 0 < v_held V x ->
  wp (do_item_remove x) s (fun _ s' => exists V', ok hash s' V' /\ only x s V s' V' /\ v_map V' = v_map V /\ v_held V' x = v_held V x - 1 /\
    (linked h = true \/ 1 < v_held V x -> hdrs s' !! x = Some (with_ref h (-1)))).
Proof.
  intros O Hh Hheld. pose proof (held_not_slabbed _ _ _ _ _ O Hh Hheld) as Hs. destruct (ok_item _ _ _ _ O x h Hh) as (F1 & F2 & F3 & F4 & F5 & F6 & F7). rewrite Hs in F7. destruct F7 as [F7 F8].
  unfold do_item_remove. apply wp_bind. eapply wp_hdr_of; [exact Hh |].
  apply wp_bind, wp_assert; [change (has ITEM_SLABBED h) with (slabbed h); by rewrite Hs |].
  apply wp_bind, wp_assert; [by apply Z.ltb_lt |]. apply wp_bind. unfold refcount_decr. apply wp_bind. eapply wp_hdr_of; [exact Hh |].
  rewrite u16_small by lia. apply wp_bind. eapply wp_upd_hdr; [exact Hh |]. apply wp_ret. destruct (Z.eqb_spec (it_refcount h - 1) 0) as [E|E].
  - assert (Hl : linked h = false /\ v_held V x = 1) by (destruct (linked h); simpl in F4; split; lia || done). destruct Hl as [Hl H1].
    rewrite E. eapply wp_mono; [apply (item_free_spec s V x h); try done; lia |]. intros _ s' (V' & O' & On & Hm & H0). exists V'.
    split; [done |]. split; [done |]. split; [done |]. split; [lia |]. intros [?|?]; [congruence | lia].
  - apply wp_ret. exists (hold x (-1) V). replace (it_refcount h - 1) with (it_refcount h + -1) by lia. change (set_refcount (it_refcount h + -1) h) with (with_ref h (-1)). split; [|split; [apply only_hdr |]].
    + apply (ok_upd_hdr None s V x h); try done. unfold item_ok. change (slabbed (with_ref h (-1))) with (slabbed h). change (linked (with_ref h (-1))) with (linked h). rewrite Hs. simpl.
      repeat (split; [lia || done |]). done.
    + split; [done |]. split; [rewrite hold_eq; lia |]. intros _. simpl. apply lookup_insert_eq.
Qed.

Lemma ok_set_cnt raw s V c : ok_raw hash raw s V -> ok_raw hash raw (set_cnt c s) V.
Proof. intros [O1 O2 O3 O4 O5 O6 O7 O8 O9 O10 O11]. constructor; done. Qed.

(** * Moving an item into or out of the table and the lists *)

Lemma ok_move s V s' x h h' m' Q' n :
  ok hash s V -> hdrs s !! x = Some h -> hdrs s' = <[x := h']> (hdrs s) ->
  rep hash (tbl s') m' -> same_items (tbl s) (tbl s') -> shape (i_next s') (i_prev s') Q' -> lru_ok (lru s') Q' ->
  dom (i_next s') = dom (i_next s) -> dom (i_prev s') = dom (i_prev s) -> mem s' = mem s -> cfg s' = cfg s ->
  (forall c, Q' (Free c) = v_q V (Free c)) -> (forall y a, y <> x -> y ∈ Q' a <-> y ∈ v_q V a) ->
  (forall a, x ∈ Q' a <-> place_of (v_cls V x) h' = Some a) ->
  (forall y, y <> x -> (exists k, m' !! k = Some y) <-> (exists k, v_map V !! k = Some y)) ->
  (linked h' = true <-> exists k, m' !! k = Some x) ->
  item_ok h' (nkey_of s x) (v_held V x + n) (v_cls V x) (chunk_of s (v_cls V x)) false ->
  let V' := set_map m' (set_q Q' (hold x n V)) in ok hash s' V' /\ ((current_time (cnt s') = current_time (cnt s)) -> only x s V s' V').
Proof.
  intros O Hh Hhd Hrep [Hk Hd] Hsh Hlru D1 D2 Hmem Hcfg HFree HQ Hx Hmap Hlk Hi V'.
  assert (Hlook : forall y, hdrs s' !! y = if decide (y = x) then Some h' else hdrs s !! y).
  { intros y. rewrite Hhd. case_decide; [subst; apply lookup_insert_eq | by apply lookup_insert_ne]. }
  split.
  - destruct O as [O1 O2 O3 O4 O5 O6 O7 O8 O9 O10 O11]. constructor; try done.
    + rewrite Hmem, Hcfg. destruct O4 as [M1 M2 M3 M4 M5]. constructor; try done. intros c Hc. simpl. rewrite HFree. by apply M5.
    + by rewrite Hcfg.
    + rewrite Hk, Hd, Hhd, D1, D2, dom_insert_lookup_L by (by eexists). done.
    + intros y hy. rewrite Hlook, Hmem. simpl. intros Hy. case_decide; [subst; by apply (O7 x h) | by apply (O7 y hy)].
    + intros y a. simpl. destruct (decide (y = x)) as [->|Hne].
      * rewrite Hx. split; [intros Hp; exists h'; by rewrite Hlook, decide_True | intros (hy & Hhy & Hp); rewrite Hlook, decide_True in Hhy by done; by injection Hhy as <-].
      * rewrite HQ, O8 by done. rewrite Hlook, decide_False by done. done.
    + intros y hy. rewrite Hlook. unfold chunk_of, nkey_of in *. rewrite Hmem, Hk. simpl. intros Hy. case_decide; [subst; by injection Hy as <- | by apply O9].
    + intros y hy. rewrite Hlook. simpl. intros Hy. case_decide as E; [subst; by injection Hy as <- |]. rewrite Hmap by done. by apply O10.
    + intros y. rewrite Hlook. simpl. intros Hy. case_decide; [done | by apply O11].
  - intros Ht. constructor; try done.
    + intros y Hy. rewrite Hlook. by rewrite decide_False.
    + intros y Hy. simpl. by rewrite decide_False.
    + rewrite Hmem. apply same_chunks_refl.
Qed.

Lemma do_item_unlink_spec s V x h k :
  ok hash s V -> hdrs s !! x = Some h -> slabbed h = false -> item_key (tbl s) !! x = Some k ->
  wp (do_item_unlink x (hash k)) s (fun _ s' => exists V', ok hash s' V' /\ only x s V s' V' /\ v_held V' x = v_held V x /\
    v_map V' = (if linked h then delete k (v_map V) else v_map V) /\
    (0 < v_held V x -> exists h', hdrs s' !! x = Some h' /\ content h' = content h /\ linked h' = false /\ slabbed h' = false)).
Proof.
  intros O Hh Hs Hk. pose proof (ok_item _ _ _ _ O x h Hh) as Hi. destruct (Hi) as (F1 & F2 & F3 & F4 & F5 & F6 & F7). rewrite Hs in F7. destruct F7 as [F7 F8].
  rewrite bool_decide_false in F8 by done.
  unfold do_item_unlink. apply wp_bind. eapply wp_hdr_of; [exact Hh |]. change (has ITEM_LINKED h) with (linked h). destruct (linked h) eqn:Hl.
  2:{ apply wp_ret. exists V. split; [done |]. split; [apply only_refl |]. split; [done |]. split; [done |]. intros _. by exists h. }
  destruct (ok_link_of _ hash_range _ _ _ _ _ O Hh Hl) as (k' & Hk' & Hm & Hq). assert (k' = k) as -> by congruence.
  destruct (clear_linked h F1) as (G1 & G2 & G3 & G4). set (h1 := flag_clear_bit ITEM_LINKED h) in *.
  apply wp_bind. eapply wp_upd_hdr; [exact Hh |]. fold h1. set (s1 := set_hdrs _ s).
  apply wp_bind. eapply wp_ITEM_key; [exact Hk |]. apply wp_bind, wp_modify. set (s2 := set_cnt _ s1).
  apply wp_bind, wp_zoom. eapply wp_mono; [apply (assoc_delete_spec hash hash_range (tbl s2) (v_map V) k x); [apply O | done] |].
  intros _ t (Hrep & Hit & _ & _). set (s3 := set_tbl t s2).
  apply list_elem_of_split in Hq as (l1 & l2 & Hq). apply wp_bind.
  destruct (ok_listed _ _ _ _ O) as (L1 & L2 & L3).
  eapply wp_mono; [apply (unlink_q_spec x h1 s3 (v_q V) l1 l2); [by split | apply lookup_insert_eq | done | done] |].
  intros _ s4 (nx & pv & l & -> & S4 & R4 & D1 & D2). set (s4 := set_lru _ _). change (it_clsid h1) with (it_clsid h) in *.
  assert (Hnd : x ∉ l1 ++ l2).
  { pose proof (sh_nodup _ _ _ L1 (Lru (it_clsid h))) as Hnd. rewrite Hq in Hnd. apply NoDup_app in Hnd as (_ & Hd & [Hx _]%NoDup_cons).
    rewrite not_elem_of_app. split; [|done]. intros H. apply (Hd x H). set_solver. }
  assert (Hi1 : item_ok h1 (nkey_of s x) (v_held V x + 1) (v_cls V x) (chunk_of s (v_cls V x)) false).
  { unfold item_ok. rewrite G2, G3, Hs. simpl in *. repeat (split; [lia || done |]). done. }
  destruct (ok_move s V s4 x h h1 (delete k (v_map V)) (relist (Lru (it_clsid h)) (l1 ++ l2) (v_q V)) 1) as [O4 N4]; try done.
  { intros y a Hy. unfold relist. destruct (decide (a = Lru (it_clsid h))) as [->|]; [rewrite Hq; set_solver | done]. }
  { intros a. unfold place_of. rewrite G2, G3, Hs. split; [|done]. unfold relist. destruct (decide (a = Lru (it_clsid h))) as [->|Ea]; [done |]. intros Hx. destruct Ea.
    apply (sh_disjoint _ _ _ L1 a (Lru (it_clsid h)) x Hx). rewrite Hq. set_solver. }
  { intros y Hy. split; intros [k2 Hk2]; exists k2; [by apply lookup_delete_Some in Hk2 as [_ ?] |]. apply lookup_delete_Some. split; [|done]. intros <-. congruence. }
  { rewrite G2. split; [done |]. intros [k2 Hk2]. apply lookup_delete_Some in Hk2 as [Hne Hk2]. destruct (ok_mapped _ hash_range _ _ _ _ _ O Hk2) as [E _]. congruence. }
  set (V4 := set_map _ _) in *. assert (E4 : v_held V4 x = v_held V x + 1) by (simpl; by rewrite decide_True).
  eapply wp_mono; [apply (do_item_remove_spec s4 V4 x h1 O4); [simpl; apply lookup_insert_eq | lia] |].
  intros _ s5 (V5 & O5 & N5 & M5 & H5 & K5). exists V5. split; [done |]. split; [eapply only_trans; [by apply N4 | done] |]. split; [lia |]. split; [by rewrite M5 |].
  intros Hpos. exists (with_ref h1 (-1)). split; [apply K5; right; lia |]. split; [exact G4 |]. split; [exact G2 |]. rewrite <- Hs, <- G3. done.
Qed.

(** Linking, and what the item holds then: a new number when numbers are in use. *)
Definition stored_as (h h' : hdr) (now : Z) : Prop := payload h' = payload h /\ linked h' = true /\ slabbed h' = false /\ it_time h' = now.

Lemma do_item_link_spec s V x h k :
  ok hash s V -> hdrs s !! x = Some h -> slabbed h = false -> linked h = false -> item_key (tbl s) !! x = Some k -> v_map V !! k = None ->
  it_refcount h + 1 < 65536 ->
  wp (do_item_link x (hash k)) s (fun _ s' => exists V', ok hash s' V' /\ only x s V s' V' /\ v_held V' x = v_held V x /\ v_map V' = <[k := x]> (v_map V) /\
    exists h', hdrs s' !! x = Some h' /\ stored_as h h' (current_time (cnt s))).
Proof.
  intros O Hh Hs Hl Hk Hm Hr. destruct (ok_item _ _ _ _ O x h Hh) as (F1 & F2 & F3 & F4 & F5 & F6 & F7). rewrite Hs in F7. destruct F7 as [F7 F8].
  rewrite bool_decide_false in F8 by done. destruct (ok_links _ _ _ _ x O ltac:(by eexists)) as (Hn & Hp & Hhn & _).
  destruct (set_flag h ITEM_LINKED F1) as (G1 & G2 & G3 & G4); [set_solver |]. set (h1 := flag_set_bit ITEM_LINKED h) in *. cbn [Z.eqb Pos.eqb ITEM_LINKED orb] in G2.
  assert (Hno : forall a, x ∉ v_q V a).
  { intros a Ha. apply (ok_place _ _ _ _ O) in Ha as (h' & Hh' & Hpl). rewrite Hh in Hh'. injection Hh' as <-. unfold place_of in Hpl. by rewrite Hl, Hs in Hpl. }
  unfold do_item_link. apply wp_bind. eapply wp_hdr_of; [exact Hh |]. apply wp_bind. eapply wp_ITEM_key; [exact Hk |].
  apply wp_bind, wp_assert; [by apply flags_free |].
  apply wp_bind. eapply wp_upd_hdr; [exact Hh |]. apply wp_bind, wp_gets. apply wp_bind. eapply wp_upd_hdr; [simpl; apply lookup_insert_eq |].
  apply wp_bind, wp_modify. apply wp_bind, wp_gets. apply wp_bind. fold h1. set (now := current_time _). set (s1 := set_cnt _ _).
  assert (Hcas : wp (if use_cas (cfg s1) then get_cas_id else ret 0) s1 (fun _ s2 => exists c, s2 = set_cnt c s1 /\ current_time c = now)).
  { destruct (use_cas (cfg s1)); [|apply wp_ret; by exists (cnt s1)]. unfold get_cas_id. apply wp_bind, wp_gets, wp_bind, wp_modify, wp_ret. by eexists. }
  eapply wp_mono; [exact Hcas |]. intros v s2 (c & -> & Hct).
  apply wp_bind. eapply wp_upd_hdr; [simpl; apply lookup_insert_eq |]. set (h2 := ITEM_set_cas v _). set (s3 := set_hdrs _ _).
  assert (H2 : it_flags h2 = it_flags h1 /\ it_clsid h2 = it_clsid h /\ it_refcount h2 = it_refcount h /\ payload h2 = payload h /\ it_time h2 = now).
  { unfold h2, ITEM_set_cas. by destruct (has _ _). }
  destruct H2 as (I1 & I2 & I3 & I4 & I5).
  assert (Hl2 : linked h2 = true) by (unfold linked; by rewrite I1). assert (Hs2 : slabbed h2 = false) by (unfold slabbed; rewrite I1; by rewrite <- Hs, <- G3).
  assert (Hd3 : hdrs s3 = <[x := h2]> (hdrs s)) by (unfold s3; simpl; by rewrite !insert_insert_eq).
  apply wp_bind, wp_zoom. eapply wp_mono; [apply (assoc_insert_spec hash hash_range (tbl s3) (v_map V) k x); [apply O | done | done | done] |].
  intros _ t (_ & Hrep & Hit & _). set (s4 := set_tbl t s3).
  destruct (ok_listed _ _ _ _ O) as (L1 & L2 & L3). apply wp_bind.
  eapply wp_mono; [apply (link_q_spec x h2 s4 (v_q V)); [by split | change (hdrs s4) with (hdrs s3); rewrite Hd3; apply lookup_insert_eq | done | by rewrite I2 | done | done | done] |].
  intros _ s5 (nx & pv & l & -> & S5 & R5 & D1 & D2). set (s5 := set_lru _ _). rewrite I2 in *. set (i := it_clsid h) in *.
  assert (Hd5 : hdrs s5 !! x = Some h2) by (change (hdrs s5) with (hdrs s3); rewrite Hd3; apply lookup_insert_eq).
  apply wp_bind. unfold refcount_incr. apply wp_bind. eapply wp_hdr_of; [exact Hd5 |]. rewrite I3, u16_small by lia.
  apply wp_bind. eapply wp_upd_hdr; [exact Hd5 |]. apply wp_ret. apply wp_ret. set (h3 := set_refcount _ h2). set (s6 := set_hdrs _ s5).
  assert (Hi3 : item_ok h3 (nkey_of s x) (v_held V x + 0) (v_cls V x) (chunk_of s (v_cls V x)) false).
  { unfold item_ok. change (linked h3) with (linked h2). change (slabbed h3) with (slabbed h2). rewrite Hl2, Hs2. rewrite Hl in F4. unfold payload in I4. injection I4 as J1 J2 J3 J4.
    cbn [h3 it_flags it_clsid it_refcount set_refcount] in *. unfold item_used in *. cbn [h3 it_clsid it_nbytes it_data it_suffix set_refcount]. rewrite I1, I2, J1, J2, J3. simpl in *.
    repeat (split; [lia || done |]). done. }
  destruct (ok_move s V s6 x h h3 (<[k := x]> (v_map V)) (relist (Lru i) (x :: v_q V (Lru i)) (v_q V)) 0) as [O6 N6]; try done.
  { change (<[x := h3]> (hdrs s3) = <[x := h3]> (hdrs s)). by rewrite Hd3, insert_insert_eq. }
  { intros y a Hy. unfold relist. destruct (decide (a = Lru i)) as [->|]; [set_solver | done]. }
  { intros a. unfold place_of. change (linked h3) with (linked h2). rewrite Hl2. cbn [h3 it_clsid set_refcount]. rewrite I2. unfold relist. destruct (decide (a = Lru i)) as [->|Ea].
    - split; [done |]. intros _. set_solver.
    - split; [intros Ha; by destruct (Hno a) | congruence]. }
  { intros y Hy. split; intros [k2 Hk2]; [|exists k2; rewrite lookup_insert_ne; [done | congruence]].
    apply lookup_insert_Some in Hk2 as [[_ E]|[_ Hk2]]; [by destruct Hy | by exists k2]. }
  { change (linked h3) with (linked h2). rewrite Hl2. split; [|done]. intros _. exists k. apply lookup_insert_eq. }
  eexists. split; [exact O6 |]. split; [by apply N6 |]. split; [simpl; rewrite decide_True by done; lia |]. split; [done |].
  exists h3. split; [simpl; apply lookup_insert_eq |]. split; [exact I4 |]. done.
Qed.
End Ok.
