(* ===== verification/ItemsGet.v ===== *)
(** Look-up and update of items of the cache server, and eviction from the LRU
    lists, as the server runs without the maintainer thread. *)
From S2P Require Import Prelude CStr CDec Assoc AssocThm DList Store Slabs Items StoreInv LruThm SlabsThm ItemsThm.
Local Open Scope Z_scope.

(** The settings the start script leaves: no maintainer thread, no tail repair. *)
Definition plain (s : store) : Prop := lru_maintainer_thread (cfg s) = false /\ tail_repair_time (cfg s) = 0.
(** Room for [n] more references to every item. *)
Definition room (n : Z) (V : view) : Prop := forall x, v_held V x + n < 65535.
Lemma room_le n m V : m <= n -> room n V -> room m V.
Proof. intros H R x. specialize (R x). lia. Qed.

Section Ok.
Variable hash : list ascii -> Z.
Hypothesis hash_range : forall k, 0 <= hash k < 2 ^ 32.

Lemma ok_present s V x : ok hash s V -> 0 < v_held V x \/ (exists k, v_map V !! k = Some x) -> exists h, hdrs s !! x = Some h.
Proof.
  intros O [Hx|[k Hk]]; [by eapply held_hdr |]. destruct (ok_mapped _ hash_range _ _ _ _ _ O Hk) as (_ & h & Hh & _). by exists h.
Qed.
Lemma only_stays x s V s' V' :
  ok hash s V -> only x s V s' V' -> (forall k y, v_map V' !! k = Some y -> v_map V !! k = Some y) ->
  (0 < v_held V x -> 0 < v_held V' x) ->
  (0 < v_held V x \/ (exists k, v_map V' !! k = Some x) -> exists h h', hdrs s !! x = Some h /\ hdrs s' !! x = Some h' /\ content h' = content h) ->
  stays s V s' V'.
Proof.
  intros O [A1 A2 A3 A4 A5 A6 A7] Hm Hh Hx. constructor; try done.
  - intros y Hy. destruct (decide (y = x)) as [->|Hne]; [by apply Hh |]. by rewrite A3.
  - intros y Hy. split; [by rewrite A2 |]. destruct (decide (y = x)) as [->|Hne]; [by apply Hx |].
    destruct (ok_present s V y O) as [h Hh']; [destruct Hy as [Hy|[k Hk]]; [by left | right; exists k; by apply Hm] |].
    exists h, h. split; [done |]. split; [by rewrite A1 | done].
Qed.
Lemma stays_refl s V : ok hash s V -> stays s V s V.
Proof. intros O. constructor; try done. intros x Hx. split; [done |]. destruct (ok_present s V x O Hx) as [h Hh]. by exists h, h. Qed.
Lemma plain_stays s V s' V' : stays s V s' V' -> plain s -> plain s'.
Proof. intros [_ _ _ E _]. unfold plain. by rewrite E. Qed.

(** * Look-up *)

Definition dead (h : hdr) (s : store) : bool := item_is_flushed h s || expired h s.
(** What a look-up of [k] does: it finds a live item and takes a reference to it, or
    there is none, or only a dead one, which goes. *)
Definition got (s : store) (V : view) (k : list ascii) (r : option ptr) (s' : store) (V' : view) : Prop :=
  stays s V s' V' /\ same_chunks (mem s) (mem s') /\
  match r with
  | Some x => v_map V !! k = Some x /\ v_map V' = v_map V /\ v_held V' x = v_held V x + 1 /\ (forall y, y <> x -> v_held V' y = v_held V y) /\
      exists h h', hdrs s !! x = Some h /\ hdrs s' !! x = Some h' /\ content h' = content h /\ linked h' = true /\ dead h s = false
  | None => v_map V' = delete k (v_map V) /\ (forall y, v_held V' y = v_held V y) /\
      (v_map V !! k = None \/ exists x h, v_map V !! k = Some x /\ hdrs s !! x = Some h /\ dead h s = true)
  end.

(** With one more reference to [x], to be given back. *)
Definition taken (s : store) (V : view) (x : ptr) (s' : store) (V' : view) : Prop :=
  ok hash s' V' /\ stays s V s' V' /\ only x s V s' V' /\ v_held V' x = v_held V x + 1.
(** A state in which items may have been dropped, and nothing that is held. *)
Definition dropped (s : store) (V : view) (s' : store) (V' : view) : Prop :=
  ok hash s' V' /\ stays s V s' V' /\ same_chunks (mem s) (mem s') /\ (forall y, v_held V' y = v_held V y).

Lemma give_back s V x s1 V1 :
  ok hash s V -> taken s V x s1 V1 ->
  wp (do_item_remove x) s1 (fun _ s' => exists V', dropped s V s' V' /\ only x s V s' V' /\ v_map V' = v_map V1).
Proof.
  intros O (O1 & St & N & H). assert (H0 : 0 <= v_held V x).
  { destruct (hdrs s !! x) as [h|] eqn:E; [|rewrite (ok_unheld _ _ _ _ O x E); done]. by destruct (ok_item _ _ _ _ O x h E) as (_ & _ & ? & _). }
  destruct (held_hdr _ _ _ _ x O1) as [h1 Hh1]; [lia |].
  eapply wp_mono; [apply (do_item_remove_spec hash hash_range s1 V1 x h1 O1 Hh1); lia |].
  intros _ s' (V' & O' & N' & M & H' & K). exists V'. pose proof (only_trans _ _ _ _ _ _ _ N N') as N2. split; [|split; [done | done]].
  split; [done |]. split; [|split; [apply N2 | intros y; destruct (decide (y = x)) as [->|Hne]; [lia | by apply N2]]].
  apply (only_stays x); [done | done | intros k y; rewrite M; apply St | lia |].
  intros Hx. destruct (st_kept _ _ _ _ St x) as (_ & h & h1' & Hh & Hh1' & Hc).
  { destruct Hx as [Hx|[k Hk]]; [by left | right; exists k; by rewrite <- M]. }
  rewrite Hh1 in Hh1'. injection Hh1' as <-. exists h, (with_ref h1 (-1)). split; [done |]. split; [|exact Hc]. apply K.
  destruct Hx as [Hx|[k Hk]]; [right; lia | left]. rewrite M in Hk. destruct (ok_mapped _ hash_range _ _ _ _ _ O1 Hk) as (_ & h2 & Hh2 & Hl2). congruence.
Qed.

(** Taken out of the table, with a reference to it held. *)
Lemma evict s V k x h s1 :
  ok hash s V -> hdrs s !! x = Some h -> linked h = true -> item_key (tbl s) !! x = Some k ->
  ok hash s1 (hold x 1 V) -> only x s V s1 (hold x 1 V) -> hdrs s1 !! x = Some (with_ref h 1) ->
  wp (do_item_unlink x (hash k)) s1 (fun _ s' => exists V', taken s V x s' V' /\ v_map V' = delete k (v_map V)).
Proof.
  intros O Hh Hl Hik O1 N1 Hx1. pose proof (used_not_slabbed _ _ _ _ _ _ O Hh Hl) as Hs. destruct (ok_item _ _ _ _ O x h Hh) as (_ & _ & F3 & _).
  destruct (ok_link_of _ hash_range _ _ _ _ _ O Hh Hl) as (k' & Hk' & Hk & _). assert (k' = k) as -> by congruence.
  eapply wp_mono; [apply (do_item_unlink_spec hash hash_range s1 (hold x 1 V) x (with_ref h 1) k); [done | done | done | by rewrite (o_key _ _ _ _ _ N1)] |].
  intros _ s2 (V2 & O2 & N2 & H2 & M2 & K2). rewrite hold_eq in H2, K2. destruct K2 as (h2 & Hh2 & Hc2 & _); [lia |].
  change (linked (with_ref h 1)) with (linked h) in M2. rewrite Hl in M2. simpl in M2. exists V2. split; [|done].
  pose proof (only_trans _ _ _ _ _ _ _ N1 N2) as N. split; [done |]. split; [|split; [done | done]]. apply (only_stays x); [done | done | | lia |].
  - intros k' y Hy. rewrite M2 in Hy. by apply lookup_delete_Some in Hy as [_ ?].
  - intros _. exists h, h2. split; [done |]. split; [done | exact Hc2].
Qed.
Lemma drop_dead s V k x h :
  ok hash s V -> v_map V !! k = Some x -> hdrs s !! x = Some h -> linked h = true ->
  let s1 := set_hdrs (<[x := with_ref h 1]> (hdrs s)) s in ok hash s1 (hold x 1 V) ->
  wp (do_item_unlink x (hash k) ;;; do_item_remove x ;;; ret (@None ptr)) s1 (fun r s' => r = None /\ exists V',
    dropped s V s' V' /\ v_map V' = delete k (v_map V)).
Proof.
  intros O Hk Hh Hl s1 O1. destruct (ok_mapped _ hash_range _ _ _ _ _ O Hk) as (Hik & _).
  apply wp_bind. eapply wp_mono; [apply (evict s V k x h s1 O Hh Hl Hik O1); [apply only_hdr | apply lookup_insert_eq] |].
  intros _ s2 (V2 & T2 & M2). apply wp_bind. eapply wp_mono; [by apply (give_back s V x s2 V2) |].
  intros _ s3 (V3 & D3 & _ & M3). apply wp_ret. split; [done |]. exists V3. split; [done |]. by rewrite M3.
Qed.

Lemma do_item_get_spec s V k :
  ok hash s V -> room 1 V -> wp (do_item_get k (hash k)) s (fun r s' => exists V', ok hash s' V' /\ got s V k r s' V').
Proof.
  intros O Hr. unfold do_item_get. apply wp_bind, wp_zoom. eapply wp_mono; [apply (assoc_find_spec hash hash_range); apply O |].
  intros r t [-> ->]. replace (set_tbl (tbl s) s) with s by (by destruct s). destruct (v_map V !! k) as [x|] eqn:Hk.
  2:{ apply wp_ret. exists V. split; [done |]. split; [by apply stays_refl |]. split; [apply same_chunks_refl |].
      split; [symmetry; by apply delete_id |]. split; [done | by left]. }
  destruct (ok_mapped _ hash_range _ _ _ _ _ O Hk) as (Hik & h & Hh & Hl). pose proof (used_not_slabbed _ _ _ _ _ _ O Hh Hl) as Hs.
  destruct (ok_item _ _ _ _ O x h Hh) as (F1 & _ & _ & F4 & _ & _ & _). rewrite Hl in F4. specialize (Hr x). simpl in F4.
  apply wp_bind. eapply refcount_incr_spec; [exact O | exact Hh | done | lia |]. intros O1. set (h1 := with_ref h 1) in *. set (s1 := set_hdrs _ s) in *.
  assert (Hx1 : hdrs s1 !! x = Some h1) by apply lookup_insert_eq.
  apply wp_bind. eapply wp_hdr_of; [exact Hx1 |]. apply wp_bind, wp_gets.
  change (item_is_flushed h1 s1) with (item_is_flushed h s). change (expired h1 s1) with (expired h s).
  assert (Hdead : dead h s = true -> wp (do_item_unlink x (hash k) ;;; do_item_remove x ;;; ret (@None ptr)) s1 (fun r s' => exists V', ok hash s' V' /\ got s V k r s' V')).
  { intros Hd. eapply wp_mono; [by apply (drop_dead s V k x h O Hk Hh Hl) |]. intros r s' (-> & V' & (O' & St & Sc & H) & M).
    exists V'. split; [done |]. split; [done |]. split; [done |]. split; [done |]. split; [done |]. right. by exists x, h. }
  unfold dead in Hdead. destruct (item_is_flushed h s) eqn:E1; [by apply Hdead |]. destruct (expired h s) eqn:E2; [by apply Hdead |].
  apply wp_bind. eapply wp_upd_hdr; [exact Hx1 |]. apply wp_ret. set (h2 := set_flags _ h1).
  assert (Hf2 : linked h2 = true /\ slabbed h2 = slabbed h1 /\ content h2 = content h1 /\ 0 <= it_flags h2 < 256).
  { assert (E : h2 = flag_set_bit ITEM_ACTIVE (flag_set_bit ITEM_FETCHED h1)) by (unfold h2, flag_set_bit; simpl; by rewrite Z.lor_assoc).
    destruct (set_flag h1 ITEM_FETCHED F1) as (A1 & A2 & A3 & A4); [set_solver |].
    destruct (set_flag _ ITEM_ACTIVE A1) as (B1 & B2 & B3 & B4); [set_solver |]. rewrite E, B2, A2, B3, B4, A3, A4. change (linked h1) with (linked h). by rewrite Hl. }
  destruct Hf2 as (G2 & G3 & G4 & G1).
  assert (O2 : ok hash (set_hdrs (<[x := h2]> (hdrs s1)) s1) (hold x 0 (hold x 1 V))).
  { apply (ok_upd_hdr hash None s1 (hold x 1 V) x h1); try done; [by rewrite G2|].
    pose proof (ok_item _ _ _ _ O1 x h1 Hx1) as (I1 & I2 & I3 & I4 & I5 & I6 & I7). unfold item_ok. rewrite G2, G3. rewrite Z.add_0_r.
    change (linked h1) with (linked h) in *. rewrite Hl in *. repeat (split; [done |]). exact I7. }
  eexists. split; [exact O2 |].
  pose proof (only_trans _ _ _ _ _ _ _ (only_hdr x s V h1 1) (only_hdr x s1 (hold x 1 V) h2 0)) as N. fold s1 in N. set (s2 := set_hdrs _ s1) in *. set (V2 := hold x 0 _) in *.
  assert (HV2 : v_held V2 x = v_held V x + 1) by (unfold V2; rewrite !hold_eq; lia).
  assert (Hx2 : hdrs s2 !! x = Some h2) by apply lookup_insert_eq.
  split; [|split; [apply N | split; [done | split; [done | split; [done | split; [intros y Hy; by apply N |]]]]]].
  - apply (only_stays x); [done | done | done | rewrite HV2; lia |]. intros _. by exists h, h2.
  - exists h, h2. do 4 (split; [done |]). unfold dead. by rewrite E1, E2.
Qed.

(** * Update *)

(** To the front of its list. *)
Lemma relink_spec s V x h now :
  ok hash s V -> hdrs s !! x = Some h -> linked h = true ->
  let s1 := set_hdrs (<[x := set_time now h]> (hdrs s)) s in
  wp (item_unlink_q x ;;; item_link_q x) s1 (fun _ s' => exists V', ok hash s' V' /\ only x s V s' V' /\ v_map V' = v_map V /\ v_held V' x = v_held V x /\
    hdrs s' !! x = Some (set_time now h)).
Proof.
  intros O Hh Hl s1. pose proof (used_not_slabbed _ _ _ _ _ _ O Hh Hl) as Hs. pose proof (ok_item _ _ _ _ O x h Hh) as Hi. destruct (Hi) as (F1 & F2 & F3 & F4 & F5 & F6 & F7).
  destruct (ok_link_of _ hash_range _ _ _ _ _ O Hh Hl) as (k & Hk & Hm & Hq). destruct (ok_listed _ _ _ _ O) as (L1 & L2 & L3).
  set (i := it_clsid h) in *. set (h1 := set_time now h) in *. set (Q := v_q V) in *. apply list_elem_of_split in Hq as (l1 & l2 & Hq).
  assert (Hx1 : hdrs s1 !! x = Some h1) by apply lookup_insert_eq.
  apply wp_bind. eapply wp_mono; [apply (unlink_q_spec x h1 s1 Q l1 l2); [by split | done | done | done] |].
  change (it_clsid h1) with i. intros _ s2 (nx & pv & l & -> & S2 & R2 & D1 & D2). set (Q2 := relist (Lru i) (l1 ++ l2) Q) in *. set (s2 := set_lru _ _).
  assert (Hx12 : x ∉ l1 ++ l2).
  { pose proof (sh_nodup _ _ _ L1 (Lru i)) as Hnd. rewrite Hq in Hnd. apply NoDup_app in Hnd as (_ & Hd & [Hx _]%NoDup_cons).
    rewrite not_elem_of_app. split; [|done]. intros H. apply (Hd x H). set_solver. }
  assert (Hno : forall a, x ∉ Q2 a).
  { intros a. unfold Q2, relist. destruct (decide (a = Lru i)) as [->|Ea]; [done |]. intros Ha. apply Ea, (sh_disjoint _ _ _ L1 a (Lru i) x Ha). rewrite Hq. set_solver. }
  assert (Hin : forall a y, y ∈ Q2 a -> y ∈ Q a).
  { intros a y. unfold Q2, relist. destruct (decide (a = Lru i)) as [->|]; [|done]. rewrite Hq. set_solver. }
  assert (Hl2 : listed s2 Q2).
  { split; [done |]. split; [done |]. intros a y Hy. apply Hin in Hy. destruct (L3 a y Hy). simpl. rewrite <- !elem_of_dom, D1, D2, !elem_of_dom. done. }
  destruct (ok_links _ _ _ _ x O ltac:(by eexists)) as (Hn & Hp & _).
  eapply wp_mono; [apply (link_q_spec x h1 s2 Q2 Hl2 Hx1); try done; simpl; rewrite <- elem_of_dom, ?D1, ?D2, elem_of_dom; done |].
  change (it_clsid h1) with i. intros _ s3 (nx3 & pv3 & l3 & -> & S3 & R3 & E1 & E2). set (s3 := set_lru _ _).
  destruct (ok_move hash s V s3 x h h1 (v_map V) (relist (Lru i) (x :: Q2 (Lru i)) Q2) 0) as [O3 N3]; try done.
  - apply O.
  - etransitivity; [exact E1 | exact D1].
  - etransitivity; [exact E2 | exact D2].
  - intros y a Hy. destruct (decide (a = Lru i)) as [->|Ea].
    + rewrite relist_eq. unfold Q2. rewrite relist_eq. fold Q. rewrite Hq. set_solver.
    + rewrite relist_ne by done. unfold Q2. by rewrite relist_ne.
  - intros a. unfold place_of. change (linked h1) with (linked h). rewrite Hl. change (it_clsid h1) with i. unfold relist at 1. destruct (decide (a = Lru i)) as [->|Ea].
    + split; [done |]. intros _. set_solver.
    + split; [intros Ha; by destruct (Hno a) | congruence].
  - change (linked h1) with (linked h). by apply (ok_linked _ _ _ _ O).
  - rewrite Z.add_0_r. exact Hi.
  - eexists. split; [exact O3 |]. split; [by apply N3 |]. split; [done |]. split; [simpl; rewrite decide_True by done; lia | done].
Qed.

Lemma do_item_update_spec s V x h :
  ok hash s V -> plain s -> hdrs s !! x = Some h -> slabbed h = false ->
  wp (do_item_update x) s (fun _ s' => exists V', ok hash s' V' /\ only x s V s' V' /\ v_map V' = v_map V /\ v_held V' x = v_held V x /\
    exists h', hdrs s' !! x = Some h' /\ content h' = content (set_time (if stale h s && linked h then current_time (cnt s) else it_time h) h) /\ linked h' = linked h /\ it_refcount h' = it_refcount h).
Proof.
  intros O [Hp _] Hh Hs. unfold do_item_update. apply wp_bind. eapply wp_hdr_of; [exact Hh |]. apply wp_bind, wp_gets.
  assert (Hdone : stale h s && linked h = false -> wp (ret tt) s (fun _ s' => exists V', ok hash s' V' /\ only x s V s' V' /\ v_map V' = v_map V /\ v_held V' x = v_held V x /\
    exists h', hdrs s' !! x = Some h' /\ content h' = content (set_time (if stale h s && linked h then current_time (cnt s) else it_time h) h) /\ linked h' = linked h /\ it_refcount h' = it_refcount h)).
  { intros ->. apply wp_ret. exists V. split; [done |]. split; [apply only_refl |]. split; [done |]. split; [done |]. by exists h. }
  destruct (stale h s) eqn:Est; [|by apply Hdone]. apply wp_bind, wp_assert; [change (has ITEM_SLABBED h) with (slabbed h); by rewrite Hs |].
  change (has ITEM_LINKED h) with (linked h). destruct (linked h) eqn:Hl; [|by apply Hdone].
  apply wp_bind. eapply wp_upd_hdr; [exact Hh |]. rewrite Hp. cbn [negb].
  eapply wp_mono; [by apply (relink_spec s V x h) |]. intros _ s' (V' & O' & N & M & H & K). exists V'. do 4 (split; [done |]).
  exists (set_time (current_time (cnt s)) h). by split; [exact K |].
Qed.

(** * Taking memory from the tail of a list *)

Lemma do_item_unlink_nolock_eq x hv : do_item_unlink_nolock x hv = do_item_unlink x hv.
Proof. reflexivity. Qed.

Lemma dropped_refl s V : ok hash s V -> dropped s V s V.
Proof. intros O. split; [done |]. split; [by apply stays_refl |]. split; [apply same_chunks_refl | done]. Qed.
Lemma dropped_trans s1 V1 s2 V2 s3 V3 : dropped s1 V1 s2 V2 -> dropped s2 V2 s3 V3 -> dropped s1 V1 s3 V3.
Proof.
  intros (A1 & A2 & A3 & A4) (B1 & B2 & B3 & B4). split; [done |]. split; [by eapply stays_trans |]. split; [by eapply same_chunks_trans |].
  intros y. by rewrite B4.
Qed.
Lemma dropped_cnt s V c : ok hash s V -> current_time c = current_time (cnt s) -> dropped s V (set_cnt c s) V.
Proof.
  intros O Hc. split; [by apply ok_set_cnt |]. split; [|split; [apply same_chunks_refl | done]]. destruct (stays_refl s V O) as [A1 A2 A3 A4 A5]. constructor; done.
Qed.
Lemma room_dropped s V s' V' n : dropped s V s' V' -> room n V -> room n V'.
Proof. intros (_ & _ & _ & H) R x. rewrite H. apply R. Qed.

(** The item at the tail of a cold list: dropped, or chosen, with a reference. *)
Lemma pull_item_spec s V x h id total ev k :
  ok hash s V -> plain s -> room 1 V -> hdrs s !! x = Some h -> linked h = true -> item_key (tbl s) !! x = Some k ->
  wp (pull_item id COLD_LRU total ev x (hash k)) s (fun v s' => exists V',
    match v.1 with Next => dropped s V s' V' /\ only x s V s' V' | Chosen (Some y) m => y = x /\ m = 0 /\ taken s V x s' V' | Chosen None _ => False end).
Proof.
  intros O [Hp1 Hp2] Hr Hh Hl Hik. pose proof (used_not_slabbed _ _ _ _ _ _ O Hh Hl) as Hs. destruct (ok_item _ _ _ _ O x h Hh) as (F1 & _ & _ & F4 & _).
  rewrite Hl in F4. specialize (Hr x). simpl in F4. unfold pull_item.
  apply wp_bind. eapply (refcount_incr_spec hash None s V); [exact O | exact Hh | done | lia |]. intros O1. set (h1 := with_ref h 1) in *. set (s1 := set_hdrs _ s) in *.
  apply wp_bind. eapply wp_hdr_of; [apply lookup_insert_eq |]. apply wp_bind, wp_gets. change (tail_repair_time (cfg s1)) with (tail_repair_time (cfg s)). rewrite Hp2.
  rewrite andb_false_r. cbn [andb].
  (* the counters may change *)
  assert (Hs2 : forall c, current_time c = current_time (cnt s1) -> ok hash (set_cnt c s1) (hold x 1 V) /\ only x s V (set_cnt c s1) (hold x 1 V) /\ hdrs (set_cnt c s1) !! x = Some h1).
  { intros c Hc. split; [by apply ok_set_cnt |]. split; [|apply lookup_insert_eq]. eapply only_trans; [apply only_hdr |]. by apply only_cnt. }
  assert (Hevict : forall s2 (Q : unit -> store -> Prop), ok hash s2 (hold x 1 V) -> only x s V s2 (hold x 1 V) -> hdrs s2 !! x = Some h1 ->
    (forall s3 V3, taken s V x s3 V3 -> Q tt s3) -> wp (do_item_unlink_nolock x (hash k)) s2 Q).
  { intros s2 Q O2 N2 H2 HQ. rewrite do_item_unlink_nolock_eq. eapply wp_mono; [by apply (evict s V k x h s2) |]. intros [] s3 (V3 & T3 & _). by apply (HQ s3 V3). }
  assert (Hchoose : forall s2, ok hash s2 (hold x 1 V) -> only x s V s2 (hold x 1 V) -> hdrs s2 !! x = Some h1 -> taken s V x s2 (hold x 1 V)).
  { intros s2 O2 N2 H2. split; [done |]. split; [|split; [done | apply hold_eq]]. apply (only_stays x); [done | done | done | rewrite hold_eq; lia |]. intros _. by exists h, h1. }
  apply wp_bind. assert (Hb : forall (b : bool) st (Q : unit -> store -> Prop), (forall c, current_time c = current_time (cnt s1) -> Q tt (set_cnt c s1)) -> wp (if b then bump id st else ret tt) s1 Q).
  { intros b st Q HQ. destruct b; [apply wp_bump; intros; by apply HQ |]. apply wp_ret. replace s1 with (set_cnt (cnt s1) s1) by (by destruct s1). by apply HQ. }
  apply Hb. intros c2 Hc2. set (s2 := set_cnt c2 s1). clear Hb.
  assert (Hb2 : forall s3 (b : bool) st (Q : unit -> store -> Prop), current_time (cnt s3) = current_time (cnt s1) -> (exists c, s3 = set_cnt c s1) ->
     (forall c, current_time c = current_time (cnt s1) -> Q tt (set_cnt c s1)) -> wp (if b then ret tt else bump id st) s3 Q).
  { intros s3 b st Q Ht [c ->] HQ. destruct b; [apply wp_ret; by apply HQ |]. apply wp_bump. intros c' _ Hc'. apply HQ. by rewrite Hc'. }
  destruct (_ || item_is_flushed h1 s1).
  - apply wp_bind, wp_bump. intros c3 _ Hc3. apply wp_bind, Hb2; [etransitivity; [exact Hc3 | exact Hc2] | by exists c3 |]. intros c4 Hc4.
    destruct (Hs2 c4 Hc4) as (O4 & N4 & H4). apply wp_bind, Hevict; [done | done | done |]. intros s5 V5 T5.
    apply wp_bind. eapply wp_mono; [by apply (give_back s V x s5 V5) |]. intros _ s6 (V6 & D6 & N6 & _). apply wp_ret. exists V6. done.
  - cbn [COLD_LRU HOT_LRU WARM_LRU Z.eqb Pos.eqb orb]. unfold pull_cold. apply wp_bind, wp_gets. change (cfg s2) with (cfg s). rewrite Hp1, andb_false_r.
    assert (Hc : forall c, current_time c = current_time (cnt s1) -> exists V', match Chosen (Some x) 0 with Next => dropped s V (set_cnt c s1) V' /\ only x s V (set_cnt c s1) V'
      | Chosen (Some y) m => y = x /\ m = 0 /\ taken s V x (set_cnt c s1) V' | Chosen None _ => False end).
    { intros c Hc. destruct (Hs2 c Hc) as (Oc & Nc & Hcc). exists (hold x 1 V). split; [done |]. split; [done |]. by apply Hchoose. }
    destruct ev; [|apply wp_ret; by apply Hc]. destruct (negb (evict_to_free (cfg s))); [apply wp_ret; by apply Hc |].
    apply wp_bind, wp_bump. intros c3 _ Hc3. apply wp_bind, wp_put_stat. intros c4 _ Hc4.
    apply wp_bind, Hb2; [etransitivity; [exact Hc4 |]; etransitivity; [exact Hc3 | exact Hc2] | by exists c4 |]. intros c5 Hc5. apply wp_bind, Hb2; [done | by exists c5 |]. intros c6 Hc6.
    destruct (Hs2 c6 Hc6) as (O6 & N6 & H6). apply wp_bind, Hevict; [done | done | done |]. intros s7 V7 T7. apply wp_ret. exists V7. done.
Qed.
End Ok.
