(* ===== verification/PullThm.v ===== *)
(** Taking memory from the tail of an LRU list, and allocation, as the server runs
    without the maintainer thread: both keep the invariant of the store, and what
    is held. *)
From S2P Require Import Prelude CStr CDec Assoc AssocThm DList Store Slabs Items StoreInv LruThm SlabsThm ItemsThm ItemsGet.
Local Open Scope Z_scope.

Section Ok.
Variable hash : list ascii -> Z.
Hypothesis hash_range : forall k, 0 <= hash k < 2 ^ 32.
Variable lockable : Z -> bool.

(** The item before one on a list is another item of the list. *)
Lemma ok_before s V a x : ok hash s V -> x ∈ v_q V a -> exists p, i_prev s !! x = Some p /\ forall y, p = Some y -> y ∈ v_q V a /\ y <> x.
Proof.
  intros O Hx. pose proof (ok_shape _ _ _ _ O) as S. apply list_elem_of_split in Hx as (l1 & l2 & Hq).
  destruct (shape_links _ _ _ a l1 x l2 S Hq) as [_ Hp]. eexists. split; [exact Hp |]. intros y Hy%last_in. split; [rewrite Hq; set_solver |].
  intros ->. pose proof (sh_nodup _ _ _ S a) as Hnd. rewrite Hq in Hnd. apply NoDup_app in Hnd as (_ & Hd & _). apply (Hd x Hy). set_solver.
Qed.
(** Items on an LRU list are linked. *)
Lemma ok_on_lru s V i x : ok hash s V -> x ∈ v_q V (Lru i) -> exists h k, hdrs s !! x = Some h /\ linked h = true /\ it_clsid h = i /\ item_key (tbl s) !! x = Some k /\ 2 <= it_nbytes h.
Proof.
  intros O Hx. apply (ok_place _ _ _ _ O) in Hx as (h & Hh & Hp). unfold place_of in Hp. destruct (linked h) eqn:Hl; [|by destruct (slabbed h)]. injection Hp as Hi.
  destruct (ok_link_of _ hash_range _ _ _ _ _ O Hh Hl) as (k & Hk & _). exists h, k. do 4 (split; [done |]).
  destruct (ok_item _ _ _ _ O x h Hh) as (_ & _ & _ & _ & _ & H6 & H7). rewrite (H6 Hl) in H7. destruct H7 as (_ & _ & H7 & _). apply H7.
Qed.

(** * The search *)

Definition found (s : store) (V : view) (v : verdict) (s' : store) : Prop :=
  match v with
  | Chosen (Some y) m => m = 0 /\ exists s1 V1 V', dropped hash s V s1 V1 /\ taken hash s1 V1 y s' V'
  | Chosen None _ => exists V', dropped hash s V s' V'
  | Next => False
  end.
Lemma found_trans s V s1 V1 v s' : dropped hash s V s1 V1 -> found s1 V1 v s' -> found s V v s'.
Proof.
  intros D. destruct v as [|[y|] m]; [done | |].
  - intros (Hm & s2 & V2 & V' & D2 & T). split; [done |]. exists s2, V2, V'. split; [by eapply dropped_trans | done].
  - intros [V' D']. exists V'. by eapply dropped_trans.
Qed.
(** What the search goes on with: nothing, or an item of the table. *)
Definition next_item (s : store) (search : option ptr) : Prop := forall x, search = Some x -> exists h, hdrs s !! x = Some h /\ linked h = true.

Lemma pull_loop_spec id total ev cur_hv : forall fuel tries search removed s V,
  tries <= Z.of_nat fuel -> ok hash s V -> plain s -> room 1 V -> next_item s search ->
  wp (pull_loop hash lockable fuel id COLD_LRU total ev cur_hv tries search removed) s (fun v s' => found s V v.1 s').
Proof.
  induction fuel as [|fuel IH]; intros tries search removed s V Hf O Hp Hr Hs; cbn [pull_loop].
  - destruct search; [rewrite (proj2 (Z.leb_le _ _)) by lia |]; apply wp_ret; exists V; by apply dropped_refl.
  - destruct search as [x|]; [|apply wp_ret; exists V; by apply dropped_refl]. destruct (Z.leb_spec tries 0); [apply wp_ret; exists V; by apply dropped_refl |].
    destruct (Hs x eq_refl) as (h & Hh & Hl). destruct (ok_link_of _ hash_range _ _ _ _ _ O Hh Hl) as (k & Hk & _ & Hq).
    destruct (ok_before s V _ x O Hq) as (p & Hpv & Hpn).
    apply wp_bind. eapply wp_get_prev; [exact Hpv |]. apply wp_bind. eapply wp_hdr_of; [exact Hh |]. apply wp_bind. eapply wp_ITEM_key; [exact Hk |].
    destruct (ok_on_lru s V _ x O Hq) as (h' & k' & Hh' & _ & _ & _ & Hb). rewrite Hh in Hh'. injection Hh' as <-.
    rewrite (proj2 (Z.eqb_neq _ _)) by lia. cbn [andb].
    assert (Hn : next_item s p). { intros y Hy. destruct (Hpn y Hy) as [Hy1 _]. destruct (ok_on_lru s V _ y O Hy1) as (hy & ky & Hhy & Hly & _). by exists hy. }
    destruct (_ || _); [apply IH; try done; lia |].
    apply wp_bind. eapply wp_mono; [by apply (pull_item_spec hash hash_range s V x h id total ev k) |].
    intros [[|[y|] m] n] s1 (V1 & H1); simpl in H1; [| |done].
    + destruct H1 as [D1 N1]. eapply wp_mono; [apply (IH (tries - 1) p (removed + n) s1 V1); [lia | apply D1 | | by eapply room_dropped | ] |].
      * eapply plain_stays; [apply D1 | done].
      * intros y Hy. destruct (Hn y Hy) as (hy & Hhy & Hly). exists hy. split; [|done]. rewrite (o_hdrs _ _ _ _ _ N1); [done |]. by apply Hpn.
      * intros v s2. by apply found_trans.
    + destruct H1 as (-> & -> & T). apply wp_ret. split; [done |]. exists s, V, V1. split; [by apply dropped_refl | done].
Qed.

Lemma lru_pull_tail_spec s V id total ev cur_hv :
  ok hash s V -> plain s -> room 1 V -> 0 <= id < 64 ->
  wp (lru_pull_tail hash lockable id COLD_LRU total ev cur_hv) s (fun _ s' => exists V', dropped hash s V s' V').
Proof.
  intros O Hp Hr Hid. unfold lru_pull_tail. destruct (Z.eqb_spec id 0) as [_|_]; [apply wp_ret; exists V; by apply dropped_refl |].
  destruct (lru_id id COLD_LRU Hid) as [Hi _]; [unfold lru_bits; set_solver |].
  destruct (ok_lru _ _ _ _ O _ Hi) as (_ & L2 & _). apply wp_bind. eapply wp_lru_tail; [exact L2 |]. apply wp_bind, wp_gets. apply wp_bind.
  eapply wp_mono; [apply (pull_loop_spec (Z.lor id COLD_LRU) total ev cur_hv _ 5 (last (v_q V (Lru (Z.lor id COLD_LRU)))) 0 s V); try done; [lia |] |].
  { intros x Hx%last_in. destruct (ok_on_lru s V _ x O Hx) as (hy & ky & Hhy & Hly & _). by exists hy. }
  intros [[|[y|] m] n] s1 F; simpl in F; [done | |by apply wp_ret].
  destruct F as (-> & s2 & V2 & V' & D & T). apply wp_bind, wp_ret.
  apply wp_bind. eapply wp_mono; [apply (give_back hash hash_range s2 V2 y s1 V'); [apply D | done] |].
  intros _ s3 (V3 & D3 & _). apply wp_ret. exists V3. by eapply dropped_trans.
Qed.
End Ok.
