(* ===== verification/AllocThm.v ===== *)
(** Allocation of items: the memory comes from the class of the size, items at the
    tail of the list of the class give way for it, and the new item is nowhere but
    in the hands of the caller. *)
From S2P Require Import Prelude CStr CDec Assoc AssocThm DList Store Slabs Items StoreInv LruThm SlabsThm ItemsThm ItemsGet PullThm.
Local Open Scope Z_scope.

(** * Sizes *)

Lemma dec_go_length fuel n acc : (length (dec_go fuel n acc) <= fuel + length acc)%nat.
Proof.
  revert n acc. induction fuel as [|fuel IH]; intros n acc; [done |]. cbn [dec_go]. destruct (n <? 10); [simpl; lia |].
  etransitivity; [apply IH |]. simpl. lia.
Qed.
Lemma show_int_length n : (length (show_int n) <= 11)%nat.
Proof.
  unfold show_int, dec. destruct (n <? 0); cbn [length]; [pose proof (dec_go_length 10 (- n) []) | pose proof (dec_go_length 10 n [])]; simpl in *; lia.
Qed.
(** The buffer of 40 characters is enough. *)
Lemma item_suffix_length flags nbytes : Z.of_nat (length (item_suffix flags nbytes)) <= 26.
Proof.
  unfold item_suffix. rewrite !length_app. cbn [length]. pose proof (show_int_length flags). pose proof (show_int_length (nbytes - 2)). lia.
Qed.
Lemma item_total_eq nkey flags nbytes s : 0 <= nkey <= 250 -> 2 <= nbytes < 2 ^ 31 ->
  item_total nkey flags nbytes s = (item_suffix flags nbytes,
    sizeof_item + nkey + 1 + Z.of_nat (length (item_suffix flags nbytes)) + nbytes + (if use_cas (cfg s) then 8 else 0)).
Proof.
  intros Hk Hn. change (2 ^ 31) with 2147483648 in Hn. pose proof (item_suffix_length flags nbytes) as Hl. unfold item_total, item_make_header. cbv zeta. rewrite Z.mod_small by lia. unfold sizeof_item in *.
  set (n := Z.of_nat _) in *. rewrite (u64_small (48 + _ + _ + _)) by lia. destruct (use_cas (cfg s)); [rewrite u64_small by lia |]; f_equal; lia.
Qed.

(** * A new item *)

(** [x] is new, with one reference, the caller's; the rest of the store [stays]. *)
Record fresh (s : store) (V : view) (x : ptr) (key suffix : list ascii) (exptime nbytes : Z) (s' : store) (V' : view) : Prop := {
  f_stays : stays s V s' V';
  f_chunks : same_chunks (mem s) (mem s');
  f_before : v_held V x = 0;
  f_held : v_held V' x = 1;
  f_others y : y <> x -> v_held V' y = v_held V y;
  f_key : item_key (tbl s') !! x = Some key;
  f_hdr : exists h, hdrs s' !! x = Some h /\ linked h = false /\ slabbed h = false /\ it_refcount h = 1 /\
    it_suffix h = suffix /\ it_exptime h = exptime /\ it_nbytes h = nbytes /\ has ITEM_CAS h = use_cas (cfg s')
}.

Section Ok.
Variable hash : list ascii -> Z.
Hypothesis hash_range : forall k, 0 <= hash k < 2 ^ 32.
Variable lockable : Z -> bool.
Variable junk : Z -> list ascii.
Hypothesis junk_length : forall n, 0 <= n -> Z.of_nat (length (junk n)) = n.

(** The header written into a chunk that has just been taken. *)
Lemma ok_write s V x key h h' :
  ok_raw hash (Some x) s V -> hdrs s !! x = Some h -> slabbed h = false -> linked h = false -> slabbed h' = false -> linked h' = false ->
  item_ok h' (Z.of_nat (length key)) (v_held V x) (v_cls V x) (chunk_of s (v_cls V x)) false ->
  let t := tbl s in
  let s' := set_hdrs (<[x := h']> (hdrs s)) (set_tbl (MkAssoc (<[x := key]> (item_key t)) (<[x := None]> (h_next t)) (hashpower t) (primary_hashtable t)
    (old_hashtable t) (hash_items t) (expanding t) (started_expanding t) (expand_bucket t)) (set_i_prev (<[x := None]> (i_prev s)) (set_i_next (<[x := None]> (i_next s)) s))) in
  ok hash s' V.
Proof.
  intros O Hh Hs Hl Hs' Hl' Hi t s'.
  assert (Hno : forall a, x ∉ v_q V a).
  { intros a Ha. apply (ok_place _ _ _ _ O) in Ha as (h2 & Hh2 & Hp). rewrite Hh in Hh2. injection Hh2 as <-. unfold place_of in Hp. by rewrite Hl, Hs in Hp. }
  assert (Hnm : forall k, v_map V !! k <> Some x).
  { intros k Hk. assert (linked h = true) by (apply (ok_linked _ _ _ _ O x h Hh); by exists k). congruence. }
  destruct (ok_links _ _ _ _ x O ltac:(by eexists)) as (Hn & Hp & Hhn & Hk).
  destruct O as [O1 O2 O3 O4 O5 O6 O7 O8 O9 O10 O11]. constructor; try done.
  - apply rep_frame; [done |]. intros k y Hy. rewrite !lookup_insert_ne; [done | |]; intros ->; by apply (Hnm k).
  - by apply shape_other.
  - simpl. rewrite !dom_insert_lookup_L by (done || by eexists). done.
  - intros y hy. simpl. intros [[<- <-]|[Hne Hy]]%lookup_insert_Some; [by apply (O7 x h) | by apply (O7 y hy)].
  - intros y a. simpl. rewrite O8. split; intros (hy & Hy & Hpl); destruct (decide (y = x)) as [->|Hne].
    + rewrite Hh in Hy. injection Hy as <-. unfold place_of in Hpl. by rewrite Hl, Hs in Hpl.
    + exists hy. by rewrite lookup_insert_ne.
    + rewrite lookup_insert_eq in Hy. injection Hy as <-. unfold place_of in Hpl. by rewrite Hl', Hs' in Hpl.
    + rewrite lookup_insert_ne in Hy by done. by exists hy.
  - intros y hy. simpl. unfold nkey_of. simpl. intros [[<- <-]|[Hne Hy]]%lookup_insert_Some; [by rewrite lookup_insert_eq |].
    rewrite lookup_insert_ne by done. specialize (O9 y hy Hy). rewrite bool_decide_false in O9 by congruence. exact O9.
  - intros y hy. simpl. intros [[<- <-]|[Hne Hy]]%lookup_insert_Some; [|by apply O10]. rewrite Hl'. split; [done |]. intros [k Hk2]. by destruct (Hnm k).
  - intros y. simpl. intros [Hy Hne]%lookup_insert_None. by apply O11.
Qed.

Lemma write_item_spec s0 V0 s V x c key suffix exptime nbytes chunk :
  stays s0 V0 s V -> given hash s V x c -> v_held V0 x = 0 -> plain s -> chunk = chunk_of s c -> 1 <= c < 64 ->
  Z.of_nat (length key) <= 250 -> Z.of_nat (length suffix) <= 26 -> 2 <= nbytes ->
  sizeof_item + Z.of_nat (length key) + 1 + Z.of_nat (length suffix) + nbytes + (if use_cas (cfg s) then 8 else 0) <= chunk ->
  same_chunks (mem s0) (mem s) -> (forall y, y <> x -> v_held V y = v_held V0 y) ->
  wp (write_item junk x key suffix exptime nbytes c chunk) s (fun _ s' => ok hash s' V /\ fresh s0 V0 x key suffix exptime nbytes s' V).
Proof.
  intros St (O & Hc & Hheld & h & Hh & Hs & Hci) H0 [Hp _] -> Hcr Hk Hsu Hnb Hroom Sc Hoth.
  destruct (ok_item _ _ _ _ O x h Hh) as (F1 & F2 & F3 & F4 & F5 & F6 & F7). rewrite Hs, bool_decide_true in F7 by done. destruct F7 as (_ & Hl & _).
  destruct (ok_links _ _ _ _ x O ltac:(by eexists)) as (Hn & Hpv & Hhn & _). unfold sizeof_item in *.
  unfold write_item. apply wp_bind. eapply wp_hdr_of; [exact Hh |]. apply wp_bind, wp_assert; [lia |].
  apply wp_bind, wp_set_next; [done |]. apply wp_bind, wp_set_prev; [done |]. apply wp_bind, wp_zoom, wp_put_next; [done |].
  apply wp_bind, wp_gets. change (cfg (set_tbl _ _)) with (cfg s). rewrite Hp.
  destruct (_ || _) eqn:E. { exfalso. apply orb_prop in E as [E|E]; unfold sizeof_item in E; destruct (use_cas (cfg s)); lia. } clear E.
  set (room := _ - _ : Z). apply wp_bind, wp_modify. eapply wp_upd_hdr; [exact Hh |]. set (h' := MkHdr _ _ _ _ _ _ _ _ _).
  destruct (lru_id c COLD_LRU) as [Hi1 Hi2]; [lia | unfold lru_bits; set_solver |].
  assert (Hfl : 0 <= it_flags h' < 256 /\ linked h' = false /\ slabbed h' = false) by (unfold linked, slabbed; cbn [h' it_flags]; by destruct (use_cas (cfg s))).
  destruct Hfl as (G1 & G2 & G3). assert (Hroom2 : nbytes <= room) by (unfold room, sizeof_item in *; destruct (use_cas (cfg s)); lia).
  split.
  - refine (ok_write s V x key h h' O Hh Hs Hl G3 G2 _). unfold item_ok. rewrite G2, G3, Hc. unfold item_used. cbn [h' it_clsid it_refcount it_nbytes it_data it_suffix].
    rewrite Hl in F4. simpl in F4. rewrite Z.mod_small by lia. rewrite junk_length by lia. simpl.
    repeat (split; [lia || done |]). destruct (use_cas (cfg s)); lia.
  - constructor; try done; [|simpl; by rewrite lookup_insert_eq | exists h'; split; [simpl; apply lookup_insert_eq |]].
    + destruct St as [A1 A2 A3 A4 A5]. constructor; try done. intros y Hy.
      assert (Hne : y <> x). { intros ->. destruct Hy as [Hy|[k Hy]]; [lia |]. assert (linked h = true) by (apply (ok_linked _ _ _ _ O x h Hh); by exists k). congruence. }
      destruct (A3 y Hy) as (B1 & h1 & h2 & B2 & B3 & B4). split; [simpl; by rewrite lookup_insert_ne |]. exists h1, h2. simpl. by rewrite lookup_insert_ne.
    + cbn [h' it_refcount]. rewrite Hl in F4. simpl in F4. split; [done |]. split; [done |]. split; [lia |]. do 3 (split; [done |]). unfold has. cbn [h' it_flags cfg set_hdrs set_tbl set_i_prev set_i_next]. by destruct (use_cas (cfg s)).
Qed.

(** * The rounds *)

Lemma alloc_rounds_spec ntotal c cur_hv : forall n i s V,
  ok hash s V -> plain s -> room 1 V -> 1 <= c <= power_largest (mem s) ->
  wp (alloc_rounds hash lockable n i ntotal c cur_hv) s (fun r s' => exists V', gives hash s V r.1 c s' V').
Proof.
  induction n as [|n IH]; intros i s V O Hp Hr Hc; cbn [alloc_rounds].
  - apply wp_ret. exists V. split; [by eapply stays_refl |]. split; [apply same_chunks_refl |]. done.
  - pose proof (m_largest _ _ _ (ok_mem _ _ _ _ O)) as Hm. destruct Hp as [Hp1 Hp2]. apply wp_bind, wp_gets. rewrite Hp1. cbn [negb].
    apply wp_bind, wp_bind. eapply wp_mono; [apply (lru_pull_tail_spec hash hash_range lockable s V c 0 false cur_hv); try done; lia |].
    intros _ s1 (V1 & O1 & St1 & Sc1 & H1). apply wp_ret. apply wp_bind.
    assert (Hc1 : 1 <= c <= power_largest (mem s1)) by (by rewrite (proj1 Sc1)).
    eapply wp_mono; [by apply (slabs_alloc_spec hash hash_range s1 V1 c ntotal O1 Hc1) |]. intros [it total] s2 ([t Ht] & V2 & St2 & Sc2 & G). simpl in Ht, G. subst total.
    assert (St : stays s V s2 V2) by (by eapply stays_trans). assert (Sc : same_chunks (mem s) (mem s2)) by (by eapply same_chunks_trans).
    apply wp_bind. eapply wp_get_or_undef; [done |]. apply wp_bind.
    assert (Htot : wp (if expirezero_does_not_evict (cfg s) then k <- noexp_lru_size c ;; ret (u32 (t - k)) else ret t) s2 (fun _ s' => s' = s2)).
    { destruct (expirezero_does_not_evict (cfg s)); [|by apply wp_ret]. assert (L : lru_ok (lru s2) (v_q V2)) by (destruct it; eapply ok_lru, G).
      assert (Hl : CLEAR_LRU c = c) by (pose proof (by_enum (fun f => (64 <=? f) || (CLEAR_LRU f =? f)) ltac:(vm_compute; reflexivity) c ltac:(lia)) as H; simpl in H; lia).
      destruct (lru_id c NOEXP_LRU) as [Hi _]; [lia | unfold lru_bits; set_solver |]. destruct (L _ Hi) as (_ & _ & L3).
      apply wp_bind. unfold noexp_lru_size. rewrite Hl. eapply wp_get_or_undef; [exact L3 |]. by apply wp_ret. }
    eapply wp_mono; [exact Htot |]. intros tot s' ->. destruct it as [x|].
    + apply wp_ret. exists V2. destruct G as (G & Hx & Hy). split; [done |]. split; [done |]. split; [done |]. rewrite <- H1. split; [done |]. intros y Hne. rewrite <- H1. by apply Hy.
    + destruct G as [O2 H2]. apply wp_bind, wp_bind.
      assert (P2 : plain s2) by (by eapply plain_stays). assert (R2 : room 1 V2) by (intros y; rewrite H2, H1; apply Hr).
      eapply wp_mono; [apply (lru_pull_tail_spec hash hash_range lockable s2 V2 c 0 true cur_hv); try done; lia |].
      intros _ s3 (V3 & D3). pose proof D3 as (O3 & St3 & Sc3 & H3). apply wp_ret.
      assert (St' : stays s V s3 V3) by (by eapply stays_trans). assert (Sc' : same_chunks (mem s) (mem s3)) by (by eapply same_chunks_trans).
      eapply wp_mono; [apply IH; [done | by eapply plain_stays | by eapply room_dropped | by rewrite (proj1 Sc')] |].
      intros r s4 (V4 & St4 & Sc4 & G4). exists V4. split; [by eapply stays_trans |]. split; [by eapply same_chunks_trans |].
      assert (HH : forall y, v_held V3 y = v_held V y) by (intros y; by rewrite H3, H2, H1).
      destruct r.1; [destruct G4 as (G4 & Hx & Hy); split; [done |]; split; [by rewrite <- HH |]; intros y Hne; by rewrite <- HH, Hy |].
      destruct G4 as [O4 H4]. split; [done |]. intros y. by rewrite H4.
Qed.

(** * Allocation *)

(** No memory, or a new item. *)
Definition allocated (s : store) (V : view) (r : option ptr) (key : list ascii) (flags exptime nbytes : Z) (s' : store) (V' : view) : Prop :=
  match r with
  | None => dropped hash s V s' V'
  | Some x => ok hash s' V' /\ fresh s V x key (item_suffix flags nbytes) exptime nbytes s' V'
  end.

Lemma gives_cnt s V r c s' V' f : current_time (f (cnt s')) = current_time (cnt s') -> gives hash s V r c s' V' -> gives hash s V r c (set_cnt (f (cnt s')) s') V'.
Proof.
  intros Hf (St & Sc & G). split; [destruct St as [A1 A2 A3 A4 A5]; constructor; try done; simpl; by rewrite Hf |]. split; [done |]. destruct r as [x|].
  - destruct G as ((O & G) & Hx). split; [split; [by apply ok_set_cnt | done] | done].
  - destruct G as [O G]. split; [by apply ok_set_cnt | done].
Qed.

Lemma do_item_alloc_spec s V key flags exptime nbytes cur_hv :
  ok hash s V -> plain s -> room 1 V -> Z.of_nat (length key) <= 250 -> 2 <= nbytes < 2 ^ 31 ->
  wp (do_item_alloc hash lockable junk key flags exptime nbytes cur_hv) s (fun r s' => exists V', allocated s V r key flags exptime nbytes s' V').
Proof.
  intros O Hp Hr Hk Hn. change (2 ^ 31) with 2147483648 in Hn. unfold do_item_alloc. apply wp_bind, wp_gets. rewrite item_total_eq by lia.
  set (suffix := item_suffix flags nbytes). set (ntotal := _ + _ + _ + _ + _ + _). pose proof (item_suffix_length flags nbytes) as Hsu. fold suffix in Hsu.
  assert (Hpos : 0 < ntotal) by (unfold ntotal, sizeof_item; destruct (use_cas (cfg s)); lia).
  apply wp_bind. eapply wp_mono; [by apply (slabs_clsid_spec hash None ntotal s V) |]. intros c s0 (-> & Hc & Hfit & _). pose proof (m_largest _ _ _ (ok_mem _ _ _ _ O)) as Hm.
  destruct (Z.eqb_spec c 0) as [_|Hc0]; [apply wp_ret; exists V; by apply dropped_refl |]. destruct (Hfit Hc0) as [Hfit' _].
  apply wp_bind. eapply wp_mono; [apply (alloc_rounds_spec ntotal c cur_hv 5 0 s V); try done; lia |]. intros [it i] s1 (V1 & G). simpl in G.
  apply wp_bind. assert (Hcnt : wp (if 0 <? i then d <- gets (fun s => itemstats (cnt s) c direct_reclaims) ;; put_stat c direct_reclaims (u64 (d + i)) else ret tt) s1
    (fun _ s' => gives hash s V it c s' V1)).
  { destruct (0 <? i); [|by apply wp_ret]. apply wp_bind, wp_gets, wp_modify. by apply (gives_cnt s V it c s1 V1 (fun n => set_itemstats _ n)). }
  eapply wp_mono; [exact Hcnt |]. clear G Hcnt. intros _ s2 (St & Sc & G). destruct it as [x|].
  - destruct G as (G & Hx & Hy). destruct G as (O2 & Gc & Gh & h & Hh & Hs & Hci). destruct (m_class _ _ _ (ok_mem _ _ _ _ O2) c) as (p & Ep & _); [rewrite (proj1 Sc); lia |].
    apply wp_bind. eapply wp_class_of; [exact Ep |]. apply wp_bind.
    assert (Hch : chunk_of s2 c = c_size p) by (unfold chunk_of; by rewrite Ep). rewrite <- Hch.
    eapply wp_mono; [apply (write_item_spec s V s2 V1 x c key suffix exptime nbytes (chunk_of s2 c)); try done; try lia |].
    + split; [done |]. split; [done |]. split; [done |]. by exists h.
    + by eapply plain_stays.
    + rewrite (same_chunk_of s s2 c Sc). unfold ntotal in Hfit'. by rewrite (st_cfg _ _ _ _ St).
    + intros _ s3 [O3 F3]. apply wp_ret. by exists V1.
  - destruct G as [O2 G]. apply wp_bind, wp_bump. intros cn _ Ht. apply wp_ret. exists V1.
    split; [by apply ok_set_cnt |]. split; [|split; [done | done]]. destruct St as [A1 A2 A3 A4 A5]. constructor; try done. simpl. by rewrite Ht.
Qed.
End Ok.
