(* ===== verification/CacheSpec.v ===== *)
(** What the cache server promises: a map from keys to entries from which entries may
    be lost, with expiry and flush; the commands on it; and the map that a state of
    the store stands for. *)
From S2P Require Import Prelude CStr CDec Assoc AssocThm DList Store Slabs Items StoreCmd StoreInv LruThm SlabsThm ItemsThm ItemsGet PullThm AllocThm.
Local Open Scope Z_scope.

(** * Entries *)

(** The suffix is the text after the key in a reply; the bytes end in CR LF. *)
Record entry := Entry { e_suffix : list ascii; e_bytes : list ascii; e_exptime : Z; e_cas : Z; e_time : Z }.
Abbreviation cache := (gmap (list ascii) entry).

(** Not to be served at [now]: expired, or flushed. *)
Definition gone (c : settings) (now : Z) (e : entry) : bool :=
  (if (oldest_live c =? 0) || (now <? oldest_live c) then false
   else (e_time e <=? oldest_live c) || (negb (oldest_cas c =? 0) && negb (e_cas e =? 0) && (e_cas e <? oldest_cas c)))
  || (negb (e_exptime e =? 0) && (e_exptime e <=? now)).
Definition stamp (t : Z) (e : entry) : entry := Entry (e_suffix e) (e_bytes e) (e_exptime e) (e_cas e) t.
Definition with_cas (c : Z) (e : entry) : entry := Entry (e_suffix e) (e_bytes e) (e_exptime e) c (e_time e).
Definition with_exptime (t : Z) (e : entry) : entry := Entry (e_suffix e) (e_bytes e) t (e_cas e) (e_time e).

(** * The commands on the map *)

Section Env.
Variable c : settings.
Variable now : Z.

(** A look-up: an entry that is not to be served goes. *)
Definition look (k : list ascii) (m : cache) : option entry := match m !! k with Some e => if gone c now e then None else Some e | None => None end.
(** A hit moves an entry that is over a minute old up to now. *)
Definition refreshed (k : list ascii) (e : entry) (m : cache) : cache :=
  if e_time e <? u32 (now - ITEM_UPDATE_INTERVAL) then <[k := stamp now e]> m else m.
Definition refresh (k : list ascii) (m : cache) : cache := match look k m with Some e => refreshed k e m | None => delete k m end.
(** Touch: a new time of expiry. *)
Definition touched (k : list ascii) (t : Z) (m : cache) : cache :=
  match look k m with Some e => refreshed k (with_exptime t e) (<[k := with_exptime t e]> m) | None => delete k m end.
(** Append, prepend. *)
Definition join (comm : Z) (old e : entry) : entry :=
  let n := Z.of_nat (length (e_bytes e)) in
  let n_old := Z.of_nat (length (e_bytes old)) in
  Entry (item_suffix (atoi (e_suffix old)) (n + n_old - 2))
    (if comm =? NREAD_APPEND then take (Z.to_nat (n_old - 2)) (e_bytes old) ++ e_bytes e else take (Z.to_nat (n - 2)) (e_bytes e) ++ e_bytes old)
    (e_exptime old) 0 now.
Definition joins (comm : Z) : Prop := comm = NREAD_APPEND \/ comm = NREAD_PREPEND.

(** Storing [e], which comes with the number the client gave. *)
Inductive storing (k : list ascii) (e : entry) (m : cache) : Z -> store_item_type * option Z -> cache -> Prop :=
  | put_set n : storing k e m NREAD_SET (STORED, Some n) (<[k := stamp now (with_cas n e)]> m)
  | put_add n : look k m = None -> storing k e m NREAD_ADD (STORED, Some n) (<[k := stamp now (with_cas n e)]> m)
  | put_replace n : is_Some (look k m) -> storing k e m NREAD_REPLACE (STORED, Some n) (<[k := stamp now (with_cas n e)]> m)
  | put_cas n old : look k m = Some old -> e_cas e = e_cas old -> storing k e m NREAD_CAS (STORED, Some n) (<[k := stamp now (with_cas n e)]> m)
  | put_join n old comm m0 : joins comm -> look k m = Some old -> (e_cas e = 0 \/ e_cas e = e_cas old) -> m0 ⊆ m ->
      storing k e m comm (STORED, Some n) (<[k := with_cas n (join comm old e)]> m0)
  | add_present : is_Some (look k m) -> storing k e m NREAD_ADD (NOT_STORED, None) (refresh k m)
  | none_there comm : comm = NREAD_REPLACE \/ joins comm -> look k m = None -> storing k e m comm (NOT_STORED, None) (delete k m)
  | cas_none_there : look k m = None -> storing k e m NREAD_CAS (NOT_FOUND, None) (delete k m)
  | cas_differs old : look k m = Some old -> e_cas e <> e_cas old -> storing k e m NREAD_CAS (EXISTS, None) m
  | join_differs old comm : joins comm -> look k m = Some old -> e_cas e <> 0 -> e_cas e <> e_cas old -> storing k e m comm (EXISTS, None) m
  | join_no_memory comm m0 : joins comm -> is_Some (look k m) -> m0 ⊆ m -> storing k e m comm (NOT_STORED, None) m0.

(** The time the entry comes with does not matter. *)
Lemma storing_stamp k e t m comm r m' : storing k (stamp t e) m comm r m' -> storing k e m comm r m'.
Proof.
  inversion 1; subst.
  - apply (put_set k e).
  - by apply (put_add k e).
  - by apply (put_replace k e).
  - by apply (put_cas k e m n old).
  - by apply (put_join k e m n old).
  - by apply add_present.
  - by apply none_there.
  - by apply cas_none_there.
  - by apply (cas_differs _ _ _ old).
  - by apply (join_differs _ _ _ old).
  - by apply join_no_memory.
Qed.

(** A get of keys: the reply, none when a key is too long, and the map after it. *)
Definition render (return_cas : bool) (k : list ascii) (e : entry) : list ascii := value_text return_cas k (e_suffix e) (e_cas e) (e_bytes e).
Fixpoint serve (return_cas : bool) (keys : list (list ascii)) (m : cache) : option (list ascii) * cache :=
  match keys with
  | [] => (Some (lit "END" ++ [CR; LF]), m)
  | k :: keys =>
      if KEY_MAX_LENGTH <? Z.of_nat (length k) then (None, m)
      else
        match look k m with
        | None => serve return_cas keys (delete k m)
        | Some e => let r := serve return_cas keys (refreshed k e m) in (app (render return_cas k e) <$> r.1, r.2)
        end
  end.
Definition served (r : option (list ascii)) : list ascii := default (bad_line ++ [CR; LF]) r.
End Env.

(** * The map of a store *)

Definition entry_of (h : hdr) : entry := Entry (it_suffix h) (take (Z.to_nat (it_nbytes h)) (it_data h)) (it_exptime h) (ITEM_get_cas h) (it_time h).
Lemma dead_gone h s : dead h s = gone (cfg s) (current_time (cnt s)) (entry_of h).
Proof. reflexivity. Qed.
Lemma entry_content h h' : content h' = content h -> entry_of h' = entry_of h.
Proof. unfold content, entry_of. intros E. injection E as -> -> -> -> E1 ->. by rewrite E1. Qed.

Definition cached_entry (s : store) (x : ptr) : option entry := entry_of <$> hdrs s !! x.
Definition cached (s : store) (V : view) : cache := omap (cached_entry s) (v_map V).

Lemma cached_lookup s V k : cached s V !! k = v_map V !! k ≫= cached_entry s.
Proof. unfold cached. by rewrite lookup_omap. Qed.
Lemma cached_at_item s V k x h : v_map V !! k = Some x -> hdrs s !! x = Some h -> cached s V !! k = Some (entry_of h).
Proof. intros Hk Hh. rewrite cached_lookup, Hk. cbn [mbind option_bind]. unfold cached_entry. by rewrite Hh. Qed.
(** What is served has neither expired nor been flushed. *)
Lemma look_gone c now k m e : look c now k m = Some e -> m !! k = Some e /\ gone c now e = false.
Proof. unfold look. destruct (m !! k) as [e'|]; [|done]. destruct (gone c now e') eqn:G; [done |]. by intros [= <-]. Qed.
Lemma look_delete c now k m : look c now k m = None -> look c now k (delete k m) = None.
Proof. intros _. unfold look. by rewrite lookup_delete_eq. Qed.
