(* ===== verification/CachedThm.v ===== *)
(** How the operations on items change the map that the store stands for. *)
From S2P Require Import Prelude CStr CDec Assoc AssocThm DList Store Slabs Items StoreCmd StoreInv LruThm SlabsThm ItemsThm ItemsGet PullThm AllocThm CacheSpec.
Local Open Scope Z_scope.

(** * Commands leave the rest alone *)

Record calm (s : store) (V : view) (s' : store) (V' : view) : Prop := {
  ca_held y : v_held V' y = v_held V y;
  ca_cfg : cfg s' = cfg s;
  ca_time : current_time (cnt s') = current_time (cnt s);
  ca_chunks : same_chunks (mem s) (mem s')
}.
Lemma calm_refl s V : calm s V s V.
Proof. constructor; try done. Qed.
Lemma calm_trans s1 V1 s2 V2 s3 V3 : calm s1 V1 s2 V2 -> calm s2 V2 s3 V3 -> calm s1 V1 s3 V3.
Proof.
  intros [A1 A2 A3 A4] [B1 B2 B3 B4]. constructor; [intros y; by rewrite B1 | congruence | congruence |]. by eapply same_chunks_trans.
Qed.
Lemma calm_plain s V s' V' : calm s V s' V' -> plain s -> plain s'.
Proof. intros [_ E _ _]. unfold plain. by rewrite E. Qed.
Lemma calm_room n s V s' V' : calm s V s' V' -> room n V -> room n V'.
Proof. intros [H _ _ _] R x. rewrite H. apply R. Qed.
(** The same but for [x], to which [n] references more are held. *)
Record calm_but (x : ptr) (n : Z) (s : store) (V : view) (s' : store) (V' : view) : Prop := {
  cb_at : v_held V' x = v_held V x + n;
  cb_held y : y <> x -> v_held V' y = v_held V y;
  cb_cfg : cfg s' = cfg s;
  cb_time : current_time (cnt s') = current_time (cnt s);
  cb_chunks : same_chunks (mem s) (mem s')
}.
Lemma calm_but_trans x n m s1 V1 s2 V2 s3 V3 : calm_but x n s1 V1 s2 V2 -> calm_but x m s2 V2 s3 V3 -> calm_but x (n + m) s1 V1 s3 V3.
Proof.
  intros [A1 A2 A3 A4 A5] [B1 B2 B3 B4 B5]. constructor; [lia | intros y Hy; by rewrite B2, A2 | congruence | congruence |]. by eapply same_chunks_trans.
Qed.
Lemma calm_but_calm x s V s' V' : calm_but x 0 s V s' V' <-> calm s V s' V'.
Proof.
  split; intros [A1 A2 A3 A4]; constructor; try done; [|rewrite A1; lia]. intros y. destruct (decide (y = x)) as [->|]; [lia | by apply A2].
Qed.
Lemma only_calm x n s V s' V' : only x s V s' V' -> v_held V' x = v_held V x + n -> calm_but x n s V s' V'.
Proof. intros [A1 A2 A3 A4 A5 A6 A7] H. constructor; done. Qed.

(** * The map *)

Section Ok.
Variable hash : list ascii -> Z.
Hypothesis hash_range : forall k, 0 <= hash k < 2 ^ 32.

Lemma dropped_calm s V s' V' : dropped hash s V s' V' -> calm s V s' V'.
Proof. intros (_ & St & Sc & H). constructor; [done | apply St | apply St | done]. Qed.

Lemma cached_keep s V s' V' k : stays s V s' V' -> v_map V' !! k = v_map V !! k -> cached s' V' !! k = cached s V !! k.
Proof.
  intros [A1 A2 A3 A4 A5] E. rewrite !cached_lookup, E. destruct (v_map V !! k) as [x|] eqn:Hk; [|done]. cbn [mbind option_bind].
  destruct (A3 x) as (_ & h & h' & Hh & Hh' & Hc); [right; by exists k |]. unfold cached_entry. rewrite Hh, Hh'. simpl. by rewrite (entry_content _ _ Hc).
Qed.
Lemma cached_stays s V s' V' : stays s V s' V' -> cached s' V' ⊆ cached s V.
Proof.
  intros St. apply map_subseteq_spec. intros k e H. rewrite <- (cached_keep s V s' V' k St); [done |].
  rewrite cached_lookup in H. destruct (v_map V' !! k) as [x|] eqn:Hk; [|done]. symmetry. by apply (st_map _ _ _ _ St).
Qed.
Lemma cached_got s V k r s' V' : got s V k r s' V' ->
  match r with
  | None => look (cfg s) (current_time (cnt s)) k (cached s V) = None /\ cached s' V' = delete k (cached s V)
  | Some x => is_Some (look (cfg s) (current_time (cnt s)) k (cached s V)) /\ cached s' V' = cached s V
  end.
Proof.
  intros (St & Sc & H). destruct r as [x|].
  - destruct H as (Hk & Hm & H1 & H2 & h & h' & Hh & Hh' & Hc & Hl & Hd). split; [|apply map_eq; intros k'; apply cached_keep; [done | by rewrite Hm]].
    exists (entry_of h). unfold look. rewrite (cached_at_item s V k x h) by done. by rewrite <- dead_gone, Hd.
  - destruct H as (Hm & H1 & H2). split.
    + unfold look. rewrite cached_lookup. destruct H2 as [->|(x & h & -> & Hh & Hd)]; [done |]. cbn [mbind option_bind]. unfold cached_entry. rewrite Hh. simpl. by rewrite <- dead_gone, Hd.
    + apply map_eq. intros k'. destruct (decide (k' = k)) as [->|Hne]; [by rewrite lookup_delete_eq, cached_lookup, Hm, lookup_delete_eq |].
      rewrite lookup_delete_ne by done. apply cached_keep; [done |]. rewrite Hm. by apply lookup_delete_ne.
Qed.

(** One item is put in the table, or changed in it. *)
Lemma cached_only s s' V V' x k : only x s V s' V' -> v_map V !! k <> Some x -> v_map V' !! k = v_map V !! k -> cached s' V' !! k = cached s V !! k.
Proof.
  intros [A1 A2 A3 A4 A5 A6 A7] Hne Hm. rewrite !cached_lookup, Hm. destruct (v_map V !! k) as [y|] eqn:Hy; [|done]. cbn [mbind option_bind].
  unfold cached_entry. rewrite A1; [done | congruence].
Qed.
Lemma cached_put s V s' V' x k h' :
  only x s V s' V' -> v_map V' = <[k := x]> (v_map V) -> (forall k', k' <> k -> v_map V !! k' <> Some x) -> hdrs s' !! x = Some h' ->
  cached s' V' = <[k := entry_of h']> (cached s V).
Proof.
  intros N Hm Hx Hh'. apply map_eq. intros k'. destruct (decide (k' = k)) as [->|Hne].
  - rewrite lookup_insert_eq. apply (cached_at_item s' V' k x h'); [|done]. rewrite Hm. apply lookup_insert_eq.
  - rewrite lookup_insert_ne by done. apply (cached_only s s' V V' x k' N); [by apply Hx |]. rewrite Hm. by apply lookup_insert_ne.
Qed.
(** One is taken out. *)
Lemma cached_delete s V s' V' x k :
  only x s V s' V' -> v_map V' = delete k (v_map V) -> (forall k', k' <> k -> v_map V !! k' <> Some x) -> cached s' V' = delete k (cached s V).
Proof.
  intros N Hm Hx. apply map_eq. intros k'. destruct (decide (k' = k)) as [->|Hne].
  - by rewrite cached_lookup, Hm, !lookup_delete_eq.
  - rewrite lookup_delete_ne by done. apply (cached_only s s' V V' x k' N); [by apply Hx |]. rewrite Hm. by apply lookup_delete_ne.
Qed.
(** Nothing in the table is touched. *)
Lemma cached_aside s V s' V' x : only x s V s' V' -> v_map V' = v_map V -> (forall k, v_map V !! k <> Some x) -> cached s' V' = cached s V.
Proof. intros N Hm Hx. apply map_eq. intros k. apply (cached_only s s' V V' x k N); [by apply Hx | by rewrite Hm]. Qed.
Lemma mapped_once s V k k' x : ok hash s V -> v_map V !! k = Some x -> v_map V !! k' = Some x -> k' = k.
Proof.
  intros O H H'. destruct (ok_mapped _ hash_range _ _ _ _ _ O H) as [E _]. destruct (ok_mapped _ hash_range _ _ _ _ _ O H') as [E' _]. congruence.
Qed.

(** * An item that only its caller has *)

Definition loose (s : store) (V : view) (x : ptr) (k : list ascii) (e : entry) : Prop :=
  v_held V x = 1 /\ (forall k', v_map V !! k' <> Some x) /\ item_key (tbl s) !! x = Some k /\
  exists h, hdrs s !! x = Some h /\ linked h = false /\ slabbed h = false /\ it_refcount h = 1 /\ entry_of h = e.
Lemma loose_intro s V x k h :
  ok hash s V -> v_held V x = 1 -> (forall k', v_map V !! k' <> Some x) -> item_key (tbl s) !! x = Some k -> hdrs s !! x = Some h -> loose s V x k (entry_of h).
Proof.
  intros O Hh Hn Hk Hx. split; [done |]. split; [done |]. split; [done |]. exists h. split; [done |].
  assert (Hl : linked h = false). { destruct (linked h) eqn:E; [|done]. apply (ok_linked _ _ _ _ O x h Hx) in E as [k' Hk']. by destruct (Hn k'). }
  split; [done |]. split; [by apply (held_not_slabbed hash None s V x h O Hx ltac:(lia)) |].
  destruct (ok_item _ _ _ _ O x h Hx) as (_ & _ & _ & H & _). rewrite Hl in H. simpl in H. split; [lia | done].
Qed.
Lemma unlinked s V x h : ok hash s V -> hdrs s !! x = Some h -> linked h = false -> forall k, v_map V !! k <> Some x.
Proof. intros O Hh Hl k Hk. assert (linked h = true) by (apply (ok_linked _ _ _ _ O x h Hh); by exists k). congruence. Qed.
Lemma loose_stays s V s' V' x k e : ok hash s' V' -> stays s V s' V' -> v_held V' x = v_held V x -> loose s V x k e -> loose s' V' x k e.
Proof.
  intros O St Hh (L1 & L2 & L3 & h & L4 & L5 & L6 & L7 & L8). destruct (st_kept _ _ _ _ St x) as (K & h1 & h2 & K1 & K2 & K3); [left; lia |].
  assert (h1 = h) as -> by congruence. apply entry_content in K3. rewrite <- L8, <- K3. apply loose_intro; try done; [lia | | congruence].
  intros k' Hk'. apply (L2 k'). by apply St.
Qed.
Lemma loose_only s V s' V' x y k e : ok hash s' V' -> only y s V s' V' -> x <> y -> (forall k', v_map V' !! k' = Some x -> v_map V !! k' = Some x) -> loose s V x k e -> loose s' V' x k e.
Proof.
  intros O N Hne Hm (L1 & L2 & L3 & h & L4 & L5 & L6 & L7 & <-). apply loose_intro; [done | by rewrite (o_held _ _ _ _ _ N) | | by rewrite (o_key _ _ _ _ _ N) | by rewrite (o_hdrs _ _ _ _ _ N)].
  intros k' Hk'. by apply (L2 k'), Hm.
Qed.
End Ok.
