(* ===== verification/StoreThm.v ===== *)
(** The commands of the cache server do on the store what they do on its map:
    linking and replacing, append and prepend, do_store_item, and the command with its
    data. *)
From S2P Require Import Prelude CStr CDec Assoc AssocThm DList Store Slabs Items StoreCmd StoreInv LruThm SlabsThm ItemsThm ItemsGet PullThm AllocThm CacheSpec CachedThm.
Local Open Scope Z_scope.

Section Ok.
Variable hash : list ascii -> Z.
Hypothesis hash_range : forall k, 0 <= hash k < 2 ^ 32.
Variable lockable : Z -> bool.
Variable junk : Z -> list ascii.
Hypothesis junk_length : forall n, 0 <= n -> Z.of_nat (length (junk n)) = n.

(** * Into the table *)

(** [x] is in the table under [k], with the number [n]. *)
Definition linked_as (s : store) (V : view) (x : ptr) (k : list ascii) (e : entry) (s' : store) (V' : view) : Prop :=
  ok hash s' V' /\ calm s V s' V' /\ exists h', hdrs s' !! x = Some h' /\ v_map V' !! k = Some x /\
    cached s' V' = <[k := stamp (current_time (cnt s)) (with_cas (ITEM_get_cas h') e)]> (cached s V) /\
    item_key (tbl s') = item_key (tbl s).

Lemma link_cached s V x k e :
  ok hash s V -> loose s V x k e -> v_map V !! k = None -> wp (do_item_link x (hash k)) s (fun _ s' => exists V', linked_as s V x k e s' V').
Proof.
  intros O (L1 & L2 & L3 & h & L4 & L5 & L6 & L7 & <-) Hk.
  eapply wp_mono; [apply (do_item_link_spec hash hash_range s V x h k); try done; lia |].
  intros _ s' (V' & O' & N & Hh & Hm & h' & Hh' & Hp & Hl' & _ & Ht). exists V'. split; [done |].
  split; [apply (calm_but_calm x), (only_calm x 0); [done | lia] |]. exists h'. split; [done |]. split; [rewrite Hm; apply lookup_insert_eq |]. split; [|apply N].
  rewrite (cached_put s V s' V' x k h') by done. f_equal. unfold payload in Hp. injection Hp as E1 E2 E3 E4. unfold entry_of, stamp, with_cas. simpl. by rewrite E1, E2, E3, E4, Ht.
Qed.
Lemma unlink_cached s V o k :
  ok hash s V -> v_map V !! k = Some o -> wp (do_item_unlink o (hash k)) s (fun _ s' => exists V',
    ok hash s' V' /\ only o s V s' V' /\ calm s V s' V' /\ v_map V' = delete k (v_map V) /\ cached s' V' = delete k (cached s V)).
Proof.
  intros O Hk. destruct (ok_mapped _ hash_range _ _ _ _ _ O Hk) as (Hik & h & Hh & Hl). pose proof (used_not_slabbed _ _ _ _ _ _ O Hh Hl) as Hs.
  eapply wp_mono; [by apply (do_item_unlink_spec hash hash_range s V o h k) |]. intros _ s' (V' & O' & N & H & Hm & _). rewrite Hl in Hm.
  exists V'. split; [done |]. split; [done |]. split; [apply (calm_but_calm o), (only_calm o 0); [done | lia] |]. split; [done |].
  apply (cached_delete s V s' V' o k N Hm). intros k' Hne Hk'. apply Hne. by apply (mapped_once hash hash_range s V k k' o).
Qed.
(** An item with a reference that is the only one that can be under its key. *)
Definition pinned (s : store) (V : view) (k : list ascii) (o : ptr) : Prop :=
  0 < v_held V o /\ item_key (tbl s) !! o = Some k /\ forall y, v_map V !! k = Some y -> y = o.
Lemma pinned_stays s V s' V' k o : stays s V s' V' -> pinned s V k o -> pinned s' V' k o.
Proof.
  intros St (P1 & P2 & P3). destruct (st_kept _ _ _ _ St o) as [K _]; [by left |]. split; [by apply St |]. split; [congruence |]. intros y Hy. by apply P3, St.
Qed.
Lemma pinned_only s V s' V' k o x : only x s V s' V' -> o <> x -> v_map V' = v_map V -> pinned s V k o -> pinned s' V' k o.
Proof. intros N Hne Hm (P1 & P2 & P3). split; [by rewrite (o_held _ _ _ _ _ N) |]. split; [by rewrite (o_key _ _ _ _ _ N) | by rewrite Hm]. Qed.
Lemma replace_cached s V o x k e :
  ok hash s V -> loose s V x k e -> pinned s V k o -> x <> o -> wp (do_item_replace o x (hash k)) s (fun _ s' => exists V', linked_as s V x k e s' V').
Proof.
  intros O L (P1 & P2 & P3) Hne. destruct (held_hdr hash None s V o O P1) as [h Hh]. pose proof (held_not_slabbed hash None s V o h O Hh P1) as Hs.
  unfold do_item_replace. apply wp_bind. eapply wp_hdr_of; [exact Hh |]. apply wp_bind, wp_assert; [change (has ITEM_SLABBED h) with (slabbed h); by rewrite Hs |].
  apply wp_bind. eapply wp_mono; [by apply (do_item_unlink_spec hash hash_range s V o h k) |]. intros _ s1 (V1 & O1 & N1 & H1 & M1 & _).
  assert (M : v_map V1 = delete k (v_map V)).
  { destruct (linked h) eqn:Hl; [done |]. rewrite M1. symmetry. apply delete_id. destruct (v_map V !! k) as [y|] eqn:Hk; [|done].
    specialize (P3 y eq_refl) as ->. by destruct (unlinked hash s V o h O Hh Hl k). }
  assert (E1 : cached s1 V1 = delete k (cached s V)).
  { apply (cached_delete s V s1 V1 o k N1 M). intros k' Hk Hk'. destruct (ok_mapped _ hash_range _ _ _ _ _ O Hk') as [E _]. congruence. }
  assert (C1 : calm s V s1 V1) by (apply (calm_but_calm o), (only_calm o 0); [done | lia]).
  assert (L1 : loose s1 V1 x k e) by (apply (loose_only hash s V s1 V1 x o k e O1 N1 Hne); [intros k' Hk'; rewrite M in Hk'; by apply lookup_delete_Some in Hk' as [_ ?] | done]).
  eapply wp_mono; [apply (link_cached s1 V1 x k e O1 L1); rewrite M; apply lookup_delete_eq |].
  intros _ s2 (V2 & O2 & C2 & h2 & Hh2 & Hm2 & E2 & K2). exists V2. split; [done |]. split; [by eapply calm_trans |]. exists h2. split; [done |]. split; [done |].
  split; [|rewrite K2; apply N1]. by rewrite E2, E1, insert_delete_eq, (ca_time _ _ _ _ C1).
Qed.

(** * References and look-up *)

(** A reference given back: nothing that can be seen changes. *)
Lemma remove_cached s V x :
  ok hash s V -> 0 < v_held V x -> wp (do_item_remove x) s (fun _ s' => exists V', ok hash s' V' /\ calm_but x (-1) s V s' V' /\
    cached s' V' = cached s V /\ v_map V' = v_map V /\ only x s V s' V' /\
    (forall h, hdrs s !! x = Some h -> linked h = true \/ 1 < v_held V x -> hdrs s' !! x = Some (with_ref h (-1)))).
Proof.
  intros O Hx. destruct (held_hdr hash None s V x O Hx) as [h Hh].
  eapply wp_mono; [by apply (do_item_remove_spec hash hash_range s V x h) |]. intros _ s' (V' & O' & N & Hm & Hh' & K). exists V'. split; [done |].
  split; [apply (only_calm x (-1)); [done | lia] |]. split; [|split; [done | split; [done |]]]; [|intros h' E; assert (h' = h) as -> by congruence; done].
  destruct (linked h) eqn:Hl.
  - destruct (ok_link_of _ hash_range _ _ _ _ _ O Hh Hl) as (k & _ & Hk & _). rewrite (cached_put s V s' V' x k (with_ref h (-1))); [| done | | | apply K; by left].
    + change (entry_of (with_ref h (-1))) with (entry_of h). apply insert_id. by apply (cached_at_item s V k x h).
    + rewrite Hm. symmetry. by apply insert_id.
    + intros k' Hne Hk'. apply Hne. by apply (mapped_once hash hash_range s V k k' x).
  - apply (cached_aside s V s' V' x N Hm). by apply (unlinked hash s V x h).
Qed.

(** What a hit holds. *)
Definition hit (s : store) (V : view) (k : list ascii) (x : ptr) (e : entry) : Prop :=
  v_map V !! k = Some x /\ 0 < v_held V x /\ look (cfg s) (current_time (cnt s)) k (cached s V) = Some e /\ exists h, hdrs s !! x = Some h /\ entry_of h = e /\ linked h = true.
Lemma get_cached s V k :
  ok hash s V -> room 1 V -> wp (do_item_get k (hash k)) s (fun r s' => exists V', ok hash s' V' /\ stays s V s' V' /\
    match r with
    | None => calm s V s' V' /\ look (cfg s) (current_time (cnt s)) k (cached s V) = None /\ v_map V' !! k = None /\ cached s' V' = delete k (cached s V)
    | Some x => calm_but x 1 s V s' V' /\ cached s' V' = cached s V /\ exists e, look (cfg s) (current_time (cnt s)) k (cached s V) = Some e /\ hit s' V' k x e
    end).
Proof.
  intros O Hr. eapply wp_mono; [by apply (do_item_get_spec hash hash_range s V k) |]. intros r s' (V' & O' & G). exists V'. split; [done |].
  split; [apply G |]. pose proof (cached_got s V k r s' V' G) as E. destruct G as (St & Sc & G). destruct r as [x|].
  - destruct G as (Hk & Hm & H1 & H2 & h & h' & Hh & Hh' & Hc & Hl & Hd). destruct E as [[e He] Ec]. split; [constructor; try done; apply St |]. split; [done |].
    exists e. split; [done |]. split; [by rewrite Hm |]. split; [|split; [by rewrite Ec, (st_cfg _ _ _ _ St), (st_time _ _ _ _ St) |]].
    + destruct (hdrs s !! x) as [hx|] eqn:E0; [|done]. destruct (ok_item _ _ _ _ O x hx E0) as (_ & _ & ? & _). lia.
    + exists h'. split; [done |]. split; [|done]. apply look_gone in He as [He _]. rewrite (cached_at_item s V k x h) in He by done. injection He as <-. by apply entry_content.
  - destruct G as (Hm & Hh & _). destruct E as [He Ec]. split; [constructor; try done; apply St |]. split; [done |]. split; [rewrite Hm; apply lookup_delete_eq | done].
Qed.
Lemma update_item_cached s V k x h :
  ok hash s V -> plain s -> v_map V !! k = Some x -> hdrs s !! x = Some h -> wp (do_item_update x) s (fun _ s' => exists V', ok hash s' V' /\ calm s V s' V' /\ v_map V' = v_map V /\
    only x s V s' V' /\ cached s' V' = refreshed (current_time (cnt s)) k (entry_of h) (cached s V)).
Proof.
  intros O Hp Hk Hh. destruct (ok_mapped _ hash_range _ _ _ _ _ O Hk) as (_ & h2 & Hh2 & Hl). assert (h2 = h) as -> by congruence.
  eapply wp_mono; [apply (do_item_update_spec hash hash_range s V x h O Hp Hh); by apply (used_not_slabbed hash None s V x h) |].
  intros _ s' (V' & O' & N & Hm & H & h' & Hh' & Hc & Hl' & Hr). exists V'. split; [done |].
  split; [apply (calm_but_calm x), (only_calm x 0); [done | lia] |]. split; [done |]. split; [done |].
  rewrite (cached_put s V s' V' x k h' N); [| rewrite Hm; symmetry; by apply insert_id | intros k' Hne Hk'; apply Hne; by apply (mapped_once hash hash_range s V k k' x) | done].
  rewrite (entry_content _ _ Hc), Hl, andb_true_r. unfold refreshed. change (e_time (entry_of h) <? u32 (current_time (cnt s) - ITEM_UPDATE_INTERVAL)) with (stale h s).
  destruct (stale h s); [done |]. apply insert_id. by apply (cached_at_item s V k x h).
Qed.
Lemma update_cached s V k x e :
  ok hash s V -> plain s -> hit s V k x e -> wp (do_item_update x) s (fun _ s' => exists V', ok hash s' V' /\ calm s V s' V' /\ v_map V' = v_map V /\
    only x s V s' V' /\ cached s' V' = refresh (cfg s) (current_time (cnt s)) k (cached s V)).
Proof.
  intros O Hp (Hk & Hx & He & h & Hh & <- & _). unfold refresh. rewrite He. by apply update_item_cached.
Qed.

(** An item in the table is changed: what it holds, not where it is. *)
Definition edited (h h' : hdr) : Prop :=
  it_flags h' = it_flags h /\ it_clsid h' = it_clsid h /\ it_refcount h' = it_refcount h /\ it_nbytes h' = it_nbytes h /\ it_suffix h' = it_suffix h /\
  length (it_data h') = length (it_data h).
Lemma ok_edit s V x h h' : ok hash s V -> hdrs s !! x = Some h -> edited h h' -> slabbed h = false -> ok hash (set_hdrs (<[x := h']> (hdrs s)) s) (hold x 0 V).
Proof.
  intros O Hh (E1 & E2 & E3 & E4 & E5 & E6) Hs. assert (El : linked h' = linked h /\ slabbed h' = slabbed h) by (unfold linked, slabbed; by rewrite E1). destruct El as [El Es].
  apply (ok_upd_hdr hash None s V x h); try done. pose proof (ok_item _ _ _ _ O x h Hh) as Hi. rewrite Z.add_0_r. unfold item_ok, item_used in *.
  by rewrite El, Es, E1, E2, E3, E4, E5, E6.
Qed.
Lemma edit_cached s V k x h h' :
  ok hash s V -> v_map V !! k = Some x -> hdrs s !! x = Some h -> edited h h' ->
  let s' := set_hdrs (<[x := h']> (hdrs s)) s in ok hash s' (hold x 0 V) /\ calm s V s' (hold x 0 V) /\ only x s V s' (hold x 0 V) /\
    cached s' (hold x 0 V) = <[k := entry_of h']> (cached s V).
Proof.
  intros O Hk Hh E s'. destruct (ok_mapped _ hash_range _ _ _ _ _ O Hk) as (_ & h2 & Hh2 & Hl). assert (h2 = h) as -> by congruence.
  pose proof (ok_edit s V x h h' O Hh E (used_not_slabbed hash None s V x h O Hh Hl)) as O'. pose proof (only_hdr x s V h' 0) as N. split; [done |].
  split; [apply (calm_but_calm x), (only_calm x 0); [done | apply hold_eq] |]. split; [done |].
  apply (cached_put s V s' _ x k h' N); [symmetry; by apply insert_id | intros k' Hne Hk'; apply Hne; by apply (mapped_once hash hash_range s V k k' x) | apply lookup_insert_eq].
Qed.

(** * New items *)

Lemma alloc_cached s V key flags exptime nbytes hv :
  ok hash s V -> plain s -> room 1 V -> Z.of_nat (length key) <= 250 -> 2 <= nbytes < 2 ^ 31 ->
  wp (do_item_alloc hash lockable junk key flags exptime nbytes hv) s (fun r s' => exists V', ok hash s' V' /\ stays s V s' V' /\ cached s' V' ⊆ cached s V /\
    match r with
    | None => calm s V s' V'
    | Some x => calm_but x 1 s V s' V' /\ v_held V x = 0 /\ exists h, hdrs s' !! x = Some h /\ loose s' V' x key (entry_of h) /\
        it_suffix h = item_suffix flags nbytes /\ it_exptime h = exptime /\ it_nbytes h = nbytes /\ nbytes <= Z.of_nat (length (it_data h)) /\ has ITEM_CAS h = use_cas (cfg s')
    end).
Proof.
  intros O Hp Hr Hk Hn. eapply wp_mono; [by apply (do_item_alloc_spec hash hash_range lockable junk junk_length s V key flags exptime nbytes hv) |].
  intros [x|] s' (V' & A); exists V'.
  - destruct A as (O' & [F1 F2 F3 F4 F5 F6 (h & Hh & Hl & Hs & Hrf & Hsu & He & Hb & Hcas)]). split; [done |]. split; [done |]. split; [by apply cached_stays |].
    split; [constructor; try done; [lia | apply F1 | apply F1] |]. split; [done |]. exists h. split; [done |].
    split; [apply (loose_intro hash); try done; by apply (unlinked hash s' V' x h) |].
    destruct (ok_item _ _ _ _ O' x h Hh) as (_ & _ & _ & _ & _ & _ & H7). rewrite Hs in H7. destruct H7 as (_ & _ & H7 & _). rewrite Hb in H7. do 3 (split; [done |]). split; [lia | done].
  - pose proof A as (O' & St & _). split; [done |]. split; [done |]. split; [by apply cached_stays |]. by apply (dropped_calm hash).
Qed.

(** [bytes] in place of what is at [off]. *)
Definition splice (off : nat) (bytes l : list ascii) : list ascii := take off l ++ bytes ++ drop (off + length bytes) l.
Lemma splice_length off bytes l : (off + length bytes <= length l)%nat -> length (splice off bytes l) = length l.
Proof. intros H. unfold splice. rewrite !length_app, length_take, length_drop. lia. Qed.
Lemma take_splice off bytes l : (off <= length l)%nat -> take (off + length bytes) (splice off bytes l) = take off l ++ bytes.
Proof. intros H. unfold splice. rewrite app_assoc, take_app_length'; [done |]. rewrite length_app, length_take. lia. Qed.

(** Bytes written into an item that is not in the table. *)
Lemma write_cached s V x k h off bytes :
  ok hash s V -> hdrs s !! x = Some h -> loose s V x k (entry_of h) -> 0 <= off -> off + Z.of_nat (length bytes) <= it_nbytes h ->
  wp (write_data x off bytes) s (fun _ s' => exists V', ok hash s' V' /\ only x s V s' V' /\ calm s V s' V' /\ v_map V' = v_map V /\ cached s' V' = cached s V /\
    let h' := set_data (splice (Z.to_nat off) bytes (it_data h)) h in hdrs s' !! x = Some h' /\ loose s' V' x k (entry_of h')).
Proof.
  intros O Hh (L1 & L2 & L3 & h2 & L4 & L5 & L6 & L7 & _) Hoff Hlen. assert (h2 = h) as -> by congruence.
  destruct (ok_item _ _ _ _ O x h Hh) as (F1 & F2 & F3 & F4 & F5 & F6 & F7). rewrite L6 in F7. destruct F7 as [F7 F8]. rewrite bool_decide_false in F8 by done.
  destruct (F8) as (G1 & G2 & G3 & G4 & G5).
  unfold write_data. apply wp_bind. eapply wp_hdr_of; [exact Hh |]. rewrite (proj2 (Z.ltb_ge off 0)), (proj2 (Z.ltb_ge _ _)) by lia. cbn [orb].
  eapply wp_upd_hdr; [exact Hh |]. change (take (Z.to_nat off) (it_data h) ++ bytes ++ _) with (splice (Z.to_nat off) bytes (it_data h)).
  pose proof (splice_length (Z.to_nat off) bytes (it_data h) ltac:(lia)) as Hsl. set (h' := set_data _ h).
  assert (O' : ok hash (set_hdrs (<[x := h']> (hdrs s)) s) (hold x 0 V)).
  { apply (ok_upd_hdr hash None s V x h); try done. unfold item_ok. change (linked h') with (linked h). change (slabbed h') with (slabbed h). rewrite L6, Z.add_0_r.
    unfold item_used. cbn [h' it_flags it_clsid it_refcount it_nbytes it_data it_suffix set_data]. rewrite Hsl. repeat (split; [lia || done |]). done. }
  pose proof (only_hdr x s V h' 0) as N. exists (hold x 0 V). split; [done |]. split; [done |].
  split; [apply (calm_but_calm x), (only_calm x 0); [done | apply hold_eq] |]. split; [done |]. split; [by apply (cached_aside s V _ _ x) |].
  split; [apply lookup_insert_eq |]. apply (loose_intro hash); [done | rewrite hold_eq; lia | done | done | apply lookup_insert_eq].
Qed.
End Ok.

Section Ok.
Variable hash : list ascii -> Z.
Hypothesis hash_range : forall k, 0 <= hash k < 2 ^ 32.
Variable lockable : Z -> bool.
Variable junk : Z -> list ascii.
Hypothesis junk_length : forall n, 0 <= n -> Z.of_nat (length (junk n)) = n.

(** The bytes of an item in use. *)
Lemma used_bytes s V x h : ok hash s V -> hdrs s !! x = Some h -> slabbed h = false ->
  2 <= it_nbytes h < 2 ^ 30 /\ it_nbytes h <= Z.of_nat (length (it_data h)).
Proof.
  intros O Hh Hs. destruct (ok_item _ _ _ _ O x h Hh) as (_ & _ & _ & _ & _ & _ & F7). rewrite Hs in F7. destruct F7 as [_ (_ & G2 & G3 & _)].
  destruct (ok_below _ _ _ _ O x h Hh) as [_ Hc]. destruct (m_class _ _ _ (ok_mem _ _ _ _ O) _ Hc) as (p & Ep & [_ _ C3 _]).
  unfold chunk_of in G3. rewrite Ep in G3. pose proof (ok_max _ _ _ _ O). split; [nia | lia].
Qed.
Lemma wp_read_data h s (Q : list ascii -> store -> Prop) : it_nbytes h <= Z.of_nat (length (it_data h)) -> Q (e_bytes (entry_of h)) s -> wp (read_data h) s Q.
Proof. intros H HQ. unfold read_data. rewrite (proj2 (Z.ltb_ge _ _)) by lia. by apply wp_ret. Qed.
Lemma bytes_length h : 0 <= it_nbytes h <= Z.of_nat (length (it_data h)) -> Z.of_nat (length (e_bytes (entry_of h))) = it_nbytes h.
Proof. intros H. simpl. rewrite length_take. lia. Qed.

(** Two pieces written one behind the other, the second over the last two bytes of
    the first. *)
Lemma splice_twice a b l : (2 <= length a)%nat -> (length a + length b - 2 <= length l)%nat -> (length a <= length l)%nat ->
  take (length a + length b - 2) (splice (length a - 2) b (splice 0 a l)) = take (length a - 2) a ++ b.
Proof.
  intros Ha Hl1 Hl2. replace (length a + length b - 2)%nat with ((length a - 2) + length b)%nat by lia.
  rewrite take_splice by (rewrite splice_length; simpl; lia). f_equal. unfold splice. simpl. rewrite take_app_le by lia. done.
Qed.

(** * Append and prepend *)

Lemma write_two s V n k h a b :
  ok hash s V -> hdrs s !! n = Some h -> loose s V n k (entry_of h) -> (2 <= length a)%nat -> (2 <= length b)%nat -> it_nbytes h = Z.of_nat (length a) + Z.of_nat (length b) - 2 ->
  it_nbytes h <= Z.of_nat (length (it_data h)) ->
  wp (write_data n 0 a ;;; write_data n (Z.of_nat (length a) - 2) b) s (fun _ s' => exists V', ok hash s' V' /\ only n s V s' V' /\ calm s V s' V' /\ v_map V' = v_map V /\
    cached s' V' = cached s V /\ exists h', hdrs s' !! n = Some h' /\ loose s' V' n k (entry_of h') /\
    it_suffix h' = it_suffix h /\ it_exptime h' = it_exptime h /\ e_bytes (entry_of h') = take (length a - 2) a ++ b).
Proof.
  intros O Hh L Ha Hb Hn Hd. apply wp_bind. eapply wp_mono; [apply (write_cached hash s V n k h 0 a O Hh L); lia |].
  intros _ s1 (V1 & O1 & N1 & C1 & M1 & E1 & Hh1 & L1). set (h1 := set_data _ h) in *.
  eapply wp_mono; [apply (write_cached hash s1 V1 n k h1 _ b O1 Hh1 L1); [lia | change (it_nbytes h1) with (it_nbytes h); lia] |].
  intros _ s2 (V2 & O2 & N2 & C2 & M2 & E2 & Hh2 & L2). set (h2 := set_data _ h1) in *. exists V2. split; [done |]. split; [by eapply only_trans |].
  split; [by eapply calm_trans |]. split; [congruence |]. split; [congruence |]. exists h2. do 4 (split; [done |]).
  cbn [e_bytes entry_of h2 h1 it_nbytes it_data set_data]. rewrite Hn. replace (Z.to_nat (Z.of_nat (length a) - 2)) with (length a - 2)%nat by lia.
  replace (Z.to_nat (Z.of_nat (length a) + Z.of_nat (length b) - 2)) with (length a + length b - 2)%nat by lia. apply splice_twice; lia.
Qed.

Lemma combine_cached s V x o k e eo comm hv :
  ok hash s V -> plain s -> room 1 V -> loose s V x k e -> hit s V k o eo -> Z.of_nat (length k) <= 250 ->
  wp (combine hash lockable junk x o k comm hv) s (fun r s' => exists V', ok hash s' V' /\ cached s' V' ⊆ cached s V /\
    match r with
    | None => calm s V s' V'
    | Some n => calm_but n 1 s V s' V' /\ v_held V n = 0 /\ pinned s' V' k o /\ n <> o /\ exists en, loose s' V' n k en /\
        forall c, stamp (current_time (cnt s)) (with_cas c en) = with_cas c (join (current_time (cnt s)) comm eo e)
    end).
Proof.
  intros O Hp Hr L H Hlen. pose proof L as (L1 & L2 & L3 & h & Hh & _ & Ls & _ & <-). pose proof H as (Hk & Ho & He & ho & Hho & <- & Hl).
  pose proof (used_not_slabbed _ _ _ _ _ _ O Hho Hl) as Hso. destruct (used_bytes s V x h O Hh Ls) as [B1 B2]. destruct (used_bytes s V o ho O Hho Hso) as [B3 B4].
  change (2 ^ 30) with 1073741824 in *. pose proof (bytes_length h ltac:(lia)) as La. pose proof (bytes_length ho ltac:(lia)) as Lo.
  unfold combine. apply wp_bind. eapply wp_hdr_of; [exact Hh |]. apply wp_bind. eapply wp_hdr_of; [exact Hho |]. apply wp_bind.
  eapply wp_mono; [apply (alloc_cached hash hash_range lockable junk junk_length s V k _ _ _ hv O Hp Hr Hlen); change (2 ^ 31) with 2147483648; lia |].
  intros [n|] s1 (V1 & O1 & St & Sub & A); [|apply wp_ret; by exists V1].
  destruct A as (C1 & Hn0 & hn & Hhn & Ln & Hsu & Hex & Hnb & Hdl & _).
  apply wp_bind. apply wp_read_data; [done |]. apply wp_bind. apply wp_read_data; [done |].
  assert (Hno : o <> n) by (intros ->; lia).
  assert (P : pinned s V k o). { split; [done |]. split; [by apply (ok_mapped hash hash_range None s V) |]. intros y Hy. congruence. }
  apply (pinned_stays s V s1 V1) in P; [|done].
  assert (Hfin : forall a b, (2 <= length a)%nat -> (2 <= length b)%nat -> it_nbytes hn = Z.of_nat (length a) + Z.of_nat (length b) - 2 ->
    take (length a - 2) a ++ b = e_bytes (join (current_time (cnt s)) comm (entry_of ho) (entry_of h)) ->
    wp (write_data n 0 a ;;; write_data n (Z.of_nat (length a) - 2) b) s1 (fun _ s' => wp (ret (Some n)) s' (fun r s' => exists V', ok hash s' V' /\ cached s' V' ⊆ cached s V /\
    match r with
    | None => calm s V s' V'
    | Some n => calm_but n 1 s V s' V' /\ v_held V n = 0 /\ pinned s' V' k o /\ n <> o /\ exists en, loose s' V' n k en /\
        forall c, stamp (current_time (cnt s)) (with_cas c en) = with_cas c (join (current_time (cnt s)) comm (entry_of ho) (entry_of h))
    end))).
  { intros a b Ha Hb Hab Hj. eapply wp_mono; [apply (write_two s1 V1 n k hn a b O1 Hhn Ln Ha Hb Hab); lia |].
    intros _ s2 (V2 & O2 & N2 & C2 & M2 & E2 & h2 & Hh2 & L2' & S2 & X2 & Y2). apply wp_ret. exists V2. split; [done |]. split; [by rewrite E2 |].
    split; [replace 1 with (1 + 0) by lia; eapply calm_but_trans; [exact C1 | by apply calm_but_calm] |]. split; [done |].
    split; [by apply (pinned_only s1 V1 s2 V2 k o n) |]. split; [done |]. exists (entry_of h2). split; [done |]. intros c. unfold stamp, with_cas.
    cbn [e_suffix e_exptime entry_of]. rewrite Y2, S2, Hsu, X2, Hex, Hj. unfold join. cbn [e_suffix e_bytes e_exptime]. cbn [e_suffix entry_of]. by rewrite La, Lo. }
  apply wp_bind. destruct (comm =? NREAD_APPEND) eqn:Ec.
  - rewrite <- Lo. apply Hfin; [lia | lia | lia |]. unfold join. rewrite Ec. cbn [e_bytes]. f_equal. f_equal. lia.
  - rewrite <- La. apply Hfin; [lia | lia | lia |]. unfold join. rewrite Ec. cbn [e_bytes]. f_equal. f_equal. lia.
Qed.

(** * do_store_item *)

(** A reference given back: what is in the table stays. *)
Lemma give_cached s V y :
  ok hash s V -> 0 < v_held V y -> wp (do_item_remove y) s (fun _ s' => exists V', ok hash s' V' /\ calm_but y (-1) s V s' V' /\ cached s' V' = cached s V /\
    forall k z h, v_map V !! k = Some z -> hdrs s !! z = Some h -> v_map V' !! k = Some z /\ exists h', hdrs s' !! z = Some h' /\ ITEM_get_cas h' = ITEM_get_cas h).
Proof.
  intros O Hy. eapply wp_mono; [by apply (remove_cached hash hash_range s V y) |]. intros _ s' (V' & O' & C & E & M & N & K). exists V'. split; [done |]. split; [done |]. split; [done |].
  intros k z h Hk Hz. split; [by rewrite M |]. destruct (decide (z = y)) as [->|Hne]; [|exists h; by rewrite (o_hdrs _ _ _ _ _ N)].
  exists (with_ref h (-1)). split; [|done]. apply K; [done |]. left. apply (ok_linked _ _ _ _ O y h Hz). by exists k.
Qed.
Lemma calm_swap o n s V s1 V1 s2 V2 s3 V3 : n <> o -> calm_but o 1 s V s1 V1 -> calm_but n 1 s1 V1 s2 V2 -> calm_but o (-1) s2 V2 s3 V3 -> calm_but n 1 s V s3 V3.
Proof.
  intros Hne [A1 A2 A3 A4 A5] [B1 B2 B3 B4 B5] [C1 C2 C3 C4 C5]. constructor; [| | congruence | congruence |].
  - rewrite C2, B1, A2 by done. lia.
  - intros y Hy. destruct (decide (y = o)) as [->|]; [rewrite C1, B2, A1 by done; lia | by rewrite C2, B2, A2].
  - eapply same_chunks_trans; [|exact C5]. by eapply same_chunks_trans.
Qed.

(** The end of do_store_item when nothing was stored, and when something was: [o] was
    found, [new] made by append or prepend. *)
Section Finish.
Variables (s : store) (V : view) (s1 : store) (V1 : view) (x o : ptr) (k : list ascii).
Variable P : store_item_type * option Z -> cache -> Prop.
Hypothesis found_o : calm_but o 1 s V s1 V1.
Hypothesis held_o : 0 < v_held V1 o.

Definition finished (r : store_item_type * option Z) (s' : store) : Prop := exists V', ok hash s' V' /\ calm s V s' V' /\ P r (cached s' V').
Definition report (stored : store_item_type) (y : ptr) : SM (store_item_type * option Z) :=
  match stored with STORED => h <- hdr_of y ;; ret (STORED, Some (ITEM_get_cas h)) | st => ret (st, None) end.

Lemma calm_around s2 V2 s3 V3 : calm s1 V1 s2 V2 -> calm_but o (-1) s2 V2 s3 V3 -> calm s V s3 V3.
Proof.
  intros C2 C3. apply (calm_but_calm o). change 0 with (1 + (0 + -1)). eapply calm_but_trans; [exact found_o |]. eapply calm_but_trans; [apply calm_but_calm; exact C2 | exact C3].
Qed.
Lemma finish_none st s2 V2 :
  ok hash s2 V2 -> calm s1 V1 s2 V2 -> st <> STORED -> P (st, None) (cached s2 V2) -> wp (do_item_remove o ;;; (ret tt ;;; report st x)) s2 finished.
Proof.
  intros O2 C2 Hst HP. apply wp_bind. eapply wp_mono; [apply (give_cached s2 V2 o O2); by rewrite (ca_held _ _ _ _ C2) |].
  intros _ s3 (V3 & O3 & C3 & E3 & _). pose proof (calm_around _ _ _ _ C2 C3) as C. apply wp_bind, wp_ret.
  destruct st; [| done | |]; (apply wp_ret; exists V3; split; [done |]; split; [done |]; by rewrite E3).
Qed.
Lemma finish_stored s2 V2 h2 :
  ok hash s2 V2 -> calm s1 V1 s2 V2 -> hdrs s2 !! x = Some h2 -> v_map V2 !! k = Some x -> P (STORED, Some (ITEM_get_cas h2)) (cached s2 V2) ->
  wp (do_item_remove o ;;; (ret tt ;;; report STORED x)) s2 finished.
Proof.
  intros O2 C2 Hh2 Hm2 HP. apply wp_bind. eapply wp_mono; [apply (give_cached s2 V2 o O2); by rewrite (ca_held _ _ _ _ C2) |].
  intros _ s3 (V3 & O3 & C3 & E3 & K3). destruct (K3 k x h2 Hm2 Hh2) as (_ & h3 & Hh3 & Hc3).
  apply wp_bind, wp_ret. apply wp_bind. eapply wp_hdr_of; [exact Hh3 |]. apply wp_ret. exists V3. split; [done |].
  split; [by eapply calm_around |]. by rewrite E3, Hc3.
Qed.
Lemma finish_joined n s2 V2 h2 :
  ok hash s2 V2 -> calm_but n 1 s1 V1 s2 V2 -> v_held V1 n = 0 -> n <> o -> hdrs s2 !! n = Some h2 -> v_map V2 !! k = Some n -> P (STORED, Some (ITEM_get_cas h2)) (cached s2 V2) ->
  wp (do_item_remove o ;;; (do_item_remove n ;;; report STORED n)) s2 finished.
Proof.
  intros O2 C2 Hn Hne Hh2 Hm2 HP. apply wp_bind. eapply wp_mono; [apply (give_cached s2 V2 o O2); by rewrite (cb_held _ _ _ _ _ _ C2) |].
  intros _ s3 (V3 & O3 & C3 & E3 & K3). destruct (K3 k n h2 Hm2 Hh2) as (M3 & h3 & Hh3 & Hc3). pose proof (calm_swap o n _ _ _ _ _ _ _ _ Hne found_o C2 C3) as C.
  assert (Hn0 : v_held V n = 0) by (rewrite <- Hn; symmetry; by apply (cb_held _ _ _ _ _ _ found_o)).
  apply wp_bind. eapply wp_mono; [apply (give_cached s3 V3 n O3); rewrite (cb_at _ _ _ _ _ _ C); lia |]. intros _ s4 (V4 & O4 & C4 & E4 & K4). destruct (K4 k n h3 M3 Hh3) as (_ & h4 & Hh4 & Hc4).
  apply wp_bind. eapply wp_hdr_of; [exact Hh4 |]. apply wp_ret. exists V4. split; [done |].
  split; [apply (calm_but_calm n); change 0 with (1 + -1); by eapply calm_but_trans |]. by rewrite E4, E3, Hc4, Hc3.
Qed.
End Finish.

(** The rest of do_store_item, once [r] is known. *)
Definition store_end (x : ptr) (old_it : option ptr) (r : option (store_item_type * option ptr)) : SM (store_item_type * option Z) :=
  match old_it with Some o => do_item_remove o | None => ret tt end ;;;
  match r with
  | None => ret (NOT_STORED, None)
  | Some (stored, new_it) =>
      match new_it with Some n => do_item_remove n | None => ret tt end ;;;
      match stored with STORED => h <- hdr_of (default x new_it) ;; ret (STORED, Some (ITEM_get_cas h)) | _ => ret (stored, None) end
  end.

Lemma store_some s V s1 V1 x k e eo o comm :
  plain s -> room 2 V -> Z.of_nat (length k) <= 250 -> NREAD_ADD <= comm <= NREAD_CAS ->
  ok hash s1 V1 -> loose s1 V1 x k e -> calm_but o 1 s V s1 V1 -> cached s1 V1 = cached s V -> hit s1 V1 k o eo ->
  wp (r <- (if comm =? NREAD_ADD then do_item_update o ;;; ret (Some (NOT_STORED, None))
           else if comm =? NREAD_CAS then
             h <- hdr_of x ;;
             ho <- hdr_of o ;;
             if ITEM_get_cas h =? ITEM_get_cas ho then item_replace o x (hash k) ;;; ret (Some (STORED, None)) else ret (Some (EXISTS, None))
           else store_new hash lockable junk x (Some o) k comm (hash k)) ;;
      store_end x (Some o) r) s1 (finished s V (storing (cfg s) (current_time (cnt s)) k e (cached s V) comm)).
Proof.
  intros Hp Hr Hlen Hcomm O1 L C1 E1 H. pose proof H as (Hk & Ho & He & ho & Hho & <- & Hl). pose proof L as (L1 & L2 & L3 & h & Hh & _ & Ls & _ & <-).
  assert (Hxo : x <> o) by (intros ->; by apply (L2 k)). assert (Hp1 : plain s1) by (unfold plain; rewrite (cb_cfg _ _ _ _ _ _ C1); exact Hp).
  assert (Hr1 : room 1 V1).
  { intros y. specialize (Hr y). destruct (decide (y = o)) as [->|]; [rewrite (cb_at _ _ _ _ _ _ C1) | rewrite (cb_held _ _ _ _ _ _ C1) by done]; lia. }
  assert (P : pinned s1 V1 k o). { split; [done |]. split; [by apply (ok_mapped hash hash_range None s1 V1) |]. intros y Hy. congruence. }
  rewrite <- (cb_cfg _ _ _ _ _ _ C1), <- (cb_time _ _ _ _ _ _ C1), <- E1. set (m := cached s1 V1) in *. set (c := cfg s1). set (now := current_time (cnt s1)).
  (* [x] in place of [o] *)
  assert (Hput : (forall n, storing c now k (entry_of h) m comm (STORED, Some n) (<[k := stamp now (with_cas n (entry_of h))]> m)) ->
    wp (item_replace o x (hash k)) s1 (fun _ s' => wp (store_end x (Some o) (Some (STORED, None))) s' (finished s V (storing c now k (entry_of h) m comm)))).
  { intros Hs. eapply wp_mono; [by apply (replace_cached hash hash_range s1 V1 o x k (entry_of h) O1) |].
    intros _ s2 (V2 & O2 & C2 & h2 & Hh2 & Hm2 & E2 & _). apply (finish_stored s V s1 V1 x o k _ C1 Ho s2 V2 h2 O2 C2 Hh2 Hm2). rewrite E2. apply Hs. }
  assert (Hnone : forall st, st <> STORED -> storing c now k (entry_of h) m comm (st, None) m ->
    wp (store_end x (Some o) (Some (st, None))) s1 (finished s V (storing c now k (entry_of h) m comm))).
  { intros st Hst Hs. by apply (finish_none s V s1 V1 x o _ C1 Ho st s1 V1 O1 (calm_refl s1 V1)). }
  apply wp_bind. destruct (Z.eqb_spec comm NREAD_ADD) as [->|N1].
  { apply wp_bind. eapply wp_mono; [by apply (update_cached hash hash_range s1 V1 k o (entry_of ho) O1) |].
    intros _ s2 (V2 & O2 & C2 & _ & _ & E2). apply wp_ret. apply (finish_none s V s1 V1 x o _ C1 Ho NOT_STORED s2 V2 O2 C2); [done |]. rewrite E2. apply add_present. by eexists. }
  destruct (Z.eqb_spec comm NREAD_CAS) as [->|N2].
  { apply wp_bind. eapply wp_hdr_of; [exact Hh |]. apply wp_bind. eapply wp_hdr_of; [exact Hho |]. destruct (Z.eqb_spec (ITEM_get_cas h) (ITEM_get_cas ho)) as [Ec|Ec].
    - apply wp_bind. eapply wp_mono; [apply Hput; intros n; by apply (put_cas _ _ _ _ _ n (entry_of ho)) |]. intros z s2 W. by apply wp_ret.
    - apply wp_ret, Hnone; [done |]. by apply (cas_differs _ _ _ _ _ (entry_of ho)). }
  unfold store_new. destruct (_ || _) eqn:Ej.
  - assert (Hj : joins comm) by (apply orb_prop in Ej as [E|E]; apply Z.eqb_eq in E; [by left | by right]).
    apply wp_bind. eapply wp_hdr_of; [exact Hh |]. apply wp_bind. eapply wp_hdr_of; [exact Hho |].
    destruct (negb (ITEM_get_cas h =? 0) && negb (ITEM_get_cas h =? ITEM_get_cas ho)) eqn:Ec.
    { apply andb_prop in Ec as [Ec1 Ec2]. apply wp_ret, Hnone; [done |]. apply (join_differs _ _ _ _ _ (entry_of ho)); [done | done | simpl; lia | simpl; lia]. }
    assert (Hc : e_cas (entry_of h) = 0 \/ e_cas (entry_of h) = e_cas (entry_of ho)) by (simpl; destruct (Z.eqb_spec (ITEM_get_cas h) 0); [by left | right; simpl in Ec; lia]).
    apply wp_bind. eapply wp_mono; [by apply (combine_cached s1 V1 x o k (entry_of h) (entry_of ho) comm (hash k) O1) |].
    intros [n|] s2 (V2 & O2 & Sub & A).
    + destruct A as (C2 & Hn & P2 & Hne & en & Ln & Een). apply wp_bind, wp_bind.
      eapply wp_mono; [by apply (replace_cached hash hash_range s2 V2 o n k en O2) |]. intros _ s3 (V3 & O3 & C3 & h3 & Hh3 & Hm3 & E3 & _). apply wp_ret, wp_ret.
      assert (C23 : calm_but n 1 s1 V1 s3 V3) by (change 1 with (1 + 0); eapply calm_but_trans; [exact C2 | by apply calm_but_calm]).
      apply (finish_joined s V s1 V1 o k _ C1 Ho n s3 V3 h3 O3 C23 Hn Hne Hh3 Hm3). rewrite E3, (cb_time _ _ _ _ _ _ C2). fold now. rewrite Een.
      by apply put_join.
    + apply wp_ret. unfold store_end. eapply wp_mono. 1: apply (finish_none s V s1 V1 x o (storing c now k (entry_of h) m comm) C1 Ho NOT_STORED s2 V2 O2 A); [done |]. 2: done.
      apply join_no_memory; [done | by eexists | done].
  - apply wp_bind, wp_bind. eapply wp_mono; [apply Hput | intros z s2 W; by apply wp_ret, wp_ret].
    intros n. apply orb_false_elim in Ej as [E2 E3]. apply Z.eqb_neq in E2, E3. unfold NREAD_ADD, NREAD_SET, NREAD_REPLACE, NREAD_APPEND, NREAD_PREPEND, NREAD_CAS in *.
    assert (comm = 2 \/ comm = 3) as [->| ->] by lia; [apply put_set | apply put_replace; by eexists].
Qed.

Lemma do_store_item_cached s V x k e comm :
  ok hash s V -> plain s -> room 2 V -> loose s V x k e -> Z.of_nat (length k) <= 250 -> NREAD_ADD <= comm <= NREAD_CAS ->
  wp (do_store_item hash lockable junk x comm (hash k)) s (finished s V (storing (cfg s) (current_time (cnt s)) k e (cached s V) comm)).
Proof.
  intros O Hp Hr L Hlen Hcomm. pose proof L as (L1 & L2 & L3 & h & Hh & _ & Ls & _ & <-).
  unfold do_store_item. apply wp_bind. eapply wp_ITEM_key; [exact L3 |]. apply wp_bind.
  eapply wp_mono; [apply (get_cached hash hash_range s V k O); apply (room_le 2 1); [lia | done] |]. intros [o|] s1 (V1 & O1 & St & G).
  - destruct G as (C1 & E1 & eo & _ & H). assert (Hxo : x <> o).
    { intros ->. destruct H as (Hk & _). by apply (L2 k), (st_map _ _ _ _ St). }
    apply (store_some s V s1 V1 x k (entry_of h) eo o comm); try done.
    apply (loose_stays hash s V s1 V1 x k _ O1 St); [by apply (cb_held _ _ _ _ _ _ C1) | done].
  - destruct G as (C1 & Hn & Hm & E1). pose proof (loose_stays hash s V s1 V1 x k _ O1 St (ca_held _ _ _ _ C1 x) L) as Lx.
    set (c := cfg s) in *. set (now := current_time (cnt s)) in *. set (m := cached s V) in *.
    assert (Hnone : forall st, st <> STORED -> storing c now k (entry_of h) m comm (st, None) (delete k m) ->
      wp (store_end x None (Some (st, None))) s1 (finished s V (storing c now k (entry_of h) m comm))).
    { intros st Hst Hs. apply wp_bind, wp_ret. apply wp_bind, wp_ret. destruct st; [| done | |]; apply wp_ret; exists V1; by rewrite E1. }
    unfold NREAD_ADD, NREAD_SET, NREAD_REPLACE, NREAD_APPEND, NREAD_PREPEND, NREAD_CAS in *. apply wp_bind. destruct (_ || _) eqn:Ej.
    { apply wp_ret, (Hnone NOT_STORED); [done |]. apply none_there; [|done]. unfold joins. unfold NREAD_REPLACE, NREAD_APPEND, NREAD_PREPEND. lia. }
    destruct (Z.eqb_spec comm 6) as [->|N2]; [apply wp_ret, (Hnone NOT_FOUND); [done | by apply cas_none_there] |].
    unfold store_new. unfold NREAD_APPEND, NREAD_PREPEND. replace ((comm =? 4) || (comm =? 5)) with false by lia.
    apply wp_bind, wp_bind. eapply wp_mono; [by apply (link_cached hash hash_range s1 V1 x k (entry_of h) O1 Lx) |].
    intros z s2 (V2 & O2 & C2 & h2 & Hh2 & Hm2 & E2 & _). apply wp_ret, wp_ret. apply wp_bind, wp_ret. apply wp_bind, wp_ret. apply wp_bind. eapply wp_hdr_of; [exact Hh2 |].
    apply wp_ret. exists V2. split; [done |]. split; [by eapply calm_trans |]. rewrite E2, E1, insert_delete_eq, (ca_time _ _ _ _ C1). fold now.
    assert (comm = 1 \/ comm = 2) as [->| ->] by lia; [by apply put_add | apply put_set].
Qed.
End Ok.
