(* ===== verification/UpdateThm.v ===== *)
(** The storing commands with their data: what they do to the map. *)
From S2P Require Import Prelude CStr CDec Assoc AssocThm DList Store Slabs Items StoreCmd StoreInv LruThm SlabsThm ItemsThm ItemsGet PullThm AllocThm CacheSpec CachedThm StoreThm.
Local Open Scope Z_scope.

(** The time of expiry of a command: negative ones are over at once. *)
Definition expiry (process_started exptime_int : Z) (s : store) : Z :=
  realtime process_started (if exptime_int <? 0 then REALTIME_MAXDELTA + 1 else exptime_int) s.
Definition ends_in_crlf (data : list ascii) : Prop := drop (length data - 2) data = [CR; LF].
(** The entry a storing command brings. *)
Definition brought (c : settings) (now : Z) (flags exptime req : Z) (data : list ascii) : entry :=
  Entry (item_suffix flags (Z.of_nat (length data))) data exptime (if use_cas c then req else 0) now.

(** A storing command on the map [m]: [m0] is what is left of it when memory has been
    found for the new item.  A set for which there is no memory takes the old entry
    away. *)
Inductive updating (c : settings) (now : Z) (k : list ascii) (flags exptime vlen comm req : Z) (data : list ascii) (m : cache) : list ascii -> cache -> Prop :=
  | bad_line : KEY_MAX_LENGTH < Z.of_nat (length k) \/ i32 (vlen + 2) < 2 ->
      updating c now k flags exptime vlen comm req data m (lit "CLIENT_ERROR bad command line format") m
  | no_memory m0 reply : m0 ⊆ m -> reply = lit "SERVER_ERROR out of memory storing object" \/ reply = lit "SERVER_ERROR object too large for cache" ->
      updating c now k flags exptime vlen comm req data m reply (if comm =? NREAD_SET then delete k m0 else m0)
  | bad_chunk m0 : m0 ⊆ m -> ~ ends_in_crlf data -> updating c now k flags exptime vlen comm req data m (lit "CLIENT_ERROR bad data chunk") m0
  | data_stored m0 m' r : m0 ⊆ m -> ends_in_crlf data -> storing c now k (brought c now flags exptime req data) m0 comm r m' ->
      updating c now k flags exptime vlen comm req data m (reply_of r.1) m'.

Section Ok.
Variable hash : list ascii -> Z.
Hypothesis hash_range : forall k, 0 <= hash k < 2 ^ 32.
Variable lockable : Z -> bool.
Variable junk : Z -> list ascii.
Hypothesis junk_length : forall n, 0 <= n -> Z.of_nat (length (junk n)) = n.

(** A set that finds no memory. *)
Lemma drop_old_cached s V k :
  ok hash s V -> room 1 V ->
  wp (old <- item_get hash k ;; match old with Some o => item_unlink hash o ;;; item_remove o | None => ret tt end) s
    (fun _ s' => exists V', ok hash s' V' /\ calm s V s' V' /\ cached s' V' = delete k (cached s V)).
Proof.
  intros O Hr. unfold item_get. apply wp_bind. eapply wp_mono; [by apply (get_cached hash hash_range s V k O) |]. intros [o|] s1 (V1 & O1 & St & G).
  - destruct G as (C1 & E1 & e & _ & Hk & Ho & _). destruct (ok_mapped _ hash_range _ _ _ _ _ O1 Hk) as (Hik & h & Hh & Hl).
    unfold item_unlink. apply wp_bind, wp_bind. eapply wp_ITEM_key; [exact Hik |].
    eapply wp_mono; [by apply (unlink_cached hash hash_range s1 V1 o k O1) |]. intros z s2 (V2 & O2 & N2 & C2 & M2 & E2).
    unfold item_remove. apply wp_bind. eapply wp_ITEM_key; [by rewrite (o_key _ _ _ _ _ N2) |].
    eapply wp_mono; [apply (give_cached hash hash_range s2 V2 o O2); by rewrite (ca_held _ _ _ _ C2) |]. intros z2 s3 (V3 & O3 & C3 & E3 & _).
    exists V3. split; [done |]. split; [by apply (calm_around s V s1 V1 o C1 s2 V2) | by rewrite E3, E2, E1].
  - destruct G as (C1 & Hn & _ & E1). apply wp_ret. by exists V1.
Qed.

(** The number the client sent is put in the new item. *)
Lemma set_cas_cached s V x k h v :
  ok hash s V -> hdrs s !! x = Some h -> loose s V x k (entry_of h) ->
  let s' := set_hdrs (<[x := ITEM_set_cas v h]> (hdrs s)) s in
  exists V', ok hash s' V' /\ calm s V s' V' /\ cached s' V' = cached s V /\ loose s' V' x k (entry_of (ITEM_set_cas v h)).
Proof.
  intros O Hh (L1 & L2 & L3 & h2 & L4 & L5 & L6 & L7 & _) s'. assert (h2 = h) as -> by congruence.
  assert (E : linked (ITEM_set_cas v h) = linked h /\ slabbed (ITEM_set_cas v h) = slabbed h /\ it_clsid (ITEM_set_cas v h) = it_clsid h) by (unfold ITEM_set_cas; by destruct (has _ _)).
  destruct E as (E1 & E2 & E3). assert (O' : ok hash s' (hold x 0 V)).
  { apply (ok_upd_hdr hash None s V x h); try done. pose proof (ok_item _ _ _ _ O x h Hh) as Hi. rewrite Z.add_0_r. unfold item_ok, item_used in *. rewrite E1, E2, E3.
    unfold ITEM_set_cas. destruct (has _ _); exact Hi. }
  exists (hold x 0 V). pose proof (only_hdr x s V (ITEM_set_cas v h) 0) as N. split; [done |].
  split; [apply (calm_but_calm x), (only_calm x 0); [done | apply hold_eq] |]. split; [by apply (cached_aside s V _ _ x) |].
  apply (loose_intro hash); [done | rewrite hold_eq; lia | done | done | apply lookup_insert_eq].
Qed.

(** The data is there: it is checked, and stored. *)
Lemma complete_cached s V x k h data comm :
  ok hash s V -> plain s -> room 2 V -> hdrs s !! x = Some h -> loose s V x k (entry_of h) -> Z.of_nat (length k) <= 250 -> NREAD_ADD <= comm <= NREAD_CAS ->
  it_nbytes h = Z.of_nat (length data) ->
  wp (nread x data ;;; complete_nread_ascii hash lockable junk x comm) s (fun reply s' => exists V', ok hash s' V' /\ calm_but x (-1) s V s' V' /\
    let e := Entry (it_suffix h) data (it_exptime h) (ITEM_get_cas h) (it_time h) in
    ((~ ends_in_crlf data /\ reply = lit "CLIENT_ERROR bad data chunk" /\ cached s' V' = cached s V) \/
     (ends_in_crlf data /\ exists r, reply = reply_of r.1 /\ storing (cfg s) (current_time (cnt s)) k e (cached s V) comm r (cached s' V')))).
Proof.
  intros O Hp Hr Hh L Hlen Hcomm Hn. pose proof L as (L1 & _ & L3 & h2 & L4 & _ & Ls & _). assert (h2 = h) as -> by congruence.
  destruct (used_bytes hash s V x h O Hh Ls) as [B1 B2]. unfold nread. apply wp_bind, wp_bind. eapply wp_hdr_of; [exact Hh |]. apply wp_bind, wp_assert; [by apply Z.eqb_eq |].
  eapply wp_mono; [apply (write_cached hash s V x k h 0 data O Hh L); lia |]. intros _ s1 (V1 & O1 & N1 & C1 & M1 & E1 & Hh1 & Lx). set (h1 := set_data _ h) in *.
  assert (Eb : e_bytes (entry_of h1) = data).
  { cbn [entry_of e_bytes h1 it_nbytes it_data set_data]. rewrite Hn, Nat2Z.id. apply (take_splice 0). lia. }
  assert (Hd : it_nbytes h1 <= Z.of_nat (length (it_data h1))) by (cbn [h1 it_nbytes it_data set_data]; rewrite splice_length; simpl; lia).
  unfold complete_nread_ascii. apply wp_bind. eapply wp_hdr_of; [exact Hh1 |]. apply wp_bind, wp_read_data; [done |]. rewrite Eb.
  assert (He : entry_of h1 = Entry (it_suffix h) data (it_exptime h) (ITEM_get_cas h) (it_time h)) by (rewrite <- Eb; reflexivity).
  assert (Hgive : forall s2 V2 reply (Q : list ascii -> store -> Prop), ok hash s2 V2 -> calm s1 V1 s2 V2 ->
    (forall s3 V3, ok hash s3 V3 -> calm_but x (-1) s V s3 V3 -> cached s3 V3 = cached s2 V2 -> Q reply s3) -> wp (item_remove x ;;; ret reply) s2 Q).
  { intros s2 V2 reply Q O2 C2 HQ. assert (Hx2 : 0 < v_held V2 x) by (rewrite (ca_held _ _ _ _ C2), (ca_held _ _ _ _ C1); lia).
    destruct (held_hdr hash None s2 V2 x O2 Hx2) as [hx Hhx]. destruct (ok_links hash None s2 V2 x O2 ltac:(by eexists)) as (_ & _ & _ & [k2 Hk2]).
    apply wp_bind. unfold item_remove. apply wp_bind. eapply wp_ITEM_key; [exact Hk2 |]. eapply wp_mono; [by apply (give_cached hash hash_range s2 V2 x O2) |].
    intros _ s3 (V3 & O3 & C3 & E3 & _). apply wp_ret. apply (HQ s3 V3 O3); [|done]. change (-1) with (0 + (0 + -1)).
    eapply calm_but_trans; [by apply calm_but_calm |]. eapply calm_but_trans; [by apply calm_but_calm | exact C3]. }
  apply wp_bind. destruct (bool_decide _) eqn:Eb2.
  - apply bool_decide_eq_true in Eb2. apply wp_bind. unfold store_item. apply wp_bind. eapply wp_ITEM_key; [by rewrite (o_key _ _ _ _ _ N1) |].
    eapply wp_mono; [apply (do_store_item_cached hash hash_range lockable junk junk_length s1 V1 x k (entry_of h1) comm); try done; [by eapply calm_plain | by eapply calm_room] |].
    intros r s2 (V2 & O2 & C2 & Hst). apply wp_ret. apply (Hgive s2 V2 _ _ O2 C2). intros s3 V3 O3 C3 E3. exists V3. split; [done |]. split; [done |]. right. split; [done |].
    exists r. split; [done |]. rewrite E3. rewrite He, E1, (ca_cfg _ _ _ _ C1), (ca_time _ _ _ _ C1) in Hst. exact Hst.
  - apply bool_decide_eq_false in Eb2. apply wp_ret. apply (Hgive s1 V1 _ _ O1 (calm_refl s1 V1)). intros s3 V3 O3 C3 E3. exists V3. split; [done |]. split; [done |]. left. by rewrite E3.
Qed.

Lemma item_size_ok_spec s V nkey flags nbytes :
  ok hash s V -> 0 <= nkey <= 250 -> 2 <= nbytes < 2 ^ 31 -> wp (item_size_ok nkey flags nbytes) s (fun _ s' => s' = s).
Proof.
  intros O Hk Hn. unfold item_size_ok. apply wp_bind, wp_gets. rewrite item_total_eq by done. cbn [snd]. apply wp_bind.
  eapply wp_mono; [apply (slabs_clsid_spec hash None _ s V O); unfold sizeof_item; destruct (use_cas (cfg s)); lia |]. intros c s' (-> & _). by apply wp_ret.
Qed.

Lemma update_command_cached s V started k flags exptime_int vlen comm req data :
  ok hash s V -> plain s -> room 3 V -> NREAD_ADD <= comm <= NREAD_CAS -> (2 <= i32 (vlen + 2) -> Z.of_nat (length data) = i32 (vlen + 2)) ->
  wp (update_command hash lockable junk started k flags exptime_int vlen comm req data) s (fun reply s' => exists V', ok hash s' V' /\ calm s V s' V' /\
    updating (cfg s) (current_time (cnt s)) k (i32 flags) (expiry started exptime_int s) vlen comm req data (cached s V) reply (cached s' V')).
Proof.
  intros O Hp Hr Hcomm Hlen. unfold update_command, process_update.
  assert (Hbad : forall reply, (KEY_MAX_LENGTH < Z.of_nat (length k) \/ i32 (vlen + 2) < 2) -> reply = lit "CLIENT_ERROR bad command line format" ->
    wp (r <- ret (inr reply) ;; match r with inr reply => ret reply | inl it => nread it data ;;; complete_nread_ascii hash lockable junk it comm end) s
      (fun reply s' => exists V', ok hash s' V' /\ calm s V s' V' /\
    updating (cfg s) (current_time (cnt s)) k (i32 flags) (expiry started exptime_int s) vlen comm req data (cached s V) reply (cached s' V'))).
  { intros reply Hb ->. apply wp_bind, wp_ret, wp_ret. exists V. split; [done |]. split; [apply calm_refl | by apply bad_line]. }
  unfold KEY_MAX_LENGTH in *. destruct (Z.ltb_spec 250 (Z.of_nat (length k))); [apply Hbad; [by left | done] |].
  destruct (_ || _) eqn:Ev; [apply Hbad; [right; lia | done] |]. assert (Hv : 2 <= i32 (vlen + 2)) by lia. pose proof (i32_range (vlen + 2)) as Hv2. specialize (Hlen Hv).
  apply wp_bind, wp_bind, wp_gets. change (realtime started _ s) with (expiry started exptime_int s). apply wp_bind. unfold item_alloc.
  eapply wp_mono; [apply (alloc_cached hash hash_range lockable junk junk_length s V k _ _ _ 0 O Hp); [by apply (room_le 3 1); [lia | done] | lia | change (2 ^ 31) with 2147483648; lia] |].
  intros [x|] s1 (V1 & O1 & St & Sub & A).
  - destruct A as (C1 & Hx0 & h & Hh & L & Hsu & Hex & Hnb & _ & Hcas). apply wp_bind. eapply wp_upd_hdr; [exact Hh |]. apply wp_ret.
    destruct (set_cas_cached s1 V1 x k h req O1 Hh L) as (V2 & O2 & C2 & E2 & L2). set (s2 := set_hdrs _ s1) in *. set (h2 := ITEM_set_cas req h) in *.
    assert (Hf : it_suffix h2 = it_suffix h /\ it_exptime h2 = it_exptime h /\ it_nbytes h2 = it_nbytes h /\ ITEM_get_cas h2 = if use_cas (cfg s) then req else 0).
    { rewrite <- (cb_cfg _ _ _ _ _ _ C1), <- Hcas. unfold h2, ITEM_set_cas, ITEM_get_cas. destruct (has ITEM_CAS h) eqn:Eh; [|by rewrite Eh]. change (has ITEM_CAS (set_cas req h)) with (has ITEM_CAS h). by rewrite Eh. }
    destruct Hf as (F1 & F2 & F3 & F4).
    eapply wp_mono; [apply (complete_cached s2 V2 x k h2 data comm O2); try done; [| | apply lookup_insert_eq | lia] |].
    + eapply calm_plain; [exact C2 |]. unfold plain. rewrite (cb_cfg _ _ _ _ _ _ C1). exact Hp.
    + intros y. rewrite (ca_held _ _ _ _ C2). destruct (decide (y = x)) as [->|Hne]; [rewrite (cb_at _ _ _ _ _ _ C1); lia | rewrite (cb_held _ _ _ _ _ _ C1) by done]. specialize (Hr y). lia.
    + intros reply s3 (V3 & O3 & C3 & Hout). exists V3. split; [done |].
      split; [apply (calm_but_calm x); change 0 with (1 + (0 + -1)); eapply calm_but_trans; [exact C1 |]; eapply calm_but_trans; [by apply calm_but_calm | exact C3] |].
      rewrite E2 in Hout. destruct Hout as [(Hc & -> & E3)|(Hc & r & -> & Hst)].
      * rewrite E3. by apply bad_chunk.
      * apply (data_stored _ _ _ _ _ _ _ _ _ _ (cached s1 V1)); [done | done |].
        rewrite (ca_cfg _ _ _ _ C2), (ca_time _ _ _ _ C2), (cb_cfg _ _ _ _ _ _ C1), (cb_time _ _ _ _ _ _ C1), F1, F2, F4, Hsu, Hex, <- Hlen in Hst.
        by apply (storing_stamp _ _ _ _ (it_time h2)).
  - assert (R1 : room 1 V1) by (eapply calm_room; [exact A |]; apply (room_le 3 1); [lia | done]).
    apply wp_bind. eapply wp_mono; [apply (item_size_ok_spec s1 V1 _ _ _ O1); [lia | change (2 ^ 31) with 2147483648; lia] |]. intros b s2 ->. apply wp_bind.
    assert (Hdrop : wp (if comm =? NREAD_SET then old <- item_get hash k ;; match old with Some o => item_unlink hash o ;;; item_remove o | None => ret tt end else ret tt) s1
      (fun _ s' => exists V', ok hash s' V' /\ calm s V s' V' /\ cached s' V' = if comm =? NREAD_SET then delete k (cached s1 V1) else cached s1 V1)).
    { destruct (comm =? NREAD_SET); [|apply wp_ret; by exists V1]. eapply wp_mono; [by apply (drop_old_cached s1 V1 k O1) |].
      intros _ s2 (V2 & O2 & C2 & E2). exists V2. split; [done |]. split; [by eapply calm_trans | done]. }
    eapply wp_mono; [exact Hdrop |]. intros _ s2 (V2 & O2 & C2 & E2). apply wp_ret, wp_ret. exists V2. split; [done |]. split; [done |]. rewrite E2.
    apply no_memory; [done |]. destruct b; [by left | by right].
Qed.
End Ok.
