(* ===== verification/LookupThm.v ===== *)
(** Retrieval, deletion and touch: what they answer, and what they do to the map. *)
From S2P Require Import Prelude CStr CDec Assoc AssocThm DList Store Slabs Items StoreCmd StoreInv LruThm SlabsThm ItemsThm ItemsGet PullThm AllocThm CacheSpec CachedThm StoreThm.
Local Open Scope Z_scope.

(** How often a reference to [y] is held by a list of items to release. *)
Fixpoint occ (y : ptr) (l : list ptr) : Z := match l with [] => 0 | x :: l => (if decide (y = x) then 1 else 0) + occ y l end.
Lemma occ_nonneg y l : 0 <= occ y l.
Proof. induction l; simpl; [done |]. case_decide; lia. Qed.
Lemma occ_length y l : occ y l <= Z.of_nat (length l).
Proof. induction l; cbn [occ length]; [done |]. case_decide; lia. Qed.

(** The references in [l] are held besides. *)
Record holding (l : list ptr) (s : store) (V : view) (s' : store) (V' : view) : Prop := {
  ho_held y : v_held V' y = v_held V y + occ y l;
  ho_cfg : cfg s' = cfg s;
  ho_time : current_time (cnt s') = current_time (cnt s);
  ho_chunks : same_chunks (mem s) (mem s')
}.
Lemma holding_calm s V s' V' : holding [] s V s' V' <-> calm s V s' V'.
Proof. split; intros [A1 A2 A3 A4]; constructor; try done; intros y; rewrite A1; simpl; lia. Qed.
Lemma holding_cons x l s V s1 V1 s2 V2 : calm_but x 1 s V s1 V1 -> holding l s1 V1 s2 V2 -> holding (x :: l) s V s2 V2.
Proof.
  intros [A1 A2 A3 A4 A5] [B1 B2 B3 B4]. constructor; [|congruence | congruence | by eapply same_chunks_trans].
  intros y. rewrite B1. cbn [occ]. destruct (decide (y = x)) as [->|Hne]; [rewrite A1; lia | rewrite A2 by done; lia].
Qed.
Lemma calm_but_0_l x n s V s1 V1 s2 V2 : calm s V s1 V1 -> calm_but x n s1 V1 s2 V2 -> calm_but x n s V s2 V2.
Proof. intros C D. replace n with (0 + n) by lia. eapply calm_but_trans; [by apply calm_but_calm | done]. Qed.
Lemma calm_but_0_r x n s V s1 V1 s2 V2 : calm_but x n s V s1 V1 -> calm s1 V1 s2 V2 -> calm_but x n s V s2 V2.
Proof. intros C D. replace n with (n + 0) by lia. eapply calm_but_trans; [done | by apply calm_but_calm]. Qed.

Section Ok.
Variable hash : list ascii -> Z.
Hypothesis hash_range : forall k, 0 <= hash k < 2 ^ 32.

Lemma get_items_cached rc : forall keys s V,
  ok hash s V -> plain s -> room (Z.of_nat (length keys)) V ->
  wp (get_items hash rc keys) s (fun r s' => exists V', ok hash s' V' /\ holding r.2 s V s' V' /\ (length r.2 <= length keys)%nat /\
    serve (cfg s) (current_time (cnt s)) rc keys (cached s V) = (r.1, cached s' V')).
Proof.
  induction keys as [|k keys IH]; intros s V O Hp Hr; cbn [get_items serve].
  - apply wp_ret. exists V. split; [done |]. split; [by apply holding_calm, calm_refl | done].
  - destruct (_ <? _); [apply wp_ret; exists V; split; [done |]; split; [by apply holding_calm, calm_refl | split; [simpl; lia | done]] |].
    unfold item_get. cbn [length] in Hr. apply wp_bind. eapply wp_mono; [apply (get_cached hash hash_range s V k O); apply (room_le (Z.of_nat (S (length keys))) 1); [lia | done] |]. intros [x|] s1 (V1 & O1 & St & G).
    + destruct G as (C1 & E1 & e & He & H). pose proof H as (Hk & Hx & He1 & h & Hh & Ee & Hl). destruct (ok_mapped _ hash_range _ _ _ _ _ O1 Hk) as (Hik & _).
      destruct (used_bytes hash s1 V1 x h O1 Hh) as [B1 B2]; [by apply (used_not_slabbed hash None s1 V1 x h) |].
      assert (Hp1 : plain s1) by (unfold plain; rewrite (cb_cfg _ _ _ _ _ _ C1); exact Hp).
      apply wp_bind. eapply wp_ITEM_key; [exact Hik |]. apply wp_bind. eapply wp_hdr_of; [exact Hh |]. apply wp_bind, wp_read_data; [done |].
      apply wp_bind. unfold item_update. apply wp_bind. eapply wp_ITEM_key; [exact Hik |].
      eapply wp_mono; [by apply (update_cached hash hash_range s1 V1 k x e O1) |]. intros _ s2 (V2 & O2 & C2 & _ & _ & E2). apply wp_bind.
      pose proof (calm_but_0_r _ _ _ _ _ _ _ _ C1 C2) as C12.
      eapply wp_mono; [apply (IH s2 V2 O2) |].
      * eapply calm_plain; [exact C2 | done].
      * intros y. specialize (Hr y). destruct (decide (y = x)) as [->|Hne]; [rewrite (cb_at _ _ _ _ _ _ C12) | rewrite (cb_held _ _ _ _ _ _ C12) by done]; lia.
      * intros r s3 (V3 & O3 & C3 & Hlen & E3). apply wp_ret. exists V3. split; [done |]. split; [by eapply holding_cons |]. split; [cbn [length snd]; lia |].
        rewrite He. unfold refresh in E2. rewrite He1 in E2. rewrite E2, E1, (cb_cfg _ _ _ _ _ _ C12), (cb_time _ _ _ _ _ _ C12), (cb_time _ _ _ _ _ _ C1) in E3. rewrite E3. cbn [fst snd]. f_equal. unfold render.
        by rewrite <- Ee.
    + destruct G as (C1 & Hn & _ & E1). rewrite Hn. assert (Hp1 : plain s1) by (by eapply calm_plain).
      eapply wp_mono; [apply (IH s1 V1 O1 Hp1); eapply calm_room; [exact C1 | apply (room_le (Z.of_nat (S (length keys)))); [lia | done]] |].
      intros r s2 (V2 & O2 & C2 & Hlen & E2). exists V2. split; [done |]. rewrite E1, (ca_cfg _ _ _ _ C1), (ca_time _ _ _ _ C1) in E2. split; [|split; [simpl; lia | done]].
      destruct C1 as [A1 A2 A3 A4], C2 as [B1 B2 B3 B4]. constructor; [intros y; by rewrite B1, A1 | congruence | congruence | by eapply same_chunks_trans].
Qed.
Lemma release_cached : forall l s0 V0 s V,
  (forall y, 0 <= v_held V0 y) -> ok hash s V -> holding l s0 V0 s V ->
  wp (conn_release_items l) s (fun _ s' => exists V', ok hash s' V' /\ calm s0 V0 s' V' /\ cached s' V' = cached s V).
Proof.
  induction l as [|x l IH]; intros s0 V0 s V Hpos O H; cbn [conn_release_items].
  - apply wp_ret. exists V. split; [done |]. by apply holding_calm in H.
  - assert (Hx : 0 < v_held V x) by (rewrite (ho_held _ _ _ _ _ H); cbn [occ]; rewrite decide_True by done; pose proof (occ_nonneg x l); specialize (Hpos x); lia).
    destruct (held_hdr hash None s V x O Hx) as [h Hh]. destruct (ok_links hash None s V x O ltac:(by eexists)) as (_ & _ & _ & [k Hk]).
    apply wp_bind. unfold item_remove. apply wp_bind. eapply wp_ITEM_key; [exact Hk |]. eapply wp_mono; [by apply (give_cached hash hash_range s V x O) |].
    intros _ s1 (V1 & O1 & C1 & E1 & _). eapply wp_mono; [apply (IH s0 V0 s1 V1 Hpos O1) |].
    + destruct H as [A1 A2 A3 A4], C1 as [B1 B2 B3 B4 B5]. constructor; [|congruence | congruence | by eapply same_chunks_trans].
      intros y. specialize (A1 y). cbn [occ] in A1. destruct (decide (y = x)) as [->|Hne]; [lia | rewrite B2 by done; lia].
    + intros _ s2 (V2 & O2 & C2 & E2). exists V2. split; [done |]. split; [done | congruence].
Qed.
Lemma held_pos s V : ok hash s V -> forall y, 0 <= v_held V y.
Proof.
  intros O y. destruct (hdrs s !! y) as [h|] eqn:E; [by destruct (ok_item _ _ _ _ O y h E) as (_ & _ & ? & _) | by rewrite (ok_unheld _ _ _ _ O y E)].
Qed.

Lemma occ_rev y l : occ y (rev l) = occ y l.
Proof.
  assert (occ_app : forall l1 l2, occ y (l1 ++ l2) = occ y l1 + occ y l2) by (induction l1 as [|x l1 IH]; intros l2; simpl; [done | rewrite IH; lia]).
  induction l as [|x l IH]; [done |]. cbn [rev]. rewrite occ_app, IH. simpl. lia.
Qed.
Lemma process_get_cached s V rc keys :
  ok hash s V -> plain s -> room (Z.of_nat (length keys)) V ->
  wp (process_get_command hash rc keys) s (fun reply s' => exists V', ok hash s' V' /\ calm s V s' V' /\
    let r := serve (cfg s) (current_time (cnt s)) rc keys (cached s V) in reply = served r.1 /\ cached s' V' = r.2).
Proof.
  intros O Hp Hr. unfold process_get_command. apply wp_bind. eapply wp_mono; [by apply get_items_cached |]. intros r s1 (V1 & O1 & C1 & _ & E1).
  rewrite E1. cbv zeta. cbn [fst snd].
  destruct r.1 as [text|]; apply wp_bind; (eapply wp_mono; [apply (release_cached _ s V s1 V1); [by apply held_pos with s | done |] |]).
  - done.
  - intros _ s2 (V2 & O2 & C2 & E2). apply wp_ret. by exists V2.
  - destruct C1 as [A1 A2 A3 A4]. constructor; try done. intros y. by rewrite A1, occ_rev.
  - intros _ s2 (V2 & O2 & C2 & E2). apply wp_ret. by exists V2.
Qed.

Lemma process_delete_cached s V k :
  ok hash s V -> room 1 V ->
  wp (process_delete_command hash k) s (fun reply s' => exists V', ok hash s' V' /\ calm s V s' V' /\ cached s' V' = delete k (cached s V) /\
    reply = match look (cfg s) (current_time (cnt s)) k (cached s V) with Some _ => lit "DELETED" | None => lit "NOT_FOUND" end).
Proof.
  intros O Hr. unfold process_delete_command, item_get. apply wp_bind. eapply wp_mono; [by apply (get_cached hash hash_range s V k O) |]. intros [o|] s1 (V1 & O1 & St & G).
  - destruct G as (C1 & E1 & e & He & Hk & Ho & _). destruct (ok_mapped _ hash_range _ _ _ _ _ O1 Hk) as (Hik & h & Hh & Hl).
    unfold item_unlink. apply wp_bind, wp_bind. eapply wp_ITEM_key; [exact Hik |].
    eapply wp_mono; [by apply (unlink_cached hash hash_range s1 V1 o k O1) |]. intros z s2 (V2 & O2 & N2 & C2 & M2 & E2).
    unfold item_remove. apply wp_bind, wp_bind. eapply wp_ITEM_key; [by rewrite (o_key _ _ _ _ _ N2) |].
    eapply wp_mono; [apply (give_cached hash hash_range s2 V2 o O2); by rewrite (ca_held _ _ _ _ C2) |]. intros z2 s3 (V3 & O3 & C3 & E3 & _).
    apply wp_ret. exists V3. split; [done |]. split; [by apply (calm_around s V s1 V1 o C1 s2 V2) |]. split; [by rewrite E3, E2, E1 | by rewrite He].
  - destruct G as (C1 & Hn & _ & E1). apply wp_ret. exists V1. split; [done |]. split; [done |]. by rewrite Hn.
Qed.

Lemma process_touch_cached s V started k exptime :
  ok hash s V -> plain s -> room 1 V ->
  wp (process_touch_command hash started k exptime) s (fun reply s' => exists V', ok hash s' V' /\ calm s V s' V' /\
    cached s' V' = touched (cfg s) (current_time (cnt s)) k (realtime started exptime s) (cached s V) /\
    reply = match look (cfg s) (current_time (cnt s)) k (cached s V) with Some _ => lit "TOUCHED" | None => lit "NOT_FOUND" end).
Proof.
  intros O Hp Hr. unfold process_touch_command, item_touch, do_item_touch, touched. apply wp_bind, wp_gets, wp_bind, wp_bind.
  eapply wp_mono; [by apply (get_cached hash hash_range s V k O) |]. intros [o|] s1 (V1 & O1 & St & G).
  - destruct G as (C1 & E1 & e & He & Hk & Ho & He1 & h & Hh & Ee & _). assert (Hp1 : plain s1) by (unfold plain; rewrite (cb_cfg _ _ _ _ _ _ C1); exact Hp).
    apply wp_bind. eapply wp_upd_hdr; [exact Hh |]. apply wp_ret. set (h2 := set_exptime _ h).
    destruct (edit_cached hash hash_range s1 V1 k o h h2 O1 Hk Hh) as (O2 & C2 & N2 & E2); [done |]. set (s2 := set_hdrs _ s1) in *. set (V2 := hold o 0 V1) in *.
    destruct (ok_mapped hash hash_range None s2 V2 k o O2 Hk) as (Hik & _).
    apply wp_bind. unfold item_update. apply wp_bind. eapply wp_ITEM_key; [exact Hik |].
    eapply wp_mono; [apply (update_item_cached hash hash_range s2 V2 k o h2 O2); [by eapply calm_plain | done | apply lookup_insert_eq] |].
    intros _ s3 (V3 & O3 & C3 & M3 & N3 & E3). pose proof (calm_trans _ _ _ _ _ _ C2 C3) as C23.
    apply wp_bind. unfold item_remove. apply wp_bind. eapply wp_ITEM_key; [by rewrite (o_key _ _ _ _ _ N3) |].
    eapply wp_mono; [apply (give_cached hash hash_range s3 V3 o O3); by rewrite (ca_held _ _ _ _ C23) |]. intros z2 s4 (V4 & O4 & C4 & E4 & _).
    apply wp_ret. exists V4. split; [done |]. split; [by apply (calm_around s V s1 V1 o C1 s3 V3) |]. rewrite He. split; [|done].
    rewrite E4, E3, E2, (ca_time _ _ _ _ C2), (cb_time _ _ _ _ _ _ C1), E1.
    replace (with_exptime (realtime started exptime s) e) with (entry_of h2) by (by rewrite <- Ee). done.
  - destruct G as (C1 & Hn & _ & E1). apply wp_ret. apply wp_ret. exists V1. split; [done |]. split; [done |]. by rewrite Hn, E1.
Qed.
End Ok.
