(* ===== verification/ArithThm.v ===== *)
(** incr and decr: the number in an item is changed in its place when the new one
    fits and nobody else has the item, and in a new item when not. *)
From S2P Require Import Prelude CStr CDec Assoc AssocThm DList Store Slabs Items StoreCmd StoreInv LruThm SlabsThm ItemsThm ItemsGet PullThm AllocThm CacheSpec CachedThm StoreThm LookupThm.
Local Open Scope Z_scope.

(** * Numbers *)

Lemma skip_space_app a b : skip_space a <> [] -> skip_space (a ++ b) = skip_space a ++ b.
Proof. induction a as [|c a IH]; [done |]. cbn [skip_space app]. destruct (isspace c); [apply IH | done]. Qed.
Lemma skip_digits_app a b : skip_digits a <> [] -> skip_digits (a ++ b) = skip_digits a ++ b /\ forall n, digits n (a ++ b) = digits n a.
Proof.
  induction a as [|c a IH]; [done |]. cbn [skip_digits app digits]. destruct (isdigit c); [|by split]. intros H. destruct (IH H) as [H1 H2].
  split; [exact H1 | intros n; apply H2].
Qed.
(** A number followed by something in a text is the same number in a longer text. *)
Lemma strtoull_app a b neg v c rest : strtoull a = Some (neg, v, c :: rest) -> strtoull (a ++ b) = Some (neg, v, c :: rest ++ b).
Proof.
  unfold strtoull. intros H. assert (Hs : skip_space a <> []) by (intros E; rewrite E in H; discriminate H). rewrite skip_space_app by done.
  destruct (skip_space a) as [|d l]; [done |]. cbn [app].
  assert (Hrest : forall sg t, match t with d :: _ => if isdigit d then Some (sg, digits 0 t, skip_digits t) else None | [] => None end = Some (neg, v, c :: rest) ->
    match t ++ b with d :: _ => if isdigit d then Some (sg, digits 0 (t ++ b), skip_digits (t ++ b)) else None | [] => None end = Some (neg, v, c :: rest ++ b)).
  { intros sg t Ht. destruct t as [|d2 t]; [done |]. cbn [app]. destruct (isdigit d2); [|done]. injection Ht as -> <- E. assert (E2 : skip_digits (d2 :: t) = c :: rest) by exact E.
    destruct (skip_digits_app (d2 :: t) b) as [H1 H2]; [by rewrite E2 |]. rewrite E2 in H1. f_equal. f_equal; [f_equal; apply H2 | exact H1]. }
  destruct (d =c "-"%char); [by apply Hrest |]. destruct (d =c "+"%char); [by apply Hrest |]. by apply (Hrest false (d :: l)).
Qed.
(** The number in an entry. *)
Definition number (bytes : list ascii) (v : Z) : Prop :=
  2 < Z.of_nat (length bytes) /\ 0 <= v < 2 ^ 63 /\ exists c rest, strtoull bytes = Some (false, v, c :: rest) /\ isspace c = true.
Lemma wp_safe_strtoull bytes more v s (Q : option Z -> store -> Prop) : number bytes v -> Q (Some v) s -> wp (safe_strtoull (bytes ++ more)) s Q.
Proof.
  intros (_ & Hv & c & rest & H & Hc) HQ. unfold safe_strtoull. rewrite (strtoull_app _ _ _ _ _ _ H). change (2 ^ 63) with 9223372036854775808 in *. change (2 ^ 64) with 18446744073709551616.
  rewrite (proj2 (Z.leb_gt _ _)) by lia. apply wp_bind. eapply wp_get_or_undef; [done |]. rewrite Hc. cbn [orb]. rewrite (proj2 (Z.leb_gt _ _)) by lia. by apply wp_ret.
Qed.

(** * The commands on the map *)

Definition moved (incr : bool) (v delta : Z) : Z := if incr then u64 (v + delta) else if v <? u64 delta then 0 else u64 (v - delta).
(** [buf] in the place of the number, padded with spaces. *)
Definition padded (buf bytes : list ascii) : list ascii := buf ++ replicate (length bytes - 2 - length buf) SP ++ drop (length bytes - 2) bytes.
Inductive adding (c : settings) (now : Z) (k : list ascii) (incr : bool) (delta : Z) (m : cache) : list ascii -> cache -> Prop :=
  | adding_none : look c now k m = None -> adding c now k incr delta m (lit "NOT_FOUND") (delete k m)
  | adding_in_place e v n : look c now k m = Some e -> number (e_bytes e) v -> Z.of_nat (length (show_u64 (moved incr v delta))) + 2 <= Z.of_nat (length (e_bytes e)) ->
      let e' := Entry (e_suffix e) (padded (show_u64 (moved incr v delta)) (e_bytes e)) (e_exptime e) n (e_time e) in
      adding c now k incr delta m (show_u64 (moved incr v delta)) (refreshed now k e' (<[k := e']> m))
  | adding_new e v n m0 : look c now k m = Some e -> number (e_bytes e) v -> m0 ⊆ m ->
      let buf := show_u64 (moved incr v delta) in
      adding c now k incr delta m buf (<[k := Entry (item_suffix (atoi (tail (e_suffix e))) (Z.of_nat (length buf) + 2)) (buf ++ [CR; LF]) (e_exptime e) n now]> m0)
  | adding_no_memory m0 : m0 ⊆ m -> adding c now k incr delta m (lit "SERVER_ERROR out of memory") m0.

Section Ok.
Variable hash : list ascii -> Z.
Hypothesis hash_range : forall k, 0 <= hash k < 2 ^ 32.
Variable lockable : Z -> bool.
Variable junk : Z -> list ascii.
Hypothesis junk_length : forall n, 0 <= n -> Z.of_nat (length (junk n)) = n.

(** A number for an item, when numbers are in use. *)
Lemma cas_cached s V u : ok hash s V ->
  wp (if u : bool then get_cas_id else ret 0) s (fun _ s' => ok hash s' V /\ calm s V s' V /\ cached s' V = cached s V /\ hdrs s' = hdrs s /\ tbl s' = tbl s).
Proof.
  intros O. destruct u; [|apply wp_ret; split; [done |]; split; [apply calm_refl | done]].
  unfold get_cas_id. apply wp_bind, wp_gets, wp_bind, wp_modify, wp_ret. split; [by apply ok_set_cnt |]. split; [by constructor |]. done.
Qed.
Lemma wp_write_data x off bytes h s (Q : unit -> store -> Prop) :
  hdrs s !! x = Some h -> 0 <= off -> off + Z.of_nat (length bytes) <= Z.of_nat (length (it_data h)) ->
  Q tt (set_hdrs (<[x := set_data (splice (Z.to_nat off) bytes (it_data h)) h]> (hdrs s)) s) -> wp (write_data x off bytes) s Q.
Proof.
  intros Hh Ho Hl HQ. unfold write_data. apply wp_bind. eapply wp_hdr_of; [exact Hh |]. rewrite (proj2 (Z.ltb_ge off 0)), (proj2 (Z.ltb_ge _ _)) by lia. cbn [orb].
  by eapply wp_upd_hdr.
Qed.
Lemma splice_fill buf n D : (length buf + 2 <= n)%nat -> (n <= length D)%nat ->
  take n (splice (length buf) (replicate (n - length buf - 2) SP) (splice 0 buf D)) = padded buf (take n D).
Proof.
  intros H1 H2. destruct (Nat.le_exists_sub (length buf + 2) n H1) as (p & -> & _). unfold padded, splice. rewrite take_0, length_take, length_replicate, Nat.min_l by done.
  replace (p + (length buf + 2) - length buf - 2)%nat with p by lia. replace (p + (length buf + 2) - 2 - length buf)%nat with p by lia.
  replace (p + (length buf + 2) - 2)%nat with (length buf + p)%nat by lia. cbn [app Nat.add]. rewrite take_app_length, drop_app_add, drop_drop.
  replace (p + (length buf + 2))%nat with (length buf + (p + 2))%nat by lia. rewrite take_app_add. f_equal. rewrite take_app_add' by (by rewrite length_replicate). f_equal.
  rewrite take_drop_commute. do 2 f_equal. lia.
Qed.

Lemma in_place_cached s V k x h buf :
  ok hash s V -> plain s -> v_map V !! k = Some x -> hdrs s !! x = Some h -> Z.of_nat (length buf) + 2 <= it_nbytes h ->
  wp (in_place x h buf) s (fun _ s' => exists V' n, ok hash s' V' /\ calm s V s' V' /\
    let e := Entry (it_suffix h) (padded buf (e_bytes (entry_of h))) (it_exptime h) n (it_time h) in
    cached s' V' = refreshed (current_time (cnt s)) k e (<[k := e]> (cached s V))).
Proof.
  intros O Hp Hk Hh Hlen. destruct (ok_mapped _ hash_range _ _ _ _ _ O Hk) as (Hik & h2 & Hh2 & Hl). assert (h2 = h) as -> by congruence.
  destruct (used_bytes hash s V x h O Hh) as [B1 B2]; [by apply (used_not_slabbed hash None s V x h) |].
  unfold in_place. apply wp_bind, wp_gets, wp_bind. eapply wp_mono; [by apply (cas_cached s V) |]. intros v s1 (O1 & C1 & E1 & D1 & T1).
  assert (Hh1 : hdrs s1 !! x = Some h) by (by rewrite D1). apply wp_bind. eapply wp_upd_hdr; [exact Hh1 |]. set (ha := ITEM_set_cas v h).
  assert (Ha : edited h ha /\ it_data ha = it_data h /\ it_suffix ha = it_suffix h /\ it_exptime ha = it_exptime h /\ it_time ha = it_time h /\ it_nbytes ha = it_nbytes h) by (unfold ha, ITEM_set_cas; by destruct (has _ _)).
  destruct Ha as (Ha & A1 & A2 & A3 & A4 & A5).
  destruct (edit_cached hash hash_range s1 V k x h ha O1 Hk Hh1 Ha) as (O2 & C2 & _ & E2). set (s2 := set_hdrs _ s1) in *. set (V2 := hold x 0 V) in *.
  apply wp_bind. eapply wp_write_data; [apply lookup_insert_eq | done | rewrite A1; lia |]. set (hb := set_data _ ha).
  assert (Hb : edited ha hb) by (repeat (split; [done |]); cbn [hb it_data set_data]; rewrite splice_length, A1; [done | rewrite A1; simpl; lia]).
  destruct (edit_cached hash hash_range s2 V2 k x ha hb O2 Hk (lookup_insert_eq _ _ _) Hb) as (O3 & C3 & _ & E3). set (s3 := set_hdrs _ s2) in *. set (V3 := hold x 0 V2) in *.
  assert (Ld : length (it_data hb) = length (it_data h)) by (by rewrite <- A1; apply Hb).
  apply wp_bind. eapply wp_write_data; [apply lookup_insert_eq | lia | rewrite length_replicate, Ld; lia |]. set (hc := set_data _ hb).
  assert (Hc : edited hb hc) by (repeat (split; [done |]); cbn [hc it_data set_data]; rewrite splice_length; [done | rewrite length_replicate, Ld; lia]).
  destruct (edit_cached hash hash_range s3 V3 k x hb hc O3 Hk (lookup_insert_eq _ _ _) Hc) as (O4 & C4 & _ & E4). set (s4 := set_hdrs _ s3) in *. set (V4 := hold x 0 V3) in *.
  assert (C14 : calm s V s4 V4) by (eapply calm_trans; [exact C1 |]; eapply calm_trans; [exact C2 |]; by eapply calm_trans).
  destruct (ok_mapped hash hash_range None s4 V4 k x O4 Hk) as (Hik4 & _).
  eapply wp_mono; [apply (update_item_cached hash hash_range s4 V4 k x hc O4); [by eapply calm_plain | done | apply lookup_insert_eq] |].
  intros _ s5 (V5 & O5 & C5 & _ & _ & E5). exists V5, (ITEM_get_cas hc). split; [done |]. split; [by eapply calm_trans |]. cbn zeta.
  replace (Entry _ _ _ _ _) with (entry_of hc).
  - rewrite E5, E4, E3, E2, E1, (ca_time _ _ _ _ C14). by rewrite !insert_insert_eq.
  - unfold entry_of at 1. change (it_suffix hc) with (it_suffix ha). change (it_exptime hc) with (it_exptime ha). change (it_time hc) with (it_time ha). change (it_nbytes hc) with (it_nbytes ha).
    rewrite A2, A3, A4, A5. f_equal. cbn [hc hb it_data set_data e_bytes entry_of]. rewrite A1. rewrite <- splice_fill by lia. do 2 f_equal; [lia |]. do 2 f_equal. lia.
Qed.

(** The bytes of the new item. *)
Lemma write_number s V n k h buf :
  ok hash s V -> hdrs s !! n = Some h -> loose s V n k (entry_of h) -> it_nbytes h = Z.of_nat (length buf) + 2 -> it_nbytes h <= Z.of_nat (length (it_data h)) ->
  wp (write_data n 0 buf ;;; write_data n (Z.of_nat (length buf)) [CR; LF]) s (fun _ s' => exists V', ok hash s' V' /\ only n s V s' V' /\ calm s V s' V' /\ v_map V' = v_map V /\
    cached s' V' = cached s V /\ loose s' V' n k (Entry (it_suffix h) (buf ++ [CR; LF]) (it_exptime h) (ITEM_get_cas h) (it_time h))).
Proof.
  intros O Hh L Hn Hd. apply wp_bind. eapply wp_mono; [apply (write_cached hash s V n k h 0 buf O Hh L); lia |].
  intros _ s1 (V1 & O1 & N1 & C1 & M1 & E1 & Hh1 & L1). set (h1 := set_data _ h) in *.
  eapply wp_mono; [apply (write_cached hash s1 V1 n k h1 _ [CR; LF] O1 Hh1 L1); [lia | change (it_nbytes h1) with (it_nbytes h); simpl; lia] |].
  intros _ s2 (V2 & O2 & N2 & C2 & M2 & E2 & Hh2 & L2). set (h2 := set_data _ h1) in *. exists V2. split; [done |]. split; [by eapply only_trans |].
  split; [by eapply calm_trans |]. split; [congruence |]. split; [congruence |]. replace (Entry _ _ _ _ _) with (entry_of h2); [done |].
  unfold entry_of. cbn [h2 h1 it_nbytes it_data set_data it_suffix it_exptime it_time]. f_equal. rewrite Hn, Nat2Z.id.
  replace (Z.to_nat (Z.of_nat (length buf) + 2)) with (length buf + length [CR; LF])%nat by (simpl; lia).
  rewrite take_splice by (rewrite splice_length; simpl; lia). f_equal. apply (take_splice 0). lia.
Qed.

Definition replaced (s : store) (V : view) (k : list ascii) (h : hdr) (buf : list ascii) (done : bool) (s' : store) (V' : view) : Prop :=
  if done then exists n m0, m0 ⊆ cached s V /\ cached s' V' =
    <[k := Entry (item_suffix (atoi (tail (it_suffix h))) (Z.of_nat (length buf) + 2)) (buf ++ [CR; LF]) (it_exptime h) n (current_time (cnt s))]> m0
  else cached s' V' ⊆ cached s V.
Lemma in_new_cached s V k x h buf :
  ok hash s V -> plain s -> room 1 V -> v_map V !! k = Some x -> 0 < v_held V x -> hdrs s !! x = Some h -> Z.of_nat (length k) <= 250 -> (length buf <= 20)%nat ->
  wp (in_new hash lockable junk x h k buf (hash k)) s (fun r s' => exists V', ok hash s' V' /\ calm s V s' V' /\ replaced s V k h buf r s' V').
Proof.
  intros O Hp Hr Hk Hx Hh Hlen Hbuf. unfold in_new. apply wp_bind.
  eapply wp_mono; [apply (alloc_cached hash hash_range lockable junk junk_length s V k _ _ _ (hash k) O Hp Hr Hlen); change (2 ^ 31) with 2147483648; lia |].
  intros [n|] s1 (V1 & O1 & St & Sub & A); [|apply wp_ret; by exists V1].
  destruct A as (C1 & Hn0 & hn & Hhn & Ln & Hsu & Hex & Hnb & Hdl & _). assert (Hxn : x <> n) by (intros ->; lia).
  assert (P : pinned s V k x). { split; [done |]. split; [by apply (ok_mapped hash hash_range None s V) |]. intros y Hy. congruence. }
  apply (pinned_stays s V s1 V1) in P; [|done].
  (* the two writes, as one *)
  apply (wp_ext _ ((write_data n 0 buf ;;; write_data n (Z.of_nat (length buf)) [CR; LF]) ;;;
    item_replace x n (hash k) ;;; hn <- hdr_of n ;; u <- gets (fun s => use_cas (cfg s)) ;; upd_hdr x (ITEM_set_cas (if u : bool then ITEM_get_cas hn else 0)) ;;; do_item_remove n ;;; ret true));
    [unfold bind; by destruct (write_data n 0 buf s1) |].
  apply wp_bind. eapply wp_mono; [apply (write_number s1 V1 n k hn buf O1 Hhn Ln); lia |]. intros _ s2 (V2 & O2 & N2 & C2 & M2 & E2 & L2).
  apply (pinned_only s1 V1 s2 V2 k x n N2 Hxn M2) in P. apply wp_bind.
  eapply wp_mono; [by apply (replace_cached hash hash_range s2 V2 x n k _ O2 L2 P) |]. intros _ s3 (V3 & O3 & C3 & h3 & Hh3 & Hm3 & E3 & K3).
  apply wp_bind. eapply wp_hdr_of; [exact Hh3 |]. apply wp_bind, wp_gets.
  assert (Hx3 : 0 < v_held V3 x) by (rewrite (ca_held _ _ _ _ C3); apply P). destruct (held_hdr hash None s3 V3 x O3 Hx3) as [hx Hhx].
  apply wp_bind. eapply wp_upd_hdr; [exact Hhx |]. set (v := if use_cas (cfg s3) then _ else _). set (hx' := ITEM_set_cas v hx).
  assert (Hed : edited hx hx') by (unfold hx', ITEM_set_cas; by destruct (has _ _)). set (s4 := set_hdrs _ s3).
  pose proof (ok_edit hash s3 V3 x hx hx' O3 Hhx Hed (held_not_slabbed hash None s3 V3 x hx O3 Hhx Hx3)) as O4. pose proof (only_hdr x s3 V3 hx' 0) as N4. fold s4 in O4, N4. set (V4 := hold x 0 V3) in *.
  assert (E4 : cached s4 V4 = cached s3 V3). { apply (cached_aside s3 V3 s4 V4 x N4 eq_refl). intros k' Hk'.
    destruct (ok_mapped hash hash_range None s3 V3 k' x O3 Hk') as [Hik _]. apply Hxn.
    assert (Hke : item_key (tbl s3) !! x = Some k) by (rewrite K3; apply P). congruence. }
  pose proof (only_calm x 0 s3 V3 s4 V4 N4 (hold_eq x 0 V3)) as C4. apply calm_but_calm in C4.
  assert (C24 : calm s1 V1 s4 V4) by (eapply calm_trans; [exact C2 |]; by eapply calm_trans).
  assert (C14 : calm_but n 1 s V s4 V4) by (eapply calm_but_0_r; [exact C1 | exact C24]).
  apply wp_bind. eapply wp_mono; [apply (give_cached hash hash_range s4 V4 n O4); rewrite (cb_at _ _ _ _ _ _ C14); lia |].
  intros _ s5 (V5 & O5 & C5 & E5 & _). apply wp_ret. exists V5. split; [done |]. split; [apply (calm_but_calm n); change 0 with (1 + -1); by eapply calm_but_trans |].
  eexists _, (cached s1 V1). split; [done |]. rewrite E5, E4, E3, E2, (ca_time _ _ _ _ C2), (cb_time _ _ _ _ _ _ C1).
  unfold with_cas, stamp. cbn [e_suffix e_bytes e_exptime e_cas e_time]. by rewrite Hsu, Hex.
Qed.

Lemma show_u64_length v : (length (show_u64 v) <= 20)%nat.
Proof. unfold show_u64. pose proof (dec_go_length 20 v []) as H. by rewrite Nat.add_0_r in H. Qed.

(** The middle of do_add_delta, the item found and its number read. *)
Lemma delta_cached s V k x h v incr delta :
  ok hash s V -> plain s -> room 1 V -> hit s V k x (entry_of h) -> hdrs s !! x = Some h -> Z.of_nat (length k) <= 250 -> number (e_bytes (entry_of h)) v ->
  let buf := show_u64 (moved incr v delta) in
  wp (if (Z.of_nat (length buf) + 2 <=? it_nbytes h) && (it_refcount h =? 2) then in_place x h buf ;;; ret DELTA_OK
      else if 1 <? it_refcount h then key <- ITEM_key x ;; ok <- in_new hash lockable junk x h key buf (hash k) ;; ret (if ok : bool then DELTA_OK else EOM)
      else ret DELTA_ITEM_NOT_FOUND) s (fun r s' => exists V', ok hash s' V' /\ calm s V s' V' /\
    (r = DELTA_OK \/ r = EOM) /\ adding (cfg s) (current_time (cnt s)) k incr delta (cached s V) (match r with DELTA_OK => buf | _ => lit "SERVER_ERROR out of memory" end) (cached s' V')).
Proof.
  intros O Hp Hr H Hh Hlen Hnum buf. pose proof H as (Hk & Hx & He & h2 & Hh2 & _ & Hl). assert (h2 = h) as -> by congruence.
  destruct (ok_mapped hash hash_range None s V k x O Hk) as (Hik & _). destruct (ok_item _ _ _ _ O x h Hh) as (_ & _ & _ & Href & _). rewrite Hl in Href. simpl in Href.
  destruct (used_bytes hash s V x h O Hh) as [B1 B2]; [by apply (used_not_slabbed hash None s V x h) |]. pose proof (bytes_length h ltac:(lia)) as Hbl.
  destruct (_ && _) eqn:E.
  - apply wp_bind. eapply wp_mono; [apply (in_place_cached s V k x h buf O Hp Hk Hh); lia |]. intros _ s1 (V1 & n & O1 & C1 & E1). apply wp_ret. exists V1.
    split; [done |]. split; [done |]. split; [by left |]. cbn zeta in E1. rewrite E1. apply (adding_in_place _ _ _ _ _ _ (entry_of h) v n He Hnum). fold buf. lia.
  - rewrite (proj2 (Z.ltb_lt _ _)) by lia. apply wp_bind. eapply wp_ITEM_key; [exact Hik |]. apply wp_bind.
    eapply wp_mono; [apply (in_new_cached s V k x h buf O Hp Hr Hk Hx Hh Hlen (show_u64_length _)) |]. intros b s1 (V1 & O1 & C1 & E1). apply wp_ret. exists V1.
    split; [done |]. split; [done |]. destruct b; [split; [by left |] | split; [by right | by apply adding_no_memory]].
    destruct E1 as (n & m0 & Sub & ->). by apply (adding_new _ _ _ _ _ _ (entry_of h) v n m0).
Qed.

Lemma process_arithmetic_cached s V k incr delta :
  ok hash s V -> plain s -> room 2 V -> Z.of_nat (length k) <= 250 -> (forall e, look (cfg s) (current_time (cnt s)) k (cached s V) = Some e -> exists v, number (e_bytes e) v) ->
  wp (process_arithmetic_command hash lockable junk k incr delta) s (fun reply s' => exists V', ok hash s' V' /\ calm s V s' V' /\
    adding (cfg s) (current_time (cnt s)) k incr delta (cached s V) reply (cached s' V')).
Proof.
  intros O Hp Hr Hlen Hnum. unfold process_arithmetic_command, KEY_MAX_LENGTH. rewrite (proj2 (Z.ltb_ge _ _)) by lia. apply wp_bind. unfold add_delta, do_add_delta.
  apply wp_bind. eapply wp_mono; [apply (get_cached hash hash_range s V k O); apply (room_le 2 1); [lia | done] |]. intros [x|] s1 (V1 & O1 & St & G).
  2:{ destruct G as (C1 & Hn & _ & E1). apply wp_ret, wp_ret. exists V1. split; [done |]. split; [done |]. rewrite E1. by apply adding_none. }
  destruct G as (C1 & E1 & e & He & H). pose proof H as (Hk & Hx & He1 & h & Hh & <- & Hl). destruct (Hnum _ He) as [v Hv].
  destruct (used_bytes hash s1 V1 x h O1 Hh) as [B1 B2]; [by apply (used_not_slabbed hash None s1 V1 x h) |]. pose proof (bytes_length h ltac:(lia)) as Hbl.
  assert (R1 : room 1 V1). { intros y. specialize (Hr y). destruct (decide (y = x)) as [->|]; [rewrite (cb_at _ _ _ _ _ _ C1) | rewrite (cb_held _ _ _ _ _ _ C1) by done]; lia. }
  apply wp_bind. eapply wp_hdr_of; [exact Hh |]. destruct Hv as (Hv1 & Hv2). rewrite (proj2 (Z.leb_gt _ _)) by lia.
  apply wp_bind. rewrite <- (take_drop (Z.to_nat (it_nbytes h)) (it_data h)). apply (wp_safe_strtoull (e_bytes (entry_of h)) _ v); [by split |].
  change (if incr then u64 (v + delta) else if v <? u64 delta then 0 else u64 (v - delta)) with (moved incr v delta). apply wp_bind.
  eapply wp_mono; [apply (delta_cached s1 V1 k x h v incr delta O1); try done; unfold plain; by rewrite (cb_cfg _ _ _ _ _ _ C1) |].
  intros r s2 (V2 & O2 & C2 & Hrr & Hadd). rewrite E1, (cb_cfg _ _ _ _ _ _ C1), (cb_time _ _ _ _ _ _ C1) in Hadd.
  assert (Hx2 : 0 < v_held V2 x) by (by rewrite (ca_held _ _ _ _ C2)). destruct (held_hdr hash None s2 V2 x O2 Hx2) as [h2 Hh2].
  assert (Hend : forall Q : unit -> store -> Prop, (forall s3 V3, ok hash s3 V3 -> calm s V s3 V3 -> cached s3 V3 = cached s2 V2 -> Q tt s3) -> wp (do_item_remove x) s2 Q).
  { intros Q HQ. eapply wp_mono; [by apply (give_cached hash hash_range s2 V2 x O2) |]. intros [] s3 (V3 & O3 & C3 & E3 & _). apply (HQ s3 V3); [done | | done]. by apply (calm_around s V s1 V1 x C1 s2 V2). }
  destruct Hrr as [->| ->].
  - apply wp_bind. eapply wp_hdr_of; [exact Hh2 |]. apply wp_bind, Hend. intros s3 V3 O3 C3 E3. apply wp_ret, wp_ret. exists V3. split; [done |]. split; [done |]. rewrite E3. exact Hadd.
  - apply wp_bind, Hend. intros s3 V3 O3 C3 E3. apply wp_ret, wp_ret. exists V3. split; [done |]. split; [done |]. rewrite E3. exact Hadd.
Qed.
End Ok.
