(* ===== verification/CacheRun.v ===== *)
(** The cache server as its clients see it: requests one after the other, and the map
    with a clock that answers them. *)
From S2P Require Import Prelude CStr CDec Assoc AssocThm DList Store Slabs Items StoreCmd StoreInv LruThm SlabsThm ItemsThm ItemsGet PullThm AllocThm CacheSpec CachedThm StoreThm UpdateThm LookupThm.
Local Open Scope Z_scope.

(** * Requests *)

Inductive request :=
  | Update (comm : Z) (key : list ascii) (flags exptime vlen req_cas_id : Z) (data : list ascii)
  | Get (return_cas : bool) (keys : list (list ascii))
  | Remove (key : list ascii)
  | Touch (key : list ascii) (exptime : Z)
  | FlushAll (exptime : Z)
  | Tick (now : Z).

(** What the server may be asked: the data block is read to its end, the references
    that one get takes fit the 16 bits of a count. *)
Definition proper (r : request) : Prop :=
  match r with
  | Update comm _ _ _ vlen _ data => NREAD_ADD <= comm <= NREAD_CAS /\ (2 <= i32 (vlen + 2) -> Z.of_nat (length data) = i32 (vlen + 2))
  | Get _ keys => Z.of_nat (length keys) < 65535
  | _ => True
  end.

Section Server.
Variable hash : list ascii -> Z.
Variable lockable : Z -> bool.
Variable junk : Z -> list ascii.
Variable started : Z.

Definition answer (r : request) : SM (list ascii) :=
  match r with
  | Update comm key flags exptime vlen req data => update_command hash lockable junk started key flags exptime vlen comm req data
  | Get rc keys => process_get_command hash rc keys
  | Remove key => process_delete_command hash key
  | Touch key exptime => process_touch_command hash started key exptime
  | FlushAll exptime => flush_all started exptime
  | Tick now => clock_tick now ;;; ret []
  end.
Fixpoint serve_all (l : list request) : SM (list (list ascii)) :=
  match l with [] => ret [] | r :: l => a <- answer r ;; b <- serve_all l ;; ret (a :: b) end.

(** * The specification *)

Record world := World { w_cfg : settings; w_now : Z; w_map : cache }.

Inductive flushing (c : settings) (now exptime : Z) : settings -> Prop :=
  | flush_cas v : use_cas c = true ->
      let live := u32 ((if 0 <? exptime then realtime_at started exptime now else now) - 1) in
      flushing c now exptime (set_oldest live (if live <=? now then v else oldest_cas c) c)
  | flush_plain : use_cas c = false -> flushing c now exptime (set_oldest (if 0 <? exptime then realtime_at started exptime now else now) (oldest_cas c) c).

Inductive allowed (w : world) : request -> list ascii -> world -> Prop :=
  | may_update comm key flags exptime vlen req data reply m :
      updating (w_cfg w) (w_now w) key (i32 flags) (realtime_at started (if exptime <? 0 then REALTIME_MAXDELTA + 1 else exptime) (w_now w)) vlen comm req data (w_map w) reply m ->
      allowed w (Update comm key flags exptime vlen req data) reply (World (w_cfg w) (w_now w) m)
  | may_get rc keys : let r := CacheSpec.serve (w_cfg w) (w_now w) rc keys (w_map w) in allowed w (Get rc keys) (served r.1) (World (w_cfg w) (w_now w) r.2)
  | may_remove key : allowed w (Remove key) (match look (w_cfg w) (w_now w) key (w_map w) with Some _ => lit "DELETED" | None => lit "NOT_FOUND" end)
      (World (w_cfg w) (w_now w) (delete key (w_map w)))
  | may_touch key exptime : allowed w (Touch key exptime) (match look (w_cfg w) (w_now w) key (w_map w) with Some _ => lit "TOUCHED" | None => lit "NOT_FOUND" end)
      (World (w_cfg w) (w_now w) (touched (w_cfg w) (w_now w) key (realtime_at started exptime (w_now w)) (w_map w)))
  | may_flush exptime c : flushing (w_cfg w) (w_now w) exptime c -> allowed w (FlushAll exptime) (lit "OK") (World c (w_now w) (w_map w))
  | may_tick now : allowed w (Tick now) [] (World (w_cfg w) now (w_map w)).
Inductive allowed_all : world -> list request -> list (list ascii) -> world -> Prop :=
  | all_done w : allowed_all w [] [] w
  | all_step w r a w1 l b w2 : allowed w r a w1 -> allowed_all w1 l b w2 -> allowed_all w (r :: l) (a :: b) w2.

(** * The server meets it *)

Definition world_of (s : store) (V : view) : world := World (cfg s) (current_time (cnt s)) (cached s V).
(** Between requests nothing is held. *)
Definition quiet (s : store) (V : view) : Prop := ok hash s V /\ plain s /\ forall x, v_held V x = 0.

Hypothesis hash_range : forall k, 0 <= hash k < 2 ^ 32.
Hypothesis junk_length : forall n, 0 <= n -> Z.of_nat (length (junk n)) = n.

Lemma quiet_room s V n : quiet s V -> n < 65535 -> room n V.
Proof. intros (_ & _ & H) Hn x. rewrite H. lia. Qed.
Lemma quiet_calm s V s' V' : quiet s V -> ok hash s' V' -> calm s V s' V' -> quiet s' V'.
Proof. intros (_ & P & H) O C. split; [done |]. split; [by eapply calm_plain |]. intros x. by rewrite (ca_held _ _ _ _ C). Qed.
Lemma calm_world s V s' V' : calm s V s' V' -> world_of s' V' = World (cfg s) (current_time (cnt s)) (cached s' V').
Proof. intros [_ E1 E2 _]. unfold world_of. by rewrite E1, E2. Qed.

Lemma ok_set_oldest s V live cas : ok hash s V -> ok hash (set_cfg (set_oldest live cas (cfg s)) s) V.
Proof. intros [O1 O2 O3 O4 O5 O6 O7 O8 O9 O10 O11]. constructor; done. Qed.
Lemma flush_all_quiet s V exptime : quiet s V ->
  wp (flush_all started exptime) s (fun reply s' => quiet s' V /\ allowed (world_of s V) (FlushAll exptime) reply (world_of s' V)).
Proof.
  intros (O & P & H). unfold flush_all. apply wp_bind, wp_gets. apply wp_bind, wp_gets. apply wp_bind.
  change (realtime started exptime s) with (realtime_at started exptime (current_time (cnt s))).
  assert (Hstep : forall live cas, ok hash (set_cfg (set_oldest live cas (cfg s)) s) V) by (intros; by apply ok_set_oldest).
  destruct (use_cas (cfg s)) eqn:U.
  - apply wp_bind, wp_modify, wp_bind, wp_gets. change (current_time (cnt (set_cfg _ s))) with (current_time (cnt s)). set (t := u32 _). destruct (t <=? current_time (cnt s)) eqn:El.
    + unfold get_cas_id. apply wp_bind, wp_bind, wp_gets, wp_bind, wp_modify, wp_ret, wp_modify, wp_ret.
      split; [split; [apply (ok_set_oldest (set_cnt _ (set_cfg (set_oldest t (oldest_cas (cfg s)) (cfg s)) s))); apply ok_set_cnt, Hstep | by split] |].
      unfold world_of. simpl. apply may_flush. simpl. pose proof (flush_cas (cfg s) (current_time (cnt s)) exptime (u64 (cas_id (cnt s) + 1)) U) as F. cbv zeta in F.
      change (u32 ((if 0 <? exptime then realtime_at started exptime (current_time (cnt s)) else current_time (cnt s)) - 1)) with t in F. by rewrite El in F.
    + apply wp_ret, wp_ret. split; [by split |]. apply may_flush. pose proof (flush_cas (cfg s) (current_time (cnt s)) exptime 0 U) as F. cbv zeta in F.
      change (u32 ((if 0 <? exptime then realtime_at started exptime (current_time (cnt s)) else current_time (cnt s)) - 1)) with t in F. by rewrite El in F.
  - apply wp_modify, wp_ret. split; [by split |]. by apply may_flush, flush_plain.
Qed.

Lemma answer_allowed s V r : quiet s V -> proper r ->
  wp (answer r) s (fun reply s' => exists V', quiet s' V' /\ allowed (world_of s V) r reply (world_of s' V')).
Proof.
  intros Q Hr. pose proof Q as (O & P & H). destruct r as [comm key flags exptime vlen req data|rc keys|key|key exptime|exptime|now]; cbn [answer].
  - destruct Hr as [H1 H2]. eapply wp_mono; [apply (update_command_cached hash hash_range lockable junk junk_length s V); try done; by apply (quiet_room s) |].
    intros reply s' (V' & O' & C & U). exists V'. split; [by eapply quiet_calm |]. rewrite (calm_world _ _ _ _ C). by apply may_update.
  - eapply wp_mono; [apply (process_get_cached hash hash_range s V rc keys O P); by apply (quiet_room s) |]. intros reply s' (V' & O' & C & E). exists V'. split; [by eapply quiet_calm |].
    rewrite (calm_world _ _ _ _ C). cbv zeta in E. destruct E as [-> ->]. apply (may_get (world_of s V) rc keys).
  - eapply wp_mono; [apply (process_delete_cached hash hash_range s V key O); by apply (quiet_room s) |]. intros reply s' (V' & O' & C & E & ->). exists V'. split; [by eapply quiet_calm |].
    rewrite (calm_world _ _ _ _ C), E. apply (may_remove (world_of s V)).
  - eapply wp_mono; [apply (process_touch_cached hash hash_range s V started key exptime O P); by apply (quiet_room s) |]. intros reply s' (V' & O' & C & E & ->). exists V'. split; [by eapply quiet_calm |].
    rewrite (calm_world _ _ _ _ C), E. apply (may_touch (world_of s V)).
  - eapply wp_mono; [by apply flush_all_quiet |]. intros reply s' [Q' A]. by exists V.
  - apply wp_bind, wp_modify, wp_ret. exists V. split; [split; [by apply ok_set_cnt | by split] |]. apply (may_tick (world_of s V)).
Qed.
Lemma serve_all_allowed l : forall s V, quiet s V -> Forall proper l ->
  wp (serve_all l) s (fun replies s' => exists V', quiet s' V' /\ allowed_all (world_of s V) l replies (world_of s' V')).
Proof.
  induction l as [|r l IH]; intros s V Q Hl; cbn [serve_all]; [apply wp_ret; exists V; split; [done | apply all_done] |].
  apply Forall_cons in Hl as [Hr Hl]. apply wp_bind. eapply wp_mono; [by apply answer_allowed |]. intros a s1 (V1 & Q1 & A1).
  apply wp_bind. eapply wp_mono; [by apply IH |]. intros b s2 (V2 & Q2 & A2). apply wp_ret. exists V2. split; [done |]. by eapply all_step.
Qed.
End Server.
