(* ===== verification/Hash.v ===== *)
(** The hash functions of the cache server (lib/memcached-1.4.25/jenkins_hash.c, as on
    a little-endian machine, murmur3_hash.c and hash.c). *)
From S2P Require Import Prelude CStr.
Local Open Scope Z_scope.

(** The memory from the key on: bytes, the key first. *)
Abbreviation bytes := (list Z).
Definition at_ (k : bytes) (i : nat) : Z := nth i k 0.
(** Reads of 16 and 32 bits, for a pointer that is aligned to them. *)
Definition k16 (k : bytes) (i : nat) : Z := at_ k (2 * i) + Z.shiftl (at_ k (2 * i + 1)) 8.
Definition k32 (k : bytes) (i : nat) : Z :=
  at_ k (4 * i) + Z.shiftl (at_ k (4 * i + 1)) 8 + Z.shiftl (at_ k (4 * i + 2)) 16 + Z.shiftl (at_ k (4 * i + 3)) 24.

(** * Jenkins *)

Definition rot (x k : Z) : Z := Z.lxor (u32 (Z.shiftl x k)) (Z.shiftr x (32 - k)).
Definition st3 : Type := Z * Z * Z.

Definition mix (s : st3) : st3 :=
  let '(a, b, c) := s in
  let a := u32 (a - c) in let a := Z.lxor a (rot c 4) in let c := u32 (c + b) in
  let b := u32 (b - a) in let b := Z.lxor b (rot a 6) in let a := u32 (a + c) in
  let c := u32 (c - b) in let c := Z.lxor c (rot b 8) in let b := u32 (b + a) in
  let a := u32 (a - c) in let a := Z.lxor a (rot c 16) in let c := u32 (c + b) in
  let b := u32 (b - a) in let b := Z.lxor b (rot a 19) in let a := u32 (a + c) in
  let c := u32 (c - b) in let c := Z.lxor c (rot b 4) in let b := u32 (b + a) in
  (a, b, c).
(** The value of [c] after the last mixing. *)
Definition final (s : st3) : Z :=
  let '(a, b, c) := s in
  let c := Z.lxor c b in let c := u32 (c - rot b 14) in
  let a := Z.lxor a c in let a := u32 (a - rot c 11) in
  let b := Z.lxor b a in let b := u32 (b - rot a 25) in
  let c := Z.lxor c b in let c := u32 (c - rot b 16) in
  let a := Z.lxor a c in let a := u32 (a - rot c 4) in
  let b := Z.lxor b a in let b := u32 (b - rot a 14) in
  let c := Z.lxor c b in u32 (c - rot b 24).

(** The blocks before the last: [block] adds one of 12 bytes; the state, what is
    left of the length, and where the key has got to. *)
Fixpoint blocks (fuel : nat) (block : bytes -> st3 -> st3) (k : bytes) (length : Z) (s : st3) : st3 * Z * bytes :=
  match fuel with
  | O => (s, length, k)
  | S fuel => if 12 <? length then blocks fuel block (drop 12 k) (length - 12) (mix (block k s)) else (s, length, k)
  end.
Definition jenkins_with (block : bytes -> st3 -> st3) (last : Z -> bytes -> st3 -> st3) (k : bytes) (length : Z) : Z :=
  let a := u32 (0xdeadbeef + u32 length) in
  let '(s, length, k) := blocks (Z.to_nat length) block k length (a, a, a) in
  if length =? 0 then s.2 else final (last length k s).

(** [a += k[0]], by 32 bits at a time. *)
Definition block32 (k : bytes) (s : st3) : st3 := let '(a, b, c) := s in (u32 (a + k32 k 0), u32 (b + k32 k 1), u32 (c + k32 k 2)).
Definition last32 (length : Z) (k : bytes) (s : st3) : st3 :=
  let '(a, b, c) := s in
  let a_ x := u32 (a + x) in let b_ x := u32 (b + x) in let c_ x := u32 (c + x) in
  if length =? 12 then (a_ (k32 k 0), b_ (k32 k 1), c_ (k32 k 2))
  else if length =? 11 then (a_ (k32 k 0), b_ (k32 k 1), c_ (Z.land (k32 k 2) 0xffffff))
  else if length =? 10 then (a_ (k32 k 0), b_ (k32 k 1), c_ (Z.land (k32 k 2) 0xffff))
  else if length =? 9 then (a_ (k32 k 0), b_ (k32 k 1), c_ (Z.land (k32 k 2) 0xff))
  else if length =? 8 then (a_ (k32 k 0), b_ (k32 k 1), c)
  else if length =? 7 then (a_ (k32 k 0), b_ (Z.land (k32 k 1) 0xffffff), c)
  else if length =? 6 then (a_ (k32 k 0), b_ (Z.land (k32 k 1) 0xffff), c)
  else if length =? 5 then (a_ (k32 k 0), b_ (Z.land (k32 k 1) 0xff), c)
  else if length =? 4 then (a_ (k32 k 0), b, c)
  else if length =? 3 then (a_ (Z.land (k32 k 0) 0xffffff), b, c)
  else if length =? 2 then (a_ (Z.land (k32 k 0) 0xffff), b, c)
  else if length =? 1 then (a_ (Z.land (k32 k 0) 0xff), b, c)
  else s.

(** By 16 bits at a time. *)
Definition two16 (k : bytes) (i : nat) : Z := u32 (k16 k i + Z.shiftl (k16 k (i + 1)) 16).
Definition block16 (k : bytes) (s : st3) : st3 := let '(a, b, c) := s in (u32 (a + two16 k 0), u32 (b + two16 k 2), u32 (c + two16 k 4)).
(** The cases fall through, each to the ones of the same word. *)
Definition last16 (length : Z) (k : bytes) (s : st3) : st3 :=
  let '(a, b, c) := s in
  let a4 := u32 (a + two16 k 0) in let b4 := u32 (b + two16 k 2) in
  let byte x i sh := u32 (x + Z.shiftl (at_ k i) sh) in let half x i := u32 (x + k16 k i) in
  if length =? 12 then (a4, b4, u32 (c + two16 k 4))
  else if length =? 11 then (a4, b4, half (byte c 10%nat 16) 4%nat)
  else if length =? 10 then (a4, b4, half c 4%nat)
  else if length =? 9 then (a4, b4, byte c 8%nat 0)
  else if length =? 8 then (a4, b4, c)
  else if length =? 7 then (a4, half (byte b 6%nat 16) 2%nat, c)
  else if length =? 6 then (a4, half b 2%nat, c)
  else if length =? 5 then (a4, byte b 4%nat 0, c)
  else if length =? 4 then (a4, b, c)
  else if length =? 3 then (half (byte a 2%nat 16) 0%nat, b, c)
  else if length =? 2 then (half a 0%nat, b, c)
  else if length =? 1 then (byte a 0%nat 0, b, c)
  else s.

(** One byte at a time. *)
Definition add8 (x : Z) (k : bytes) (i : nat) (sh : Z) : Z := u32 (x + Z.shiftl (at_ k i) sh).
Definition four8 (x : Z) (k : bytes) (i : nat) : Z := add8 (add8 (add8 (add8 x k i 0) k (i + 1) 8) k (i + 2) 16) k (i + 3) 24.
Definition block8 (k : bytes) (s : st3) : st3 := let '(a, b, c) := s in (four8 a k 0, four8 b k 4, four8 c k 8).
Definition last8 (length : Z) (k : bytes) (s : st3) : st3 :=
  let '(a, b, c) := s in
  let case n x i sh := if n <=? length then add8 x k i sh else x in
  let c := case 12 c 11%nat 24 in let c := case 11 c 10%nat 16 in let c := case 10 c 9%nat 8 in let c := case 9 c 8%nat 0 in
  let b := case 8 b 7%nat 24 in let b := case 7 b 6%nat 16 in let b := case 6 b 5%nat 8 in let b := case 5 b 4%nat 0 in
  let a := case 4 a 3%nat 24 in let a := case 3 a 2%nat 16 in let a := case 2 a 1%nat 8 in let a := case 1 a 0%nat 0 in
  (a, b, c).

(** [addr]: where the key is. *)
Definition jenkins_hash (addr : Z) (k : bytes) (length : Z) : Z :=
  if Z.land addr 3 =? 0 then jenkins_with block32 last32 k length
  else if Z.land addr 1 =? 0 then jenkins_with block16 last16 k length
  else jenkins_with block8 last8 k length.

(** * Murmur 3 *)

Definition rotl32 (x r : Z) : Z := Z.lor (u32 (Z.shiftl x r)) (Z.shiftr x (32 - r)).
Definition fmix32 (h : Z) : Z :=
  let h := Z.lxor h (Z.shiftr h 16) in
  let h := u32 (h * 0x85ebca6b) in
  let h := Z.lxor h (Z.shiftr h 13) in
  let h := u32 (h * 0xc2b2ae35) in
  Z.lxor h (Z.shiftr h 16).
Definition scramble (k1 : Z) : Z := u32 (rotl32 (u32 (k1 * 0xcc9e2d51)) 15 * 0x1b873593).
Fixpoint murmur_body (n : nat) (k : bytes) (h1 : Z) : Z :=
  match n with
  | O => h1
  | S n => murmur_body n (drop 4 k) (u32 (u32 (rotl32 (Z.lxor h1 (scramble (k32 k 0))) 13 * 5) + 0xe6546b64))
  end.
(** [tail[2] << 16] is an int. *)
Definition murmur_tail (n : Z) (k : bytes) (h1 : Z) : Z :=
  let k1 := 0 in
  let k1 := if 3 <=? n then Z.lxor k1 (Z.shiftl (at_ k 2) 16) else k1 in
  let k1 := if 2 <=? n then Z.lxor k1 (Z.shiftl (at_ k 1) 8) else k1 in
  if 1 <=? n then Z.lxor h1 (scramble (Z.lxor k1 (at_ k 0))) else h1.
Definition MurmurHash3_x86_32 (k : bytes) (length : Z) : Z :=
  let nblocks := length / 4 in
  let h1 := murmur_body (Z.to_nat nblocks) k 0 in
  let h1 := murmur_tail (Z.land length 3) (drop (Z.to_nat (nblocks * 4)) k) h1 in
  fmix32 (Z.lxor h1 (u32 length)).

(** * hash_init (hash.c) *)

Inductive hashfunc_type := JENKINS_HASH | MURMUR3_HASH.
(** The function, for a key at an address that is a multiple of four, or not. *)
Definition hash_of (t : hashfunc_type) (addr : Z) (beyond : bytes) (key : list ascii) : Z :=
  let k := map uchar key ++ beyond in
  let n := Z.of_nat (length key) in
  match t with JENKINS_HASH => jenkins_hash addr k n | MURMUR3_HASH => MurmurHash3_x86_32 k n end.
