(* ===== verification/HashThm.v ===== *)
(** The hash of a key is one of the key alone: the three ways to read it, by its
    alignment, agree, and what lies beyond it has no part; mixing loses nothing. *)
From S2P Require Import Prelude CStr Hash.
Local Open Scope Z_scope.

(** * Words *)

Definition word (x : Z) : Prop := 0 <= x < 2 ^ 32.
Lemma u32_word x : word (u32 x).
Proof. apply (wrap_u_range 32). lia. Qed.
Lemma u32_id x : word x -> u32 x = x.
Proof. intros H. by apply (wrap_u_small 32). Qed.
Lemma u32_add_l a b : u32 (u32 a + b) = u32 (a + b).
Proof. unfold u32, wrap_u. by rewrite Z.add_mod_idemp_l by lia. Qed.
Lemma u32_add_r a b : u32 (a + u32 b) = u32 (a + b).
Proof. unfold u32, wrap_u. by rewrite Z.add_mod_idemp_r by lia. Qed.
Lemma word_bits x : 0 <= x -> word x <-> Z.shiftr x 32 = 0.
Proof. intros Hx. unfold word. rewrite Z.shiftr_div_pow2, Z.div_small_iff by lia. lia. Qed.
Lemma lxor_word a b : word a -> word b -> word (Z.lxor a b).
Proof.
  intros Ha Hb. assert (0 <= a) by apply Ha. assert (0 <= b) by apply Hb. assert (Hn : 0 <= Z.lxor a b) by (apply Z.lxor_nonneg; lia).
  apply word_bits; [done |]. by rewrite Z.shiftr_lxor, (proj1 (word_bits a ltac:(assumption)) Ha), (proj1 (word_bits b ltac:(assumption)) Hb).
Qed.
Lemma shiftr_word x k : 0 <= k -> word x -> word (Z.shiftr x k).
Proof.
  intros Hk [H1 H2]. unfold word. rewrite Z.shiftr_div_pow2 by done. assert (0 < 2 ^ k) by (apply Z.pow_pos_nonneg; lia).
  split; [by apply Z.div_pos |]. apply Z.div_lt_upper_bound; nia.
Qed.
Lemma rot_word x k : 0 <= k <= 32 -> word x -> word (rot x k).
Proof. intros Hk Hx. apply lxor_word; [apply u32_word | apply shiftr_word; [lia | done]]. Qed.
Lemma lxor_lxor a b : Z.lxor (Z.lxor a b) b = a.
Proof. by rewrite Z.lxor_assoc, Z.lxor_nilpotent, Z.lxor_0_r. Qed.
Lemma sub_add a b : word a -> u32 (u32 (a - b) + b) = a.
Proof. intros Ha. rewrite u32_add_l. replace (a - b + b) with a by lia. by apply u32_id. Qed.
Lemma add_sub a b : word a -> u32 (u32 (a + b) - b) = a.
Proof. intros Ha. unfold u32, wrap_u. rewrite Zminus_mod_idemp_l. replace (a + b - b) with a by lia. by apply u32_id. Qed.

(** * Mixing is reversible *)

Definition words (s : st3) : Prop := word s.1.1 /\ word s.1.2 /\ word s.2.
(** The steps of [mix] backwards. *)
Definition unmix (s : st3) : st3 :=
  let '(a, b, c) := s in
  let b := u32 (b - a) in let c := u32 (Z.lxor c (rot b 4) + b) in let a := u32 (a - c) in
  let b := u32 (Z.lxor b (rot a 19) + a) in let c := u32 (c - b) in let a := u32 (Z.lxor a (rot c 16) + c) in
  let b := u32 (b - a) in let c := u32 (Z.lxor c (rot b 8) + b) in let a := u32 (a - c) in
  let b := u32 (Z.lxor b (rot a 6) + a) in let c := u32 (c - b) in let a := u32 (Z.lxor a (rot c 4) + c) in
  (a, b, c).

(** One of the six rounds of [mix]. *)
Definition turn (n : Z) (a b c : Z) : st3 := let a := Z.lxor (u32 (a - c)) (rot c n) in (a, b, u32 (c + b)).
Definition unturn (n : Z) (a b c : Z) : st3 := let c := u32 (c - b) in (u32 (Z.lxor a (rot c n) + c), b, c).
Lemma unturn_turn n a b c : word a -> word c -> let '(a', b', c') := turn n a b c in unturn n a' b' c' = (a, b, c).
Proof. intros Ha Hc. unfold turn, unturn. rewrite add_sub by done. by rewrite lxor_lxor, sub_add. Qed.
Lemma turn_words n a b c : 0 <= n <= 32 -> word b -> word c -> words (turn n a b c).
Proof. intros Hn Hb Hc. split; [|split]; simpl; [apply lxor_word; [apply u32_word | by apply rot_word] | done | apply u32_word]. Qed.
Lemma mix_turns a b c : mix (a, b, c) =
  let '(a, b, c) := turn 4 a b c in let '(b, c, a) := turn 6 b c a in let '(c, a, b) := turn 8 c a b in
  let '(a, b, c) := turn 16 a b c in let '(b, c, a) := turn 19 b c a in let '(c, a, b) := turn 4 c a b in (a, b, c).
Proof. reflexivity. Qed.
Lemma unmix_turns a b c : unmix (a, b, c) =
  let '(c, a, b) := unturn 4 c a b in let '(b, c, a) := unturn 19 b c a in let '(a, b, c) := unturn 16 a b c in
  let '(c, a, b) := unturn 8 c a b in let '(b, c, a) := unturn 6 b c a in let '(a, b, c) := unturn 4 a b c in (a, b, c).
Proof. reflexivity. Qed.
Lemma unmix_mix a b c : word a -> word b -> word c -> unmix (mix (a, b, c)) = (a, b, c) /\ words (mix (a, b, c)).
Proof.
  intros Ha Hb Hc. rewrite mix_turns.
  destruct (turn 4 a b c) as [[a1 b1] c1] eqn:E1. pose proof (turn_words 4 a b c ltac:(lia) Hb Hc) as W1. pose proof (unturn_turn 4 a b c Ha Hc) as R1. rewrite E1 in W1, R1. destruct W1 as (A1 & B1 & C1).
  destruct (turn 6 b1 c1 a1) as [[b2 c2] a2] eqn:E2. pose proof (turn_words 6 b1 c1 a1 ltac:(lia) C1 A1) as W2. pose proof (unturn_turn 6 b1 c1 a1 B1 A1) as R2. rewrite E2 in W2, R2. destruct W2 as (B2 & C2 & A2).
  destruct (turn 8 c2 a2 b2) as [[c3 a3] b3] eqn:E3. pose proof (turn_words 8 c2 a2 b2 ltac:(lia) A2 B2) as W3. pose proof (unturn_turn 8 c2 a2 b2 C2 B2) as R3. rewrite E3 in W3, R3. destruct W3 as (C3 & A3 & B3).
  destruct (turn 16 a3 b3 c3) as [[a4 b4] c4] eqn:E4. pose proof (turn_words 16 a3 b3 c3 ltac:(lia) B3 C3) as W4. pose proof (unturn_turn 16 a3 b3 c3 A3 C3) as R4. rewrite E4 in W4, R4. destruct W4 as (A4 & B4 & C4).
  destruct (turn 19 b4 c4 a4) as [[b5 c5] a5] eqn:E5. pose proof (turn_words 19 b4 c4 a4 ltac:(lia) C4 A4) as W5. pose proof (unturn_turn 19 b4 c4 a4 B4 A4) as R5. rewrite E5 in W5, R5. destruct W5 as (B5 & C5 & A5).
  destruct (turn 4 c5 a5 b5) as [[c6 a6] b6] eqn:E6. pose proof (turn_words 4 c5 a5 b5 ltac:(lia) A5 B5) as W6. pose proof (unturn_turn 4 c5 a5 b5 C5 B5) as R6. rewrite E6 in W6, R6. destruct W6 as (C6 & A6 & B6).
  split; [|done]. by rewrite unmix_turns, R6, R5, R4, R3, R2, R1.
Qed.

(** * The three ways *)

Definition byte (x : Z) : Prop := 0 <= x < 256.
Lemma at_byte k i : Forall byte k -> byte (at_ k i).
Proof. intros H. unfold at_. destruct (nth_in_or_default i k 0) as [Hin| ->]; [|by unfold byte]. rewrite Forall_forall in H. apply H. by apply list_elem_of_In. Qed.

Lemma st3_eq (a a' b b' c c' : Z) : a = a' -> b = b' -> c = c' -> (a, b, c) = (a', b', c').
Proof. by intros -> -> ->. Qed.
Ltac pows := rewrite ?Z.shiftl_mul_pow2 by lia; try change (2 ^ 0) with 1; try change (2 ^ 8) with 256; try change (2 ^ 16) with 65536; try change (2 ^ 24) with 16777216.
Ltac words_eq := repeat first [rewrite u32_add_r | rewrite u32_add_l | rewrite <- Z.add_assoc]; pows; cbn [Nat.mul Nat.add]; apply st3_eq; first [reflexivity | apply (f_equal u32); lia].
Lemma block32_8 k s : block32 k s = block8 k s.
Proof.
  destruct s as [[a b] c]. unfold block32, block8, four8, add8, k32. words_eq.
Qed.
Lemma block16_8 k s : block16 k s = block8 k s.
Proof.
  destruct s as [[a b] c]. unfold block16, block8, four8, add8, two16, k16. words_eq.
Qed.

(** The low bytes of a word. *)
Lemma k32_low1 k i : Forall byte k -> Z.land (k32 k i) 0xff = at_ k (4 * i).
Proof.
  intros H. change 0xff with (Z.ones 8). rewrite Z.land_ones by lia. unfold k32. rewrite !Z.shiftl_mul_pow2 by lia. pose proof (at_byte k (4 * i) H) as H0. unfold byte in *.
  change (2 ^ 8) with 256. change (2 ^ 16) with (256 * 256). change (2 ^ 24) with (256 * 256 * 256). symmetry. apply (Z.mod_unique _ _ (at_ k (4 * i + 1) + at_ k (4 * i + 2) * 256 + at_ k (4 * i + 3) * 256 * 256)); lia.
Qed.
Lemma k32_low2 k i : Forall byte k -> Z.land (k32 k i) 0xffff = at_ k (4 * i) + Z.shiftl (at_ k (4 * i + 1)) 8.
Proof.
  intros H. change 0xffff with (Z.ones 16). rewrite Z.land_ones by lia. unfold k32. rewrite !Z.shiftl_mul_pow2 by lia. pose proof (at_byte k (4 * i) H) as H0. pose proof (at_byte k (4 * i + 1) H) as H1. unfold byte in *.
  change (2 ^ 8) with 256. change (2 ^ 16) with 65536. change (2 ^ 24) with (65536 * 256). symmetry. apply (Z.mod_unique _ _ (at_ k (4 * i + 2) + at_ k (4 * i + 3) * 256)); lia.
Qed.
Lemma k32_low3 k i : Forall byte k -> Z.land (k32 k i) 0xffffff = at_ k (4 * i) + Z.shiftl (at_ k (4 * i + 1)) 8 + Z.shiftl (at_ k (4 * i + 2)) 16.
Proof.
  intros H. change 0xffffff with (Z.ones 24). rewrite Z.land_ones by lia. unfold k32. rewrite !Z.shiftl_mul_pow2 by lia. pose proof (at_byte k (4 * i) H) as H0. pose proof (at_byte k (4 * i + 1) H) as H1. pose proof (at_byte k (4 * i + 2) H) as H2. unfold byte in *.
  change (2 ^ 8) with 256. change (2 ^ 16) with 65536. change (2 ^ 24) with 16777216. symmetry. apply (Z.mod_unique _ _ (at_ k (4 * i + 3))); lia.
Qed.

Lemma one_to_twelve n : 0 < n <= 12 -> n = 1 \/ n = 2 \/ n = 3 \/ n = 4 \/ n = 5 \/ n = 6 \/ n = 7 \/ n = 8 \/ n = 9 \/ n = 10 \/ n = 11 \/ n = 12.
Proof. lia. Qed.
Lemma last32_8 n k s : Forall byte k -> 0 < n <= 12 -> last32 n k s = last8 n k s.
Proof.
  intros H Hn. destruct s as [[a b] c]. unfold last32, last8. rewrite !k32_low1, !k32_low2, !k32_low3 by done. unfold add8, k32.
  destruct (one_to_twelve n Hn) as [->|[->|[->|[->|[->|[->|[->|[->|[->|[->|[->| ->]]]]]]]]]]]; cbn [Z.eqb Z.leb Z.compare Pos.eqb Pos.compare Pos.compare_cont]; words_eq.
Qed.
Lemma last16_8 n k s : 0 < n <= 12 -> last16 n k s = last8 n k s.
Proof.
  intros Hn. destruct s as [[a b] c]. unfold last16, last8, add8, two16, k16.
  destruct (one_to_twelve n Hn) as [->|[->|[->|[->|[->|[->|[->|[->|[->|[->|[->| ->]]]]]]]]]]]; cbn [Z.eqb Z.leb Z.compare Pos.eqb Pos.compare Pos.compare_cont]; words_eq.
Qed.

(** * The whole key *)

Lemma blocks_eq f g : (forall k s, f k s = g k s) -> forall fuel k n s, blocks fuel f k n s = blocks fuel g k n s.
Proof. intros H. induction fuel as [|fuel IH]; intros k n s; cbn [blocks]; [done |]. destruct (12 <? n); [by rewrite H, IH | done]. Qed.
(** The blocks before the last leave one to twelve bytes, or none when there were none. *)
Lemma blocks_end f : forall fuel k n s, 0 <= n <= Z.of_nat fuel -> Forall byte k -> let '(_, n', k') := blocks fuel f k n s in 0 <= n' <= 12 /\ (n' = 0 -> n = 0) /\ Forall byte k'.
Proof.
  induction fuel as [|fuel IH]; intros k n s Hn Hk; cbn [blocks]; [split; [lia | done] |]. destruct (Z.ltb_spec 12 n); [|split; [lia | done]].
  specialize (IH (drop 12 k) (n - 12) (mix (f k s)) ltac:(lia) (Forall_drop _ _ _ Hk)). destruct (blocks _ _ _ _ _) as [[s' n'] k'].
  destruct IH as (H1 & H2 & H3). split; [done |]. split; [lia | done].
Qed.
Lemma jenkins_with_eq f g lf lg k n :
  (forall k s, f k s = g k s) -> (forall n k s, Forall byte k -> 0 < n <= 12 -> lf n k s = lg n k s) -> 0 <= n -> Forall byte k ->
  jenkins_with f lf k n = jenkins_with g lg k n.
Proof.
  intros Hf Hl Hn Hk. unfold jenkins_with. rewrite (blocks_eq f g Hf). pose proof (blocks_end g (Z.to_nat n) k n (u32 (0xdeadbeef + u32 n), u32 (0xdeadbeef + u32 n), u32 (0xdeadbeef + u32 n)) ltac:(lia) Hk) as H.
  destruct (blocks _ _ _ _ _) as [[s n'] k']. destruct H as (H1 & H2 & H3). destruct (Z.eqb_spec n' 0); [done |]. rewrite Hl; [done | done | lia].
Qed.

(** Byte by byte, only the key is read. *)
Lemma at_take k k' n i : take n k = take n k' -> (i < n)%nat -> at_ k i = at_ k' i.
Proof.
  intros E Hi. unfold at_. assert (H : forall l : bytes, nth i l 0 = nth i (take n l) 0).
  { intros l. rewrite !nth_lookup. by rewrite lookup_take_lt. }
  by rewrite H, E, <- H.
Qed.
Lemma take_drop_eq {A} (k k' : list A) n m : take (m + n) k = take (m + n) k' -> take n (drop m k) = take n (drop m k').
Proof. intros E. by rewrite !take_drop_commute, E. Qed.
Lemma block8_take k k' s : take 12 k = take 12 k' -> block8 k s = block8 k' s.
Proof. intros E. destruct s as [[a b] c]. unfold block8, four8, add8. by rewrite !(fun i H => at_take k k' 12 i E H) by lia. Qed.
Lemma add8_take x k k' n i sh : take n k = take n k' -> (i < n)%nat -> add8 x k i sh = add8 x k' i sh.
Proof. intros E H. unfold add8. by rewrite (at_take k k' n i E H). Qed.
Lemma last8_take k k' n s : 0 < n <= 12 -> take (Z.to_nat n) k = take (Z.to_nat n) k' -> last8 n k s = last8 n k' s.
Proof.
  intros Hn E. destruct s as [[a b] c]. unfold last8.
  assert (H : forall m x i sh, (Z.of_nat i < m) -> (if m <=? n then add8 x k i sh else x) = (if m <=? n then add8 x k' i sh else x)).
  { intros m x i sh Hi. destruct (Z.leb_spec m n); [|done]. apply (add8_take x k k' (Z.to_nat n) i sh E). lia. }
  by rewrite !H by lia.
Qed.
Lemma blocks8_take : forall fuel k k' n s, 0 <= n <= Z.of_nat fuel -> take (Z.to_nat n) k = take (Z.to_nat n) k' ->
  let '(s1, n1, k1) := blocks fuel block8 k n s in let '(s2, n2, k2) := blocks fuel block8 k' n s in s1 = s2 /\ n1 = n2 /\ take (Z.to_nat n1) k1 = take (Z.to_nat n1) k2 /\ 0 <= n1 <= 12.
Proof.
  induction fuel as [|fuel IH]; intros k k' n s Hn E; cbn [blocks]; [split; [done |]; split; [done |]; split; [done | lia] |].
  destruct (Z.ltb_spec 12 n); [|split; [done |]; split; [done |]; split; [done | lia]].
  assert (E12 : take 12 k = take 12 k').
  { replace (take 12 k) with (take 12 (take (Z.to_nat n) k)); [rewrite E |]; rewrite take_take; f_equal; lia. }
  rewrite (block8_take k k' s E12). apply IH; [lia |]. apply take_drop_eq. replace (12 + Z.to_nat (n - 12))%nat with (Z.to_nat n) by lia. done.
Qed.
Lemma jenkins8_take k k' n : 0 <= n -> take (Z.to_nat n) k = take (Z.to_nat n) k' -> jenkins_with block8 last8 k n = jenkins_with block8 last8 k' n.
Proof.
  intros Hn E. unfold jenkins_with. set (a := u32 _). pose proof (blocks8_take (Z.to_nat n) k k' n (a, a, a) ltac:(lia) E) as H.
  destruct (blocks _ _ k _ _) as [[s1 n1] k1], (blocks _ _ k' _ _) as [[s2 n2] k2]. destruct H as (-> & -> & E2 & H). destruct (Z.eqb_spec n2 0); [done |].
  f_equal. apply last8_take; [lia | done].
Qed.

Lemma jenkins_bytes addr k n : 0 <= n -> Forall byte k -> jenkins_hash addr k n = jenkins_with block8 last8 k n.
Proof.
  intros Hn Hk. unfold jenkins_hash. destruct (_ =? 0); [|destruct (_ =? 0); [|done]].
  - apply jenkins_with_eq; [apply block32_8 | apply last32_8 | done | done].
  - apply jenkins_with_eq; [apply block16_8 | intros; by apply last16_8 | done | done].
Qed.

(** * The range *)

Lemma final_word s : word (final s).
Proof. destruct s as [[a b] c]. apply u32_word. Qed.
Lemma blocks_state f : forall fuel k n s, (forall k s, words s -> words (f k s)) -> words s -> let '(s', _, _) := blocks fuel f k n s in words s'.
Proof.
  induction fuel as [|fuel IH]; intros k n s Hf Hs; cbn [blocks]; [done |]. destruct (12 <? n); [|done]. apply IH; [done |].
  specialize (Hf k s Hs). destruct (f k s) as [[a b] c]. destruct Hf as (A & B & C). by apply unmix_mix.
Qed.
Lemma jenkins_word addr k n : 0 <= n -> Forall byte k -> word (jenkins_hash addr k n).
Proof.
  intros Hn Hk. rewrite jenkins_bytes by done. unfold jenkins_with. set (a := u32 _). assert (Ha : word a) by apply u32_word.
  pose proof (blocks_state block8 (Z.to_nat n) k n (a, a, a)) as H. destruct (blocks _ _ _ _ _) as [[s n'] k']. destruct (n' =? 0); [|apply final_word].
  apply H; [|done]. intros k2 [[x y] z] _. by repeat split; simpl; try apply u32_word.
Qed.
Lemma shiftr_nonneg_word h k : 0 <= k -> word h -> word (Z.lxor h (Z.shiftr h k)).
Proof. intros Hk Hh. apply lxor_word; [done | by apply shiftr_word]. Qed.
Lemma fmix32_word h : word h -> word (fmix32 h).
Proof. intros Hh. unfold fmix32. apply shiftr_nonneg_word; [lia | apply u32_word]. Qed.
Lemma murmur_word k n : word (MurmurHash3_x86_32 k n).
Proof.
  unfold MurmurHash3_x86_32. apply fmix32_word, lxor_word; [|apply u32_word]. unfold murmur_tail. set (b := murmur_body _ _ _).
  assert (Hb : word b). { unfold b. generalize (Z.to_nat (n / 4)). intros m. assert (H : forall m k h, word h -> word (murmur_body m k h)) by (intros p; induction p as [|p IH]; intros k' h Hh; [exact Hh | apply IH, u32_word]). apply H. unfold word. lia. }
  destruct (1 <=? _); [|done]. apply lxor_word; [done | apply u32_word].
Qed.
Lemma uchar_bytes l : Forall byte (map uchar l).
Proof. apply Forall_map, Forall_forall. intros c _. apply uchar_range. Qed.

(** The values the authors' own implementations give. *)
Example hash_hello : MurmurHash3_x86_32 (map uchar (lit "hello")) 5 = 0x248bfa47.
Proof. vm_compute. reflexivity. Qed.
Example hash_four_score : jenkins_hash 1 (map uchar (lit "Four score and seven years ago")) 30 = 0x17770551.
Proof. vm_compute. reflexivity. Qed.
