(* ===== verification/CacheThm.v ===== *)
(** What the specification of the cache means to a client: a key never shows anything
    but what was last stored under it. *)
From S2P Require Import Prelude CStr CDec Store Slabs Items StoreCmd CacheSpec UpdateThm CacheRun.
Local Open Scope Z_scope.

(** Nothing under [k], or an entry with this text. *)
Definition shows (k suffix bytes : list ascii) (m : cache) : Prop := forall e, m !! k = Some e -> e_suffix e = suffix /\ e_bytes e = bytes.

Lemma shows_sub k su by_ m m' : m' ⊆ m -> shows k su by_ m -> shows k su by_ m'.
Proof. intros Hs H e He. apply H. by apply (lookup_weaken _ _ _ _ He). Qed.
Lemma shows_delete k su by_ k' m : shows k su by_ m -> shows k su by_ (delete k' m).
Proof. apply shows_sub, delete_subseteq. Qed.
Lemma shows_gone k su by_ m : shows k su by_ (delete k m).
Proof. intros e. by rewrite lookup_delete_eq. Qed.
Lemma shows_other k su by_ k' e m : k' <> k -> shows k su by_ m -> shows k su by_ (<[k' := e]> m).
Proof. intros Hne H e'. rewrite lookup_insert_ne by done. apply H. Qed.
Lemma shows_same k su by_ e m : e_suffix e = su -> e_bytes e = by_ -> shows k su by_ (<[k := e]> m).
Proof. intros H1 H2 e'. rewrite lookup_insert_eq. by intros [= <-]. Qed.
(** An entry is replaced by one with the same text. *)
Lemma shows_redo k su by_ k' e e' m : m !! k' = Some e -> e_suffix e' = e_suffix e -> e_bytes e' = e_bytes e -> shows k su by_ m -> shows k su by_ (<[k' := e']> m).
Proof.
  intros He H1 H2 H. destruct (decide (k' = k)) as [->|Hne]; [|by apply shows_other]. destruct (H e He) as [E1 E2]. apply shows_same; congruence.
Qed.
Lemma shows_refreshed k su by_ now k' e m : m !! k' = Some e -> shows k su by_ m -> shows k su by_ (refreshed now k' e m).
Proof. intros He H. unfold refreshed. destruct (_ <? _); [|done]. by apply (shows_redo k su by_ k' e). Qed.
Lemma shows_refresh k su by_ c now k' m : shows k su by_ m -> shows k su by_ (refresh c now k' m).
Proof.
  intros H. unfold refresh. destruct (look c now k' m) as [e|] eqn:E; [|by apply shows_delete]. apply look_gone in E as [E _]. by apply shows_refreshed.
Qed.
Lemma shows_touched k su by_ c now k' t m : shows k su by_ m -> shows k su by_ (touched c now k' t m).
Proof.
  intros H. unfold touched. destruct (look c now k' m) as [e|] eqn:E; [|by apply shows_delete]. apply look_gone in E as [E _].
  apply shows_refreshed; [apply lookup_insert_eq |]. by apply (shows_redo k su by_ k' e).
Qed.
Lemma shows_serve k su by_ c now rc keys : forall m, shows k su by_ m -> shows k su by_ (CacheSpec.serve c now rc keys m).2.
Proof.
  induction keys as [|k' keys IH]; intros m H; cbn [CacheSpec.serve]; [done |]. destruct (_ <? _); [done |]. destruct (look c now k' m) as [e|] eqn:E; [|by apply IH, shows_delete].
  apply look_gone in E as [E _]. cbn [snd]. by apply IH, shows_refreshed.
Qed.

(** Storing under another key; storing under this one. *)
Lemma shows_storing k su by_ c now k' e m comm r m' : k' <> k -> storing c now k' e m comm r m' -> shows k su by_ m -> shows k su by_ m'.
Proof.
  intros Hne Hs H. destruct Hs; try (by apply shows_other); try done; try (by apply shows_delete); try (by apply shows_refresh); try (by apply (shows_sub _ _ _ m)).
  apply shows_other; [done |]. by apply (shows_sub _ _ _ m).
Qed.
Lemma shows_updating k su by_ c now k' flags exptime vlen comm req data m reply m' :
  k' <> k -> updating c now k' flags exptime vlen comm req data m reply m' -> shows k su by_ m -> shows k su by_ m'.
Proof.
  intros Hne Hu H. destruct Hu as [|m0 reply Hs _|m0 Hs _|m0 m' r Hs _ Hst]; [done | | by apply (shows_sub _ _ _ m) |].
  - destruct (comm =? NREAD_SET); [apply shows_delete|]; by apply (shows_sub _ _ _ m).
  - apply (shows_storing k su by_ _ _ _ _ _ _ _ _ Hne Hst). by apply (shows_sub _ _ _ m).
Qed.
(** A set, whatever its answer was. *)
Lemma shows_set k c now flags exptime vlen req data m reply m' :
  Z.of_nat (length k) <= KEY_MAX_LENGTH -> 2 <= i32 (vlen + 2) -> ends_in_crlf data ->
  updating c now k flags exptime vlen NREAD_SET req data m reply m' -> shows k (item_suffix flags (Z.of_nat (length data))) data m'.
Proof.
  intros Hk Hv Hd Hu. inversion Hu as [[H|H]|m0 reply' Hs _|m0 Hs Hn|m0 m2 r Hs _ Hst]; subst; [lia | lia | apply shows_gone | done |].
  unfold NREAD_SET in Hst. inversion Hst; subst; try (by apply shows_same); try (unfold NREAD_REPLACE, joins, NREAD_APPEND, NREAD_PREPEND in *; lia).
Qed.

Section Server.
Variable started : Z.

(** Requests that do not store under [k]. *)
Definition leaves (k : list ascii) (r : request) : Prop := match r with Update _ k' _ _ _ _ _ => k' <> k | _ => True end.
Lemma shows_allowed k su by_ w r a w' : leaves k r -> allowed started w r a w' -> shows k su by_ (w_map w) -> shows k su by_ (w_map w').
Proof.
  intros Hl Ha H. destruct Ha; cbn [w_map leaves] in *; [by eapply shows_updating | by apply shows_serve | by apply shows_delete | by apply shows_touched | done | done].
Qed.
Lemma shows_allowed_all k su by_ w l a w' : Forall (leaves k) l -> allowed_all started w l a w' -> shows k su by_ (w_map w) -> shows k su by_ (w_map w').
Proof.
  intros Hl Ha. induction Ha as [|w r a w1 l b w2 Hr _ IH]; [done |]. apply Forall_cons in Hl as [H1 H2]. intros H. apply IH; [done |]. by eapply shows_allowed.
Qed.
Lemma allowed_all_app w l1 l2 a w2 : allowed_all started w (l1 ++ l2) a w2 -> exists a1 a2 w1, a = a1 ++ a2 /\ allowed_all started w l1 a1 w1 /\ allowed_all started w1 l2 a2 w2.
Proof.
  revert w a. induction l1 as [|r l1 IH]; intros w a; cbn [app]; [intros H; exists [], a, w; split; [done |]; split; [apply all_done | done] |].
  inversion 1 as [|w0 r0 b w3 l0 b2 w4 Hr Ha]; subst. destruct (IH _ _ Ha) as (a1 & a2 & w1 & -> & H1 & H2). exists (b :: a1), a2, w1. split; [done |]. split; [by eapply all_step | done].
Qed.
Lemma get_shows k su by_ w a w' : Z.of_nat (length k) <= KEY_MAX_LENGTH -> shows k su by_ (w_map w) -> allowed started w (Get false [k]) a w' ->
  a = lit "END" ++ [CR; LF] \/ a = lit "VALUE " ++ k ++ su ++ by_ ++ lit "END" ++ [CR; LF].
Proof.
  intros Hk H. inversion 1; subst. unfold r. cbn [CacheSpec.serve]. rewrite (proj2 (Z.ltb_ge _ _) Hk). destruct (look (w_cfg w) (w_now w) k (w_map w)) as [e|] eqn:E; [|by left].
  right. apply look_gone in E as [E _]. destruct (H e E) as [E1 E2]. unfold served, render, value_text. cbn [fst fmap option_fmap option_map default from_option]. by rewrite E1, E2, <- !app_assoc.
Qed.

(** A set, then anything that does not store under the key, then a get. *)
Lemma last_write w l1 k flags exptime vlen req data l2 a w' :
  Z.of_nat (length k) <= KEY_MAX_LENGTH -> 2 <= i32 (vlen + 2) -> ends_in_crlf data -> Forall (leaves k) l2 ->
  allowed_all started w (l1 ++ Update NREAD_SET k flags exptime vlen req data :: l2 ++ [Get false [k]]) a w' ->
  last a = Some (lit "END" ++ [CR; LF]) \/ last a = Some (lit "VALUE " ++ k ++ item_suffix (i32 flags) (Z.of_nat (length data)) ++ data ++ lit "END" ++ [CR; LF]).
Proof.
  intros Hk Hv Hd Hl Ha. apply allowed_all_app in Ha as (a1 & a2 & w1 & -> & _ & Ha).
  inversion Ha as [|w0 r0 b w3 l0 b2 w4 Hr Ha2]; subst. apply allowed_all_app in Ha2 as (a3 & a4 & w5 & -> & H3 & H4).
  inversion Hr; subst. match goal with H : updating _ _ _ _ _ _ _ _ _ _ _ _ |- _ => apply (shows_set k) in H as Hsh; [|done..] end.
  apply (shows_allowed_all k _ _ _ _ _ _ Hl H3) in Hsh. inversion H4 as [|w6 r6 b6 w7 l6 b7 w8 Hg Hn]; subst. inversion Hn; subst.
  rewrite app_comm_cons, app_assoc, last_snoc. destruct (get_shows k _ _ _ _ _ Hk Hsh Hg) as [->| ->]; [by left | by right].
Qed.

(** A set that answered STORED. *)
Lemma set_stored w k flags exptime vlen req data w' :
  allowed started w (Update NREAD_SET k flags exptime vlen req data) (lit "STORED") w' ->
  exists n m, w' = World (w_cfg w) (w_now w) (<[k := Entry (item_suffix (i32 flags) (Z.of_nat (length data))) data
    (realtime_at started (if exptime <? 0 then REALTIME_MAXDELTA + 1 else exptime) (w_now w)) n (w_now w)]> m).
Proof.
  inversion 1 as [comm k' f e v q d reply m Hu| | | | |]; subst. inversion Hu as [Hb Heq|m0 reply' Hs Hr|m0 Hs Hn|m0 m2 r Hs _ Hst Heq]; subst.
  - destruct Hr as [Hr|Hr]; discriminate Hr.
  - unfold NREAD_SET in Hst. inversion Hst; subst; try discriminate; first [unfold joins, NREAD_APPEND, NREAD_PREPEND in *; lia | by eexists _, _].
Qed.
End Server.
