(* ===== verification/CacheInit.v ===== *)
(** The start of the cache server: an empty table and the slab classes; the settings
    of settings_init. *)
From S2P Require Import Prelude CStr CFloat Assoc AssocThm DList Store Slabs Items StoreCmd StoreInv LruThm SlabsThm ItemsThm ItemsGet CacheSpec CachedThm CacheRun.
From Stdlib Require Import SpecFloat.
Local Open Scope Z_scope.

(** * settings_init, and the variables before anything has run *)

Definition default_settings : settings := MkSettings 0 0 true 48 true (1024 * 1024) false false 0 32 32 false.
Definition default_factor : spec_float := f64_lit 5 4.
Definition blank (c : settings) (now top : Z) : store :=
  MkStore (MkAssoc ∅ ∅ HASHPOWER_DEFAULT [] [] 0 false false 0) ∅ ∅ ∅
    (MkLrus (replicate 256 None) (replicate 256 None) (replicate 256 0))
    (MkSlabmem [] 0 0 false 0 None 0 0 4096 top []) (MkCounters 0 now 0 0 0 (fun _ _ => 0)) c.
(** The calls of main. *)
Definition start (hashpower_init maxbytes : Z) (factor : spec_float) : SM unit :=
  zoom tbl set_tbl (assoc_init true hashpower_init) ;;; slabs_init maxbytes factor.

(** * Slab classes without pages *)

Definition class_fine (max : Z) (p : slabclass_t) : bool :=
  bool_decide (slots p = None) && (sl_curr p =? 0) && (1 <=? c_size p) && (1 <=? perslab p) && (c_size p * perslab p <=? max) && (slabs p =? 0).
Definition mem_fine (m : slabmem) (max : Z) : bool :=
  (1 <=? power_largest m) && (power_largest m <? 64) && bool_decide (mem_base m = None) && (1 <=? brk m) && (brk m <=? 2 ^ 32) && (mem_top m <=? 2 ^ 32) &&
  match slabclass m with g :: cs => (slabs g =? 0) && (power_largest m <=? Z.of_nat (length cs)) && forallb (class_fine max) (take (Z.to_nat (power_largest m)) cs) | [] => false end.
Definition no_items : lid -> list ptr := fun _ => [].
Definition view0 : view := View ∅ no_items (fun _ => 0) (fun _ => 0).

Lemma class_fine_ok max p m : 1 <= brk m -> class_fine max p = true -> class_ok m max [] p.
Proof.
  intros Hb H. unfold class_fine in H. repeat (apply andb_prop in H as [H ?]). apply bool_decide_eq_true in H. constructor; simpl; [done | lia | lia | lia].
Qed.
Lemma mem_fine_ok m max : mem_fine m max = true -> mem_ok m max no_items.
Proof.
  unfold mem_fine. intros H. apply andb_prop in H as [H Hc]. repeat (apply andb_prop in H as [H ?]). destruct (slabclass m) as [|g cs] eqn:E; [done |].
  apply andb_prop in Hc as [Hc Hall]. apply andb_prop in Hc as [Hg Hlen]. constructor.
  - lia.
  - by eapply bool_decide_eq_true_1.
  - lia.
  - exists g. split; [by rewrite E | lia].
  - intros c Hcl. rewrite E. unfold arr. rewrite (proj2 (Z.ltb_ge _ _)) by lia. replace (Z.to_nat c) with (S (Z.to_nat (c - 1))) by lia. cbn [lookup list_lookup].
    destruct (lookup_lt_is_Some_2 cs (Z.to_nat (c - 1))) as [p Hp]; [lia |]. exists p. split; [done |]. apply class_fine_ok; [lia |].
    rewrite forallb_forall in Hall. apply Hall. apply list_elem_of_In. apply list_elem_of_lookup. exists (Z.to_nat (c - 1)). rewrite lookup_take_lt by lia. done.
Qed.
Lemma arr_replicate {A} (x : A) n i : 0 <= i < Z.of_nat n -> arr (replicate n x) i = Some x.
Proof. intros Hi. unfold arr. rewrite (proj2 (Z.ltb_ge _ _)) by lia. apply lookup_replicate. split; [done | lia]. Qed.

Lemma quiet_start hash s c now top :
  rep hash (tbl s) ∅ -> same_items (tbl (blank c now top)) (tbl s) -> i_next s = ∅ -> i_prev s = ∅ -> hdrs s = ∅ -> lru s = lru (blank c now top) -> cfg s = c ->
  mem_fine (mem s) (item_size_max c) = true -> 0 < item_size_max c < 2 ^ 30 -> lru_maintainer_thread c = false -> tail_repair_time c = 0 -> quiet hash s view0.
Proof.
  intros R [K D] En Ep Eh El Ec Hm Hmax P1 P2. split; [|split; [by rewrite <- Ec in P1, P2 | done]]. constructor; try done.
  - constructor; [intros a l1 x l2 E; by destruct l1 | intros a; constructor | intros a b x Hx; by apply not_elem_of_nil in Hx].
  - rewrite El. intros i Hi. unfold blank. cbn [lru heads tails sizes]. rewrite !arr_replicate by (change (Z.of_nat 256) with 256; lia). done.
  - rewrite Ec. by apply mem_fine_ok.
  - by rewrite Ec.
  - rewrite En, Ep, Eh, K, D. simpl. by rewrite !dom_empty_L.
  - intros x h. by rewrite Eh.
  - intros x a. split; [intros Hx; by apply not_elem_of_nil in Hx | intros (h & Hh & _); by rewrite Eh in Hh].
  - intros x h. by rewrite Eh.
  - intros x h. by rewrite Eh.
Qed.

(** The start leads to a quiet, empty store, when the slab classes come out right. *)
Definition classes_of (c : settings) (maxbytes : Z) (factor : spec_float) (top : Z) : slabmem :=
  match slabs_init maxbytes factor (blank c 0 top) with Ret _ s => mem s | _ => mem (blank c 0 top) end.
Lemma start_spec hash c hp maxbytes factor now top :
  (forall k, 0 <= hash k < 2 ^ 32) -> 1 <= (if hp =? 0 then HASHPOWER_DEFAULT else hp) <= 62 ->
  (forall t, slabs_init maxbytes factor (set_tbl t (blank c now top)) = Ret tt (set_mem (classes_of c maxbytes factor top) (set_tbl t (blank c now top)))) ->
  mem_fine (classes_of c maxbytes factor top) (item_size_max c) = true -> 0 < item_size_max c < 2 ^ 30 -> lru_maintainer_thread c = false -> tail_repair_time c = 0 ->
  wp (start hp maxbytes factor) (blank c now top) (fun _ s => quiet hash s view0 /\ world_of s view0 = World c now ∅).
Proof.
  intros Hh Hp Hrun Hm Hmax P1 P2. unfold start. apply wp_bind, wp_zoom.
  eapply wp_mono; [by apply (assoc_init_spec hash hp (tbl (blank c now top))) |]. intros _ t (R & K & _).
  eapply wp_intro; [apply Hrun |]. split; [|done]. by apply (quiet_start hash _ c now top).
Qed.

(** The settings of the start script: 256 megabytes, everything else by default. *)
Definition script_bytes : Z := 256 * 1024 * 1024.
Lemma default_start hash now : (forall k, 0 <= hash k < 2 ^ 32) ->
  wp (start 0 script_bytes default_factor) (blank default_settings now (2 ^ 32)) (fun _ s => quiet hash s view0 /\ world_of s view0 = World default_settings now ∅).
Proof. intros Hh. by apply start_spec. Qed.
