(* ===== verification/LeakThm.v ===== *)
(** Where references go wrong: one get of a key too often wraps the count of its
    item, and an empty value is never given back by incr and decr. *)
From S2P Require Import Prelude CStr CDec Assoc AssocThm DList Store Slabs Items StoreCmd StoreInv LruThm SlabsThm ItemsThm ItemsGet PullThm AllocThm CacheSpec CachedThm StoreThm LookupThm CacheRun.
Local Open Scope Z_scope.

Section Ok.
Variable hash : list ascii -> Z.
Hypothesis hash_range : forall k, 0 <= hash k < 2 ^ 32.

(** * The same key again and again *)

(** An item that a get finds and that is not old enough to be moved. *)
Definition recent (s : store) (k : list ascii) (x : ptr) (h : hdr) : Prop :=
  (exists m, rep hash (tbl s) m /\ m !! k = Some x) /\ item_key (tbl s) !! x = Some k /\ hdrs s !! x = Some h /\ dead h s = false /\ stale h s = false /\
  it_nbytes h <= Z.of_nat (length (it_data h)).
(** A get of it: the count goes up by one in its 16 bits. *)
Definition got_again (h : hdr) : hdr := set_flags (Z.lor (it_flags h) (Z.lor ITEM_FETCHED ITEM_ACTIVE)) (set_refcount (u16 (it_refcount h + 1)) h).
Lemma has_cas_fetched f : 0 <= f < 256 -> tst (Z.lor f (Z.lor ITEM_FETCHED ITEM_ACTIVE)) ITEM_CAS = tst f ITEM_CAS /\
  tst (Z.lor f (Z.lor ITEM_FETCHED ITEM_ACTIVE)) ITEM_SLABBED = tst f ITEM_SLABBED /\ 0 <= Z.lor f (Z.lor ITEM_FETCHED ITEM_ACTIVE) < 256.
Proof.
  intros Hf. pose proof (by_enum (fun f => Bool.eqb (tst (Z.lor f (Z.lor ITEM_FETCHED ITEM_ACTIVE)) ITEM_CAS) (tst f ITEM_CAS) &&
    Bool.eqb (tst (Z.lor f (Z.lor ITEM_FETCHED ITEM_ACTIVE)) ITEM_SLABBED) (tst f ITEM_SLABBED) && (0 <=? Z.lor f (Z.lor ITEM_FETCHED ITEM_ACTIVE)) && (Z.lor f (Z.lor ITEM_FETCHED ITEM_ACTIVE) <? 256))
    ltac:(vm_compute; reflexivity) f Hf) as H. cbv beta in H. repeat (apply andb_prop in H as [H ?]). apply Bool.eqb_prop in H. split; [done |].
  split; [by apply Bool.eqb_prop | lia].
Qed.
Lemma recent_again s k x h : 0 <= it_flags h < 256 -> recent s k x h ->
  recent (set_hdrs (<[x := got_again h]> (hdrs s)) s) k x (got_again h).
Proof.
  intros Hf (Hm & Hk & Hh & Hd & Hst & Hb). split; [done |]. split; [done |]. split; [apply lookup_insert_eq |]. split; [|done].
  rewrite <- Hd, !dead_gone. cbn [cfg cnt set_hdrs]. f_equal. unfold entry_of, ITEM_get_cas, has. cbn [it_flags it_cas it_suffix it_data it_nbytes it_exptime it_time got_again set_flags set_refcount].
  pose proof (proj1 (has_cas_fetched (it_flags h) Hf)) as E. unfold tst in E. by rewrite E.
Qed.
Lemma get_one rc s k x h keys (Q : option (list ascii) * list ptr -> store -> Prop) :
  Z.of_nat (length k) <= KEY_MAX_LENGTH -> recent s k x h ->
  wp (get_items hash rc keys) (set_hdrs (<[x := got_again h]> (hdrs s)) s) (fun r s' => forall text, Q (app text <$> r.1, x :: r.2) s') ->
  wp (get_items hash rc (k :: keys)) s Q.
Proof.
  intros Hlen ((m & R & Hm) & Hk & Hh & Hd & Hst & Hb) HQ. cbn [get_items]. rewrite (proj2 (Z.ltb_ge _ _) Hlen). unfold item_get, do_item_get. apply wp_bind, wp_bind, wp_zoom.
  eapply wp_mono; [by apply (assoc_find_spec hash hash_range) |]. intros r t [-> ->]. rewrite Hm. replace (set_tbl (tbl s) s) with s by (by destruct s).
  set (s2 := set_hdrs _ s) in HQ. unfold dead in Hd. apply orb_false_elim in Hd as [D1 D2].
  apply wp_bind. unfold refcount_incr. apply wp_bind. eapply wp_hdr_of; [exact Hh |]. apply wp_bind. eapply wp_upd_hdr; [exact Hh |]. apply wp_ret.
  set (h1 := set_refcount _ h). set (s1 := set_hdrs _ s). apply wp_bind. eapply wp_hdr_of; [apply lookup_insert_eq |]. apply wp_bind, wp_gets.
  change (item_is_flushed h1 s1) with (item_is_flushed h s). change (expired h1 s1) with (expired h s). rewrite D1, D2.
  apply wp_bind. eapply wp_upd_hdr; [apply lookup_insert_eq |]. apply wp_ret. fold (got_again h).
  replace (set_hdrs (<[x := set_flags (Z.lor (it_flags h1) (Z.lor ITEM_FETCHED ITEM_ACTIVE)) h1]> (hdrs s1)) s1) with s2 by (unfold s2, s1; simpl; by rewrite insert_insert_eq).
  assert (Hh2 : hdrs s2 !! x = Some (got_again h)) by apply lookup_insert_eq.
  apply wp_bind. eapply wp_ITEM_key; [exact Hk |]. apply wp_bind. eapply wp_hdr_of; [exact Hh2 |]. apply wp_bind, wp_read_data; [exact Hb |].
  apply wp_bind. unfold item_update, do_item_update. apply wp_bind. eapply wp_ITEM_key; [exact Hk |]. apply wp_bind. eapply wp_hdr_of; [exact Hh2 |]. apply wp_bind, wp_gets.
  change (stale (got_again h) s2) with (stale h s). rewrite Hst. apply wp_ret. apply wp_bind. eapply wp_mono; [exact HQ |]. intros r s' Hr. by apply wp_ret.
Qed.
Lemma get_many rc n : forall s k x h, Z.of_nat (length k) <= KEY_MAX_LENGTH -> 0 <= it_flags h < 256 -> slabbed h = false -> 0 <= it_refcount h < 65536 -> recent s k x h ->
  wp (get_items hash rc (replicate n k)) s (fun r s' => is_Some r.1 /\ r.2 = replicate n x /\ exists h', hdrs s' !! x = Some h' /\ slabbed h' = false /\
    item_key (tbl s') !! x = Some k /\ it_refcount h' = u16 (it_refcount h + Z.of_nat n)).
Proof.
  induction n as [|n IH]; intros s k x h Hlen Hf Hs Hr R.
  - apply wp_ret. split; [by eexists |]. split; [done |]. exists h. split; [apply R |]. split; [done |]. split; [apply R |]. rewrite u16_small; lia.
  - cbn [replicate]. apply (get_one rc s k x h); [done | done |]. destruct (has_cas_fetched (it_flags h) Hf) as (_ & Hs2 & Hf2).
    assert (Hr2 : 0 <= it_refcount (got_again h) < 65536) by (change (it_refcount (got_again h)) with (u16 (it_refcount h + 1)); apply (wrap_u_range 16); lia).
    eapply wp_mono; [apply (IH _ k x (got_again h) Hlen Hf2); [by rewrite <- Hs; exact Hs2 | done | by apply recent_again] |].
    intros r s' ([t Ht] & Hr3 & h' & Hh' & Hs' & Hk' & Href) text. cbn [fst snd]. rewrite Ht. split; [by eexists |]. split; [by rewrite Hr3 |]. exists h'. do 3 (split; [done |]). rewrite Href.
    change (it_refcount (got_again h)) with (u16 (it_refcount h + 1)). unfold u16, wrap_u. rewrite Z.add_mod_idemp_l by done. f_equal. lia.
Qed.

(** When the count has come round to zero, giving back the first reference fails. *)
Lemma get_wraps rc s V k x h n :
  Z.of_nat (length k) <= KEY_MAX_LENGTH -> ok hash s V -> recent s k x h -> linked h = true -> u16 (it_refcount h + Z.of_nat (S n)) = 0 -> process_get_command hash rc (replicate (S n) k) s = Undef.
Proof.
  intros Hlen O R Hl Hn. assert (Hh : hdrs s !! x = Some h) by apply R. destruct (ok_item _ _ _ _ O x h Hh) as (F1 & _ & F3 & F4 & F5 & _).
  pose proof (get_many rc (S n) s k x h Hlen F1 (used_not_slabbed hash None s V x h O Hh Hl) ltac:(rewrite Hl in F4; simpl in F4; lia) R) as W.
  apply wp_run in W as ([otext items] & s' & Hrun & [text Htext] & Hitems & h' & Hh' & Hs' & Hk' & Href). cbn [fst snd] in Htext, Hitems. subst otext items. rewrite Hn in Href.
  unfold process_get_command. unfold bind at 1. rewrite Hrun. cbn [fst snd replicate conn_release_items]. unfold bind at 1.
  enough (E : item_remove x s' = Undef) by (unfold bind; by rewrite E). unfold item_remove, ITEM_key, key_of, zoom, get_or_undef. unfold bind at 1. rewrite Hk'.
  replace (set_tbl (tbl s') s') with s' by (by destruct s'). unfold do_item_remove, hdr_of, get_or_undef. unfold bind at 1. rewrite Hh'.
  change (has ITEM_SLABBED h') with (slabbed h'). rewrite Hs'. unfold bind at 1. cbn [assert negb ret]. unfold bind at 1. by rewrite Href.
Qed.

(** * A value that is empty *)

Variable lockable : Z -> bool.
Variable junk : Z -> list ascii.
Lemma empty_value_kept s V k e incr delta cas :
  ok hash s V -> room 1 V -> look (cfg s) (current_time (cnt s)) k (cached s V) = Some e -> Z.of_nat (length (e_bytes e)) <= 2 ->
  wp (add_delta hash lockable junk k incr delta cas) s (fun r s' => r = (NON_NUMERIC, [], cas) /\ exists x V', ok hash s' V' /\ v_map V' !! k = Some x /\
    calm_but x 1 s V s' V' /\ cached s' V' = cached s V).
Proof.
  intros O Hr He Hlen. unfold add_delta, do_add_delta. apply wp_bind. eapply wp_mono; [by apply (get_cached hash hash_range s V k O) |].
  intros [x|] s1 (V1 & O1 & St & G); [|destruct G as (_ & Hn & _); congruence]. destruct G as (C1 & E1 & e' & He' & H). assert (e' = e) as -> by congruence.
  destruct H as (Hk & Hx & _ & h & Hh & <- & Hl). destruct (used_bytes hash s1 V1 x h O1 Hh) as [B1 B2]; [by apply (used_not_slabbed hash None s1 V1 x h) |].
  pose proof (bytes_length h ltac:(lia)) as Hb. apply wp_bind. eapply wp_hdr_of; [exact Hh |]. rewrite (proj2 (Z.leb_le _ _)) by lia.
  apply wp_ret. split; [done |]. by exists x, V1.
Qed.
End Ok.
