(* ===== verification/CacheProps.v ===== *)
(** What the cache server promises to its clients, and where it does not keep it. *)
From S2P Require Import Prelude CStr CDec CFloat Assoc AssocThm DList Store Slabs Items StoreCmd StoreInv LruThm SlabsThm ItemsThm ItemsGet PullThm AllocThm CacheSpec CachedThm StoreThm UpdateThm LookupThm ArithThm CacheRun CacheThm CacheInit LeakThm Hash HashThm.
Local Open Scope Z_scope.

(** * A server *)

Definition jenkins (k : list ascii) : Z := hash_of JENKINS_HASH 1 [] k.
Lemma jenkins_range k : 0 <= jenkins k < 2 ^ 32.
Proof. apply jenkins_word; [lia |]. rewrite app_nil_r. apply uchar_bytes. Qed.
Definition zeros (n : Z) : list ascii := replicate (Z.to_nat n) NUL.
Lemma zeros_length n : 0 <= n -> Z.of_nat (length (zeros n)) = n.
Proof. intros H. unfold zeros. rewrite length_replicate. lia. Qed.
(** A server that has just been started, with the settings of the start script. *)
Definition script_run (hash : list ascii -> Z) (lockable : Z -> bool) (junk : Z -> list ascii) (started now : Z) (l : list request) : outcome store (list (list ascii)) :=
  (start 0 script_bytes default_factor ;;; serve_all hash lockable junk started l) (blank default_settings now (2 ^ 32)).
Definition world0 (now : Z) : world := World default_settings now ∅.

Lemma script_meets hash lockable junk started now l :
  (forall k, 0 <= hash k < 2 ^ 32) -> (forall n, 0 <= n -> Z.of_nat (length (junk n)) = n) -> Forall proper l ->
  exists replies s V, script_run hash lockable junk started now l = Ret replies s /\ quiet hash s V /\ allowed_all started (world0 now) l replies (world_of s V).
Proof.
  intros Hh Hj Hl. set (m := start 0 script_bytes default_factor ;;; serve_all hash lockable junk started l). set (s0 := blank default_settings now (2 ^ 32)).
  assert (W : wp m s0 (fun replies s => exists V, quiet hash s V /\ allowed_all started (world0 now) l replies (world_of s V))).
  { apply wp_bind. eapply wp_mono; [by apply default_start |]. intros _ s [Q E].
    eapply wp_mono; [by apply (serve_all_allowed hash lockable junk started Hh Hj l s view0) |]. intros replies s' (V & Q' & A). exists V. rewrite E in A. by split. }
  change (script_run hash lockable junk started now l) with (m s0). clearbody m s0.
  destruct (proj1 (wp_run m s0 _) W) as (replies & s & Hrun & V & Q & A). by exists replies, s, V.
Qed.

#[local] Opaque script_run.
(** A value stored by the first request. *)
Definition answers_of (o : outcome store (list (list ascii))) : list (list ascii) := match o with Ret a _ => a | _ => [] end.
Definition first_set (k : list ascii) (data : list ascii) : list request := [Update NREAD_SET k 7 0 (Z.of_nat (length data) - 2) 0 data].
Definition demo_run (k data : list ascii) : outcome store (list (list ascii)) := script_run jenkins (fun _ => true) zeros 0 100 (first_set k data).
Lemma demo_has k data :
  proper (Update NREAD_SET k 7 0 (Z.of_nat (length data) - 2) 0 data) -> answers_of (demo_run k data) = [lit "STORED"] ->
  exists s V n, quiet jenkins s V /\ cfg s = default_settings /\ current_time (cnt s) = 100 /\
    cached s V !! k = Some (Entry (item_suffix 7 (Z.of_nat (length data))) data 0 n 100).
Proof.
  intros Hp Ha. destruct (script_meets jenkins (fun _ => true) zeros 0 100 (first_set k data) jenkins_range zeros_length) as (replies & s & V & Hrun & Q & A); [by apply Forall_singleton |].
  unfold demo_run in Ha. rewrite Hrun in Ha. simpl in Ha. subst replies. inversion A as [|w r a w1 l b w2 Hr Hrest]; subst. inversion Hrest; subst.
  apply set_stored in Hr as (n & m & Ew). exists s, V, n. split; [done |]. unfold world_of in Ew. injection Ew as -> -> ->. split; [done |]. split; [done |]. apply lookup_insert_eq.
Qed.
Lemma demo_visible n data suffix : look default_settings 100 (lit "k") (<[lit "k" := Entry suffix data 0 n 100]> ∅) = Some (Entry suffix data 0 n 100).
Proof. unfold look. rewrite lookup_insert_eq. reflexivity. Qed.

(** * Properties *)



(** C37: the Jenkins hash is one of the key: the readings by 32 bits, by 16 bits and
    by bytes that the alignment of the key chooses between give the same value, and
    the bytes beyond the key, which the first of them reads, have no part in it. *)
Theorem hash_of_key_alone addr addr' beyond beyond' key :
  Forall byte beyond -> Forall byte beyond' -> hash_of JENKINS_HASH addr beyond key = hash_of JENKINS_HASH addr' beyond' key.
Proof.
  intros Hb Hb'. unfold hash_of. rewrite !jenkins_bytes by (lia || (apply Forall_app; split; [apply uchar_bytes | done])).
  apply jenkins8_take; [lia |]. by rewrite Nat2Z.id, !take_app_length' by (by rewrite length_map).
Qed.

(** The mixing of the hash is reversible, as its comment says: from what it makes
    of three words the words can be got back. *)
Theorem mix_reversible a b c : word a -> word b -> word c -> unmix (mix (a, b, c)) = (a, b, c) /\ words (mix (a, b, c)).
Proof. apply unmix_mix. Qed.


(** C36: an item for a key and a value comes from the class with the smallest chunks
    that fit; the items that lose their place for it are not ones that anybody holds,
    or they stay whole for the holder; without room there is no item and nothing
    that is held changes. *)
Theorem allocation_spares_held hash lockable junk s V key flags exptime nbytes hv :
  (forall k, 0 <= hash k < 2 ^ 32) -> (forall n, 0 <= n -> Z.of_nat (length (junk n)) = n) ->
  ok hash s V -> plain s -> room 1 V -> Z.of_nat (length key) <= 250 -> 2 <= nbytes < 2 ^ 31 ->
  wp (do_item_alloc hash lockable junk key flags exptime nbytes hv) s (fun r s' => exists V', ok hash s' V' /\ stays s V s' V' /\
    match r with
    | Some x => v_held V x = 0 /\ v_held V' x = 1 /\ (forall y, y <> x -> v_held V' y = v_held V y) /\ item_key (tbl s') !! x = Some key
    | None => forall y, v_held V' y = v_held V y
    end).
Proof.
  intros Hh Hj O P R Hk Hn. eapply wp_mono; [by apply (do_item_alloc_spec hash Hh lockable junk Hj s V key flags exptime nbytes hv) |].
  intros [x|] s' (V' & A); exists V'; [|by destruct A as (O' & St & _ & H)]. destruct A as (O' & [F1 F2 F3 F4 F5 F6 F7]). done.
Qed.

(** The class of a size is the one with the smallest chunks that are large
    enough, and there is none only when the size is beyond them all. *)
Theorem smallest_class hash s V size :
  ok hash s V -> 0 < size -> wp (slabs_clsid size) s (fun c s' => s' = s /\ 0 <= c <= power_largest (mem s) /\
    (c <> 0 -> size <= chunk_of s c /\ forall d, 1 <= d < c -> chunk_of s d < size) /\
    (c = 0 -> forall d, 1 <= d <= power_largest (mem s) -> chunk_of s d < size)).
Proof. intros O H. by apply (slabs_clsid_spec hash None size s V). Qed.



(** C40: incr and decr of a key with an empty value refuse it, and keep the reference
    they took: the item's memory is not used again. *)
Theorem empty_value_leaks hash lockable junk s V k e incr delta cas :
  (forall k, 0 <= hash k < 2 ^ 32) -> quiet hash s V -> look (cfg s) (current_time (cnt s)) k (cached s V) = Some e -> Z.of_nat (length (e_bytes e)) <= 2 ->
  wp (add_delta hash lockable junk k incr delta cas) s (fun r s' => r = (NON_NUMERIC, [], cas) /\
    exists x V', ok hash s' V' /\ v_map V' !! k = Some x /\ v_held V' x = 1 /\ cached s' V' = cached s V).
Proof.
  intros Hh Q He Hl. pose proof Q as (O & _ & H0). eapply wp_mono; [apply (empty_value_kept hash Hh lockable junk s V k e incr delta cas O); [by apply (quiet_room hash s) | done | done] |].
  intros r s' (-> & x & V' & O' & Hk & C & E). split; [done |]. exists x, V'. split; [done |]. split; [done |]. split; [by rewrite (cb_at _ _ _ _ _ _ C), H0 | done].
Qed.

(** What the memory behind a value of two spaces holds. *)
Definition blank_run (junk : Z -> list ascii) : outcome store (list ascii) :=
  (start 0 script_bytes default_factor ;;; serve_all jenkins (fun _ => true) junk 0 (first_set (lit "k") ([SP; SP; CR; LF])) ;;;
   process_arithmetic_command jenkins (fun _ => true) junk (lit "k") true 1) (blank default_settings 100 (2 ^ 32)).
Definition fives (n : Z) : list ascii := take (Z.to_nat n) (concat (replicate (Z.to_nat n) (lit "5 "))).
Definition reply_of_run (o : outcome store (list ascii)) : option (list ascii) := match o with Ret a _ => Some a | _ => None end.
(** Incr of a value that is blank reads on behind the item, in whatever the
    memory held before: over memory of zeros the value is refused, over memory with
    a number it is that number that is counted up. *)
Theorem blank_number_reads_on :
  reply_of_run (blank_run zeros) = Some (lit "CLIENT_ERROR cannot increment or decrement non-numeric value") /\ reply_of_run (blank_run fives) = Some (lit "6").
Proof. split; vm_compute; reflexivity. Qed.

(** * At work *)

Definition value_41 : list ascii := lit "41" ++ [CR; LF].
Lemma set_proper k data : 2 <= Z.of_nat (length data) < 2 ^ 31 -> proper (Update NREAD_SET k 7 0 (Z.of_nat (length data) - 2) 0 data).
Proof.
  intros H. change (2 ^ 31) with 2147483648 in H. split; [unfold NREAD_SET, NREAD_ADD, NREAD_CAS; lia |]. intros _. rewrite i32_small; lia.
Qed.
Lemma demo_41 : exists s V n, quiet jenkins s V /\ cfg s = default_settings /\ current_time (cnt s) = 100 /\
  cached s V !! lit "k" = Some (Entry (item_suffix 7 4) value_41 0 n 100).
Proof. apply (demo_has (lit "k") value_41); [apply set_proper; vm_compute; split; congruence | vm_compute; reflexivity]. Qed.
Lemma demo_empty : exists s V n, quiet jenkins s V /\ cfg s = default_settings /\ current_time (cnt s) = 100 /\
  cached s V !! lit "k" = Some (Entry (item_suffix 7 2) [CR; LF] 0 n 100).
Proof. apply (demo_has (lit "k") [CR; LF]); [apply set_proper; vm_compute; split; congruence | vm_compute; reflexivity]. Qed.
Lemma look_demo s V k e : cfg s = default_settings -> current_time (cnt s) = 100 -> cached s V !! k = Some e -> e_exptime e = 0 ->
  look (cfg s) (current_time (cnt s)) k (cached s V) = Some e.
Proof. intros -> -> He Hx. unfold look. rewrite He. unfold gone. by rewrite Hx. Qed.



Lemma hash_of_key_alone_witness : hash_of JENKINS_HASH 4 [1; 2; 3] (lit "xian") = hash_of JENKINS_HASH 7 [] (lit "xian").
Proof. apply (hash_of_key_alone 4 7 [1; 2; 3] []); [repeat constructor; unfold byte; lia | constructor]. Defined.
Lemma mix_reversible_witness : unmix (mix (1, 2, 3)) = (1, 2, 3) /\ words (mix (1, 2, 3)).
Proof. apply (mix_reversible 1 2 3); unfold word; lia. Defined.


Lemma allocation_spares_held_witness : exists s V, ok jenkins s V /\ cached s V !! lit "k" <> None /\
  wp (do_item_alloc jenkins (fun _ => true) zeros (lit "other") 0 0 5 0) s (fun r s' => exists V', ok jenkins s' V' /\ stays s V s' V' /\
    match r with
    | Some x => v_held V x = 0 /\ v_held V' x = 1 /\ (forall y, y <> x -> v_held V' y = v_held V y) /\ item_key (tbl s') !! x = Some (lit "other")
    | None => forall y, v_held V' y = v_held V y
    end).
Proof.
  destruct demo_41 as (s & V & n & Q & Hc & Ht & He). exists s, V. split; [apply Q |]. split; [by rewrite He |].
  apply (allocation_spares_held jenkins (fun _ => true) zeros s V (lit "other") 0 0 5 0 jenkins_range zeros_length (proj1 Q) (proj1 (proj2 Q)));
    [apply (quiet_room jenkins s V 1 Q); reflexivity | vm_compute; congruence | split; [lia | reflexivity]].
Defined.
Lemma smallest_class_witness : exists s V, ok jenkins s V /\ wp (slabs_clsid 100) s (fun c s' => s' = s /\ 0 <= c <= power_largest (mem s) /\
    (c <> 0 -> 100 <= chunk_of s c /\ forall d, 1 <= d < c -> chunk_of s d < 100) /\
    (c = 0 -> forall d, 1 <= d <= power_largest (mem s) -> chunk_of s d < 100)).
Proof.
  destruct demo_41 as (s & V & n & Q & _). exists s, V. split; [apply Q |]. apply (smallest_class jenkins s V 100 (proj1 Q)). lia.
Defined.
Lemma empty_value_leaks_witness : exists s V, quiet jenkins s V /\
  wp (add_delta jenkins (fun _ => true) zeros (lit "k") true 1 None) s (fun r s' => r = (NON_NUMERIC, [], None) /\
    exists x V', ok jenkins s' V' /\ v_map V' !! lit "k" = Some x /\ v_held V' x = 1 /\ cached s' V' = cached s V).
Proof.
  destruct demo_empty as (s & V & n & Q & Hc & Ht & He). exists s, V. split; [exact Q |].
  apply (empty_value_leaks jenkins (fun _ => true) zeros s V (lit "k") _ true 1 None jenkins_range Q (look_demo s V (lit "k") _ Hc Ht He eq_refl)). vm_compute. congruence.
Defined.
