(* ===== verification/Proto.v ===== *)
(** The text protocol of the cache server (lib/memcached-1.4.25/memcached.c,
    util.c): the tokens of a command line, the handlers of the commands, and what
    they do to the connection the line came on. *)
From S2P Require Import Prelude CStr CDec Assoc Store Slabs Items StoreCmd.
Local Open Scope Z_scope.

(** * Numbers in tokens *)

(** safe_strtol and safe_strtoul of a token; the value is cut to 32 bits. *)
Definition ends_well (rest : list ascii) : bool := match rest with [] => true | c :: _ => isspace c end.
Definition safe_strtol (s : list ascii) : option Z :=
  match strtoull s with
  | None => None
  | Some (neg, v, rest) =>
      let l := if neg : bool then - v else v in
      if (l <? - 2 ^ 63) || (2 ^ 63 <=? l) then None else if ends_well rest then Some (i32 l) else None
  end.
Definition safe_strtoul (s : list ascii) : option Z :=
  match strtoull s with
  | None => None
  | Some (neg, v, rest) =>
      if 2 ^ 64 <=? v then None
      else
        let l := if neg : bool then u64 (- v) else v in
        if ends_well rest then
          if (2 ^ 63 <=? l) && existsb (fun c => c =c "-"%char) s then None else Some (u32 l)
        else None
  end.
(** strtol: the value, and whether errno is set to ERANGE. *)
Definition strtol (s : list ascii) : Z * bool :=
  match strtoull s with
  | None => (0, false)
  | Some (neg, v, _) => let l := if neg : bool then - v else v in (clamp64 l, (l <? - 2 ^ 63) || (2 ^ 63 <=? l))
  end.

(** * Tokens *)

Definition MAX_TOKENS : nat := 8.
(** The loop of tokenize_command: [cur] is the text from [s] to [e], [room] is
    [max_tokens - 1 - ntokens]; the tokens, and the text from [e] on where it stops. *)
Fixpoint token_loop (text cur : list ascii) (room : nat) : list (list ascii) * list ascii :=
  match text with
  | [] => (match cur with [] => [] | _ => [cur] end, [])
  | c :: text =>
      if c =c SP then
        match cur with
        | [] => token_loop text [] room
        | _ =>
            match room with
            | S (S _ as room) => let r := token_loop text [] room in (cur :: r.1, r.2)
            | _ => ([cur], text)
            end
        end
      else token_loop text (cur ++ [c]) room
  end.
(** The tokens before the terminal one, and its value: nothing for a null pointer. *)
Definition tokenize_command (command : list ascii) : list (list ascii) * list ascii := token_loop command [] (MAX_TOKENS - 1).
Definition ntokens (ts : list (list ascii)) : Z := Z.of_nat (length ts) + 1.
Definition token (ts : list (list ascii)) (i : nat) : list ascii := nth i ts [].
Definition named (t : list ascii) (name : string) : bool := strcmp t (lit name) =? 0.

(** * The connection *)

Inductive conn_states :=
  | conn_new_cmd | conn_waiting | conn_read | conn_parse_cmd | conn_write | conn_nread | conn_swallow | conn_closing | conn_mwrite | conn_closed
  | conn_elsewhere. (**r a command that is not followed here *)
#[export] Instance conn_states_eq_dec : EqDecision conn_states.
Proof. solve_decision. Defined.

(** The part of [struct conn] the commands work on; [wbuf] is what is still to be
    sent, [ritem] an offset into the data of the item, [ilist] the items that are
    held until the answer is sent. *)
Record side := MkSide {
  state : conn_states;
  write_and_go : conn_states;
  noreply : bool;
  wbuf : list ascii;
  c_item : option ptr;
  cmd : Z;
  ritem : Z;
  rlbytes : Z;
  sbytes : Z;
  ilist : list ptr
}.
Definition set_state v c := MkSide v (write_and_go c) (noreply c) (wbuf c) (c_item c) (cmd c) (ritem c) (rlbytes c) (sbytes c) (ilist c).
Definition set_write_and_go v c := MkSide (state c) v (noreply c) (wbuf c) (c_item c) (cmd c) (ritem c) (rlbytes c) (sbytes c) (ilist c).
Definition set_noreply v c := MkSide (state c) (write_and_go c) v (wbuf c) (c_item c) (cmd c) (ritem c) (rlbytes c) (sbytes c) (ilist c).
Definition set_wbuf v c := MkSide (state c) (write_and_go c) (noreply c) v (c_item c) (cmd c) (ritem c) (rlbytes c) (sbytes c) (ilist c).
Definition set_item v c := MkSide (state c) (write_and_go c) (noreply c) (wbuf c) v (cmd c) (ritem c) (rlbytes c) (sbytes c) (ilist c).
Definition set_cmd v c := MkSide (state c) (write_and_go c) (noreply c) (wbuf c) (c_item c) v (ritem c) (rlbytes c) (sbytes c) (ilist c).
Definition set_nread off n c := MkSide (state c) (write_and_go c) (noreply c) (wbuf c) (c_item c) (cmd c) off n (sbytes c) (ilist c).
Definition set_sbytes v c := MkSide (state c) (write_and_go c) (noreply c) (wbuf c) (c_item c) (cmd c) (ritem c) (rlbytes c) v (ilist c).
Definition set_ilist v c := MkSide (state c) (write_and_go c) (noreply c) (wbuf c) (c_item c) (cmd c) (ritem c) (rlbytes c) (sbytes c) v.
(** conn_new. *)
Definition conn_new : side := MkSide conn_new_cmd conn_new_cmd false [] None (-1) 0 0 0 [].

Abbreviation CS := (CM (store * side)).
Definition on_store {A} (m : SM A) : CS A := zoom fst (fun s p => (s, p.2)) m.
Definition conn_is {A} (f : side -> A) : CS A := gets (fun p => f p.2).
Definition conn_set (f : side -> side) : CS unit := modify (fun p => (p.1, f p.2)).

Definition DATA_BUFFER_SIZE : Z := 2048.
Definition out_string (str : list ascii) : CS unit :=
  n <- conn_is noreply ;;
  if n : bool then conn_set (fun c => set_state conn_new_cmd (set_noreply false c))
  else
    let str := if DATA_BUFFER_SIZE <? Z.of_nat (length str) + 2 then lit "SERVER_ERROR output line too long" else str in
    conn_set (fun c => set_write_and_go conn_new_cmd (set_state conn_write (set_wbuf (str ++ [CR; LF]) c))).

(** * The commands *)

(** Settings that only commands read, as settings_init leaves them or not. *)
Record options := Options { flush_enabled : bool; shutdown_command : bool; lru_crawler : bool; version : list ascii }.

Section Commands.
Variable hash : list ascii -> Z.
Variable lockable : Z -> bool.
Variable junk : Z -> list ascii.
Variable process_started : Z.
Variable opts : options.
(** Whether errno is still ERANGE from an earlier call when flush_all tests it. *)
Variable stale_errno : bool.

Definition elsewhere : CS unit := conn_set (set_state conn_elsewhere).

Definition set_noreply_maybe (ts : list (list ascii)) : CS bool :=
  (if named (token ts (length ts - 1)) "noreply" then conn_set (set_noreply true) else ret tt) ;;; conn_is noreply.

(** The keys in the tokens, and in the tokens of the rest of the line. *)
Fixpoint more_keys (fuel : nat) (rest : list ascii) : list (list ascii) :=
  match rest, fuel with
  | [], _ | _, O => []
  | _, S fuel => let r := tokenize_command rest in r.1 ++ more_keys fuel r.2
  end.
Definition process_get_command (ts : list (list ascii)) (rest : list ascii) (return_cas : bool) : CS unit :=
  r <- on_store (get_items hash return_cas (tail ts ++ more_keys (length rest) rest)) ;;
  match r.1 with
  | Some text => conn_set (fun c => set_state conn_mwrite (set_ilist r.2 (set_wbuf text c)))
  | None => on_store (conn_release_items (rev r.2)) ;;; out_string bad_line
  end.

Definition process_update_command (ts : list (list ascii)) (comm : Z) (handle_cas : bool) : CS unit :=
  set_noreply_maybe ts ;;;
  if KEY_MAX_LENGTH <? Z.of_nat (length (token ts 1)) then out_string bad_line
  else
    let key := token ts 1 in
    match safe_strtoul (token ts 2), safe_strtol (token ts 3), safe_strtol (token ts 4) with
    | Some flags, Some exptime_int, Some vlen =>
        let exptime := if exptime_int <? 0 then REALTIME_MAXDELTA + 1 else exptime_int in
        cas <- (if handle_cas then on_store (safe_strtoull (token ts 5 ++ [NUL])) else ret (Some 0)) ;;
        match cas with
        | None => out_string bad_line
        | Some req_cas_id =>
            let vlen := i32 (vlen + 2) in
            if (vlen <? 0) || (vlen - 2 <? 0) then out_string bad_line
            else
              r <- on_store (update_item hash lockable junk process_started key flags exptime vlen comm req_cas_id) ;;
              match r with
              | inr msg => out_string msg ;;; conn_set (fun c => set_sbytes vlen (set_write_and_go conn_swallow c))
              | inl it => conn_set (fun c => set_state conn_nread (set_cmd comm (set_nread 0 vlen (set_item (Some it) c))))
              end
        end
    | _, _, _ => out_string bad_line
    end.

Definition process_touch_command (ts : list (list ascii)) : CS unit :=
  set_noreply_maybe ts ;;;
  if KEY_MAX_LENGTH <? Z.of_nat (length (token ts 1)) then out_string bad_line
  else
    match safe_strtol (token ts 2) with
    | None => out_string (lit "CLIENT_ERROR invalid exptime argument")
    | Some exptime_int => r <- on_store (StoreCmd.process_touch_command hash process_started (token ts 1) exptime_int) ;; out_string r
    end.

Definition process_arithmetic_command (ts : list (list ascii)) (incr : bool) : CS unit :=
  set_noreply_maybe ts ;;;
  if KEY_MAX_LENGTH <? Z.of_nat (length (token ts 1)) then out_string bad_line
  else
    d <- on_store (safe_strtoull (token ts 2 ++ [NUL])) ;;
    match d with
    | None => out_string (lit "CLIENT_ERROR invalid numeric delta argument")
    | Some delta => r <- on_store (StoreCmd.process_arithmetic_command hash lockable junk (token ts 1) incr delta) ;; out_string r
    end.

Definition process_delete_command (ts : list (list ascii)) : CS unit :=
  valid <- (if 3 <? ntokens ts then
              let hold_is_zero := named (token ts 2) "0" in
              sets_noreply <- set_noreply_maybe ts ;;
              ret ((ntokens ts =? 4) && (hold_is_zero || sets_noreply) || (ntokens ts =? 5) && hold_is_zero && sets_noreply)
            else ret true) ;;
  if negb valid then out_string (lit "CLIENT_ERROR bad command line format.  Usage: delete <key> [noreply]")
  else if KEY_MAX_LENGTH <? Z.of_nat (length (token ts 1)) then out_string bad_line
  else r <- on_store (StoreCmd.process_delete_command hash (token ts 1)) ;; out_string r.

Definition process_verbosity_command (ts : list (list ascii)) : CS unit := set_noreply_maybe ts ;;; out_string (lit "OK").

(** Levels 1 and 2 are not followed; 0 is what the server starts with. *)
Definition process_slabs_automove_command (ts : list (list ascii)) : CS unit :=
  set_noreply_maybe ts ;;;
  let level := match strtoull (token ts 2) with Some (neg, v, _) => u32 (if 2 ^ 64 <=? v then 2 ^ 64 - 1 else if neg : bool then - v else v) | None => 0 end in
  if level =? 0 then out_string (lit "OK") else if (level =? 1) || (level =? 2) then elsewhere else out_string (lit "ERROR").

Definition process_flush_all (ts : list (list ascii)) : CS unit :=
  n <- set_noreply_maybe ts ;;
  if negb (flush_enabled opts) then out_string (lit "CLIENT_ERROR flush_all not allowed")
  else if negb (ntokens ts =? (if n : bool then 3 else 2)) then
    let '(exptime, range) := strtol (token ts 1) in
    if range || stale_errno then out_string bad_line
    else r <- on_store (flush_all process_started exptime) ;; out_string r
  else r <- on_store (flush_all process_started 0) ;; out_string r.

(** slabs and lru_crawler as far as they only answer. *)
Definition process_slabs (ts : list (list ascii)) : CS unit :=
  if (ntokens ts =? 5) && named (token ts 1) "reassign" then
    e <- on_store (gets (fun s => slab_reassign (cfg s))) ;;
    if e : bool then elsewhere else out_string (lit "CLIENT_ERROR slab reassignment disabled")
  else if (ntokens ts =? 4) && named (token ts 1) "automove" then process_slabs_automove_command ts
  else out_string (lit "ERROR").
Definition process_lru_crawler (ts : list (list ascii)) : CS unit :=
  if (ntokens ts =? 4) && named (token ts 1) "crawl" then
    if lru_crawler opts then elsewhere else out_string (lit "CLIENT_ERROR lru crawler disabled")
  else if (ntokens ts =? 4) && named (token ts 1) "tocrawl" then
    match safe_strtoul (token ts 2) with None => out_string bad_line | Some _ => out_string (lit "OK") end
  else if (ntokens ts =? 4) && named (token ts 1) "sleep" then
    match safe_strtoul (token ts 2) with
    | None => out_string bad_line
    | Some tosleep => if 1000000 <? tosleep then out_string (lit "CLIENT_ERROR sleep must be one second or less") else out_string (lit "OK")
    end
  else if ntokens ts =? 3 then
    if named (token ts 1) "enable" || named (token ts 1) "disable" then elsewhere else out_string (lit "ERROR")
  else out_string (lit "ERROR").

(** The storage commands by name. *)
Definition update_comm (t : list ascii) : option Z :=
  if named t "add" then Some NREAD_ADD else if named t "set" then Some NREAD_SET else if named t "replace" then Some NREAD_REPLACE
  else if named t "prepend" then Some NREAD_PREPEND else if named t "append" then Some NREAD_APPEND else None.
Definition process_command (command : list ascii) : CS unit :=
  conn_set (set_wbuf []) ;;;
  let '(ts, rest) := tokenize_command command in
  let n := ntokens ts in
  let name := token ts 0 in
  if (3 <=? n) && (named name "get" || named name "bget") then process_get_command ts rest false
  else if ((n =? 6) || (n =? 7)) && bool_decide (is_Some (update_comm name)) then process_update_command ts (default 0 (update_comm name)) false
  else if ((n =? 7) || (n =? 8)) && named name "cas" then process_update_command ts NREAD_CAS true
  else if ((n =? 4) || (n =? 5)) && named name "incr" then process_arithmetic_command ts true
  else if (3 <=? n) && named name "gets" then process_get_command ts rest true
  else if ((n =? 4) || (n =? 5)) && named name "decr" then process_arithmetic_command ts false
  else if (3 <=? n) && (n <=? 5) && named name "delete" then process_delete_command ts
  else if ((n =? 4) || (n =? 5)) && named name "touch" then process_touch_command ts
  else if (2 <=? n) && named name "stats" then elsewhere
  else if (2 <=? n) && (n <=? 4) && named name "flush_all" then process_flush_all ts
  else if (n =? 2) && named name "version" then out_string (lit "VERSION " ++ version opts)
  else if (n =? 2) && named name "quit" then conn_set (set_state conn_closing)
  else if (n =? 2) && named name "shutdown" then
    if shutdown_command opts then elsewhere else out_string (lit "ERROR: shutdown not enabled")
  else if (1 <? n) && named name "slabs" then process_slabs ts
  else if (1 <? n) && named name "lru_crawler" then process_lru_crawler ts
  else if ((n =? 3) || (n =? 4)) && named name "verbosity" then process_verbosity_command ts
  else out_string (lit "ERROR").

(** * Between commands *)

(** complete_nread: the data of an item has been read. *)
Definition complete_nread : CS unit :=
  o <- conn_is c_item ;;
  it <- get_or_undef (fun _ => o) ;;
  comm <- conn_is cmd ;;
  r <- on_store (complete_nread_ascii hash lockable junk it comm) ;;
  out_string r ;;;
  conn_set (set_item None).
(** conn_release_items on the connection: the item that is being read, the list. *)
Definition release_conn : CS unit :=
  o <- conn_is c_item ;;
  match o with Some it => on_store (item_remove it) ;;; conn_set (set_item None) | None => ret tt end ;;;
  l <- conn_is ilist ;;
  on_store (conn_release_items l) ;;;
  conn_set (set_ilist []).
(** reset_cmd_handler but for its last test, and conn_shrink, which is about the
    buffer. *)
Definition reset_cmd : CS unit :=
  conn_set (set_cmd (-1)) ;;;
  o <- conn_is c_item ;;
  match o with Some it => on_store (item_remove it) ;;; conn_set (set_item None) | None => ret tt end.
Definition conn_close : CS unit := release_conn ;;; conn_set (set_state conn_closed).
End Commands.
