(* ===== verification/Conn.v ===== *)
(** A connection of the cache server over the network (lib/memcached-1.4.25/
    memcached.c): the buffer commands are read into, the states of the connection
    and the loop that drives it; and what the connection does when everything the
    client sends is there at once. *)
From S2P Require Import Prelude CStr CDec Assoc Store Slabs Items StoreCmd Proto.
Local Open Scope Z_scope.

(** * Lines *)

(** memchr for the end of a line: the line and what follows it. *)
Fixpoint split_line (s : list ascii) : option (list ascii * list ascii) :=
  match s with
  | [] => None
  | c :: s => if c =c LF then Some ([], s) else match split_line s with Some (l, r) => Some (c :: l, r) | None => None end
  end.
Definition ends_cr (line : list ascii) : bool := match last line with Some c => c =c CR | None => false end.
(** The command in a line: without its CR, up to a NUL. *)
Definition command_of (line : list ascii) : list ascii := cstr (if (1 <? Z.of_nat (length line)) && ends_cr line then removelast line else line).
Fixpoint spaces (s : list ascii) : nat := match s with [] => 0 | c :: s => if c =c SP then S (spaces s) else 0 end.
(** The start of a long line: few spaces, then get or gets. *)
Definition long_get (s : list ascii) : bool :=
  negb (100 <? Z.of_nat (spaces s)) && (starts_with (lit "get ") (drop (spaces s) s) || starts_with (lit "gets ") (drop (spaces s) s)).

(** * The network *)

(** What the next call of read or sendmsg meets: it would block, it moves at most so
    many bytes, the peer has hung up, it fails. *)
Inductive io := Again | Bytes (n : nat) | Hangup | Fail.
Inductive protocol := ascii_prot | binary_prot | negotiating_prot.

(** The process as far as this connection goes: the store, [struct conn], and the
    network with what is still to arrive and what has been sent; [reallocs] says
    which calls of realloc succeed, all when it is used up. *)
Record sess := MkSess {
  ms : store;
  mc : side;
  proto : protocol;
  rbuf : list ascii;
  rsize : Z;
  inbox : list ascii;
  events : list io;
  reallocs : list bool;
  sent : list ascii
}.
Definition put_cs (p : store * side) x := MkSess p.1 p.2 (proto x) (rbuf x) (rsize x) (inbox x) (events x) (reallocs x) (sent x).
Definition set_proto v x := MkSess (ms x) (mc x) v (rbuf x) (rsize x) (inbox x) (events x) (reallocs x) (sent x).
Definition set_rbuf v x := MkSess (ms x) (mc x) (proto x) v (rsize x) (inbox x) (events x) (reallocs x) (sent x).
Definition set_rsize v x := MkSess (ms x) (mc x) (proto x) (rbuf x) v (inbox x) (events x) (reallocs x) (sent x).
Definition set_inbox v x := MkSess (ms x) (mc x) (proto x) (rbuf x) (rsize x) v (events x) (reallocs x) (sent x).
Definition set_events v x := MkSess (ms x) (mc x) (proto x) (rbuf x) (rsize x) (inbox x) v (reallocs x) (sent x).
Definition set_reallocs v x := MkSess (ms x) (mc x) (proto x) (rbuf x) (rsize x) (inbox x) (events x) v (sent x).
Definition set_sent v x := MkSess (ms x) (mc x) (proto x) (rbuf x) (rsize x) (inbox x) (events x) (reallocs x) v.

Abbreviation NM := (CM sess).
Definition on_conn {A} (m : CS A) : NM A := zoom (fun x => (ms x, mc x)) put_cs m.
Definition go (st : conn_states) : NM unit := on_conn (conn_set (set_state st)).
Definition conn_get {A} (f : side -> A) : NM A := gets (fun x => f (mc x)).
Definition rbytes (x : sess) : Z := Z.of_nat (length (rbuf x)).

Definition next_event : NM io :=
  l <- gets events ;;
  match l with [] => ret Again | e :: l => modify (set_events l) ;;; ret e end.
Inductive read_result := Got (bytes : list ascii) | Eof | Eagain | Error.
(** read of at most [n] bytes; nothing there yet is like a call that would block. *)
Definition sys_read (n : Z) : NM read_result :=
  e <- next_event ;;
  match e with
  | Again => ret Eagain
  | Hangup => ret Eof
  | Fail => ret Error
  | Bytes k =>
      i <- gets inbox ;;
      let m := Z.to_nat (Z.min (Z.max 1 (Z.of_nat k)) n) in
      match i with
      | [] => ret Eagain
      | _ => modify (set_inbox (drop m i)) ;;; ret (match take m i with [] => Eof | b => Got b end)
      end
  end.
Definition sys_realloc : NM bool :=
  l <- gets reallocs ;;
  match l with [] => ret true | b :: l => modify (set_reallocs l) ;;; ret b end.

Section Machine.
Variable hash : list ascii -> Z.
Variable lockable : Z -> bool.
Variable junk : Z -> list ascii.
Variable process_started : Z.
Variable opts : options.
Variable stale_errno : bool.
Variable reqs_per_event : Z.

Abbreviation process_command := (process_command hash lockable junk process_started opts stale_errno).
Abbreviation complete_nread := (complete_nread hash lockable junk).

(** * Reading *)

Inductive try_read_result := READ_DATA_RECEIVED | READ_NO_DATA_RECEIVED | READ_ERROR | READ_MEMORY_ERROR.
(** A full buffer is doubled, four times at most; a result ends the loop.  The size is
    an int. *)
Definition make_room (gotdata : try_read_result) (num_allocs : Z) : NM (option try_read_result * Z) :=
  n <- gets rbytes ;;
  size <- gets rsize ;;
  if size <=? n then
    if num_allocs =? 4 then ret (Some gotdata, num_allocs)
    else if 2 ^ 31 <=? size * 2 then undef
    else
      ok <- sys_realloc ;;
      if ok : bool then modify (set_rsize (size * 2)) ;;; ret (None, num_allocs + 1)
      else
        modify (set_rbuf []) ;;;
        on_conn (out_string (lit "SERVER_ERROR out of memory reading request")) ;;;
        on_conn (conn_set (set_write_and_go conn_closing)) ;;;
        ret (Some READ_MEMORY_ERROR, num_allocs)
  else ret (None, num_allocs).
Definition network_round (again : Z -> NM try_read_result) (gotdata : try_read_result) (num_allocs : Z) : NM try_read_result :=
  room <- make_room gotdata num_allocs ;;
  match room.1 with
  | Some r => ret r
  | None =>
      avail <- gets (fun x => rsize x - rbytes x) ;;
      r <- sys_read avail ;;
      match r with
      | Got b =>
          modify (fun x => set_rbuf (rbuf x ++ b) x) ;;;
          if Z.of_nat (length b) =? avail then again room.2 else ret READ_DATA_RECEIVED
      | Eof => ret READ_ERROR
      | Eagain => ret gotdata
      | Error => ret READ_ERROR
      end
  end.
Fixpoint network_loop (fuel : nat) (gotdata : try_read_result) (num_allocs : Z) : NM try_read_result :=
  network_round (match fuel with O => fun _ => nofuel | S fuel => network_loop fuel READ_DATA_RECEIVED end) gotdata num_allocs.
(** Each round but the last uses an event. *)
Definition try_read_network : NM try_read_result :=
  n <- gets (fun x => length (events x)) ;; network_loop (S n) READ_NO_DATA_RECEIVED 0.

(** try_read_command; false when more data is needed. *)
Definition try_read_command : NM bool :=
  n <- gets rbytes ;;
  if n <=? 0 then undef
  else
    p <- gets proto ;;
    b <- gets rbuf ;;
    (match p with
     | negotiating_prot => modify (set_proto (match b with c :: _ => if uchar c =? 128 then binary_prot else ascii_prot | [] => ascii_prot end))
     | _ => ret tt
     end) ;;;
    p <- gets proto ;;
    match p with
    | binary_prot => go conn_elsewhere ;;; ret true
    | _ =>
        match split_line b with
        | None =>
            if 1024 <? n then
              if (length b <=? spaces b)%nat then undef
              else if long_get b then ret false else go conn_closing ;;; ret true
            else ret false
        | Some (line, cont) =>
            on_conn (process_command (command_of line)) ;;;
            modify (set_rbuf cont) ;;;
            ret true
        end
    end.

(** * The states *)

Definition READ_BUFFER_HIGHWAT : Z := 8192.
Definition conn_shrink : NM unit :=
  x <- gets (fun x => x) ;;
  if (READ_BUFFER_HIGHWAT <? rsize x) && (rbytes x <? DATA_BUFFER_SIZE) then
    ok <- sys_realloc ;; if ok : bool then modify (set_rsize DATA_BUFFER_SIZE) else ret tt
  else ret tt.
Definition reset_cmd_handler : NM unit :=
  on_conn reset_cmd ;;;
  conn_shrink ;;;
  n <- gets rbytes ;;
  go (if 0 <? n then conn_parse_cmd else conn_waiting).

Definition step_waiting : NM bool := go conn_read ;;; ret true.
Definition step_read : NM bool :=
  r <- try_read_network ;;
  match r with
  | READ_NO_DATA_RECEIVED => go conn_waiting
  | READ_DATA_RECEIVED => go conn_parse_cmd
  | READ_ERROR => go conn_closing
  | READ_MEMORY_ERROR => ret tt
  end ;;;
  ret false.
Definition step_parse_cmd : NM bool := more <- try_read_command ;; (if more : bool then ret tt else go conn_waiting) ;;; ret false.
(** The commands left in this turn come and go with the result. *)
Definition step_new_cmd (nreqs : Z) : NM (bool * Z) :=
  let nreqs := nreqs - 1 in
  if 0 <=? nreqs then reset_cmd_handler ;;; ret (false, nreqs) else ret (true, nreqs).

(** Bytes of the value go from the buffer, then from the network, into the item. *)
Definition fill (bytes : list ascii) : CS unit :=
  o <- conn_is c_item ;;
  it <- get_or_undef (fun _ => o) ;;
  off <- conn_is ritem ;;
  on_store (write_data it off bytes) ;;;
  conn_set (fun c => set_nread (ritem c + Z.of_nat (length bytes)) (rlbytes c - Z.of_nat (length bytes)) c).
Definition step_nread : NM bool :=
  left <- conn_get rlbytes ;;
  if left =? 0 then on_conn complete_nread ;;; ret false
  else if left <? 0 then go conn_closing ;;; ret false
  else
    n <- gets rbytes ;;
    (if 0 <? n then
       b <- gets rbuf ;;
       let tocopy := Z.to_nat (if left <? n then left else n) in
       on_conn (fill (take tocopy b)) ;;;
       modify (set_rbuf (drop tocopy b))
     else ret tt) ;;;
    left <- conn_get rlbytes ;;
    if left =? 0 then ret false
    else
      r <- sys_read left ;;
      match r with
      | Got b => on_conn (fill b) ;;; ret false
      | Eof => go conn_closing ;;; ret false
      | Eagain => ret true
      | Error => go conn_closing ;;; ret false
      end.
Definition swallow (n : Z) : CS unit := conn_set (fun c => set_sbytes (sbytes c - n) c).
Definition step_swallow : NM bool :=
  left <- conn_get sbytes ;;
  if left =? 0 then go conn_new_cmd ;;; ret false
  else
    n <- gets rbytes ;;
    if 0 <? n then
      let tocopy := if left <? n then left else n in
      on_conn (swallow tocopy) ;;;
      modify (fun x => set_rbuf (drop (Z.to_nat tocopy) (rbuf x)) x) ;;;
      ret false
    else
      size <- gets rsize ;;
      r <- sys_read (if left <? size then left else size) ;;
      match r with
      | Got b => on_conn (swallow (Z.of_nat (length b))) ;;; ret false
      | Eof => go conn_closing ;;; ret false
      | Eagain => ret true
      | Error => go conn_closing ;;; ret false
      end.

Inductive transmit_result := TRANSMIT_COMPLETE | TRANSMIT_INCOMPLETE | TRANSMIT_SOFT_ERROR | TRANSMIT_HARD_ERROR.
Definition transmit : NM transmit_result :=
  w <- conn_get wbuf ;;
  match w with
  | [] => ret TRANSMIT_COMPLETE
  | _ =>
      e <- next_event ;;
      match e with
      | Bytes k =>
          let m := Nat.max 1 k in
          modify (fun x => set_sent (sent x ++ take m w) x) ;;;
          on_conn (conn_set (set_wbuf (drop m w))) ;;;
          ret TRANSMIT_INCOMPLETE
      | Again => ret TRANSMIT_SOFT_ERROR
      | _ => go conn_closing ;;; ret TRANSMIT_HARD_ERROR
      end
  end.
(** What follows a complete answer. *)
Definition answered : CS unit :=
  st <- conn_is state ;;
  if bool_decide (st = conn_mwrite) then release_conn ;;; conn_set (set_state conn_new_cmd)
  else conn_set (fun c => set_state (write_and_go c) c).
Definition step_write : NM bool :=
  r <- transmit ;;
  match r with
  | TRANSMIT_COMPLETE => on_conn answered ;;; ret false
  | TRANSMIT_INCOMPLETE | TRANSMIT_HARD_ERROR => ret false
  | TRANSMIT_SOFT_ERROR => ret true
  end.

(** One round of the loop of drive_machine: whether to stop, and the commands left. *)
Definition drive_step (nreqs : Z) : NM (bool * Z) :=
  st <- conn_get state ;;
  let same (m : NM bool) : NM (bool * Z) := b <- m ;; ret (b, nreqs) in
  match st with
  | conn_waiting => same step_waiting
  | conn_read => same step_read
  | conn_parse_cmd => same step_parse_cmd
  | conn_new_cmd => step_new_cmd nreqs
  | conn_nread => same step_nread
  | conn_swallow => same step_swallow
  | conn_write | conn_mwrite => same step_write
  | conn_closing => same (on_conn conn_close ;;; ret true)
  | conn_closed => undef
  | conn_elsewhere => same (ret true)
  end.
Fixpoint drive_machine (fuel : nat) (nreqs : Z) : NM unit :=
  r <- drive_step nreqs ;;
  if r.1 : bool then ret tt else match fuel with O => nofuel | S fuel => drive_machine fuel r.2 end.

(** The event loop, as long as there is something it is called for: a connection that
    has let others go first and has commands in its buffer waits to be writable, the
    others wait for the network. *)
Definition over (x : sess) : bool :=
  bool_decide (state (mc x) = conn_closed) || bool_decide (state (mc x) = conn_elsewhere) ||
  (match events x with [] => true | _ => false end && negb (bool_decide (state (mc x) = conn_new_cmd) && (0 <? rbytes x))).
Fixpoint event_loop (fuel : nat) : NM unit :=
  o <- gets over ;;
  if o : bool then ret tt
  else
    match fuel with
    | O => nofuel
    | S fuel => n <- gets (fun x => 8 * (length (rbuf x) + length (inbox x) + length (events x)) + 8)%nat ;; drive_machine n reqs_per_event ;;; event_loop fuel
    end.

(** A new connection to which [input] will be sent. *)
Definition connect (s : store) (input : list ascii) (ev : list io) (re : list bool) : sess :=
  MkSess s conn_new negotiating_prot [] DATA_BUFFER_SIZE input ev re [].

(** * With everything there *)

(** A line is no longer than 1024 characters, or begins like a get: whether another
    one is served or ends the connection depends on how it arrives. *)
Definition fits (bytes : list ascii) : bool :=
  let line := match split_line bytes with Some (l, _) => l | None => bytes end in
  (Z.of_nat (length line) <=? 1024) || long_get line.
(** What a connection in its state sends when [bytes] are all that is to come. *)
Fixpoint converse (fuel : nat) (bytes : list ascii) : CS (list ascii) :=
  let next bytes := match fuel with O => nofuel | S fuel => converse fuel bytes end in
  st <- conn_is state ;;
  match st with
  | conn_new_cmd => reset_cmd ;;; conn_set (set_state conn_parse_cmd) ;;; next bytes
  | conn_waiting | conn_read | conn_parse_cmd =>
      conn_set (set_state conn_parse_cmd) ;;;
      if fits bytes then
        match split_line bytes with
        | None => ret []
        | Some (line, cont) => process_command (command_of line) ;;; next cont
        end
      else undef
  | conn_write | conn_mwrite =>
      w <- conn_is wbuf ;;
      conn_set (set_wbuf []) ;;;
      answered ;;;
      out <- next bytes ;;
      ret (w ++ out)
  | conn_nread =>
      left <- conn_is rlbytes ;;
      if left <? 0 then conn_set (set_state conn_closing) ;;; next bytes
      else
        fill (take (Z.to_nat left) bytes) ;;;
        left' <- conn_is rlbytes ;;
        if left' =? 0 then complete_nread ;;; next (drop (Z.to_nat left) bytes) else ret []
  | conn_swallow =>
      left <- conn_is sbytes ;;
      let n := Z.to_nat left in
      swallow (Z.of_nat (length (take n bytes))) ;;;
      left' <- conn_is sbytes ;;
      if left' =? 0 then conn_set (set_state conn_new_cmd) ;;; next (drop n bytes) else ret []
  | conn_closing => conn_close ;;; ret []
  | conn_closed => ret []
  | conn_elsewhere => undef
  end.
End Machine.
