(* ===== verification/ProtoThm.v ===== *)
(** What every command leaves a connection in. *)
From S2P Require Import Prelude CStr CDec Assoc Store Slabs Items StoreCmd Proto.
Local Open Scope Z_scope.

(** * Partial correctness *)

(** [wl m p Q]: when [m] returns from [p], it is with [Q]. *)
Definition wl {S A} (m : CM S A) (p : S) (Q : A -> S -> Prop) : Prop := match m p with Ret a p' => Q a p' | _ => True end.
Lemma wl_ret {S A} (a : A) (p : S) (Q : A -> S -> Prop) : Q a p -> wl (ret a) p Q.
Proof. done. Qed.
Lemma wl_bind {S A B} (m : CM S A) (k : A -> CM S B) (p : S) Q : wl m p (fun a p' => wl (k a) p' Q) -> wl (bind m k) p Q.
Proof. unfold wl, bind. by destruct (m p). Qed.
Lemma wl_mono {S A} (m : CM S A) (p : S) (Q Q' : A -> S -> Prop) : wl m p Q -> (forall a p', Q a p' -> Q' a p') -> wl m p Q'.
Proof. unfold wl. destruct (m p); auto. Qed.
Lemma wl_on_store {A} (m : SM A) s c (Q : A -> store * side -> Prop) : (forall a s', Q a (s', c)) -> wl (on_store m) (s, c) Q.
Proof. intros H. unfold wl, on_store, zoom. simpl. destruct (m s); auto. Qed.
Lemma wl_conn_is {A} (f : side -> A) s c (Q : A -> store * side -> Prop) : Q (f c) (s, c) -> wl (conn_is f) (s, c) Q.
Proof. done. Qed.
Lemma wl_conn_set f s c (Q : unit -> store * side -> Prop) : Q tt (s, f c) -> wl (conn_set f) (s, c) Q.
Proof. done. Qed.
Lemma wl_gets {S A} (f : S -> A) (p : S) (Q : A -> S -> Prop) : Q (f p) p -> wl (gets f) p Q.
Proof. done. Qed.
Lemma wl_modify {S} (f : S -> S) (p : S) (Q : unit -> S -> Prop) : Q tt (f p) -> wl (modify f) p Q.
Proof. done. Qed.
Lemma wl_get_or_undef {S A} (f : S -> option A) (p : S) (Q : A -> S -> Prop) : (forall a, f p = Some a -> Q a p) -> wl (get_or_undef f) p Q.
Proof. unfold wl, get_or_undef. destruct (f p); auto. Qed.
Lemma wl_returns {S A} (m : CM S A) (p : S) (Q : A -> S -> Prop) a p' : wl m p Q -> m p = Ret a p' -> Q a p'.
Proof. unfold wl. intros H E. by rewrite E in H. Qed.

(** * A connection between commands *)

(** Where an answer may lead, and nothing left over from a command. *)
Definition leads (st : conn_states) : Prop := st = conn_new_cmd \/ st = conn_swallow \/ st = conn_closing.
Record tidy (c : side) : Prop := {
  ti_go : leads (write_and_go c);
  ti_sbytes : 0 <= sbytes c;
  ti_item : state c <> conn_nread -> state c <> conn_closing -> c_item c = None;
  ti_noreply : state c <> conn_nread -> state c <> conn_elsewhere -> state c <> conn_closing -> state c <> conn_closed -> noreply c = false
}.
(** After a command: not back where lines are read. *)
Record settled (c : side) : Prop := { se_tidy : tidy c; se_state : state c <> conn_waiting /\ state c <> conn_read /\ state c <> conn_parse_cmd /\ state c <> conn_closed }.
(** Before a command; the reply is still open. *)
Record calm_side (c : side) : Prop := {
  cs_go : leads (write_and_go c);
  cs_sbytes : 0 <= sbytes c;
  cs_item : c_item c = None
}.

Ltac side_tidy := intros; repeat match goal with |- settled _ => constructor end; [constructor|..]; try solve [split_and?; cbn; congruence]; unfold leads in *; cbn [state write_and_go noreply wbuf c_item cmd ritem rlbytes sbytes ilist
  set_state set_write_and_go set_noreply set_wbuf set_item set_cmd set_nread set_sbytes set_ilist snd] in *; auto; try lia; try congruence.
Ltac wl_step :=
  match goal with
  | |- wl (bind _ _) _ _ => apply wl_bind
  | |- wl (ret _) _ _ => apply wl_ret
  | |- wl (on_store _) (_, _) _ => apply wl_on_store; intros
  | |- wl (conn_is _) (_, _) _ => apply wl_conn_is
  | |- wl (conn_set _) (_, _) _ => apply wl_conn_set
  | |- wl (get_or_undef _) _ _ => apply wl_get_or_undef; intros
  end; cbv beta.

Lemma out_string_tidy str s c : calm_side c -> wl (out_string str) (s, c) (fun _ p => settled p.2 /\ (state p.2 = conn_write \/ state p.2 = conn_new_cmd)).
Proof.
  intros [H1 H2 H3]. unfold out_string. apply wl_bind, wl_conn_is. destruct (noreply c) eqn:N; apply wl_conn_set; split; try (simpl; tauto); side_tidy.
Qed.
Lemma set_noreply_maybe_calm ts s c : calm_side c -> wl (set_noreply_maybe ts) (s, c) (fun _ p => calm_side p.2).
Proof.
  intros [H1 H2 H3]. unfold set_noreply_maybe. apply wl_bind. destruct (named _ _); repeat wl_step; side_tidy.
Qed.

Section Commands.
Variable hash : list ascii -> Z.
Variable lockable : Z -> bool.
Variable junk : Z -> list ascii.
Variable process_started : Z.
Variable opts : options.
Variable stale_errno : bool.

Ltac calm_step :=
  match goal with
  | |- wl (out_string _) (_, _) _ => eapply wl_mono; [apply out_string_tidy; assumption | intros ? ? [? ?]; assumption]
  | |- wl (bind (set_noreply_maybe _) _) (_, _) _ => apply wl_bind; eapply wl_mono; [apply set_noreply_maybe_calm; assumption |]; intros ? [? ?] ?; cbn [snd] in *
  | |- context [if ?b then _ else _] => destruct b eqn:?
  | |- context [match ?x with _ => _ end] => is_var x; destruct x
  | |- context [match safe_strtoul ?x with _ => _ end] => destruct (safe_strtoul x)
  | |- context [match safe_strtol ?x with _ => _ end] => destruct (safe_strtol x)
  | |- context [let '(_, _) := strtol ?x in _] => destruct (strtol x)
  | _ => wl_step
  end.

Lemma elsewhere_tidy s c : calm_side c -> wl elsewhere (s, c) (fun _ p => settled p.2).
Proof. intros [H1 H2 H3]. unfold elsewhere. wl_step. side_tidy. Qed.
Ltac tidy_steps := repeat first [calm_step | match goal with |- wl elsewhere (_, _) _ => apply elsewhere_tidy; assumption end].

Lemma get_tidy ts rest rc s c : calm_side c -> noreply c = false -> wl (process_get_command hash ts rest rc) (s, c) (fun _ p => settled p.2).
Proof.
  intros H N. unfold process_get_command. apply wl_bind, wl_on_store. intros [[text|] l] s1; cbn [fst snd]; [|tidy_steps].
  destruct H. wl_step. side_tidy.
Qed.
Lemma swallow_tidy msg vlen s c : calm_side c -> 0 <= vlen ->
  wl (out_string msg ;;; conn_set (fun c => set_sbytes vlen (set_write_and_go conn_swallow c))) (s, c) (fun _ p => settled p.2).
Proof.
  intros H Hv. apply wl_bind. eapply wl_mono; [by apply out_string_tidy |]. intros _ [s' c'] [[[T1 T2 T3 T4] T0] T5]. cbn [snd] in *.
  wl_step. constructor; [|exact T0]. constructor; try done. by right; left.
Qed.
Lemma update_tidy ts comm cas s c : calm_side c -> wl (process_update_command hash lockable junk process_started ts comm cas) (s, c) (fun _ p => settled p.2).
Proof.
  intros H. unfold process_update_command. calm_step. destruct (_ <? _); [calm_step|].
  destruct (safe_strtoul _) as [flags|]; [|calm_step]. destruct (safe_strtol _) as [exptime|]; [|calm_step]. destruct (safe_strtol _) as [vlen|]; [|calm_step].
  apply wl_bind.
  assert (Hrest : forall o s2, wl (match o with
     | None => out_string bad_line
     | Some req_cas_id =>
       if (i32 (vlen + 2) <? 0) || (i32 (vlen + 2) - 2 <? 0) then out_string bad_line
       else r <- on_store (update_item hash lockable junk process_started (token ts 1) flags (if exptime <? 0 then REALTIME_MAXDELTA + 1 else exptime) (i32 (vlen + 2)) comm req_cas_id) ;;
            match r with
            | inr msg => out_string msg ;;; conn_set (fun c => set_sbytes (i32 (vlen + 2)) (set_write_and_go conn_swallow c))
            | inl it => conn_set (fun c => set_state conn_nread (set_cmd comm (set_nread 0 (i32 (vlen + 2)) (set_item (Some it) c))))
            end end) (s2, s1) (fun _ p => settled p.2)).
  { intros [req|] s2; [|calm_step]. destruct ((_ <? _) || _) eqn:Hv; [calm_step|]. apply orb_false_elim in Hv as [?%Z.ltb_ge ?%Z.ltb_ge].
    apply wl_bind, wl_on_store. intros [it|msg] s3.
    - destruct H0. wl_step. side_tidy.
    - by apply swallow_tidy. }
  destruct cas; [apply wl_on_store; intros o s2; exact (Hrest o s2) | apply wl_ret; exact (Hrest (Some 0) s0)].
Qed.
Lemma delete_tidy ts s c : calm_side c -> wl (process_delete_command hash ts) (s, c) (fun _ p => settled p.2).
Proof.
  intros H. unfold process_delete_command. apply wl_bind.
  assert (Hrest : forall (valid : bool) s2 c2, calm_side c2 -> wl (if negb valid then out_string (lit "CLIENT_ERROR bad command line format.  Usage: delete <key> [noreply]")
    else if KEY_MAX_LENGTH <? Z.of_nat (length (token ts 1)) then out_string bad_line
    else r <- on_store (StoreCmd.process_delete_command hash (token ts 1)) ;; out_string r) (s2, c2) (fun _ p => settled p.2)) by (intros; tidy_steps).
  destruct (3 <? ntokens ts); [|apply wl_ret; by apply Hrest]. calm_step. apply wl_ret. by apply Hrest.
Qed.
Lemma command_tidy command s c : calm_side c -> noreply c = false ->
  wl (process_command hash lockable junk process_started opts stale_errno command) (s, c) (fun _ p => settled p.2).
Proof.
  intros [G S I] N. unfold process_command. wl_step. wl_step. set (c1 := set_wbuf [] c). assert (H1 : calm_side c1) by (constructor; done).
  destruct (tokenize_command command) as [ts rest]. assert (N1 : noreply c1 = false) by done. clearbody c1. clear G S I N.
  destruct (_ && _); [by apply get_tidy |]. destruct (_ && _); [by apply update_tidy |]. destruct (_ && _); [by apply update_tidy |].
  destruct (_ && _); [unfold process_arithmetic_command; tidy_steps |]. destruct (_ && _); [by apply get_tidy |].
  destruct (_ && _); [unfold process_arithmetic_command; tidy_steps |]. destruct (_ && _); [by apply delete_tidy |].
  destruct (_ && _); [unfold process_touch_command; tidy_steps |]. destruct (_ && _); [by apply elsewhere_tidy |].
  destruct (_ && _); [unfold process_flush_all; tidy_steps |]. destruct (_ && _); [tidy_steps |].
  destruct (_ && _); [destruct H1; wl_step; side_tidy |]. destruct (_ && _); [tidy_steps |].
  destruct (_ && _); [unfold process_slabs, process_slabs_automove_command; tidy_steps |]. destruct (_ && _); [unfold process_lru_crawler; tidy_steps |].
  destruct (_ && _); [unfold process_verbosity_command; tidy_steps | tidy_steps].
Qed.

Lemma complete_settled s c : leads (write_and_go c) -> 0 <= sbytes c ->
  wl (complete_nread hash lockable junk) (s, c) (fun _ p => settled p.2 /\ (state p.2 = conn_write \/ state p.2 = conn_new_cmd)).
Proof.
  clear process_started. intros H1 H2. unfold complete_nread. repeat wl_step. unfold out_string. wl_step. wl_step. destruct (noreply c) eqn:N; repeat wl_step; (split; [|simpl; tauto]); side_tidy.
Qed.
End Commands.

(** ** Between commands *)

Lemma reset_settled s c : c_item c = None -> reset_cmd (s, c) = Ret tt (s, set_cmd (-1) c).
Proof. intros H. unfold reset_cmd, bind, conn_set, modify, conn_is, gets. cbn [fst snd set_cmd c_item]. by rewrite H. Qed.
Lemma release_side s c : wl release_conn (s, c) (fun _ p => p.2 = set_ilist [] (set_item None c)).
Proof.
  unfold release_conn. wl_step. wl_step. wl_step. destruct (c_item c) as [it|] eqn:Hi; repeat wl_step; [done |].
  destruct c. simpl in *. by rewrite Hi.
Qed.
