(* ===== verification/ConnThm.v ===== *)
(** Lines, data and answers of a connection in pieces; the conversation with
    everything there, state by state; and what holds of a connection whatever the
    network does, a hang-up and failed calls included. *)
From S2P Require Import Prelude CStr CDec Assoc Store Slabs Items StoreCmd Proto Conn ProtoThm.
Local Open Scope Z_scope.

(** * Lines *)

Lemma split_line_app a b l r : split_line a = Some (l, r) -> split_line (a ++ b) = Some (l, r ++ b).
Proof.
  revert l r. induction a as [|c a IH]; intros l r; simpl; [done |]. destruct (c =c LF); [by intros [= <- <-] |].
  destruct (split_line a) as [[l1 r1]|]; [|done]. intros [= <- <-]. by rewrite (IH _ _ eq_refl).
Qed.
Lemma split_line_length a l r : split_line a = Some (l, r) -> length a = S (length l + length r).
Proof.
  revert l r. induction a as [|c a IH]; intros l r; simpl; [done |]. destruct (c =c LF); [by intros [= <- <-] |].
  destruct (split_line a) as [[l1 r1]|]; [|done]. intros [= <- <-]. rewrite (IH _ _ eq_refl). simpl. lia.
Qed.
Lemma split_line_none_app a b l r : split_line a = None -> split_line (a ++ b) = Some (l, r) -> exists l', l = a ++ l' /\ split_line b = Some (l', r).
Proof.
  revert l. induction a as [|c a IH]; intros l; simpl; [by exists l |]. destruct (c =c LF); [done |].
  destruct (split_line a) as [[]|]; [done |]. intros _. destruct (split_line (a ++ b)) as [[l1 r1]|]; [|done]. intros [= <- <-].
  destruct (IH l1 eq_refl eq_refl) as (l' & -> & Hb). by exists l'.
Qed.

Lemma spaces_le s : (spaces s <= length s)%nat.
Proof. induction s as [|c s IH]; simpl; [done |]. destruct (c =c SP); lia. Qed.
Lemma spaces_app a b : (spaces a < length a)%nat -> spaces (a ++ b) = spaces a.
Proof. induction a as [|c a IH]; simpl; [lia |]. destruct (c =c SP); [|done]. intros H. f_equal. apply IH. lia. Qed.
Lemma spaces_all a b : spaces a = length a -> (length a <= spaces (a ++ b))%nat.
Proof. induction a as [|c a IH]; simpl; [lia |]. destruct (c =c SP); [|done]. intros [= H]. specialize (IH H). lia. Qed.
(** The start of a line tells whether it is a long get. *)
Lemma long_get_app a b : (1024 < length a)%nat -> long_get (a ++ b) = true -> (spaces a < length a)%nat /\ long_get a = true.
Proof.
  intros Ha. unfold long_get. intros [H1 H2]%andb_prop. apply negb_true_iff, Z.ltb_ge in H1.
  assert (Hs : (spaces a < length a)%nat).
  { pose proof (spaces_le a). destruct (Nat.eq_dec (spaces a) (length a)) as [E|]; [|lia]. pose proof (spaces_all a b E). lia. }
  rewrite (spaces_app a b Hs) in H1, H2. split; [done |]. rewrite (proj2 (Z.ltb_ge _ _) H1). cbn [negb andb].
  rewrite drop_app_le in H2 by lia.
  assert (Ht : forall tag, (length tag <= 5)%nat -> starts_with tag (drop (spaces a) a ++ b) = starts_with tag (drop (spaces a) a)).
  { intros tag Hl. apply starts_with_take. rewrite take_app_le; [done |]. rewrite length_drop. lia. }
  by rewrite !Ht in H2 by (vm_compute; lia).
Qed.

(** * Writing into an item in pieces *)

Lemma splice_app {X} (d a b : list X) n : (n + length a <= length d)%nat ->
  let d1 := take n d ++ a ++ drop (n + length a) d in
  take (n + length a) d1 ++ b ++ drop (n + length a + length b) d1 = take n d ++ (a ++ b) ++ drop (n + length (a ++ b)) d.
Proof.
  intros Hn d1. unfold d1. assert (Ht : length (take n d ++ a) = (n + length a)%nat) by (rewrite length_app, length_take; lia).
  rewrite (app_assoc (take n d)), (take_app_length' (take n d ++ a)) by done. rewrite <- !app_assoc. do 3 f_equal.
  rewrite (app_assoc (take n d)), drop_app, Ht, drop_ge by lia. cbn [app]. rewrite drop_drop, length_app. f_equal. lia.
Qed.
Lemma upd_hdr_eq it f s h : hdrs s !! it = Some h -> upd_hdr it f s = Ret tt (set_hdrs (<[it := f h]> (hdrs s)) s).
Proof. intros H. unfold upd_hdr, hdr_of, get_or_undef, bind. by rewrite H. Qed.
Lemma write_data_app it off a b s : write_data it off (a ++ b) s = (write_data it off a ;;; write_data it (off + Z.of_nat (length a)) b) s.
Proof.
  unfold write_data. destruct (hdrs s !! it) as [h|] eqn:Hh; [|by unfold hdr_of, get_or_undef, bind; rewrite Hh].
  assert (E : forall s h (B : Type) (k : hdr -> SM B), hdrs s !! it = Some h -> (h <- hdr_of it ;; k h) s = k h s) by (intros ? ? ? ? H; unfold hdr_of, get_or_undef, bind; by rewrite H).
  unfold bind at 2. rewrite !(E s h) by done. rewrite length_app.
  destruct (off <? 0) eqn:Hoff; [done |]. apply Z.ltb_ge in Hoff. cbn [orb].
  destruct (Z.of_nat (length (it_data h)) <? off + Z.of_nat (length a)) eqn:Ha.
  { rewrite (proj2 (Z.ltb_lt _ _)) by (apply Z.ltb_lt in Ha; lia). done. }
  apply Z.ltb_ge in Ha. rewrite (upd_hdr_eq it _ s h Hh). set (h1 := set_data _ h). rewrite (E _ h1) by (simpl; by rewrite lookup_insert_eq).
  rewrite (proj2 (Z.ltb_ge (off + _) 0)) by lia. cbn [orb].
  assert (Hl : length (it_data h1) = length (it_data h)) by (unfold h1; cbn [set_data it_data]; rewrite !length_app, length_take, length_drop; lia).
  rewrite Hl. replace (off + Z.of_nat (length a + length b)) with (off + Z.of_nat (length a) + Z.of_nat (length b)) by lia.
  destruct (_ <? _) eqn:Hb; [done |]. apply Z.ltb_ge in Hb. rewrite (upd_hdr_eq it _ s h Hh), (upd_hdr_eq it _ _ h1) by (simpl; by rewrite lookup_insert_eq).
  f_equal. unfold set_hdrs. cbn [hdrs tbl i_next i_prev lru mem cnt cfg]. rewrite insert_insert_eq. f_equal. f_equal.
  replace (Z.to_nat (off + Z.of_nat (length a))) with (Z.to_nat off + length a)%nat by lia.
  unfold h1, set_data. cbn [it_data it_time it_exptime it_nbytes it_refcount it_flags it_clsid it_cas it_suffix].
  rewrite splice_app by lia. by rewrite length_app.
Qed.
Lemma write_data_nil it off s u s' : write_data it off [] s = Ret u s' -> s' = s.
Proof.
  unfold write_data, hdr_of, get_or_undef. unfold bind at 1. destruct (hdrs s !! it) as [h|] eqn:Hh; [|done]. destruct (_ || _) eqn:Hb; [done |].
  apply orb_false_elim in Hb as [?%Z.ltb_ge ?%Z.ltb_ge]. rewrite (upd_hdr_eq it _ s h Hh). intros [= _ <-]. simpl.
  rewrite Nat.add_0_r, take_drop. replace (set_data (it_data h) h) with h by (by destruct h). rewrite insert_id by done. by destruct s.
Qed.

(** ** On the connection *)

Lemma on_store_eq {A} (m : SM A) s c a s' : m s = Ret a s' -> on_store m (s, c) = Ret a (s', c).
Proof. intros H. unfold on_store, zoom. simpl. by rewrite H. Qed.
Lemma on_store_inv {A} (m : SM A) s c a p : on_store m (s, c) = Ret a p -> exists s', m s = Ret a s' /\ p = (s', c).
Proof. unfold on_store, zoom. simpl. destruct (m s) as [b s'| | |]; try done. intros [= -> <-]. by exists s'. Qed.
Definition filled (n : Z) (c : side) : side := set_nread (ritem c + n) (rlbytes c - n) c.
Lemma fill_eq b s c it : c_item c = Some it -> fill b (s, c) = match write_data it (ritem c) b s with
  Ret _ s' => Ret tt (s', filled (Z.of_nat (length b)) c) | Exit x s' => Exit x (s', c) | Undef => Undef | OutOfFuel => OutOfFuel end.
Proof. intros H. unfold fill, bind, conn_is, gets, get_or_undef. simpl. rewrite H. unfold on_store, zoom. simpl. by destruct (write_data _ _ _ _). Qed.
Lemma fill_none b s c : c_item c = None -> fill b (s, c) = Undef.
Proof. intros H. unfold fill, bind, conn_is, gets, get_or_undef. simpl. by rewrite H. Qed.
Lemma fill_app a b s c u q : fill (a ++ b) (s, c) = Ret u q ->
  exists s', fill a (s, c) = Ret tt (s', filled (Z.of_nat (length a)) c) /\ fill b (s', filled (Z.of_nat (length a)) c) = Ret tt q.
Proof.
  destruct (c_item c) as [it|] eqn:Hi; [|by rewrite !fill_none]. rewrite !(fill_eq _ s c it Hi), write_data_app.
  unfold bind. destruct (write_data it (ritem c) a s) as [[] s'| | |]; [|done..]. intros H. exists s'. split; [done |].
  rewrite (fill_eq b s' _ it) by done. cbn [ritem filled set_nread]. destruct (write_data _ _ _ _); [|done..]. injection H as _ <-. f_equal. f_equal.
  unfold filled, set_nread. cbn. rewrite length_app. f_equal; lia.
Qed.
Lemma fill_nil s c u p : fill [] (s, c) = Ret u p -> p = (s, c).
Proof.
  destruct (c_item c) as [it|] eqn:Hi; [|by rewrite fill_none]. rewrite (fill_eq _ s c it Hi). destruct (write_data _ _ _ _) as [v s'| | |] eqn:E; [|done..].
  apply write_data_nil in E as ->. intros [= _ <-]. f_equal. destruct c. unfold filled, set_nread. simpl. f_equal; lia.
Qed.
Lemma fill_inv b s c u p : fill b (s, c) = Ret u p -> exists s', p = (s', filled (Z.of_nat (length b)) c).
Proof.
  destruct (c_item c) as [it|] eqn:Hi; [|by rewrite fill_none]. rewrite (fill_eq _ s c it Hi). destruct (write_data _ _ _ _) as [v s'| | |]; [|done..].
  intros [= _ <-]. by exists s'.
Qed.

(** * The conversation, state by state *)

Lemma answered_settled s c : tidy c -> state c = conn_write \/ state c = conn_mwrite ->
  wl answered (s, c) (fun _ p => settled p.2 /\ leads (state p.2)).
Proof.
  intros [T1 T2 T3 T4] H. assert (Hi : c_item c = None) by (apply T3; destruct H as [H|H]; by rewrite H).
  assert (Hn : noreply c = false) by (apply T4; destruct H as [H|H]; by rewrite H). unfold answered. wl_step. wl_step. case_bool_decide as Hm.
  - wl_step. eapply wl_mono; [apply release_side |]. intros _ [s' c'] E. cbn [snd] in E. subst c'. wl_step. split; [|by left]. side_tidy.
  - wl_step. split; [|exact T1]. constructor; [constructor; try done|]. cbn [state set_state snd]. destruct T1 as [-> |[-> | ->]]; by split_and?.
Qed.

Section Machine.
Variable hash : list ascii -> Z.
Variable lockable : Z -> bool.
Variable junk : Z -> list ascii.
Variable process_started : Z.
Variable opts : options.
Variable stale_errno : bool.
Variable reqs_per_event : Z.

Abbreviation converse := (converse hash lockable junk process_started opts stale_errno).
Abbreviation process_command := (process_command hash lockable junk process_started opts stale_errno).
Abbreviation complete_nread := (complete_nread hash lockable junk).
Implicit Types (s : store) (c : side) (f : nat) (b : list ascii) (r : store * side).

Definition idle (st : conn_states) : bool := bool_decide (st = conn_waiting) || bool_decide (st = conn_read) || bool_decide (st = conn_parse_cmd).
Lemma idle_parse f b s c : idle (state c) = true -> converse f b (s, c) = converse f b (s, set_state conn_parse_cmd c).
Proof. unfold idle. intros H. destruct f; destruct c as [[]]; try discriminate H; reflexivity. Qed.
Lemma idle_idle f b s c c' : idle (state c) = true -> idle (state c') = true -> set_state conn_parse_cmd c = set_state conn_parse_cmd c' -> converse f b (s, c) = converse f b (s, c').
Proof. intros H H' E. by rewrite (idle_parse _ _ _ c), (idle_parse _ _ _ c'), E by done. Qed.

(** A line, or none. *)
Lemma converse_idle f b s c out r : idle (state c) = true -> converse f b (s, c) = Ret out r ->
  fits b = true /\
  match split_line b with
  | None => out = [] /\ r = (s, set_state conn_parse_cmd c)
  | Some (line, cont) => exists p f', process_command (command_of line) (s, set_state conn_parse_cmd c) = Ret tt p /\ converse f' cont p = Ret out r
  end.
Proof.
  intros H. rewrite idle_parse by done. set (c1 := set_state _ c). assert (H1 : state c1 = conn_parse_cmd) by done. clearbody c1.
  destruct f as [|f]; cbn [Conn.converse]; unfold bind at 1, conn_is, gets; cbn [snd]; rewrite H1; unfold bind at 1, conn_set, modify; cbn [fst snd];
    replace (set_state conn_parse_cmd c1) with c1 by (destruct c1; simpl in H1; by rewrite H1);
    (destruct (fits b); [split; [done |] | done]); (destruct (split_line b) as [[line cont]|]; [|by injection H0 as <- <-]).
  - by apply bind_ret_inv in H0 as ([] & p & _ & H0).
  - apply bind_ret_inv in H0 as ([] & p & Hp & H0). by exists p, f.
Qed.
Lemma converse_new f b s c out r : state c = conn_new_cmd -> converse f b (s, c) = Ret out r ->
  exists p f', reset_cmd (s, c) = Ret tt p /\ converse f' b (p.1, set_state conn_parse_cmd p.2) = Ret out r.
Proof.
  intros H. destruct f as [|f]; cbn [Conn.converse]; unfold bind at 1, conn_is, gets; cbn [snd]; rewrite H; intros E; apply bind_ret_inv in E as ([] & p & Hp & E).
  - by apply bind_ret_inv in E as ([] & p2 & _ & E).
  - exists p, f. by split.
Qed.
Lemma converse_write f b s c out r : state c = conn_write \/ state c = conn_mwrite -> converse f b (s, c) = Ret out r ->
  exists p f' out', answered (s, set_wbuf [] c) = Ret tt p /\ converse f' b p = Ret out' r /\ out = wbuf c ++ out'.
Proof.
  intros H. destruct f as [|f]; cbn [Conn.converse]; unfold bind at 1, conn_is, gets; cbn [snd]; (destruct H as [H|H]; rewrite H); intros E;
    unfold bind at 1 in E; cbn [snd] in E; unfold bind at 1, conn_set, modify in E; cbn [fst snd] in E; apply bind_ret_inv in E as ([] & p & Hp & E); try (by apply bind_ret_inv in E as (? & ? & ? & _));
    apply bind_ret_inv in E as (out' & p2 & Hp2 & E); injection E as <- <-; by exists p, f, out'.
Qed.
(** Part of an answer is sent. *)
Lemma converse_sent f b s c w1 w2 out r : state c = conn_write \/ state c = conn_mwrite -> wbuf c = w1 ++ w2 -> converse f b (s, c) = Ret out r ->
  exists out', out = w1 ++ out' /\ converse f b (s, set_wbuf w2 c) = Ret out' r.
Proof.
  intros H Hw. destruct f as [|f]; cbn [Conn.converse]; unfold bind at 1, conn_is, gets; cbn [snd]; (destruct H as [H|H]; rewrite H); intros E;
    unfold bind at 1 in E; cbn [snd] in E; unfold bind at 1, conn_set, modify in E; cbn [fst snd] in E; apply bind_ret_inv in E as ([] & p & Hp & E); try (by apply bind_ret_inv in E as (? & ? & ? & _));
    apply bind_ret_inv in E as (out' & p2 & Hp2 & E); injection E as <- <-; exists (w2 ++ out'); (split; [by rewrite Hw, <- app_assoc |]);
    unfold bind at 1; cbn [snd set_wbuf state]; rewrite H; unfold bind at 1; cbn [snd]; unfold bind at 1, conn_set, modify; cbn [fst snd];
    unfold bind at 1; change (set_wbuf [] (set_wbuf w2 c)) with (set_wbuf [] c); rewrite Hp; unfold bind at 1; by rewrite Hp2.
Qed.
Lemma converse_nread f b s c out r : state c = conn_nread -> converse f b (s, c) = Ret out r ->
  if rlbytes c <? 0 then exists f', converse f' b (s, set_state conn_closing c) = Ret out r
  else exists s', fill (take (Z.to_nat (rlbytes c)) b) (s, c) = Ret tt (s', filled (Z.of_nat (length (take (Z.to_nat (rlbytes c)) b))) c) /\
    let c' := filled (Z.of_nat (length (take (Z.to_nat (rlbytes c)) b))) c in
    if rlbytes c' =? 0 then exists p f', complete_nread (s', c') = Ret tt p /\ converse f' (drop (Z.to_nat (rlbytes c)) b) p = Ret out r
    else out = [] /\ r = (s', c').
Proof.
  intros H. destruct f as [|f]; cbn [Conn.converse]; unfold bind at 1, conn_is, gets; cbn [snd]; rewrite H; intros E; unfold bind at 1 in E; cbn [snd] in E;
    (destruct (rlbytes c <? 0); [apply bind_ret_inv in E as ([] & p & Hp & E); unfold conn_set, modify in Hp; injection Hp as <-; try done; by exists f |]);
    apply bind_ret_inv in E as ([] & p & Hp & E); destruct (fill_inv _ _ _ _ _ Hp) as [s' ->]; exists s'; (split; [done |]); cbv zeta;
    unfold bind at 1 in E; cbn [snd] in E; (destruct (_ =? 0); [|by injection E as <- <-]); apply bind_ret_inv in E as ([] & p & Hp2 & E); try done. by exists p, f.
Qed.
(** Part of a value has come. *)
Lemma converse_filled f a b s c out r : state c = conn_nread -> Z.of_nat (length a) <= rlbytes c -> converse f (a ++ b) (s, c) = Ret out r ->
  exists s', fill a (s, c) = Ret tt (s', filled (Z.of_nat (length a)) c) /\ converse f b (s', filled (Z.of_nat (length a)) c) = Ret out r.
Proof.
  intros H Hl. set (c1 := filled _ c).
  assert (Ht : take (Z.to_nat (rlbytes c)) (a ++ b) = a ++ take (Z.to_nat (rlbytes c1)) b).
  { rewrite take_app, take_ge by lia. do 2 f_equal. unfold c1. cbn [filled set_nread rlbytes]. lia. }
  assert (Hd : drop (Z.to_nat (rlbytes c)) (a ++ b) = drop (Z.to_nat (rlbytes c1)) b).
  { rewrite drop_app, drop_ge by lia. cbn [app]. f_equal. unfold c1. cbn [filled set_nread rlbytes]. lia. }
  assert (H1 : state c1 = conn_nread) by done.
  destruct f as [|f]; cbn [Conn.converse]; unfold bind at 1, conn_is, gets; cbn [snd]; rewrite H; intros E; unfold bind at 1 in E; cbn [snd] in E;
    rewrite (proj2 (Z.ltb_ge _ _)) in E by lia; rewrite Ht, ?Hd in E; apply bind_ret_inv in E as ([] & p & Hp & E);
    apply fill_app in Hp as (s' & Hp1 & Hp2); exists s'; (split; [done |]); unfold bind at 1; cbn [snd]; fold c1; rewrite H1; unfold bind at 1; cbn [snd];
    rewrite (proj2 (Z.ltb_ge _ _)) by (unfold c1; cbn [filled set_nread rlbytes]; lia); unfold bind at 1; fold c1 in Hp2; by rewrite Hp2.
Qed.
Lemma converse_swallow f b s c out r : state c = conn_swallow -> converse f b (s, c) = Ret out r ->
  let n := Z.to_nat (sbytes c) in
  let c' := set_sbytes (sbytes c - Z.of_nat (length (take n b))) c in
  if sbytes c' =? 0 then exists f', converse f' (drop n b) (s, set_state conn_new_cmd c') = Ret out r else out = [] /\ r = (s, c').
Proof.
  intros H E. cbv zeta. destruct f as [|f]; cbn [Conn.converse] in E; unfold bind at 1, conn_is, gets in E; cbn [snd] in E; rewrite H in E;
    unfold bind at 1 in E; cbn [snd] in E; unfold bind at 1, swallow, conn_set, modify in E; cbn [fst snd] in E; unfold bind at 1 in E; cbn [snd] in E;
    (destruct (_ =? 0); [|by injection E as <- <-]); unfold bind at 1 in E; cbn [fst snd] in E; try done. by exists f.
Qed.
(** Part of the bytes have gone. *)
Lemma converse_swallowed f a b s c out r : state c = conn_swallow -> Z.of_nat (length a) <= sbytes c -> converse f (a ++ b) (s, c) = Ret out r ->
  converse f b (s, set_sbytes (sbytes c - Z.of_nat (length a)) c) = Ret out r.
Proof.
  intros H Hl. set (c1 := set_sbytes _ c).
  assert (Ht : take (Z.to_nat (sbytes c)) (a ++ b) = a ++ take (Z.to_nat (sbytes c1)) b).
  { rewrite take_app, take_ge by lia. do 2 f_equal. unfold c1. cbn [set_sbytes sbytes]. lia. }
  assert (Hd : drop (Z.to_nat (sbytes c)) (a ++ b) = drop (Z.to_nat (sbytes c1)) b).
  { rewrite drop_app, drop_ge by lia. cbn [app]. f_equal. unfold c1. cbn [set_sbytes sbytes]. lia. }
  assert (H1 : state c1 = conn_swallow) by done.
  assert (Hs : forall m, set_sbytes (sbytes c - Z.of_nat (length a + m)) c = set_sbytes (sbytes c1 - Z.of_nat m) c1).
  { intros m. unfold c1, set_sbytes. cbn. f_equal. lia. }
  destruct f as [|f]; cbn [Conn.converse]; unfold bind at 1, conn_is, gets; cbn [snd]; rewrite H; intros E; unfold bind at 1 in E; cbn [snd] in E;
    unfold bind at 1, swallow, conn_set, modify in E; cbn [fst snd] in E; rewrite Ht, ?Hd, length_app, Hs in E;
    unfold bind at 1; cbn [snd]; rewrite H1; unfold bind at 1; cbn [snd]; unfold bind at 1, swallow, conn_set, modify; cbn [fst snd]; exact E.
Qed.
Lemma converse_closing f b s c out r : state c = conn_closing -> converse f b (s, c) = Ret out r -> conn_close (s, c) = Ret tt r /\ out = [].
Proof.
  intros H. destruct f as [|f]; cbn [Conn.converse]; unfold bind at 1, conn_is, gets; cbn [snd]; rewrite H; intros E; apply bind_ret_inv in E as ([] & p & Hp & E); by injection E as <- <-.
Qed.
Lemma converse_closed f b s c out r : state c = conn_closed -> converse f b (s, c) = Ret out r -> out = [] /\ r = (s, c).
Proof. intros H. destruct f as [|f]; cbn [Conn.converse]; unfold bind at 1, conn_is, gets; cbn [snd]; rewrite H; intros E; by injection E as <- <-. Qed.
Lemma converse_elsewhere f b s c : state c = conn_elsewhere -> converse f b (s, c) = Undef.
Proof. intros H. destruct f as [|f]; cbn [Conn.converse]; unfold bind at 1, conn_is, gets; cbn [snd]; by rewrite H. Qed.
Lemma converse_now_closed b s c : state c = conn_closed -> converse 0 b (s, c) = Ret [] (s, c).
Proof. intros H. cbn [Conn.converse]. unfold bind at 1, conn_is, gets. cbn [snd]. by rewrite H. Qed.
End Machine.

(** Nothing is left over from a command where none is served, and the bytes that have
    been read are in the buffer. *)
Record sound (x : sess) : Prop := { so_tidy : tidy (mc x); so_size : 0 < rsize x /\ rbytes x <= rsize x }.
(** What changes on the network only. *)
Definition same_conn (x x' : sess) : Prop := mc x' = mc x /\ rsize x' = rsize x /\ rbuf x' = rbuf x.
Lemma same_sound x x' : same_conn x x' -> sound x -> sound x'.
Proof. intros (E1 & E2 & E3) [T S]. constructor; [by rewrite E1 | unfold rbytes; by rewrite E2, E3]. Qed.
Lemma sound_conn x p : sound x -> tidy p.2 -> sound (put_cs p x).
Proof. intros [_ S] T. by constructor. Qed.
Lemma wl_on_conn {A} (m : CS A) x (Q : A -> sess -> Prop) : wl m (ms x, mc x) (fun a p => Q a (put_cs p x)) -> wl (on_conn m) x Q.
Proof. unfold wl, on_conn, zoom. by destruct (m (ms x, mc x)). Qed.

Lemma tidy_closing c : tidy c -> tidy (set_state conn_closing c).
Proof. intros [T1 T2 T3 T4]. constructor; try done. Qed.
Lemma tidy_moves st c : tidy c -> idle (state c) = true -> idle st = true \/ st = conn_new_cmd \/ st = conn_elsewhere -> tidy (set_state st c).
Proof.
  intros [T1 T2 T3 T4] H _. assert (Hs : state c = conn_waiting \/ state c = conn_read \/ state c = conn_parse_cmd) by (destruct (state c); try discriminate H; auto).
  constructor; try done; cbn [set_state state c_item noreply]; intros; [apply T3 | apply T4]; intros E; rewrite E in Hs; by destruct Hs as [?|[?|?]].
Qed.

Section Machine.
Variable hash : list ascii -> Z.
Variable lockable : Z -> bool.
Variable junk : Z -> list ascii.
Variable process_started : Z.
Variable opts : options.
Variable stale_errno : bool.
Variable reqs_per_event : Z.

(** ** The network *)

Lemma next_event_same x : wl next_event x (fun _ x' => same_conn x x').
Proof. unfold next_event. apply wl_bind, wl_gets. destruct (events x); [done |]. by apply wl_bind, wl_modify, wl_ret. Qed.
Lemma sys_read_same n x : wl (sys_read n) x (fun r x' => same_conn x x' /\ match r with Got b => Z.of_nat (length b) <= Z.max 0 n | _ => True end).
Proof.
  unfold sys_read. apply wl_bind. eapply wl_mono; [apply next_event_same |]. intros e x1 H. destruct e as [|k| |]; try by apply wl_ret.
  apply wl_bind, wl_gets. set (m := Z.to_nat _). destruct (inbox x1) as [|a i]; [by apply wl_ret |]. apply wl_bind, wl_modify, wl_ret. split; [done |].
  destruct (take m (a :: i)) as [|b l] eqn:E; [done |]. rewrite <- E, length_take. unfold m. lia.
Qed.
Lemma sys_realloc_same x : wl sys_realloc x (fun _ x' => same_conn x x').
Proof. unfold sys_realloc. apply wl_bind, wl_gets. destruct (reallocs x); [by apply wl_ret |]. by apply wl_bind, wl_modify, wl_ret. Qed.

(** ** Reading *)

Definition fetching (r : try_read_result) (x x' : sess) : Prop :=
  (0 < rsize x' /\ rbytes x' <= rsize x') /\ match r with READ_MEMORY_ERROR => tidy (mc x') | _ => mc x' = mc x end.
Lemma fetching_trans r x x1 x' : mc x1 = mc x -> fetching r x1 x' -> fetching r x x'.
Proof. intros E [H1 H2]. split; [done |]. rewrite <- E. done. Qed.
Lemma make_room_sound got n x : sound x -> state (mc x) = conn_read ->
  wl (make_room got n) x (fun r x' => match r.1 with
    | Some READ_MEMORY_ERROR => got = READ_MEMORY_ERROR \/ fetching READ_MEMORY_ERROR x x'
    | Some r => r = got /\ x' = x
    | None => sound x' /\ mc x' = mc x /\ rbytes x' < rsize x' end).
Proof.
  intros [T S] St. unfold make_room. apply wl_bind, wl_gets, wl_bind, wl_gets. destruct (Z.leb_spec (rsize x) (rbytes x)); [|by apply wl_ret].
  destruct (n =? 4); [apply wl_ret; cbn [fst]; destruct got; auto |]. destruct (2 ^ 31 <=? _); [done |]. apply wl_bind. eapply wl_mono; [apply sys_realloc_same |]. intros ok x1 H1. pose proof (same_sound _ _ H1 (Build_sound _ T S)) as [T1 S1].
  destruct H1 as (E1 & E2 & E3). destruct ok.
  - apply wl_bind, wl_modify, wl_ret. cbn [fst]. set (x2 := set_rsize _ x1). assert (rbytes x2 = rbytes x) by (unfold rbytes, x2; cbn [set_rsize rbuf]; by rewrite E3).
    split; [constructor; [done | cbn [x2 set_rsize rsize]; lia] |]. split; [done |]. cbn [x2 set_rsize rsize]. lia.
  - apply wl_bind, wl_modify, wl_bind, wl_on_conn. cbn [ms mc set_rbuf]. destruct T1 as [T2 T3 T4 T5]. assert (Hn : noreply (mc x1) = false) by (apply T5; rewrite E1, St; done).
    assert (Hi : c_item (mc x1) = None) by (apply T4; rewrite E1, St; done).
    unfold out_string. apply wl_bind, wl_conn_is. rewrite Hn. apply wl_conn_set. cbn [fst snd]. apply wl_bind, wl_on_conn. cbn [ms mc put_cs fst snd]. apply wl_conn_set, wl_ret. cbn [fst]. right. split.
    + cbn. unfold rbytes. cbn. lia.
    + constructor; cbn; try done. by right; right.
Qed.
Lemma network_loop_sound fuel : forall got n x, sound x -> state (mc x) = conn_read -> got <> READ_MEMORY_ERROR -> wl (network_loop fuel got n) x (fun r x' => fetching r x x').
Proof.
  induction fuel as [|fuel IH]; intros got n x S St Hg; cbn [network_loop]; unfold network_round; apply wl_bind; (eapply wl_mono; [by apply make_room_sound |]);
    intros [[r|] n'] x1 H1; cbn [fst snd] in *;
    try (apply wl_ret; destruct r; try (destruct H1 as [E ->]; split; [apply S | done]); by destruct H1); destruct H1 as (S1 & E1 & Hr);
    apply wl_bind, wl_gets, wl_bind; (eapply wl_mono; [apply sys_read_same |]); intros r x2 [Hs Hb]; pose proof (same_sound _ _ Hs S1) as S2; destruct Hs as (E2 & E3 & E4);
    destruct r as [b| | |]; try (apply wl_ret; split; [apply S2 | destruct got; try congruence; done]); try (apply wl_ret; split; [apply S2 | congruence]);
    apply wl_bind, wl_modify; set (x3 := set_rbuf _ x2); assert (S3 : sound x3) by (constructor; [apply S2 | unfold rbytes in *; cbn [x3 set_rbuf rbuf rsize]; rewrite length_app, E3, E4; destruct S1 as [_ S1]; lia]).
  - destruct (_ =? _); [done |]. apply wl_ret. split; [apply S3 | cbn; congruence].
  - destruct (_ =? _); [|apply wl_ret; split; [apply S3 | cbn; congruence]]. eapply wl_mono; [apply IH; [done | cbn; congruence | done] |]. intros r x4. apply fetching_trans. cbn. congruence.
Qed.

(** ** The rounds *)

Abbreviation drive_step := (drive_step hash lockable junk process_started opts stale_errno).
Lemma wl_go st x (Q : unit -> sess -> Prop) : Q tt (put_cs (ms x, set_state st (mc x)) x) -> wl (go st) x Q.
Proof. intros H. by apply wl_on_conn, wl_conn_set. Qed.
Ltac go_on := repeat first [apply wl_bind | apply wl_gets | apply wl_modify | apply wl_ret | apply wl_go].
Lemma step_read_sound x : sound x -> state (mc x) = conn_read -> wl step_read x (fun _ x' => sound x').
Proof.
  intros S St. unfold step_read. apply wl_bind. unfold try_read_network. apply wl_bind, wl_gets. eapply wl_mono; [by apply network_loop_sound |]. intros r x1 [H1 H2].
  destruct r; go_on; constructor; try done; cbn [put_cs mc snd]; rewrite H2; first [apply tidy_closing, S | apply tidy_moves; [apply S | by rewrite St | by left]].
Qed.
Lemma step_parse_sound x : sound x -> state (mc x) = conn_parse_cmd ->
  wl (step_parse_cmd hash lockable junk process_started opts stale_errno) x (fun _ x' => sound x').
Proof.
  intros [T S] St. unfold step_parse_cmd, try_read_command. apply wl_bind, wl_bind, wl_gets. destruct (rbytes x <=? 0); [done |]. apply wl_bind, wl_gets, wl_bind, wl_gets, wl_bind.
  set (m := match proto x with negotiating_prot => _ | _ => _ end). assert (Hm : wl m x (fun _ x' => same_conn x x' /\ ms x' = ms x)) by (unfold m; destruct (proto x); done).
  eapply wl_mono; [exact Hm |]. intros _ x1 [(E1 & E2 & E3) E4]. assert (S1 : 0 < rsize x1 /\ rbytes x1 <= rsize x1) by (unfold rbytes; by rewrite E2, E3). rewrite <- E1 in T, St.
  assert (Hi : c_item (mc x1) = None) by (apply (ti_item _ T); by rewrite St). assert (Hn : noreply (mc x1) = false) by (apply (ti_noreply _ T); by rewrite St).
  assert (Hmove : forall st, idle st = true \/ st = conn_new_cmd \/ st = conn_elsewhere -> sound (put_cs (ms x1, set_state st (mc x1)) x1)).
  { intros st Hst. constructor; [apply tidy_moves; [done | by rewrite St | done] | done]. }
  assert (Hclose : sound (put_cs (ms x1, set_state conn_closing (mc x1)) x1)) by (constructor; [by apply tidy_closing | done]).
  apply wl_bind, wl_gets.
  assert (Htext : wl (match split_line (rbuf x) with
      | None => if 1024 <? rbytes x then if (length (rbuf x) <=? spaces (rbuf x))%nat then undef else if long_get (rbuf x) then ret false else go conn_closing ;;; ret true else ret false
      | Some (line, cont) => on_conn (process_command hash lockable junk process_started opts stale_errno (command_of line)) ;;; modify (set_rbuf cont) ;;; ret true
      end) x1 (fun a x' => wl ((if a : bool then ret tt else go conn_waiting) ;;; ret false) x' (fun _ x' => sound x'))).
  { destruct (split_line (rbuf x)) as [[line cont]|] eqn:Hs.
    - pose proof (split_line_length _ _ _ Hs). apply wl_bind, wl_on_conn. eapply wl_mono; [apply command_tidy; [constructor; [apply T | apply T | done] | done] |]. intros ? p Hp. go_on.
      constructor; [apply Hp |]. unfold rbytes in *. cbn [put_cs set_rbuf rbuf rsize]. rewrite E3 in S1. lia.
    - assert (Hw : sound (put_cs (ms x1, set_state conn_waiting (mc x1)) x1)) by (apply Hmove; by left). repeat case_match; try done; go_on; done. }
  destruct (proto x1); [exact Htext | | exact Htext]. go_on. apply Hmove. auto.
Qed.
Lemma step_new_sound n x : sound x -> state (mc x) = conn_new_cmd -> wl (step_new_cmd n) x (fun _ x' => sound x').
Proof.
  intros [T S] St. unfold step_new_cmd. cbv zeta. destruct (_ <=? _); [|by apply wl_ret]. apply wl_bind. unfold reset_cmd_handler. apply wl_bind, wl_on_conn.
  assert (Hi : c_item (mc x) = None) by (apply (ti_item _ T); by rewrite St). assert (Hn : noreply (mc x) = false) by (apply (ti_noreply _ T); by rewrite St).
  unfold wl at 1. rewrite reset_settled by done. apply wl_bind. set (x1 := put_cs _ x).
  assert (Hs : wl conn_shrink x1 (fun _ x' => mc x' = mc x1 /\ 0 < rsize x' /\ rbytes x' <= rsize x')).
  { unfold conn_shrink. apply wl_bind, wl_gets. destruct (_ && _) eqn:Hb; [|by apply wl_ret]. apply andb_prop in Hb as [_ Hb%Z.ltb_lt]. apply wl_bind. eapply wl_mono; [apply sys_realloc_same |].
    intros ok x2 (E1 & E2 & E3). destruct ok; [apply wl_modify | apply wl_ret]; (split; [done |]); unfold rbytes in *; cbn [set_rsize rsize rbuf]; rewrite ?E2, E3; [unfold DATA_BUFFER_SIZE in *; lia | done]. }
  eapply wl_mono; [exact Hs |]. intros _ x2 (E & S2). go_on. constructor; [|done]. cbn [put_cs mc snd]. rewrite E. destruct T as [T1 T2 T3 T4]. constructor; try done.
Qed.
Lemma fill_tidy b s c : tidy c -> wl (fill b) (s, c) (fun _ p => tidy p.2 /\ state p.2 = state c).
Proof.
  intros T. unfold fill. repeat wl_step. split; [|done]. destruct T as [T1 T2 T3 T4]. by constructor.
Qed.
Lemma step_nread_sound x : sound x -> state (mc x) = conn_nread -> wl (step_nread hash lockable junk) x (fun _ x' => sound x').
Proof.
  intros [T S] St. unfold step_nread. apply wl_bind, wl_gets. destruct (_ =? 0).
  { apply wl_bind, wl_on_conn. eapply wl_mono; [apply complete_settled; apply T |]. intros ? p [Hp _]. apply wl_ret. constructor; [apply Hp | done]. }
  assert (Hclose : forall x1, sound x1 -> sound (put_cs (ms x1, set_state conn_closing (mc x1)) x1)) by (intros x1 [T1 S1]; constructor; [by apply tidy_closing | done]).
  destruct (_ <? 0) eqn:Hl; [go_on; by apply Hclose |]. apply wl_bind, wl_gets, wl_bind.
  set (m := if 0 <? rbytes x then _ else _). assert (Hm : wl m x (fun _ x' => sound x')).
  { unfold m. destruct (0 <? rbytes x); [|by apply wl_ret]. apply wl_bind, wl_gets, wl_bind, wl_on_conn. eapply wl_mono; [by apply fill_tidy |]. intros ? p [Tp _]. apply wl_modify. constructor; [done |].
    unfold rbytes in *. cbn [put_cs set_rbuf rbuf rsize]. rewrite length_drop. lia. }
  eapply wl_mono; [exact Hm |]. intros ? x1 S1. apply wl_bind, wl_gets. destruct (_ =? 0); [by apply wl_ret |]. apply wl_bind.
  eapply wl_mono; [apply sys_read_same |]. intros r x2 [Hs _]. pose proof (same_sound _ _ Hs S1) as S2. destruct r; go_on; try (by apply Hclose); try done.
  apply wl_on_conn. eapply wl_mono; [apply fill_tidy, S2 |]. intros ? p [Tp _]. go_on. by apply sound_conn.
Qed.
Lemma step_swallow_sound x : sound x -> state (mc x) = conn_swallow -> wl step_swallow x (fun _ x' => sound x').
Proof.
  intros [T S] St. unfold step_swallow. apply wl_bind, wl_gets. pose proof (ti_sbytes _ T) as Hs0. assert (Hi : c_item (mc x) = None) by (apply (ti_item _ T); by rewrite St).
  assert (Hn : noreply (mc x) = false) by (apply (ti_noreply _ T); by rewrite St). destruct (Z.eqb_spec (sbytes (mc x)) 0) as [H0|H0].
  { go_on. constructor; [|done]. destruct T as [T1 T2 T3 T4]. constructor; try done. }
  assert (Hsw : forall x1 n, mc x1 = mc x -> 0 <= n <= sbytes (mc x) -> 0 < rsize x1 /\ rbytes x1 <= rsize x1 -> sound (put_cs (ms x1, set_sbytes (sbytes (mc x1) - n) (mc x1)) x1)).
  { intros x1 n E Hle S1. constructor; [|done]. cbn [put_cs mc snd]. rewrite E. destruct T as [T1 T2 T3 T4]. constructor; try done. cbn [set_sbytes sbytes]. lia. }
  apply wl_bind, wl_gets. destruct (Z.ltb_spec 0 (rbytes x)) as [Hr|Hr].
  - set (t := if sbytes (mc x) <? rbytes x then _ else _). assert (Ht : 0 <= t <= sbytes (mc x)) by (unfold t; destruct (Z.ltb_spec (sbytes (mc x)) (rbytes x)); lia).
    apply wl_bind, wl_on_conn. unfold swallow. apply wl_conn_set. cbn [fst snd]. go_on. destruct (Hsw x t eq_refl Ht S) as [T1 S1]. constructor; [exact T1 |]. unfold rbytes in *. cbn [put_cs set_rbuf rbuf rsize]. rewrite length_drop. lia.
  - apply wl_bind, wl_gets, wl_bind. set (t := if sbytes (mc x) <? rsize x then _ else _). assert (Ht : 0 <= t <= sbytes (mc x)) by (unfold t; destruct (Z.ltb_spec (sbytes (mc x)) (rsize x)); lia).
    eapply wl_mono; [apply (sys_read_same t) |]. intros r x2 [Hs Hb]. pose proof (same_sound _ _ Hs (Build_sound _ T S)) as S2. destruct r; go_on; try done; try (constructor; [apply tidy_closing, S2 | apply S2]).
    cbn [fst snd]. apply Hsw; [apply Hs | lia | apply S2].
Qed.
Lemma step_write_sound x : sound x -> state (mc x) = conn_write \/ state (mc x) = conn_mwrite -> wl step_write x (fun _ x' => sound x').
Proof.
  intros [T S] St. unfold step_write, transmit. apply wl_bind, wl_bind, wl_gets. destruct (wbuf (mc x)) as [|a w].
  - apply wl_ret, wl_bind, wl_on_conn. eapply wl_mono; [by apply answered_settled |]. intros ? p [Hp _]. apply wl_ret. constructor; [apply Hp | done].
  - apply wl_bind. eapply wl_mono; [apply next_event_same |]. intros e x1 Hs. pose proof (same_sound _ _ Hs (Build_sound _ T S)) as [T1 S1]. destruct e; go_on; try done; try (constructor; [by apply tidy_closing | done]).
    cbn [fst snd]. constructor; [|done]. destruct T1 as [T1 T2 T3 T4]. by constructor.
Qed.
Lemma drive_step_sound n x : sound x -> wl (drive_step n) x (fun _ x' => sound x').
Proof.
  intros S. unfold Conn.drive_step. apply wl_bind, wl_gets.
  assert (Hsame : forall m : NM bool, wl m x (fun _ x' => sound x') -> wl (b <- m ;; ret (b, n)) x (fun _ x' => sound x')) by (intros m Hm; apply wl_bind; eapply wl_mono; [exact Hm |]; intros b x' H; by apply wl_ret).
  destruct (state (mc x)) eqn:St; cbv zeta; try apply Hsame.
  - by apply step_new_sound.
  - unfold step_waiting. go_on. constructor; [|apply S]. apply tidy_moves; [apply S | exact (f_equal idle St) | by left].
  - by apply step_read_sound.
  - by apply step_parse_sound.
  - apply step_write_sound; auto.
  - by apply step_nread_sound.
  - by apply step_swallow_sound.
  - apply wl_bind, wl_on_conn. unfold conn_close. apply wl_bind. eapply wl_mono; [apply release_side |]. intros _ [s' c'] E. cbn [snd] in E. subst c'. apply wl_conn_set, wl_ret.
    destruct S as [[T1 T2 T3 T4] S]. by constructor.
  - apply step_write_sound; auto.
  - done.
  - by apply wl_ret.
Qed.
Lemma drive_machine_sound fuel : forall n x, sound x -> wl (drive_machine hash lockable junk process_started opts stale_errno fuel n) x (fun _ x' => sound x').
Proof.
  induction fuel as [|fuel IH]; intros n x S; cbn [drive_machine]; apply wl_bind; (eapply wl_mono; [by apply drive_step_sound |]); intros [[] n'] x1 S1; cbn [fst snd]; try (by apply wl_ret).
  by apply IH.
Qed.
Lemma event_loop_sound fuel : forall x, sound x -> wl (event_loop hash lockable junk process_started opts stale_errno reqs_per_event fuel) x (fun _ x' => sound x').
Proof.
  induction fuel as [|fuel IH]; intros x S; cbn [event_loop]; apply wl_bind, wl_gets; (destruct (over x); [by apply wl_ret |]); [done |].
  apply wl_bind, wl_gets, wl_bind. eapply wl_mono; [by apply drive_machine_sound |]. intros ? x1 S1. by apply IH.
Qed.
Lemma connect_sound s input ev re : sound (connect s input ev re).
Proof. constructor; [|done]. constructor; try done. by left. Qed.
End Machine.
