(* ===== verification/ConnRun.v ===== *)
(** The loop of a connection, round by round, against the conversation with
    everything there. *)
From S2P Require Import Prelude CStr CDec Assoc Store Slabs Items StoreCmd Proto Conn ProtoThm ConnThm.
Local Open Scope Z_scope.

(** * The network *)

(** The client stays and nothing fails. *)
Definition benign (e : io) : Prop := match e with Again | Bytes _ => True | _ => False end.
(** How often bytes can move. *)
Fixpoint nbytes (l : list io) : nat := match l with [] => 0 | Bytes _ :: l => S (nbytes l) | _ :: l => nbytes l end.
Definition bytes_left (x : sess) : list ascii := rbuf x ++ inbox x.

Section Machine.
Variable hash : list ascii -> Z.
Variable lockable : Z -> bool.
Variable junk : Z -> list ascii.
Variable process_started : Z.
Variable opts : options.
Variable stale_errno : bool.
Variable reqs_per_event : Z.
Hypothesis reqs_positive : 0 < reqs_per_event.
(** All that is sent in the end, and where it ends; whether the network lasts. *)
Variable total : list ascii.
Variable last : store * side.
Variable lasts : Prop.

Abbreviation converse := (converse hash lockable junk process_started opts stale_errno).
Abbreviation process_command := (process_command hash lockable junk process_started opts stale_errno).
Abbreviation complete_nread := (complete_nread hash lockable junk).
Abbreviation drive_step := (drive_step hash lockable junk process_started opts stale_errno).
Implicit Types (x : sess) (s : store) (c : side).

(** * The invariant *)

Definition first_line (x : sess) : Prop :=
  idle (state (mc x)) = true \/ state (mc x) = conn_new_cmd.
Record live (x : sess) : Prop := {
  lv_out : exists f out, converse f (bytes_left x) (ms x, mc x) = Ret out last /\ total = sent x ++ out /\
    (lasts -> (length (inbox x) + length out + match inbox x with [] => 0 | _ => 1 end <= nbytes (events x))%nat);
  lv_events : Forall benign (events x);
  lv_re : Forall (eq true) (reallocs x);
  lv_size : 0 < rsize x /\ rbytes x <= rsize x /\ rbytes x + Z.of_nat (length (inbox x)) < 2 ^ 30;
  lv_proto : proto x = ascii_prot \/ proto x = negotiating_prot /\ first_line x /\ forall a b, bytes_left x = a :: b -> uchar a <> 128;
  lv_line : state (mc x) = conn_waiting \/ state (mc x) = conn_read -> split_line (rbuf x) = None;
  lv_parse : state (mc x) = conn_parse_cmd -> 0 < rbytes x;
  lv_tidy : tidy (mc x)
}.

(** What is left to do, in rounds. *)
Definition rank (x : sess) (nreqs : Z) : nat :=
  match state (mc x) with
  | conn_closed | conn_elsewhere => 0
  | conn_closing => 1
  | conn_read => match events x with [] => 2 | _ => 1 end
  | conn_waiting => match events x with [] => 1 | _ => 2 end
  | conn_parse_cmd => 3
  | conn_new_cmd => if nreqs <=? 0 then 5 else 4
  | conn_swallow => 6
  | conn_write | conn_mwrite => 7
  | conn_nread => 8
  end.
Definition work (x : sess) (nreqs : Z) : nat := 8 * (length (rbuf x) + length (inbox x) + length (events x)) + rank x nreqs.
Lemma rank_le x n : (rank x n <= 8)%nat.
Proof. unfold rank. repeat case_match; lia. Qed.

(** Where a turn ends. *)
Definition stopped (x : sess) : Prop :=
  match state (mc x) with
  | conn_read | conn_closed | conn_new_cmd => True
  | conn_nread => rbuf x = [] /\ 0 < rlbytes (mc x)
  | conn_swallow => rbuf x = [] /\ 0 < sbytes (mc x)
  | conn_write | conn_mwrite => wbuf (mc x) <> []
  | _ => False
  end.
Definition stepped (nreqs : Z) (x : sess) (r : bool * Z) (x' : sess) : Prop :=
  live x' /\ if r.1 then stopped x' /\ (over x' = false -> (work x' reqs_per_event < work x nreqs)%nat) else state (mc x') <> conn_closed /\ (work x' r.2 < work x nreqs)%nat.

Lemma wp_on_conn {A} (m : CS A) x a p (Q : A -> sess -> Prop) : m (ms x, mc x) = Ret a p -> Q a (put_cs p x) -> wp (on_conn m) x Q.
Proof. intros H HQ. unfold wp, on_conn, zoom. by rewrite H. Qed.
Lemma wp_go st x (Q : unit -> sess -> Prop) : Q tt (put_cs (ms x, set_state st (mc x)) x) -> wp (go st) x Q.
Proof. intros H. by eapply wp_on_conn. Qed.

(** ** System calls *)

Lemma next_event_spec x (Q : io -> sess -> Prop) : Forall benign (events x) ->
  (events x = [] -> Q Again x) -> (forall e l, events x = e :: l -> benign e -> Q e (set_events l x)) -> wp next_event x Q.
Proof.
  intros Hb H0 H1. unfold next_event. apply wp_bind, wp_gets. destruct (events x) as [|e l] eqn:E; [by apply wp_ret, H0 |].
  apply wp_bind, wp_modify, wp_ret. apply H1; [done |]. by apply Forall_cons in Hb as [? _].
Qed.
(** A read gives nothing, because nothing is there or it would block; or some bytes. *)
Lemma sys_read_spec n x (Q : read_result -> sess -> Prop) : Forall benign (events x) -> 0 < n ->
  (events x = [] -> Q Eagain x) ->
  (forall e l, events x = e :: l -> (inbox x = [] \/ nbytes (events x) = nbytes l) -> Q Eagain (set_events l x)) ->
  (forall k l b i, events x = Bytes k :: l -> inbox x = b ++ i -> b <> [] -> Z.of_nat (length b) <= n -> Q (Got b) (set_inbox i (set_events l x))) ->
  wp (sys_read n) x Q.
Proof.
  intros Hb Hn H0 H1 H2. unfold sys_read. apply wp_bind, next_event_spec; [done | intros E; by apply wp_ret, H0 |].
  intros e l E He. destruct e as [|k| |]; try done; [apply wp_ret, (H1 Again); [done | right; by rewrite E] |].
  apply wp_bind, wp_gets. change (inbox (set_events l x)) with (inbox x). destruct (inbox x) as [|a i] eqn:Ei; [apply wp_ret, (H1 (Bytes k)); [done | by left] |].
  set (m := Z.to_nat _). assert (Hm : (1 <= m)%nat) by (unfold m; lia). apply wp_bind, wp_modify, wp_ret.
  destruct m as [|m'] eqn:Em; [lia |]. cbn [take drop]. apply (H2 k l (a :: take m' i) (drop m' i)); [done | by rewrite <- (take_drop m' i) at 1 | done |].
  cbn [length]. rewrite length_take. lia.
Qed.
Lemma sys_realloc_spec x (Q : bool -> sess -> Prop) : Forall (eq true) (reallocs x) ->
  (forall l, Forall (eq true) l -> Q true (set_reallocs l x)) -> wp sys_realloc x Q.
Proof.
  intros Hr H. unfold sys_realloc. apply wp_bind, wp_gets. destruct (reallocs x) as [|b l] eqn:E.
  - apply wp_ret. specialize (H []). replace (set_reallocs [] x) with x in H by (destruct x; simpl in E; by rewrite E). by apply H.
  - apply Forall_cons in Hr as [<- Hr]. apply wp_bind, wp_modify, wp_ret. by apply H.
Qed.

(** ** Reading *)

(** What reading changes. *)
Record fetched (x : sess) (b : list ascii) (x' : sess) : Prop := {
  fe_ms : ms x' = ms x; fe_mc : mc x' = mc x; fe_proto : proto x' = proto x; fe_sent : sent x' = sent x;
  fe_rbuf : rbuf x' = rbuf x ++ b;
  fe_inbox : inbox x = b ++ inbox x';
  fe_events : Forall benign (events x');
  fe_re : Forall (eq true) (reallocs x');
  fe_size : 0 < rsize x' /\ rbytes x' <= rsize x' /\ rbytes x' + Z.of_nat (length (inbox x')) < 2 ^ 30;
  fe_used : (nbytes (events x) <= nbytes (events x') + length b + match inbox x' with [] => 1 | _ => 0 end)%nat;
  fe_length : (length (events x') <= length (events x))%nat
}.
Lemma nbytes_cons e l : (nbytes l <= nbytes (e :: l) <= S (nbytes l))%nat.
Proof. destruct e; simpl; lia. Qed.
Lemma fetched_refl x : Forall benign (events x) -> Forall (eq true) (reallocs x) -> 0 < rsize x /\ rbytes x <= rsize x /\ rbytes x + Z.of_nat (length (inbox x)) < 2 ^ 30 -> fetched x [] x.
Proof. intros. constructor; try done; [by rewrite app_nil_r | destruct (inbox x); simpl; lia]. Qed.
Lemma fetched_trans x b1 x1 b2 x2 : (nbytes (events x) <= nbytes (events x1) + length b1)%nat -> fetched x b1 x1 -> fetched x1 b2 x2 -> fetched x (b1 ++ b2) x2.
Proof.
  intros Hn [A1 A2 A3 A4 A5 A6 A7 A8 A9 A10 A11] [B1 B2 B3 B4 B5 B6 B7 B8 B9 B10 B11]. constructor; try done; try congruence; try lia.
  - by rewrite B5, A5, app_assoc.
  - by rewrite A6, B6, app_assoc.
  - rewrite length_app. lia.
Qed.

Lemma make_room_spec got n x : Forall benign (events x) -> Forall (eq true) (reallocs x) -> 0 < rsize x /\ rbytes x <= rsize x /\ rbytes x + Z.of_nat (length (inbox x)) < 2 ^ 30 ->
  wp (make_room got n) x (fun r x' => fetched x [] x' /\ events x' = events x /\ match r.1 with Some g => g = got /\ n = 4 | None => rbytes x' < rsize x' end).
Proof.
  intros Hb Hr (H1 & H2 & H3). unfold make_room. apply wp_bind, wp_gets, wp_bind, wp_gets. destruct (Z.leb_spec (rsize x) (rbytes x)); [|apply wp_ret; split; [by apply fetched_refl | done]].
  destruct (Z.eqb_spec n 4); [apply wp_ret; split; [by apply fetched_refl | done] |]. rewrite (proj2 (Z.leb_gt _ _)) by lia. apply wp_bind, sys_realloc_spec; [done |]. intros l Hl. apply wp_bind, wp_modify, wp_ret.
  assert (rbytes (set_rsize (rsize x * 2) (set_reallocs l x)) = rbytes x) by done. split; [|split; [done | cbn [fst rsize set_rsize set_reallocs]; lia]].
  constructor; try done; [by rewrite app_nil_r | cbn [rsize inbox set_rsize set_reallocs]; lia | destruct (inbox x); simpl; lia].
Qed.
(** What a read found: nothing, then an event is gone or there is none; or data. *)
Definition found (got : try_read_result) (x : sess) (r : try_read_result) (b : list ascii) (x' : sess) : Prop :=
  (r = READ_NO_DATA_RECEIVED /\ got = r /\ b = [] /\ (events x = [] \/ (length (events x') < length (events x))%nat)) \/
  (r = READ_DATA_RECEIVED /\ (got = r \/ b <> [] /\ (length (events x') < length (events x))%nat)).
Definition network_ok (got : try_read_result) (m : NM try_read_result) (x : sess) : Prop := wp m x (fun r x' => exists b, fetched x b x' /\ found got x r b x').

Lemma network_round_spec again got n x : got = READ_DATA_RECEIVED \/ got = READ_NO_DATA_RECEIVED /\ n <> 4 ->
  Forall benign (events x) -> Forall (eq true) (reallocs x) -> 0 < rsize x /\ rbytes x <= rsize x /\ rbytes x + Z.of_nat (length (inbox x)) < 2 ^ 30 ->
  (forall n' x', (length (events x') < length (events x))%nat -> Forall benign (events x') -> Forall (eq true) (reallocs x') -> 0 < rsize x' /\ rbytes x' <= rsize x' /\ rbytes x' + Z.of_nat (length (inbox x')) < 2 ^ 30 ->
    network_ok READ_DATA_RECEIVED (again n') x') ->
  network_ok got (network_round again got n) x.
Proof.
  intros Hg Hb Hr Hs Hagain. unfold network_ok, network_round. apply wp_bind. eapply wp_mono; [by apply make_room_spec |]. intros [[g|] n'] x1 (F & Hev & Hroom); cbn [fst snd] in *.
  { apply wp_ret. exists []. split; [done |]. destruct Hroom as [-> ->]. destruct Hg as [->|[_ ?]]; [right; by auto | done]. }
  apply wp_bind, wp_gets, wp_bind. pose proof F as [A1 A2 A3 A4 A5 A6 A7 A8 A9 A10 A11]. rewrite app_nil_r in A5. cbn [app] in A6.
  assert (Hnone : forall b x', fetched x b x' -> b = [] -> (events x = [] \/ (length (events x') < length (events x))%nat) -> found got x got b x').
  { intros b x' _ -> He. destruct Hg as [->|[-> _]]; [right; by auto | left; by auto]. }
  apply sys_read_spec; [done | lia | | |].
  - intros E. apply wp_ret. exists []. split; [done |]. apply Hnone; [done | done | left; congruence].
  - intros e l E Hi. apply wp_ret. exists []. assert (Fx : fetched x [] (set_events l x1)).
    { rewrite E in A7. apply Forall_cons in A7 as [_ A7].
      assert (Hu : (nbytes (events x) <= nbytes l + 0 + match inbox x1 with [] => 1 | _ => 0 end)%nat).
      { rewrite <- Hev. destruct Hi as [Hi|Hi]; [rewrite Hi, E; pose proof (nbytes_cons e l); lia | rewrite Hi; lia]. }
      constructor; cbn [ms mc proto sent rbuf inbox events reallocs rsize set_events]; try done; [by rewrite app_nil_r | rewrite <- Hev, E; simpl; lia]. }
    split; [exact Fx |]. apply Hnone; [done | done | right; cbn [events set_events]; rewrite <- Hev, E; simpl; lia].
  - intros k l b i E Ei Hbn Hlen. apply wp_bind, wp_modify. set (x2 := set_rbuf _ _).
    assert (Hlt : (length (events x2) < length (events x))%nat) by (unfold x2; cbn [events set_rbuf set_inbox set_events]; rewrite <- Hev, E; simpl; lia).
    assert (Hrb : rbytes x2 = rbytes x1 + Z.of_nat (length b)) by (unfold rbytes, x2; cbn [rbuf set_rbuf set_inbox set_events]; rewrite length_app; lia).
    assert (Fx : fetched x b x2 /\ (nbytes (events x) <= nbytes (events x2) + length b)%nat).
    { assert (Hb2 : (nbytes (events x) <= nbytes (events x2) + length b)%nat).
      { unfold x2; cbn [events set_rbuf set_inbox set_events]. rewrite <- Hev, E. destruct b; [done |]. simpl. lia. }
      assert (Hin : length (inbox x1) = (length b + length i)%nat) by by rewrite Ei, length_app.
      rewrite E in A7. apply Forall_cons in A7 as [_ A7]. split; [|exact Hb2].
      constructor; unfold x2 in *; cbn [ms mc proto sent rbuf inbox events reallocs rsize set_rbuf set_inbox set_events] in *; try done; [by rewrite A5 | by rewrite A6 | lia | lia | lia]. }
    destruct Fx as [Fx Hn2]. destruct (Z.eqb_spec (Z.of_nat (length b)) (rsize x1 - rbytes x1)) as [Hfull|_].
    + eapply wp_mono; [apply (Hagain n' x2 Hlt); apply Fx |]. intros r x3 (b3 & F3 & H3). exists (b ++ b3). split; [by eapply fetched_trans |].
      right. pose proof (fe_length _ _ _ F3). destruct H3 as [(-> & Hd & _)|[-> _]]; [discriminate Hd |]. split; [done |]. right. split; [by destruct b | lia].
    + apply wp_ret. exists b. split; [done |]. right. by auto.
Qed.
Lemma network_loop_spec fuel : forall got n x, (length (events x) <= fuel)%nat -> got = READ_DATA_RECEIVED \/ got = READ_NO_DATA_RECEIVED /\ n <> 4 ->
  Forall benign (events x) -> Forall (eq true) (reallocs x) -> 0 < rsize x /\ rbytes x <= rsize x /\ rbytes x + Z.of_nat (length (inbox x)) < 2 ^ 30 -> network_ok got (network_loop fuel got n) x.
Proof.
  induction fuel as [|fuel IH]; intros got n x Hf Hg Hb Hr Hs; apply network_round_spec; try done; intros n' x' Hlt Hb' Hr' Hs'; [lia |].
  apply IH; [lia | by left | done | done | done].
Qed.

(** * The rounds *)

Lemma work_events x x' n n' : (length (rbuf x') + length (inbox x') <= length (rbuf x) + length (inbox x))%nat -> (length (events x') < length (events x))%nat -> (work x' n' <= work x n)%nat.
Proof. intros H1 H2. unfold work. pose proof (rank_le x' n'). lia. Qed.
Lemma out_after x x' b (out : list ascii) : fetched x b x' -> (b = [] -> inbox x = [] -> out = []) ->
  (lasts -> (length (inbox x) + length out + match inbox x with [] => 0 | _ => 1 end <= nbytes (events x))%nat) ->
  (lasts -> (length (inbox x') + length out + match inbox x' with [] => 0 | _ => 1 end <= nbytes (events x'))%nat).
Proof.
  intros F Ho H L. specialize (H L). pose proof (fe_used _ _ _ F) as Hu. pose proof (fe_inbox _ _ _ F) as Hi. rewrite Hi, length_app in H.
  destruct b as [|a b]; cbn [app length] in *.
  - destruct (inbox x') as [|y i] eqn:E; [rewrite Ho by done; simpl; lia |]. simpl in *. lia.
  - destruct (inbox x'); simpl in *; lia.
Qed.

Lemma step_waiting_ok x n : live x -> state (mc x) = conn_waiting -> wp (drive_step n) x (stepped n x).
Proof.
  intros [(f & out & Hc & Ht & He) L2 L3 L4 L5 L6 L7 [T1 T2 T3 T4]] St. unfold Conn.drive_step, conn_get. apply wp_bind, wp_gets. rewrite St. cbv zeta. unfold step_waiting.
  apply wp_bind, wp_bind, wp_go, wp_ret, wp_ret. split; cbn [fst].
  - constructor; try done.
    + exists f, out. split; [|by split]. rewrite <- Hc. change (bytes_left _) with (bytes_left x). apply idle_idle; [done | by rewrite St | by destruct (mc x)].
    + destruct L5 as [L5|(L5 & _ & L8)]; [by left | right; split; [done | split; [by left | done]]].
    + intros _. apply L6. by left.
    + constructor; try done; cbn [put_cs mc set_state state c_item noreply]; intros; [apply T3 | apply T4]; by rewrite St.
  - split; [done |]. unfold over, work, rank. cbn [put_cs mc set_state state events rbuf inbox snd fst]. rewrite St. destruct (events x); [done |]. lia.
Qed.

Lemma step_read_ok x n : live x -> state (mc x) = conn_read -> wp (drive_step n) x (stepped n x).
Proof.
  intros [(f & out & Hc & Ht & He) L2 L3 L4 L5 L6 L7 [T1 T2 T3 T4]] St. unfold Conn.drive_step, conn_get. apply wp_bind, wp_gets. rewrite St. cbv zeta.
  pose proof (L6 (or_intror St)) as Hline.
  apply wp_bind. unfold step_read, try_read_network. apply wp_bind, wp_bind, wp_gets. eapply wp_mono; [apply network_loop_spec; [lia | by right | done | done | done] |].
  intros r x' (b & F & Hf). apply wp_bind. pose proof F as [A1 A2 A3 A4 A5 A6 A7 A8 A9 A10 A11].
  assert (Hout : b = [] -> inbox x = [] -> out = []).
  { intros -> Hi. assert (Hb : bytes_left x = rbuf x) by (unfold bytes_left; by rewrite Hi, app_nil_r). rewrite Hb in Hc.
    apply converse_idle in Hc as [_ Hc]; [|by rewrite St]. rewrite Hline in Hc. by destruct Hc. }
  assert (Hlive : forall st, idle st = true -> st <> conn_read -> (st = conn_waiting -> b = []) -> (st = conn_parse_cmd -> b <> []) -> live (put_cs (ms x', set_state st (mc x')) x')).
  { intros st Hst Hnr Hw Hp. assert (Hbl : bytes_left x' = bytes_left x) by (unfold bytes_left; by rewrite A5, A6, app_assoc).
    constructor; cbn [put_cs ms mc sent inbox events reallocs rsize fst snd]; try done.
    - exists f, out. split; [|split; [by rewrite A4 | by apply (out_after x x' b)]]. change (bytes_left (put_cs _ _)) with (bytes_left x').
      rewrite Hbl, A1, A2, <- Hc. apply idle_idle; [done | by rewrite St | by destruct (mc x)].
    - change (proto (put_cs _ _)) with (proto x'). change (bytes_left (put_cs _ _)) with (bytes_left x'). rewrite Hbl, A3. destruct L5 as [L5|(L5 & _ & L8)]; [by left | right; split; [done | split; [by left | done]]].
    - cbn [set_state state]. intros [E|E]; [|done]. change (rbuf (put_cs _ _)) with (rbuf x'). rewrite A5, (Hw E), app_nil_r. done.
    - cbn [set_state state]. intros E. change (rbytes (put_cs _ _)) with (rbytes x'). unfold rbytes. rewrite A5, length_app. specialize (Hp E). destruct b; [done |]. simpl. lia.
    - rewrite A2. constructor; try done; cbn [set_state state c_item noreply]; intros; [apply T3 | apply T4]; by rewrite St. }
  assert (Hlen : (length (rbuf x') + length (inbox x') = length (rbuf x) + length (inbox x))%nat) by (rewrite A5, A6, !length_app; lia).
  destruct Hf as [(-> & _ & Hb & Hev)|[-> [Hd|[Hb Hev]]]]; [| discriminate Hd |]; apply wp_go, wp_ret, wp_ret; (split; [apply Hlive; done |]); cbn [fst snd]; (split; [done |]);
    unfold work, rank; cbn [put_cs mc set_state state events rbuf inbox snd fst]; rewrite St.
  - destruct (events x) as [|e l] eqn:E; [destruct (events x'); [lia | simpl in A11; lia] |]. destruct Hev as [Hev|Hev]; [done |]. simpl in Hev. destruct (events x'); simpl in *; lia.
  - destruct (events x); simpl in Hev; [lia |]. simpl. lia.
Qed.

Lemma step_new_ok x n : live x -> state (mc x) = conn_new_cmd -> wp (drive_step n) x (stepped n x).
Proof.
  intros L St. pose proof L as [(f & out & Hc & Ht & He) L2 L3 L4 L5 L6 L7 T]. unfold Conn.drive_step, conn_get. apply wp_bind, wp_gets. rewrite St. cbv zeta. unfold step_new_cmd.
  assert (Hi : c_item (mc x) = None) by (apply (ti_item _ T); by rewrite St).
  destruct (Z.leb_spec 0 (n - 1)) as [Hn|Hn].
  - apply wp_bind. unfold reset_cmd_handler. apply wp_bind. eapply wp_on_conn; [by apply reset_settled |].
    set (x1 := put_cs _ x). apply wp_bind.
    assert (Hshrink : wp conn_shrink x1 (fun _ x' => exists l size, x' = set_rsize size (set_reallocs l x1) /\ Forall (eq true) l /\ 0 < size /\ rbytes x1 <= size)).
    { assert (Hsame : exists l size, x1 = set_rsize size (set_reallocs l x1) /\ Forall (eq true) l /\ 0 < size /\ rbytes x1 <= size)
        by (exists (reallocs x1), (rsize x1); split; [by destruct x1 | split; [done | split; apply L4]]).
      unfold conn_shrink. apply wp_bind, wp_gets. destruct (_ && _) eqn:Hs; [|by apply wp_ret]. apply andb_prop in Hs as [_ Hs%Z.ltb_lt].
      apply wp_bind, sys_realloc_spec; [done |]. intros l Hl. apply wp_modify. exists l, DATA_BUFFER_SIZE. split; [done |]. split; [done |]. unfold DATA_BUFFER_SIZE in *. lia. }
    eapply wp_mono; [exact Hshrink |]. intros _ x2 (l & size & -> & Hl & Hs1 & Hs2). apply wp_bind, wp_gets, wp_go, wp_ret.
    set (st := if _ : bool then _ else _). assert (Hst : idle st = true /\ st <> conn_read) by (unfold st; by destruct (_ <? _)).
    apply converse_new in Hc as (p & f' & Hp & Hc); [|done]. rewrite reset_settled in Hp by done. injection Hp as <-. cbn [fst snd] in Hc. split; cbn [fst snd].
    + assert (Hsz : 0 < size /\ rbytes x1 <= size /\ rbytes x1 + Z.of_nat (length (inbox x1)) < 2 ^ 30) by (split; [done | split; [done | apply L4]]).
      constructor; cbn [put_cs ms mc sent inbox events reallocs rsize fst snd set_rsize set_reallocs]; try done.
      * exists f', out. split; [|by split]. change (bytes_left (put_cs _ _)) with (bytes_left x). rewrite <- Hc. apply idle_idle; [apply Hst | done | done].
      * destruct L5 as [L5|(L5 & _ & L8)]; [by left | right; split; [done | split; [left; apply Hst | done]]].
      * intros [E|E]; [|by destruct Hst]. cbn [set_state state] in E. unfold st in E. change (rbytes (set_rsize _ _)) with (rbytes x) in E. destruct (Z.ltb_spec 0 (rbytes x)) as [|H0]; [done |].
        change (rbuf (put_cs _ _)) with (rbuf x). unfold rbytes in H0. destruct (rbuf x); [done | simpl in H0; lia].
      * intros E. cbn [set_state state] in E. unfold st in E. destruct (Z.ltb_spec 0 (rbytes (set_rsize size (set_reallocs l x1)))) as [H0|]; [exact H0 | done].
      * destruct T as [T1 T2 T3 T4]. constructor; try done; cbn [set_state set_cmd state c_item noreply]; intros; apply T4; by rewrite St.
    + split; [cbn [put_cs mc set_state state snd]; unfold st; by destruct (_ <? _) |]. unfold work, rank. cbn [put_cs mc set_state state events rbuf inbox snd fst set_rsize set_reallocs x1]. rewrite St, (proj2 (Z.leb_gt n 0)) by lia.
      unfold st. destruct (_ <? _); destruct (events x); lia.
  - apply wp_ret. split; cbn [fst snd]; [exact L |]. split; [unfold stopped; by rewrite St |]. intros _. unfold work, rank. rewrite St.
    rewrite (proj2 (Z.leb_le n 0)), (proj2 (Z.leb_gt reqs_per_event 0)) by lia. lia.
Qed.

(** A settled connection, with the conversation that is left. *)
Lemma live_settled x p ra f out :
  settled p.2 -> converse f (ra ++ inbox x) p = Ret out last -> total = sent x ++ out ->
  (lasts -> (length (inbox x) + length out + match inbox x with [] => 0 | _ => 1 end <= nbytes (events x))%nat) ->
  Forall benign (events x) -> Forall (eq true) (reallocs x) -> 0 < rsize x /\ Z.of_nat (length ra) <= rsize x /\ Z.of_nat (length ra) + Z.of_nat (length (inbox x)) < 2 ^ 30 -> proto x = ascii_prot ->
  live (set_rbuf ra (put_cs p x)).
Proof.
  intros [T (N1 & N2 & N3 & N4)] Hc Ht He H1 H2 H3 H4. constructor; try done.
  - exists f, out. by destruct p.
  - by left.
  - by intros [E|E].
Qed.
Lemma put_cs_same x s c : ms x = s -> mc x = c -> put_cs (s, c) x = x.
Proof. intros <- <-. by destruct x. Qed.
Lemma set_rbuf_same x : set_rbuf (rbuf x) x = x.
Proof. by destruct x. Qed.

Lemma step_parse_ok x n : live x -> state (mc x) = conn_parse_cmd -> wp (drive_step n) x (stepped n x).
Proof.
  intros [(f & out & Hc & Ht & He) L2 L3 L4 L5 L6 L7 T] St. specialize (L7 St). unfold Conn.drive_step, conn_get. apply wp_bind, wp_gets. rewrite St. cbv zeta.
  assert (Hi : c_item (mc x) = None) by (apply (ti_item _ T); by rewrite St). assert (Hno : noreply (mc x) = false) by (apply (ti_noreply _ T); by rewrite St).
  pose proof Hc as Hc0. apply converse_idle in Hc as [Hfits Hc]; [|by rewrite St]. replace (set_state conn_parse_cmd (mc x)) with (mc x) in Hc by (rewrite <- St; by destruct (mc x)).
  apply wp_bind. unfold step_parse_cmd, try_read_command. apply wp_bind, wp_bind, wp_gets. rewrite (proj2 (Z.leb_gt _ _)) by done.
  apply wp_bind, wp_gets, wp_bind, wp_gets. apply wp_bind. set (m := match proto x with negotiating_prot => _ | _ => _ end).
  set (x1 := set_proto ascii_prot x).
  assert (Hm : wp m x (fun _ x' => x' = x1)).
  { unfold m. destruct L5 as [E|(E & _ & Hb)]; rewrite E; [apply wp_ret; unfold x1; rewrite <- E; by destruct x | apply wp_modify].
    unfold rbytes in L7. unfold bytes_left in Hb. destruct (rbuf x) as [|a r]; [simpl in L7; lia |]. by rewrite (proj2 (Z.eqb_neq _ _)) by (by apply (Hb a (r ++ inbox x))). }
  eapply wp_mono; [exact Hm |]. intros _ x' ->. apply wp_bind, wp_gets. change (proto x1) with ascii_prot. cbv iota.
  destruct (split_line (rbuf x)) as [[line cont]|] eqn:Hs.
  - unfold bytes_left in Hc. rewrite (split_line_app _ (inbox x) _ _ Hs) in Hc. destruct Hc as (p & f' & Hp & Hc).
    apply wp_bind. eapply wp_on_conn; [exact Hp |]. apply wp_bind, wp_modify, wp_ret. apply wp_bind, wp_ret, wp_ret, wp_ret.
    pose proof (split_line_length _ _ _ Hs) as Hlen. assert (Hset : settled p.2).
    { eapply (wl_returns _ _ (fun _ p => settled p.2)); [|exact Hp]. apply command_tidy; [constructor; [apply T | apply T | done] | done]. }
    split; cbn [fst snd].
    + eapply (live_settled x1); try done; [change (rsize x1) with (rsize x); change (inbox x1) with (inbox x); unfold rbytes in L4; lia].
    + split; [apply Hset |]. set (x2 := set_rbuf cont _). pose proof (rank_le x2 n). assert (rank x n = 3%nat) by (unfold rank; by rewrite St). unfold work. change (rbuf x2) with cont. change (inbox x2) with (inbox x). change (events x2) with (events x). lia.
  - assert (Hgo : stepped n x (false, n) (put_cs (ms x1, set_state conn_waiting (mc x1)) x1)).
    { split; cbn [fst snd].
      - constructor; cbn [put_cs ms mc sent inbox events reallocs rsize fst snd x1 set_proto]; try done.
        + exists f, out. split; [|by split]. change (bytes_left (put_cs _ _)) with (bytes_left x).
          rewrite <- Hc0. apply idle_idle; [done | by rewrite St | by destruct (mc x)].
        + by left.
        + destruct T as [T1 T2 T3 T4]. by constructor.
      - split; [done |]. unfold work, rank. cbn [put_cs mc set_state state events rbuf inbox snd fst x1 set_proto]. rewrite St. destruct (events x); lia. }
    destruct (Z.ltb_spec 1024 (rbytes x)) as [Hlong|].
    + assert (Hl : exists l', long_get (rbuf x ++ l') = true).
      { unfold rbytes in Hlong. unfold fits, bytes_left in Hfits. destruct (split_line (rbuf x ++ inbox x)) as [[l r]|] eqn:E;
          [destruct (split_line_none_app _ _ _ _ Hs E) as (l' & -> & _); exists l' | exists (inbox x)];
          (apply orb_prop in Hfits as [Hf%Z.leb_le|Hf]; [rewrite length_app in Hf; lia | done]). }
      destruct Hl as [l' Hl]. apply long_get_app in Hl as [Hl1 Hl2]; [|unfold rbytes in Hlong; lia]. rewrite (proj2 (Nat.leb_gt _ _)) by done. rewrite Hl2. apply wp_ret, wp_bind, wp_go, wp_ret, wp_ret. exact Hgo.
    + apply wp_ret, wp_bind, wp_go, wp_ret, wp_ret. exact Hgo.
Qed.

(** The connection goes on in the same state. *)
Lemma live_same x p ra f out :
  tidy p.2 -> idle (state p.2) = false -> converse f (ra ++ inbox x) p = Ret out last -> total = sent x ++ out ->
  (lasts -> (length (inbox x) + length out + match inbox x with [] => 0 | _ => 1 end <= nbytes (events x))%nat) ->
  Forall benign (events x) -> Forall (eq true) (reallocs x) -> 0 < rsize x /\ Z.of_nat (length ra) <= rsize x /\ Z.of_nat (length ra) + Z.of_nat (length (inbox x)) < 2 ^ 30 -> proto x = ascii_prot ->
  live (set_rbuf ra (put_cs p x)).
Proof.
  intros T N Hc Ht He H1 H2 H3 H4. assert (Hn : forall st, idle st = true -> state p.2 <> st) by (intros st Hst E; rewrite E, Hst in N; discriminate N).
  constructor; try done.
  - exists f, out. by destruct p.
  - by left.
  - intros [E|E]; [destruct (Hn conn_waiting) | destruct (Hn conn_read)]; done.
  - intros E. destruct (Hn conn_parse_cmd); done.
Qed.
(** In these states the protocol is known. *)
Lemma live_ascii x : live x -> first_line x \/ proto x = ascii_prot.
Proof. intros [_ _ _ _ [H|(_ & H & _)] _ _ _]; [by right | by left]. Qed.

(** A read in the middle of a value, or of bytes that are swallowed. *)
Definition counted (out i : list ascii) (l : list io) : Prop := lasts -> (length i + length out + match i with [] => 0 | _ => 1 end <= nbytes l)%nat.
Lemma fetch_spec x m out : Forall benign (events x) -> 0 < m -> counted out (inbox x) (events x) -> (inbox x = [] -> out = []) ->
  wp (sys_read m) x (fun r x' => match r with
    | Eagain => exists l, x' = set_events l x /\ Forall benign l /\ counted out (inbox x) l /\ (events x = [] /\ l = [] \/ (length l < length (events x))%nat)
    | Got b => exists l i, x' = set_inbox i (set_events l x) /\ inbox x = b ++ i /\ Z.of_nat (length b) <= m /\ Forall benign l /\ counted out i l /\ (length l < length (events x))%nat
    | _ => False
    end).
Proof.
  intros Hb Hm He Ho. apply sys_read_spec; [done | done | | |].
  - intros E. exists []. split; [destruct x; simpl in E; by rewrite E | split; [done |]]. rewrite E in He. split; [done | by left].
  - intros e l E Hi. exists l. rewrite E in Hb. apply Forall_cons in Hb as [_ Hb]. split; [done |]. split; [done |]. split; [|right; rewrite E; simpl; lia].
    intros Hl. specialize (He Hl). destruct Hi as [Hi|Hi]; [rewrite Hi, Ho by done; simpl; lia | by rewrite <- Hi].
  - intros k l b i E Ei Hbn Hlen. exists l, i. rewrite E in Hb. apply Forall_cons in Hb as [_ Hb]. do 4 (split; [done |]). split; [|rewrite E; simpl; lia].
    intros Hl. specialize (He Hl). rewrite E, Ei in He. destruct b as [|a b]; [done |]. rewrite length_app in He. simpl in He. destruct i; simpl in *; lia.
Qed.

Lemma filled_0 c : filled 0 c = c.
Proof. destruct c. unfold filled, set_nread. simpl. f_equal; lia. Qed.
Lemma tidy_filled n c : tidy c -> tidy (filled n c).
Proof. intros [T1 T2 T3 T4]. by constructor. Qed.
Lemma step_nread_ok x n : live x -> state (mc x) = conn_nread -> wp (drive_step n) x (stepped n x).
Proof.
  intros L St. pose proof L as [(f & out & Hc & Ht & He) L2 L3 L4 _ L6 L7 T]. unfold Conn.drive_step, conn_get. apply wp_bind, wp_gets. rewrite St. cbv zeta.
  assert (L5 : proto x = ascii_prot) by (destruct (live_ascii x L) as [[H|H]|H]; [rewrite St in H; discriminate H | congruence | done]).
  apply wp_bind. unfold step_nread, conn_get. apply wp_bind, wp_gets. destruct (Z.eqb_spec (rlbytes (mc x)) 0) as [H0|H0]; [|destruct (Z.ltb_spec (rlbytes (mc x)) 0) as [Hneg|Hpos]].
  - (* the value is complete *)
    apply converse_nread in Hc; [|done]. rewrite H0 in Hc. cbn [Z.ltb Z.compare] in Hc. cbn [Z.to_nat take drop] in Hc. destruct Hc as (s' & Hf & Hc).
    change (Z.of_nat (length [])) with 0 in *. rewrite filled_0 in *. pose proof (fill_nil _ _ _ _ Hf) as E. injection E as ->. cbv zeta in Hc. rewrite H0, Z.eqb_refl in Hc. destruct Hc as (p & f' & Hp & Hc).
    pose proof (wl_returns _ _ _ _ _ (complete_settled hash lockable junk (ms x) (mc x) (ti_go _ T) (ti_sbytes _ T)) Hp) as [Hset Hst].
    apply wp_bind. eapply wp_on_conn; [exact Hp |]. apply wp_ret, wp_ret. rewrite <- (set_rbuf_same (put_cs p x)). change (rbuf (put_cs p x)) with (rbuf x). split; cbn [fst snd].
    + eapply live_settled; [done | exact Hc | done | exact He | done..].
    + split; [apply Hset |]. unfold work, rank. cbn [rbuf inbox events mc put_cs set_rbuf]. rewrite St. destruct Hst as [-> | ->]; [lia |]. destruct (n <=? 0); lia.
  - (* a length below zero *)
    apply converse_nread in Hc; [|done]. rewrite (proj2 (Z.ltb_lt _ _)) in Hc by done. destruct Hc as [f' Hc].
    apply wp_bind, wp_go, wp_ret, wp_ret. rewrite <- (set_rbuf_same (put_cs _ x)). change (rbuf (put_cs _ x)) with (rbuf x). split; cbn [fst snd].
    + eapply live_same; [| done | exact Hc | done | exact He | done..]. destruct T as [T1 T2 T3 T4]. by constructor.
    + split; [done |]. unfold work, rank. cbn [rbuf inbox events mc put_cs set_rbuf snd set_state state]. rewrite St. lia.
  - (* some of it from the buffer, then from the network *)
    apply wp_bind, wp_gets, wp_bind. set (k := Z.to_nat (if rlbytes (mc x) <? rbytes x then rlbytes (mc x) else rbytes x)).
    assert (Hk : Z.of_nat k <= rlbytes (mc x) /\ (k <= length (rbuf x))%nat) by (unfold k, rbytes; destruct (Z.ltb_spec (rlbytes (mc x)) (Z.of_nat (length (rbuf x)))); lia).
    set (a := take k (rbuf x)). assert (Ha : length a = k) by (unfold a; rewrite length_take; lia).
    assert (Hbl : bytes_left x = a ++ drop k (rbuf x) ++ inbox x) by (unfold bytes_left, a; by rewrite app_assoc, take_drop).
    rewrite Hbl in Hc. apply converse_filled in Hc as (s1 & Hfill & Hc); [|done | lia]. rewrite Ha in Hfill, Hc.
    set (c1 := filled (Z.of_nat k) (mc x)) in *. set (x1 := set_rbuf (drop k (rbuf x)) (put_cs (s1, c1) x)).
    assert (Hbuf : wp (if 0 <? rbytes x then
        b <- gets rbuf ;; on_conn (fill (take (Z.to_nat (if rlbytes (mc x) <? rbytes x then rlbytes (mc x) else rbytes x)) b)) ;;; modify (set_rbuf (drop (Z.to_nat (if rlbytes (mc x) <? rbytes x then rlbytes (mc x) else rbytes x)) b))
      else ret tt) x (fun _ x' => x' = x1)).
    { destruct (Z.ltb_spec 0 (rbytes x)) as [Hrb|Hrb].
      - apply wp_bind, wp_gets, wp_bind. fold k a. eapply wp_on_conn; [exact Hfill |]. by apply wp_modify.
      - apply wp_ret. unfold rbytes in Hrb. assert (Hnil : rbuf x = []) by (destruct (rbuf x); [done | simpl in Hrb; lia]).
        assert (k = 0%nat) as Hk0 by (rewrite Hnil in Hk; simpl in Hk; lia). unfold a in Hfill. rewrite Hk0 in Hfill. cbn [take] in Hfill.
        pose proof (fill_nil _ _ _ _ Hfill) as E. unfold x1. injection E as -> ->. rewrite put_cs_same by done. rewrite Hk0, drop_0. by rewrite set_rbuf_same. }
    eapply wp_mono; [exact Hbuf |]. intros _ x' ->. apply wp_bind, wp_gets.
    assert (Hc1 : state c1 = conn_nread) by done. assert (T1 : tidy c1) by (by apply tidy_filled). assert (Hr1 : rlbytes c1 = rlbytes (mc x) - Z.of_nat k) by done.
    change (mc x1) with c1. destruct (Z.eqb_spec (rlbytes c1) 0) as [Hz|Hz].
    + apply wp_ret, wp_ret. split; cbn [fst snd].
      * eapply live_same; [exact T1 | cbn [snd]; by rewrite Hc1 | exact Hc | done | exact He | done | done | | done]. rewrite length_drop. unfold rbytes in L4. lia.
      * split; [change (mc x1) with c1; by rewrite Hc1 |]. unfold work, rank. change (rbuf x1) with (drop k (rbuf x)). change (inbox x1) with (inbox x). change (events x1) with (events x). change (mc x1) with c1. rewrite St, Hc1, length_drop. lia.
    + assert (Hnil : drop k (rbuf x) = []).
      { apply drop_ge. unfold k, rbytes in *. destruct (Z.ltb_spec (rlbytes (mc x)) (Z.of_nat (length (rbuf x)))); lia. }
      apply wp_bind. eapply wp_mono; [apply (fetch_spec x1 (rlbytes c1) out); [done | lia | exact He |] |].
      { intros Hi. change (inbox x1) with (inbox x) in Hi. rewrite Hnil, Hi in Hc. cbn [app] in Hc. apply converse_nread in Hc; [|done]. rewrite (proj2 (Z.ltb_ge _ _)) in Hc by lia.
        rewrite take_nil in Hc. destruct Hc as (s2 & Hf2 & Hc). cbv zeta in Hc. change (Z.of_nat (length [])) with 0 in *. rewrite filled_0 in *.
        rewrite (proj2 (Z.eqb_neq _ _) Hz) in Hc. by destruct Hc. }
      intros r x' Hr. destruct r as [b| | |]; try done.
      * destruct Hr as (l & i & -> & Hi & Hlen & Hl & Hcnt & Hlt). change (inbox x1) with (inbox x) in Hi. rewrite Hnil, Hi in Hc. cbn [app] in Hc.
        apply converse_filled in Hc as (s2 & Hfill2 & Hc); [|done | lia]. apply wp_bind. eapply wp_on_conn; [exact Hfill2 |]. apply wp_ret, wp_ret.
        set (x3 := put_cs _ _). rewrite <- (set_rbuf_same x3). split; cbn [fst snd].
        -- eapply (live_same (set_inbox i (set_events l x1))); [by apply tidy_filled | cbn [snd filled set_nread state]; by rewrite Hc1 | change (rbuf x3) with (drop k (rbuf x)); rewrite Hnil; exact Hc | done | exact Hcnt | done | done | | done].
           change (rbuf x3) with (drop k (rbuf x)). rewrite Hnil. change (rsize (set_inbox i (set_events l x1))) with (rsize x). change (inbox (set_inbox i (set_events l x1))) with i. assert (length (inbox x) = (length b + length i)%nat) by by rewrite Hi, length_app. unfold rbytes in L4. simpl. lia.
        -- split; [change (state (mc x) <> conn_closed); by rewrite St |]. assert (rank x n = 8%nat) by (unfold rank; by rewrite St). unfold work. pose proof (rank_le (set_rbuf (rbuf x3) x3) n) as Hrk. revert Hrk. generalize (rank (set_rbuf (rbuf x3) x3) n). intros rk Hrk. change (rbuf (set_rbuf (rbuf x3) x3)) with (drop k (rbuf x)). change (events (set_rbuf _ x3)) with l. change (inbox (set_rbuf _ x3)) with i.
           change (events x1) with (events x) in Hlt. rewrite Hi, Hnil, length_app. simpl. lia.
      * destruct Hr as (l & -> & Hl & Hcnt & Hev). change (events x1) with (events x) in Hev. apply wp_ret, wp_ret. split; cbn [fst snd].
        -- change (set_events l x1) with (set_rbuf (drop k (rbuf x)) (put_cs (s1, c1) (set_events l x))).
           eapply (live_same (set_events l x)); [exact T1 | cbn [snd]; by rewrite Hc1 | exact Hc | done | exact Hcnt | done | done | | done]. rewrite Hnil. change (rsize (set_events l x)) with (rsize x). change (inbox (set_events l x)) with (inbox x). unfold rbytes in L4. simpl. lia.
        -- split; [unfold stopped; change (mc (set_events l x1)) with c1; rewrite Hc1; split; [exact Hnil | lia] |]. unfold over. change (mc (set_events l x1)) with c1. rewrite Hc1. cbn [events set_events].
           destruct Hev as [[_ ->]|Hev]; [done |]. intros _. assert (rank x n = 8%nat) by (unfold rank; by rewrite St). unfold work. pose proof (rank_le (set_events l x1) reqs_per_event) as Hrk. revert Hrk. generalize (rank (set_events l x1) reqs_per_event). intros rk Hrk. cbn [events set_events inbox x1 set_rbuf put_cs rbuf]. rewrite Hnil. simpl. lia.
Qed.

Lemma tidy_swallowed v c : 0 <= v -> tidy c -> tidy (set_sbytes v c).
Proof. intros Hv [T1 T2 T3 T4]. by constructor. Qed.
Lemma tidy_new c : tidy c -> state c = conn_swallow -> settled (set_state conn_new_cmd c).
Proof.
  intros [T1 T2 T3 T4] H. constructor; [|by split_and?]. constructor; try done; cbn [set_state c_item noreply state]; intros; [apply T3 | apply T4]; by rewrite H.
Qed.
Lemma step_swallow_ok x n : live x -> state (mc x) = conn_swallow -> wp (drive_step n) x (stepped n x).
Proof.
  intros L St. pose proof L as [(f & out & Hc & Ht & He) L2 L3 L4 _ L6 L7 T]. unfold Conn.drive_step, conn_get. apply wp_bind, wp_gets. rewrite St. cbv zeta.
  assert (L5 : proto x = ascii_prot) by (destruct (live_ascii x L) as [[H|H]|H]; [rewrite St in H; discriminate H | congruence | done]).
  pose proof (ti_sbytes _ T) as Hs0. apply wp_bind. unfold step_swallow, conn_get. apply wp_bind, wp_gets. destruct (Z.eqb_spec (sbytes (mc x)) 0) as [H0|H0].
  - apply converse_swallow in Hc; [|done]. cbv zeta in Hc. rewrite H0 in Hc. cbn [Z.to_nat take drop length Z.of_nat] in Hc. rewrite Z.sub_0_r in Hc.
    replace (set_sbytes 0 (mc x)) with (mc x) in Hc by (destruct (mc x); simpl in H0; by rewrite H0). rewrite H0, Z.eqb_refl in Hc. destruct Hc as [f' Hc].
    apply wp_bind, wp_go, wp_ret, wp_ret. rewrite <- (set_rbuf_same (put_cs _ x)). change (rbuf (put_cs _ x)) with (rbuf x). split; cbn [fst snd].
    + eapply live_settled; [by apply tidy_new | exact Hc | done | exact He | done..].
    + split; [done |]. unfold work, rank. cbn [rbuf inbox events mc put_cs set_rbuf snd set_state state]. rewrite St. destruct (n <=? 0); lia.
  - apply wp_bind, wp_gets. destruct (Z.ltb_spec 0 (rbytes x)) as [Hrb|Hrb].
    + set (t := if sbytes (mc x) <? rbytes x then sbytes (mc x) else rbytes x).
      assert (Hk : 0 < t <= sbytes (mc x) /\ (Z.to_nat t <= length (rbuf x))%nat) by (unfold t, rbytes in *; destruct (Z.ltb_spec (sbytes (mc x)) (Z.of_nat (length (rbuf x)))); lia).
      set (a := take (Z.to_nat t) (rbuf x)). assert (Ha : Z.of_nat (length a) = t) by (unfold a; rewrite length_take; lia).
      assert (Hbl : bytes_left x = a ++ drop (Z.to_nat t) (rbuf x) ++ inbox x) by (unfold bytes_left, a; by rewrite app_assoc, take_drop).
      rewrite Hbl in Hc. apply converse_swallowed in Hc; [|done | lia]. rewrite Ha in Hc. apply wp_bind. eapply wp_on_conn; [reflexivity |]. apply wp_bind, wp_modify, wp_ret, wp_ret.
      cbn [fst snd put_cs rbuf]. split; cbn [fst snd].
      * eapply live_same; [apply tidy_swallowed; [lia | done] | cbn [snd set_sbytes state]; by rewrite St | exact Hc | done | exact He | done | done | | done]. rewrite length_drop. unfold rbytes in L4. lia.
      * split; [change (state (mc x) <> conn_closed); by rewrite St |]. unfold work, rank. cbn [rbuf inbox events mc put_cs set_rbuf snd set_sbytes state]. rewrite St, length_drop. lia.
    + assert (Hnil : rbuf x = []) by (unfold rbytes in Hrb; destruct (rbuf x); [done | simpl in Hrb; lia]).
      apply wp_bind, wp_gets. set (m := if sbytes (mc x) <? rsize x then sbytes (mc x) else rsize x).
      assert (Hm : 0 < m <= sbytes (mc x)) by (unfold m; destruct (Z.ltb_spec (sbytes (mc x)) (rsize x)); lia).
      apply wp_bind. eapply wp_mono; [apply (fetch_spec x m out); [done | lia | exact He |] |].
      { intros Hi. unfold bytes_left in Hc. rewrite Hnil, Hi in Hc. cbn [app] in Hc. apply converse_swallow in Hc; [|done]. cbv zeta in Hc. rewrite take_nil in Hc. cbn [length Z.of_nat set_sbytes sbytes] in Hc.
        rewrite Z.sub_0_r, (proj2 (Z.eqb_neq _ _) H0) in Hc. by destruct Hc. }
      unfold bytes_left in Hc. intros r x' Hr. destruct r as [b| | |]; try done.
      * destruct Hr as (l & i & -> & Hi & Hlen & Hl & Hcnt & Hlt). rewrite Hnil, Hi in Hc. cbn [app] in Hc.
        apply converse_swallowed in Hc; [|done | lia]. apply wp_bind. eapply wp_on_conn; [reflexivity |]. apply wp_ret, wp_ret.
        set (x3 := put_cs _ _). rewrite <- (set_rbuf_same x3). change (rbuf x3) with (rbuf x). split; cbn [fst snd].
        -- eapply (live_same (set_inbox i (set_events l x))); [apply tidy_swallowed; [cbn [snd sbytes mc set_inbox set_events]; lia | done] | change (idle (state (mc x)) = false); by rewrite St | rewrite Hnil; exact Hc | done | exact Hcnt | done | done | | done].
           rewrite Hnil. change (rsize (set_inbox i (set_events l x))) with (rsize x). change (inbox (set_inbox i (set_events l x))) with i. assert (length (inbox x) = (length b + length i)%nat) by by rewrite Hi, length_app. unfold rbytes in L4. simpl. lia.
        -- split; [change (state (mc x) <> conn_closed); by rewrite St |]. unfold work, rank. change (state (mc (set_rbuf (rbuf x) x3))) with (state (mc x)). change (inbox (set_rbuf _ x3)) with i. change (events (set_rbuf _ x3)) with l. change (rbuf (set_rbuf (rbuf x) x3)) with (rbuf x).
           rewrite St, Hi, Hnil, length_app. simpl. lia.
      * destruct Hr as (l & -> & Hl & Hcnt & Hev). apply wp_ret, wp_ret. split; cbn [fst snd].
        -- rewrite <- (put_cs_same (set_events l x) (ms x) (mc x)), <- (set_rbuf_same (put_cs (ms x, mc x) _)) by done.
           eapply (live_same (set_events l x)); [exact T | cbn [snd]; by rewrite St | exact Hc | done | exact Hcnt | done | done | exact L4 | done].
        -- split; [unfold stopped; cbn [mc set_events rbuf]; rewrite St; split; [exact Hnil | lia] |]. unfold over. cbn [mc set_events events]. rewrite St.
           destruct Hev as [[_ ->]|Hev]; [done |]. intros _. unfold work, rank. cbn [events set_events inbox rbuf mc]. rewrite St. lia.
Qed.

Lemma step_write_ok x n : live x -> state (mc x) = conn_write \/ state (mc x) = conn_mwrite -> wp (drive_step n) x (stepped n x).
Proof.
  intros L St. pose proof L as [(f & out & Hc & Ht & He) L2 L3 L4 _ L6 L7 T]. unfold Conn.drive_step, conn_get. apply wp_bind, wp_gets.
  assert (L5 : proto x = ascii_prot) by (destruct (live_ascii x L) as [[H|H]|H]; [destruct St as [St|St]; rewrite St in H; discriminate H | destruct St; congruence | done]).
  assert (Hm : wp step_write x (fun b x' => stepped n x (b, n) x')).
  { unfold step_write. apply wp_bind. unfold transmit, conn_get. apply wp_bind, wp_gets. destruct (wbuf (mc x)) as [|a w] eqn:Hw.
    - apply wp_ret. apply converse_write in Hc as (p & f' & out' & Hp & Hc & ->); [|done]. replace (set_wbuf [] (mc x)) with (mc x) in Hp by (destruct (mc x); simpl in Hw; by rewrite Hw).
      rewrite Hw in *. cbn [app] in *. pose proof (wl_returns _ _ _ _ _ (answered_settled (ms x) (mc x) T St) Hp) as [Hset Hst].
      apply wp_bind. eapply wp_on_conn; [exact Hp |]. apply wp_ret. rewrite <- (set_rbuf_same (put_cs p x)). change (rbuf (put_cs p x)) with (rbuf x). split; cbn [fst snd].
      + eapply live_settled; [done | exact Hc | done | exact He | done..].
      + split; [apply Hset |]. unfold work, rank. cbn [rbuf inbox events mc put_cs set_rbuf]. destruct St as [-> | ->]; (destruct Hst as [-> |[-> | ->]]; [destruct (n <=? 0); lia | lia | lia]).
    - apply wp_bind, next_event_spec; [done | |].
      + intros E. apply wp_ret, wp_ret. split; [exact L |]. cbn [fst]. split; [unfold stopped; destruct St as [-> | ->]; by rewrite Hw |].
        unfold over. rewrite E. destruct St as [-> | ->]; done.
      + intros e l E Hbe. rewrite E in L2. apply Forall_cons in L2 as [_ L2]. destruct e as [|k| |]; try done.
        * apply wp_ret, wp_ret. split; cbn [fst snd].
          -- rewrite <- (put_cs_same (set_events l x) (ms x) (mc x)), <- (set_rbuf_same (put_cs (ms x, mc x) _)) by done.
             eapply (live_same (set_events l x)); [exact T | cbn [snd]; by destruct St as [-> | ->] | exact Hc | done | rewrite E in He; exact He | done | done | exact L4 | done].
          -- split; [unfold stopped; cbn [mc set_events]; destruct St as [-> | ->]; by rewrite Hw |]. intros _. unfold work, rank. cbn [events set_events inbox rbuf mc]. rewrite E. destruct St as [-> | ->]; simpl; lia.
        * set (m := Nat.max 1 k). eapply (converse_sent _ _ _ _ _ _ _ _ _ _ (take m (a :: w)) (drop m (a :: w))) in Hc as (out' & -> & Hc); [|done | by rewrite Hw, take_drop].
          apply wp_bind, wp_modify, wp_bind. eapply wp_on_conn; [reflexivity |]. apply wp_ret, wp_ret. set (x3 := put_cs _ _). rewrite <- (set_rbuf_same x3). change (rbuf x3) with (rbuf x). split; cbn [fst snd].
          -- eapply (live_same (set_sent (sent x ++ take m (a :: w)) (set_events l x))); [destruct T as [T1 T2 T3 T4]; by constructor | change (idle (state (mc x)) = false); by destruct St as [-> | ->] | exact Hc | cbn [sent set_sent]; by rewrite <- app_assoc | | done | done | exact L4 | done].
             intros Hl. specialize (He Hl). rewrite E, length_app, length_take in He. cbn [inbox events set_sent set_events nbytes length] in *. unfold m in He. lia.
          -- split; [change (state (mc x) <> conn_closed); by destruct St as [-> | ->] |]. unfold work, rank. change (state (mc (set_rbuf (rbuf x) x3))) with (state (mc x)). change (inbox (set_rbuf _ x3)) with (inbox x). change (events (set_rbuf _ x3)) with l. change (rbuf (set_rbuf (rbuf x) x3)) with (rbuf x). rewrite E. destruct St as [-> | ->]; simpl; lia. }
  destruct St as [-> | ->]; cbv zeta; apply wp_bind; (eapply wp_mono; [exact Hm |]); intros b x' Hb; by apply wp_ret.
Qed.

Lemma step_closing_ok x n : live x -> state (mc x) = conn_closing -> wp (drive_step n) x (stepped n x).
Proof.
  intros L St. pose proof L as [(f & out & Hc & Ht & He) L2 L3 L4 _ L6 L7 T]. unfold Conn.drive_step, conn_get. apply wp_bind, wp_gets. rewrite St. cbv zeta.
  assert (L5 : proto x = ascii_prot) by (destruct (live_ascii x L) as [[H|H]|H]; [rewrite St in H; discriminate H | congruence | done]).
  apply converse_closing in Hc as [Hcl ->]; [|done].
  assert (Hside : last.2 = set_state conn_closed (set_ilist [] (set_item None (mc x)))).
  { assert (W : wl conn_close (ms x, mc x) (fun _ p => p.2 = set_state conn_closed (set_ilist [] (set_item None (mc x))))).
    { unfold conn_close. apply wl_bind. eapply wl_mono; [apply release_side |]. intros _ [s' c'] E. cbn [snd] in E. subst c'. by apply wl_conn_set. }
    exact (wl_returns _ _ _ _ _ W Hcl). }
  apply wp_bind, wp_bind. eapply wp_on_conn; [exact Hcl |]. apply wp_ret, wp_ret. rewrite <- (set_rbuf_same (put_cs last x)). change (rbuf (put_cs last x)) with (rbuf x). split; cbn [fst snd].
  - eapply (live_same x last (rbuf x) 0 []); [| by rewrite Hside | | done | exact He | done | done | exact L4 | done].
    + rewrite Hside. destruct T as [T1 T2 T3 T4]. by constructor.
    + destruct last as [s' c']. cbn [snd] in Hside. apply converse_now_closed. by rewrite Hside.
  - split; [unfold stopped; cbn [mc set_rbuf put_cs]; by rewrite Hside |]. unfold over. cbn [mc set_rbuf put_cs]. rewrite Hside. done.
Qed.

(** * The loops *)

Lemma step_ok x n : live x -> state (mc x) <> conn_closed -> wp (drive_step n) x (stepped n x).
Proof.
  intros L Hcl. destruct (state (mc x)) eqn:St; try done;
    [by apply step_new_ok | by apply step_waiting_ok | by apply step_read_ok | by apply step_parse_ok | by apply step_write_ok; auto | by apply step_nread_ok
    | by apply step_swallow_ok | by apply step_closing_ok | by apply step_write_ok; auto |].
  destruct (lv_out _ L) as (f & out & Hc & _). by rewrite converse_elsewhere in Hc.
Qed.
Lemma drive_ok fuel : forall n x, live x -> state (mc x) <> conn_closed -> (work x n <= fuel)%nat ->
  wp (drive_machine hash lockable junk process_started opts stale_errno fuel n) x (fun _ x' => live x' /\ stopped x' /\ (over x' = false -> (work x' reqs_per_event < work x n)%nat)).
Proof.
  induction fuel as [|fuel IH]; intros n x L Hcl Hw; cbn [Conn.drive_machine]; apply wp_bind; (eapply wp_mono; [by apply step_ok |]);
    intros [[] n'] x' [L' Hs]; cbn [fst snd] in *; try (by apply wp_ret); [lia |].
  destruct Hs as [Hcl' Hs]. eapply wp_mono; [apply IH; [done | done | lia] |].
  intros _ x2 (L2 & S2 & W2). split; [done |]. split; [done |]. intros Ho. specialize (W2 Ho). lia.
Qed.
Lemma event_loop_ok fuel : forall x, live x -> stopped x -> (work x reqs_per_event <= fuel)%nat ->
  wp (event_loop hash lockable junk process_started opts stale_errno reqs_per_event fuel) x (fun _ x' => live x' /\ stopped x' /\ over x' = true).
Proof.
  induction fuel as [|fuel IH]; intros x L S Hw; cbn [Conn.event_loop]; apply wp_bind, wp_gets; (destruct (over x) eqn:Ho; [by apply wp_ret |]);
    (assert (Hcl : state (mc x) <> conn_closed) by (intros E; unfold over in Ho; rewrite E in Ho; discriminate Ho)).
  - exfalso. unfold work, rank in Hw. unfold over in Ho. unfold stopped in S. destruct (state (mc x)); try done; simpl in Ho; destruct (events x); simpl in *; try lia; try discriminate Ho.
    case_match; lia.
  - apply wp_bind, wp_gets, wp_bind. pose proof (rank_le x reqs_per_event). eapply wp_mono; [apply drive_ok; [done | done | unfold work; lia] |].
    intros _ x1 (L1 & S1 & W1). destruct (over x1) eqn:Ho1; [|apply IH; [done | done | specialize (W1 eq_refl); lia]].
    destruct fuel; cbn [Conn.event_loop]; apply wp_bind, wp_gets; rewrite Ho1; by apply wp_ret.
Qed.

(** ** Where it ends *)

Lemma finished x : live x -> over x = true -> stopped x -> exists out, total = sent x ++ out /\ (lasts -> out = [] /\ ms x = last.1).
Proof.
  intros [(f & out & Hc & Ht & He) L2 L3 L4 L5 L6 L7 T] Ho S. exists out. split; [done |]. intros Hl. specialize (He Hl). unfold stopped in S. unfold over in Ho.
  destruct (state (mc x)) eqn:St; try done; cbn [bool_decide] in Ho;
    try (apply converse_closed in Hc as [-> ->]; [by split | done]);
    (assert (Hev : events x = []) by (destruct (events x); [done | discriminate Ho])); rewrite Hev in *; cbn [nbytes] in He;
    (assert (Hin : inbox x = []) by (destruct (inbox x); [done | simpl in He; lia])); (assert (Hout : out = []) by (destruct out; [done | simpl in He; lia]));
    rewrite Hin, Hout in *; unfold bytes_left in Hc; rewrite Hin, app_nil_r in Hc; (split; [done |]).
  - assert (Hr : rbuf x = []). { unfold rbytes in Ho. destruct (rbuf x); [done |]. discriminate Ho. }
    apply converse_new in Hc as (p & f' & Hp & Hc); [|done]. rewrite reset_settled in Hp by (apply (ti_item _ T); by rewrite St). injection Hp as <-.
    apply converse_idle in Hc as [_ Hc]; [|done]. rewrite Hr in Hc. cbn [split_line] in Hc. destruct Hc as [_ ->]. done.
  - apply converse_idle in Hc as [_ Hc]; [|by rewrite St]. rewrite (L6 (or_intror eq_refl)) in Hc. destruct Hc as [_ ->]. done.
  - apply converse_write in Hc as (p & f' & out' & _ & _ & E); [|by left]. by destruct (wbuf (mc x)).
  - destruct S as [Hr Hpos]. rewrite Hr in Hc. apply converse_nread in Hc; [|done]. rewrite (proj2 (Z.ltb_ge _ _)) in Hc by lia. rewrite take_nil in Hc.
    change (Z.of_nat (length [])) with 0 in Hc. rewrite filled_0 in Hc. destruct Hc as (s' & Hf & Hc). cbv zeta in Hc. rewrite (proj2 (Z.eqb_neq _ _)) in Hc by lia. destruct Hc as [_ ->].
    pose proof (fill_nil _ _ _ _ Hf) as E. by injection E as ->.
  - destruct S as [Hr Hpos]. rewrite Hr in Hc. apply converse_swallow in Hc; [|done]. cbv zeta in Hc. rewrite take_nil in Hc. cbn [length Z.of_nat set_sbytes sbytes] in Hc.
    rewrite Z.sub_0_r, (proj2 (Z.eqb_neq _ _)) in Hc by lia. destruct Hc as [_ ->]. done.
  - apply converse_write in Hc as (p & f' & out' & _ & _ & E); [|by right]. by destruct (wbuf (mc x)).
Qed.
End Machine.

(** However what the client sends arrives and whatever the network takes of the
    answers at a time, what is sent is the beginning of the answers to all of it; it is
    all of them once the network has moved bytes often enough, and the store is then
    what it is after all of it. *)
Lemma any_arrival hash lockable junk process_started opts stale_errno reqs_per_event f s input out last ev re fuel :
  0 < reqs_per_event -> converse hash lockable junk process_started opts stale_errno f input (s, conn_new) = Ret out last ->
  Forall benign ev -> Forall (eq true) re -> (forall a b, input = a :: b -> uchar a <> 128) -> Z.of_nat (length input) < 2 ^ 30 -> (8 * (length input + length ev) + 8 <= fuel)%nat ->
  wp (event_loop hash lockable junk process_started opts stale_errno reqs_per_event fuel) (connect s input ev re)
    (fun _ x => exists rest, out = sent x ++ rest /\ ((length input + length out < nbytes ev)%nat -> rest = [] /\ ms x = last.1)).
Proof.
  intros Hq Hc Hev Hre Hin Hsz Hf. set (lasts := (length input + length out < nbytes ev)%nat).
  assert (L : live hash lockable junk process_started opts stale_errno out last lasts (connect s input ev re)).
  { constructor; try done.
    - exists f, out. split; [exact Hc |]. split; [done |]. unfold lasts. cbn [connect inbox events]. destruct input; simpl; lia.
    - right. split; [done |]. split; [by right | exact Hin].
    - constructor; try done. by left. }
  eapply wp_mono; [apply (event_loop_ok _ _ _ _ _ _ _ Hq _ _ _ fuel _ L); [done |] |].
  - unfold work, rank. cbn [connect rbuf inbox events mc conn_new state length]. destruct (reqs_per_event <=? 0); lia.
  - intros _ x (L' & S & Ho). by apply (finished hash lockable junk process_started opts stale_errno out last lasts).
Qed.
