(* ===== verification/WireThm.v ===== *)
(** Requests in the text protocol: what a client writes as words and numbers is what
    the server reads; what it writes for a request is served as the request, and the
    connection is then ready for the next one. *)
From S2P Require Import Prelude CStr CDec Assoc Store Slabs Items StoreCmd Proto Conn ConnThm AllocThm CacheSpec CacheRun ProtoThm.
Local Open Scope Z_scope.

(** * Words *)

Definition word (w : list ascii) : Prop := w <> [] /\ SP ∉ w.
#[export] Instance word_dec w : Decision (word w).
Proof. unfold word. apply _. Defined.
Fixpoint unwords (l : list (list ascii)) : list ascii :=
  match l with [] => [] | w :: l => match l with [] => w | _ => w ++ SP :: unwords l end end.

Lemma unwords_cons w w' l : unwords (w :: w' :: l) = w ++ SP :: unwords (w' :: l).
Proof. done. Qed.
Lemma elem_unwords c l : c ∈ unwords l -> c = SP \/ Exists (fun w => c ∈ w) l.
Proof.
  induction l as [|w [|w' l] IH]; [by intros ?%not_elem_of_nil | intros H; right; by left |]. rewrite unwords_cons, elem_of_app, elem_of_cons.
  intros [H|[->|H]]; [right; by left | by left |]. destruct (IH H) as [->|He]; [by left | right; by right].
Qed.
Lemma unwords_length l : Forall word l -> (length l <= length (unwords l))%nat.
Proof.
  intros H. induction H as [|w l [Hw _] H IH]; [done |]. destruct w as [|a w]; [done |]. destruct l; simpl in *; [lia |]. rewrite length_app. simpl in *. lia.
Qed.

Lemma token_loop_word w text cur room : SP ∉ w -> token_loop (w ++ text) cur room = token_loop text (cur ++ w) room.
Proof.
  revert cur. induction w as [|a w IH]; intros cur; cbn [app]; [by rewrite app_nil_r |]. rewrite not_elem_of_cons. intros [H1 H2]. cbn [token_loop].
  destruct (Ascii.eqb_spec a SP); [done |]. rewrite IH by done. by rewrite <- app_assoc.
Qed.
Lemma token_loop_words l n : Forall word l -> token_loop (unwords l) [] (S n) = (take (S n) l, unwords (drop (S n) l)).
Proof.
  intros H. revert n. induction H as [|w l [Hw Hs] H IH]; intros n; [done |]. destruct l as [|w' l].
  - cbn [unwords]. rewrite <- (app_nil_r w) at 1. rewrite token_loop_word by done. cbn [app token_loop]. destruct w as [|a w]; [done |]. simpl. by destruct n.
  - rewrite unwords_cons, token_loop_word by done. cbn [app token_loop]. change (SP =c SP) with true. cbn match. destruct w as [|a w]; [done |]. destruct n as [|n]; [done |].
    rewrite IH. done.
Qed.
Lemma tokenize_words l : Forall word l -> tokenize_command (unwords l) = (take 7 l, unwords (drop 7 l)).
Proof. apply token_loop_words. Qed.
Lemma tokenize_line l : Forall word l -> (length l <= 7)%nat -> tokenize_command (unwords l) = (l, []).
Proof. intros H Hl. by rewrite tokenize_words, take_ge, drop_ge by done. Qed.
Lemma more_keys_words fuel : forall l, Forall word l -> (length l <= fuel)%nat -> more_keys fuel (unwords l) = l.
Proof.
  induction fuel as [|fuel IH]; intros l H Hl; [destruct l; [done | simpl in Hl; lia] |].
  destruct l as [|w l]; [done |]. assert (Hne : unwords (w :: l) <> []) by (pose proof (unwords_length _ H) as E; destruct (unwords (w :: l)); [simpl in E; lia | done]).
  cbn [more_keys]. destruct (unwords (w :: l)) as [|a u] eqn:E; [done |]. rewrite <- E, tokenize_words by done. cbn [fst snd].
  rewrite IH; [by rewrite take_drop | by apply Forall_drop | rewrite length_drop; lia].
Qed.
(** The words of a line of any length come back. *)
Lemma words_come_back l : Forall word l -> let r := tokenize_command (unwords l) in r.1 ++ more_keys (length r.2) r.2 = l.
Proof.
  intros H. cbv zeta. rewrite tokenize_words by done. cbn [fst snd]. rewrite more_keys_words; [by rewrite take_drop | by apply Forall_drop |].
  apply unwords_length. by apply Forall_drop.
Qed.

(** * Lines *)

Lemma split_line_at line rest : LF ∉ line -> split_line (line ++ LF :: rest) = Some (line, rest).
Proof.
  induction line as [|a line IH]; [done |]. rewrite not_elem_of_cons. intros [H1 H2]. cbn [app split_line]. destruct (Ascii.eqb_spec a LF); [congruence |]. by rewrite IH.
Qed.
Lemma command_of_cr u : u <> [] -> NUL ∉ u -> command_of (u ++ [CR]) = u.
Proof.
  intros Hu Hn. unfold command_of, ends_cr. rewrite last_snoc, length_app. change (CR =c CR) with true. rewrite (proj2 (Z.ltb_lt _ _)) by (destruct u; [done | simpl; lia]).
  cbn [andb]. rewrite removelast_last. by apply cstr_id.
Qed.

(** * Numbers *)

Lemma digits_end l rest : forallb isdigit l = true -> match rest with c :: _ => isdigit c = false | [] => True end -> digits 0 (l ++ rest) = digits 0 l.
Proof. intros H Hr. rewrite digits_app by done. generalize (digits 0 l). intros z. destruct rest as [|c rest]; [done |]. simpl. by rewrite Hr. Qed.
Lemma skip_digits_end l rest : forallb isdigit l = true -> match rest with c :: _ => isdigit c = false | [] => True end -> skip_digits (l ++ rest) = rest.
Proof.
  intros H Hr. induction l as [|c l IH]; cbn [app].
  - destruct rest as [|c rest]; [done |]. cbn [skip_digits]. by rewrite Hr.
  - simpl in H. apply andb_prop in H as [Hc H]. cbn [skip_digits]. rewrite Hc. by apply IH.
Qed.
(** The decimal of a number in a token, or before the NUL that ends it. *)
Definition ended (rest : list ascii) : Prop := match rest with c :: _ => isdigit c = false | [] => True end.
Lemma strtoull_dec fuel n rest : (0 < fuel)%nat -> 0 <= n < 10 ^ Z.of_nat fuel -> ended rest -> strtoull (dec_go fuel n [] ++ rest) = Some (false, n, rest).
Proof.
  intros Hf Hn Hr. pose proof (dec_go_digits fuel n [] ltac:(lia) eq_refl) as Hd. pose proof (digits_dec_go fuel n [] Hn) as Hv. simpl in Hv.
  destruct (dec_go_head fuel n []) as (c & l & E); [lia |]. rewrite E in *. pose proof Hd as Hall. simpl in Hd. apply andb_prop in Hd as [Hc _].
  destruct (isdigit_not c Hc) as (Hsp & Hm & Hp & _). unfold strtoull. cbn [app skip_space]. rewrite Hsp, (proj2 (Ascii.eqb_neq _ _) Hm), (proj2 (Ascii.eqb_neq _ _) Hp), Hc.
  change (c :: l ++ rest) with ((c :: l) ++ rest). by rewrite digits_end, skip_digits_end, Hv by done.
Qed.
Lemma strtoull_minus fuel n rest : (0 < fuel)%nat -> 0 <= n < 10 ^ Z.of_nat fuel -> ended rest -> strtoull ("-"%char :: dec_go fuel n [] ++ rest) = Some (true, n, rest).
Proof.
  intros Hf Hn Hr. pose proof (dec_go_digits fuel n [] ltac:(lia) eq_refl) as Hd. pose proof (digits_dec_go fuel n [] Hn) as Hv. simpl in Hv.
  destruct (dec_go_head fuel n []) as (c & l & E); [lia |]. rewrite E in *. pose proof Hd as Hall. simpl in Hd. apply andb_prop in Hd as [Hc _].
  unfold strtoull. cbn [skip_space app]. change (isspace "-"%char) with false. cbn match. change ("-"%char =c "-"%char) with true. cbn match. rewrite Hc.
  change (c :: l ++ rest) with ((c :: l) ++ rest). by rewrite digits_end, skip_digits_end, Hv by done.
Qed.

Definition int32 (n : Z) : Prop := - 2 ^ 31 <= n < 2 ^ 31.
Lemma strtoull_int n : int32 n -> strtoull (show_int n) = Some (n <? 0, Z.abs n, []).
Proof.
  unfold int32. intros H. unfold show_int, dec. destruct (Z.ltb_spec n 0).
  - rewrite <- (app_nil_r (dec_go _ _ _)), strtoull_minus by (simpl; lia). do 2 f_equal. f_equal. lia.
  - rewrite <- (app_nil_r (dec_go _ _ _)), strtoull_dec by (simpl; lia). do 2 f_equal. f_equal. lia.
Qed.
Lemma safe_strtol_int n : int32 n -> safe_strtol (show_int n) = Some n.
Proof.
  intros H. unfold safe_strtol. rewrite strtoull_int by done. unfold int32 in H. set (l := if n <? 0 then - Z.abs n else Z.abs n).
  assert (l = n) as -> by (unfold l; destruct (Z.ltb_spec n 0); lia). rewrite (proj2 (Z.ltb_ge _ _)), (proj2 (Z.leb_gt _ _)) by lia. cbn [orb ends_well]. by rewrite i32_small by lia.
Qed.
Lemma strtol_int n : int32 n -> strtol (show_int n) = (n, false).
Proof.
  intros H. unfold strtol. rewrite strtoull_int by done. unfold int32 in H. set (l := if n <? 0 then - Z.abs n else Z.abs n).
  assert (l = n) as -> by (unfold l; destruct (Z.ltb_spec n 0); lia). rewrite (proj2 (Z.ltb_ge _ _)), (proj2 (Z.leb_gt _ _)) by lia. cbn [orb]. f_equal. unfold clamp64. lia.
Qed.
Lemma safe_strtoul_u32 n : 0 <= n < 2 ^ 32 -> safe_strtoul (show_u64 n) = Some n.
Proof.
  intros H. unfold safe_strtoul, show_u64. rewrite <- (app_nil_r (dec_go _ _ _)), strtoull_dec by (simpl; lia). cbn match.
  rewrite (proj2 (Z.leb_gt (2 ^ 64) n)), (proj2 (Z.leb_gt (2 ^ 63) n)) by lia. cbn [ends_well andb]. by rewrite u32_small by lia.
Qed.
Lemma strchr_minus_dec l : forallb isdigit l = true -> strchr_minus (l ++ [NUL]) = Some false.
Proof.
  induction l as [|c l IH]; [done |]. simpl. intros [Hc H]%andb_prop. destruct (isdigit_not c Hc) as (_ & Hm & _ & _ & _ & _ & Hn).
  rewrite (proj2 (Ascii.eqb_neq _ _) Hm), (proj2 (Ascii.eqb_neq _ _) Hn). by apply IH.
Qed.
Lemma safe_strtoull_u64 n s : 0 <= n < 2 ^ 64 -> safe_strtoull (show_u64 n ++ [NUL]) s = Ret (Some n) s.
Proof.
  intros H. unfold safe_strtoull, show_u64. rewrite strtoull_dec by (lia || done || (change (10 ^ Z.of_nat 20) with 100000000000000000000; lia)). rewrite (proj2 (Z.leb_gt (2 ^ 64) n)) by lia. unfold bind at 1, get_or_undef at 1. cbn [head].
  change (isspace NUL || (NUL =c NUL)) with true. cbv iota zeta. destruct (2 ^ 63 <=? n); [|done]. unfold bind, get_or_undef. rewrite strchr_minus_dec; [done |]. apply dec_go_digits; [lia | done].
Qed.

(** What a number is written with. *)
Definition numeral (l : list ascii) : Prop := l <> [] /\ Forall (fun c => c = "-"%char \/ isdigit c = true) l.
Lemma numeral_dec_go fuel n : (0 < fuel)%nat -> 0 <= n -> numeral (dec_go fuel n []).
Proof.
  intros Hf Hn. split; [destruct (dec_go_head fuel n [] Hf) as (c & l & ->); done |]. pose proof (dec_go_digits fuel n [] Hn eq_refl) as Hd.
  apply List.Forall_forall. intros c Hc. right. by apply (proj1 (List.forallb_forall _ _) Hd).
Qed.
Lemma numeral_u64 n : 0 <= n -> numeral (show_u64 n).
Proof. apply numeral_dec_go. lia. Qed.
Lemma numeral_int n : numeral (show_int n).
Proof.
  unfold show_int. destruct (Z.ltb_spec n 0); [|apply numeral_dec_go; lia]. destruct (numeral_dec_go 10 (- n)) as [_ H1]; [lia | lia |].
  split; [done |]. constructor; [by left | done].
Qed.
Lemma numeral_no c l : numeral l -> c <> "-"%char -> isdigit c = false -> c ∉ l.
Proof. intros [_ H] H1 H2 Hc. rewrite List.Forall_forall in H. apply list_elem_of_In, H in Hc as [Hc|Hc]; congruence. Qed.
Lemma numeral_word l : numeral l -> word l.
Proof. intros H. split; [apply H | by apply numeral_no]. Qed.
Lemma named_numeral l a name : numeral l -> a <> "-"%char -> isdigit a = false -> named l (String a name) = false.
Proof.
  intros [Hl H] H1 H2. destruct l as [|c l]; [done |]. apply Forall_cons in H as [Hc _]. unfold named, lit. cbn [String.list_ascii_of_string strcmp].
  rewrite (proj2 (Ascii.eqb_neq c a)) by (intros ->; destruct Hc; congruence). apply Z.eqb_neq. intros E. assert (c = a) as -> by (apply uchar_inj; lia). destruct Hc; congruence.
Qed.

(** * Requests as text *)

Definition storage_name (comm : Z) : list ascii :=
  if comm =? NREAD_ADD then lit "add" else if comm =? NREAD_SET then lit "set" else if comm =? NREAD_REPLACE then lit "replace"
  else if comm =? NREAD_APPEND then lit "append" else if comm =? NREAD_PREPEND then lit "prepend" else lit "cas".
Definition words_of (r : request) : list (list ascii) :=
  match r with
  | Update comm key flags exptime vlen req _ =>
      [storage_name comm; key; show_u64 flags; show_int exptime; show_int vlen] ++ (if comm =? NREAD_CAS then [show_u64 req] else [])
  | Get return_cas keys => lit (if return_cas then "gets" else "get") :: keys
  | Remove key => [lit "delete"; key]
  | Touch key exptime => [lit "touch"; key; show_int exptime]
  | FlushAll exptime => lit "flush_all" :: (if exptime =? 0 then [] else [show_int exptime])
  | Tick _ => []
  end.
Definition payload (r : request) : list ascii := match r with Update _ _ _ _ _ _ data => data | _ => [] end.
Definition wire (r : request) : list ascii := unwords (words_of r) ++ [CR; LF] ++ payload r.
(** The answer as it is sent. *)
Definition spoken (r : request) (a : list ascii) : list ascii := match r with Get _ _ => a | _ => a ++ [CR; LF] end.

(** Keys that can be written. *)
Definition key_ok (k : list ascii) : Prop := word k /\ (LF ∉ k) /\ (NUL ∉ k) /\ Z.of_nat (length k) <= KEY_MAX_LENGTH.
#[export] Instance key_ok_dec k : Decision (key_ok k).
Proof. unfold key_ok. apply _. Defined.
#[export] Instance int32_dec n : Decision (int32 n).
Proof. unfold int32. apply _. Defined.
(** Requests that a client can write: the numbers fit what they are read into, the
    data is as long as it says, and the server does not refuse flush_all. *)
Definition wireable (flush_enabled : bool) (r : request) : Prop :=
  match r with
  | Update comm key flags exptime vlen req data =>
      NREAD_ADD <= comm <= NREAD_CAS /\ key_ok key /\ 0 <= flags < 2 ^ 32 /\ int32 exptime /\ 0 <= vlen < 2 ^ 31 - 2 /\ (0 <= req < 2 ^ 64 /\ (comm <> NREAD_CAS -> req = 0)) /\
      Z.of_nat (length data) = vlen + 2
  | Get _ keys => keys <> [] /\ Forall key_ok keys
  | Remove key => key_ok key
  | Touch key exptime => key_ok key /\ int32 exptime
  | FlushAll exptime => flush_enabled = true /\ int32 exptime
  | Tick _ => False
  end.
#[export] Instance wireable_dec b r : Decision (wireable b r).
Proof. destruct r; unfold wireable; apply _. Defined.

(** ** The text of a request *)

Definition plain_word (w : list ascii) : Prop := word w /\ (LF ∉ w) /\ (NUL ∉ w).
Lemma key_plain k : key_ok k -> plain_word k.
Proof. unfold key_ok, plain_word. tauto. Qed.
Lemma numeral_plain l : numeral l -> plain_word l.
Proof. intros H. split; [by apply numeral_word |]. split; by apply numeral_no. Qed.
#[export] Instance plain_word_dec w : Decision (plain_word w).
Proof. unfold plain_word. apply _. Defined.
Lemma words_plain b r : wireable b r -> words_of r <> [] /\ Forall plain_word (words_of r).
Proof.
  destruct r as [comm key flags exptime vlen req data|rc keys|key|key exptime|exptime|now]; cbn [wireable words_of]; intros H.
  - destruct H as (Hc & Hk & Hf & He & Hv & (Hr & _) & _). split; [done |]. apply Forall_app. split.
    + rewrite !Forall_cons. split; [unfold storage_name; repeat case_match; by apply (bool_decide_unpack _) |].
      split; [by apply key_plain |]. split; [apply numeral_plain, numeral_u64; lia |]. split; [apply numeral_plain, numeral_int |]. split; [apply numeral_plain, numeral_int | done].
    + destruct (comm =? NREAD_CAS); [|done]. apply Forall_singleton, numeral_plain, numeral_u64. lia.
  - split; [done |]. destruct H as [_ H]. constructor; [destruct rc; apply (bool_decide_unpack _); by vm_compute |]. eapply Forall_impl; [exact H | apply key_plain].
  - split; [done |]. rewrite !Forall_cons. split; [by apply (bool_decide_unpack _) |]. split; [apply key_plain, H | done].
  - split; [done |]. rewrite !Forall_cons. split; [by apply (bool_decide_unpack _) |]. split; [apply key_plain, H |]. split; [apply numeral_plain, numeral_int | done].
  - split; [done |]. constructor; [apply (bool_decide_unpack _); by vm_compute |]. destruct (exptime =? 0); [done |]. apply Forall_singleton, numeral_plain, numeral_int.
  - done.
Qed.
Lemma plain_unwords l c : Forall plain_word l -> c = LF \/ c = NUL -> c ∉ unwords l.
Proof.
  intros H Hc Hin. apply elem_unwords in Hin as [E|E]; [destruct Hc as [-> | ->]; discriminate E |]. apply Exists_exists in E as (w & Hw & Hcw).
  rewrite List.Forall_forall in H. apply list_elem_of_In, H in Hw as (_ & H1 & H2). destruct Hc as [-> | ->]; done.
Qed.
Lemma plain_words l : Forall plain_word l -> Forall word l.
Proof. intros H. eapply Forall_impl; [exact H |]. by intros w [Hw _]. Qed.
Lemma unwords_not_nil l : l <> [] -> Forall plain_word l -> unwords l <> [].
Proof. intros Hl H%plain_words E. apply unwords_length in H. rewrite E in H. by destruct l; [|simpl in H; lia]. Qed.

(** Any line of a request can be served however it arrives. *)
Fixpoint text_size (l : list (list ascii)) : nat := match l with [] => 0 | w :: l => S (length w + text_size l) end.
Lemma unwords_le l : (length (unwords l) <= text_size l)%nat.
Proof. induction l as [|w [|w' l] IH]; [done | simpl; lia |]. rewrite unwords_cons, length_app. cbn [length text_size] in *. lia. Qed.
Lemma storage_name_length comm : (length (storage_name comm) <= 7)%nat.
Proof. unfold storage_name. repeat case_match; vm_compute; lia. Qed.
Lemma line_length b r : wireable b r -> match r with Get _ _ => True | _ => (length (unwords (words_of r)) <= 400)%nat end.
Proof.
  assert (Hu : forall n, (length (show_u64 n) <= 20)%nat) by (intros n; unfold show_u64; pose proof (dec_go_length 20 n []) as H; by rewrite Nat.add_0_r in H).
  assert (Hk : forall k, key_ok k -> (length k <= 250)%nat) by (intros k (_ & _ & _ & H); unfold KEY_MAX_LENGTH in H; lia).
  intros H. destruct r as [comm key flags exptime vlen req data|rc keys|key|key exptime|exptime|now]; cbn [wireable words_of] in *; try done; (etransitivity; [apply unwords_le |]).
  - destruct H as (_ & H & _). specialize (Hk _ H). pose proof (storage_name_length comm). pose proof (Hu flags). pose proof (Hu req). pose proof (show_int_length exptime). pose proof (show_int_length vlen).
    destruct (comm =? NREAD_CAS); cbn [app text_size]; lia.
  - specialize (Hk _ H). cbn [text_size]. change (length (lit "delete")) with 6%nat. lia.
  - destruct H as [H _]. specialize (Hk _ H). pose proof (show_int_length exptime). cbn [text_size]. change (length (lit "touch")) with 5%nat. lia.
  - pose proof (show_int_length exptime). change (length (lit "flush_all")) with 9%nat. destruct (exptime =? 0); cbn [text_size]; change (length (lit "flush_all")) with 9%nat; lia.
Qed.
Lemma words_line l rest : Forall plain_word l -> split_line (unwords l ++ [CR; LF] ++ rest) = Some (unwords l ++ [CR], rest).
Proof.
  intros Hp. replace (unwords l ++ [CR; LF] ++ rest) with ((unwords l ++ [CR]) ++ LF :: rest) by by rewrite <- app_assoc.
  apply split_line_at. rewrite not_elem_of_app. split; [apply plain_unwords; auto | by apply (bool_decide_unpack _)].
Qed.
Lemma short_fits l rest : Forall plain_word l -> (length (unwords l) <= 1023)%nat -> fits (unwords l ++ [CR; LF] ++ rest) = true.
Proof. intros Hp Hl. unfold fits. rewrite words_line by done. apply orb_true_intro. left. apply Z.leb_le. rewrite length_app. cbn [length]. lia. Qed.
Lemma wire_fits b r rest : wireable b r -> fits (unwords (words_of r) ++ [CR; LF] ++ rest) = true.
Proof.
  intros H. destruct (words_plain b r H) as [_ Hp]. pose proof (line_length b r H) as Hl.
  destruct r as [comm key flags exptime vlen req data|rc keys|key|key exptime|exptime|now]; cbn [wireable] in H; try done; try (apply short_fits; [done | lia]).
  unfold fits. rewrite words_line by done. apply orb_true_intro. right. destruct H as [Hk _]. destruct keys as [|k keys]; [done |]. cbn [words_of]. rewrite unwords_cons. by destruct rc.
Qed.
(** No request looks like the binary protocol. *)
Lemma wire_first b r : wireable b r -> exists a l, wire r = a :: l /\ uchar a <> 128.
Proof.
  intros H. destruct (words_plain b r H) as [Hn Hp]. destruct (words_of r) as [|w l] eqn:E; [done |].
  assert (Hw : exists a w', w = a :: w' /\ uchar a <> 128).
  { destruct r as [comm key flags exptime vlen req data|rc keys|key|key exptime|exptime|now]; cbn [words_of] in E; try done; injection E as <- _; try (destruct rc);
      unfold storage_name; repeat case_match; eexists _, _; (split; [reflexivity | vm_compute; congruence]). }
  destruct Hw as (a & w' & -> & Ha). unfold wire. rewrite E. exists a. destruct l as [|w2 l]; eexists; (split; [|exact Ha]); reflexivity.
Qed.

(** * The conversation, forwards *)

Section Machine.
Variable hash : list ascii -> Z.
Variable lockable : Z -> bool.
Variable junk : Z -> list ascii.
Variable process_started : Z.
Variable opts : options.
Variable stale_errno : bool.

Abbreviation converse := (converse hash lockable junk process_started opts stale_errno).
Abbreviation process_command := (process_command hash lockable junk process_started opts stale_errno).
Abbreviation complete_nread := (complete_nread hash lockable junk).
Abbreviation answer := (answer hash lockable junk process_started).

(** Between requests. *)
Record ready (c : side) : Prop := { rd_state : state c = conn_new_cmd; rd_item : c_item c = None; rd_noreply : noreply c = false; rd_ilist : ilist c = [] }.
(** At a command. *)
Definition at_command (c : side) : side := set_wbuf [] (set_state conn_parse_cmd (set_cmd (-1) c)).

(** The answer of a step, then the rest of the conversation. *)
Definition after (w : list ascii) (m : CS (list ascii)) : CS (list ascii) := out <- m ;; ret (w ++ out).

Lemma converse_line f s c line rest u : ready c -> split_line (u ++ rest) = Some (line, rest) -> fits (u ++ rest) = true ->
  converse (S (S f)) (u ++ rest) (s, c) = (process_command (command_of line) ;;; converse f rest) (s, set_state conn_parse_cmd (set_cmd (-1) c)).
Proof.
  intros [R1 R2 R3 R4] Hs Hf. cbn [Conn.converse]. unfold bind at 1, conn_is at 1, gets at 1. cbn [snd]. rewrite R1. unfold bind at 1. rewrite reset_settled by done.
  unfold bind at 1, conn_set at 1, modify at 1. cbn [fst snd]. unfold bind at 1, conn_is at 1, gets at 1. cbn [snd set_state state].
  unfold bind at 1, conn_set at 1, modify at 1. cbn [fst snd]. rewrite Hf, Hs. done.
Qed.
(** A line of words on a connection that is ready. *)
Lemma converse_words f l s c rest : l <> [] -> Forall plain_word l -> fits (unwords l ++ [CR; LF] ++ rest) = true -> ready c ->
  converse (S (S f)) (unwords l ++ [CR; LF] ++ rest) (s, c) = (process_command (unwords l) ;;; converse f rest) (s, set_state conn_parse_cmd (set_cmd (-1) c)).
Proof.
  intros Hl Hp Hf R. pose proof (words_line l rest Hp) as Hs. rewrite app_assoc in *. rewrite (converse_line _ _ _ _ _ _ R Hs Hf).
  by rewrite command_of_cr by ((by apply unwords_not_nil) || (apply plain_unwords; auto)).
Qed.
Lemma converse_request b f r s c rest : wireable b r -> ready c ->
  converse (S (S f)) (unwords (words_of r) ++ [CR; LF] ++ rest) (s, c) =
  (process_command (unwords (words_of r)) ;;; converse f rest) (s, set_state conn_parse_cmd (set_cmd (-1) c)).
Proof. intros H R. destruct (words_plain b r H) as [Hn Hp]. apply converse_words; [done | done | by apply (wire_fits b) | done]. Qed.
(** An answer is sent. *)
Lemma converse_says f rest s c : state c = conn_write -> converse (S f) rest (s, c) = after (wbuf c) (converse f rest) (s, set_state (write_and_go c) (set_wbuf [] c)).
Proof. intros H. cbn [Conn.converse]. unfold bind at 1, conn_is at 1, gets at 1. cbn [snd]. rewrite H. unfold bind at 1, conn_is at 1, gets at 1. cbn [snd].
  unfold bind at 1, conn_set at 1, modify at 1. cbn [fst snd]. unfold bind at 1, answered, bind at 1, conn_is, gets. cbn [snd set_wbuf state]. rewrite H. done.
Qed.
Lemma out_string_says str s c : noreply c = false -> (length str <= 2046)%nat ->
  out_string str (s, c) = Ret tt (s, set_write_and_go conn_new_cmd (set_state conn_write (set_wbuf (str ++ [CR; LF]) c))).
Proof.
  intros Hn Hl. unfold out_string, bind at 1, conn_is, gets. cbn [snd]. rewrite Hn. unfold DATA_BUFFER_SIZE. rewrite (proj2 (Z.ltb_ge _ _)) by lia. done.
Qed.
(** A command that only answers. *)
Lemma converse_told f rest s c c' s' (m : CS unit) a : ready c -> (length a <= 2046)%nat ->
  m (s, c') = out_string a (s', at_command c) ->
  exists c2, ready c2 /\ (m ;;; converse (S f) rest) (s, c') = after (a ++ [CR; LF]) (converse f rest) (s', c2).
Proof.
  intros [R1 R2 R3 R4] Ha Hm. eexists. split; [|unfold bind at 1; rewrite Hm, out_string_says by done; rewrite converse_says by done; reflexivity]. by constructor.
Qed.

(** ** The commands *)

Ltac enter := unfold Proto.process_command, bind at 1, conn_set at 1, modify at 1; cbn [fst snd].
Lemma delete_line key s c : key_ok key ->
  process_command (unwords [lit "delete"; key]) (s, c) = (r <- on_store (StoreCmd.process_delete_command hash key) ;; out_string r) (s, set_wbuf [] c).
Proof.
  intros H. enter. rewrite tokenize_line by (apply plain_words, (words_plain true (Remove key) H) || (simpl; lia)). cbv iota zeta.
  transitivity (process_delete_command hash [lit "delete"; key] (s, set_wbuf [] c)); [reflexivity |].
  unfold process_delete_command. unfold bind at 1. cbn [length ntokens Z.of_nat]. change (3 <? ntokens [lit "delete"; key]) with false. cbv iota. cbn [ret negb]. cbv beta iota.
  change (token [lit "delete"; key] 1) with key. rewrite (proj2 (Z.ltb_ge _ _)) by apply H. done.
Qed.
Lemma no_noreply ts s c : named (token ts (length ts - 1)) "noreply" = false -> set_noreply_maybe ts (s, c) = Ret (noreply c) (s, c).
Proof. intros H. unfold set_noreply_maybe. by rewrite H. Qed.
Lemma touch_line key exptime s c : key_ok key -> int32 exptime -> noreply c = false ->
  process_command (unwords [lit "touch"; key; show_int exptime]) (s, c) = (r <- on_store (StoreCmd.process_touch_command hash process_started key exptime) ;; out_string r) (s, set_wbuf [] c).
Proof.
  intros H He Hn. enter. rewrite tokenize_line by (apply plain_words, (words_plain true (Touch key exptime) (conj H He)) || (simpl; lia)). cbv iota zeta.
  transitivity (process_touch_command hash process_started [lit "touch"; key; show_int exptime] (s, set_wbuf [] c)); [reflexivity |].
  unfold process_touch_command. unfold bind at 1. rewrite no_noreply by by apply named_numeral; [apply numeral_int|..]. cbv beta iota.
  change (token [lit "touch"; key; show_int exptime] 1) with key. change (token [lit "touch"; key; show_int exptime] 2) with (show_int exptime).
  rewrite (proj2 (Z.ltb_ge _ _)) by apply H. by rewrite safe_strtol_int.
Qed.
Lemma flush_line exptime s c : flush_enabled opts = true -> int32 exptime -> noreply c = false -> exptime = 0 \/ stale_errno = false ->
  process_command (unwords (words_of (FlushAll exptime))) (s, c) = (r <- on_store (flush_all process_started exptime) ;; out_string r) (s, set_wbuf [] c).
Proof.
  intros Hf He Hn Hs. pose proof (proj2 (words_plain true (FlushAll exptime) (conj eq_refl He))) as Hw%plain_words. enter.
  rewrite tokenize_line by (done || (cbn [words_of]; destruct (exptime =? 0); simpl; lia)). cbv iota zeta. cbn [words_of]. destruct (Z.eqb_spec exptime 0) as [->|Hne].
  - transitivity (process_flush_all process_started opts stale_errno [lit "flush_all"] (s, set_wbuf [] c)); [reflexivity |].
    unfold process_flush_all. unfold bind at 1. rewrite no_noreply by reflexivity. cbv beta iota. rewrite Hf. change (noreply (set_wbuf [] c)) with (noreply c). rewrite Hn. done.
  - destruct Hs as [Hs|Hs]; [done |]. transitivity (process_flush_all process_started opts stale_errno [lit "flush_all"; show_int exptime] (s, set_wbuf [] c)); [reflexivity |].
    unfold process_flush_all. unfold bind at 1. rewrite no_noreply by (by apply named_numeral; [apply numeral_int|..]). cbv beta iota. rewrite Hf. change (noreply (set_wbuf [] c)) with (noreply c). rewrite Hn.
    change (token [lit "flush_all"; show_int exptime] 1) with (show_int exptime). rewrite strtol_int, Hs by done. done.
Qed.
Lemma get_line rc keys s c : keys <> [] -> Forall key_ok keys ->
  process_command (unwords (words_of (Get rc keys))) (s, c) =
  (r <- on_store (get_items hash rc keys) ;;
   match r.1 with
   | Some text => conn_set (fun c => set_state conn_mwrite (set_ilist r.2 (set_wbuf text c)))
   | None => on_store (conn_release_items (rev r.2)) ;;; out_string bad_line
   end) (s, set_wbuf [] c).
Proof.
  intros Hk Hf. pose proof (proj2 (words_plain true (Get rc keys) (conj Hk Hf))) as Hw%plain_words. enter. cbn [words_of] in *. rewrite tokenize_words by done.
  cbv iota zeta. set (n := ntokens _). set (rest := unwords _). assert (Hn : 3 <= n).
  { unfold n, ntokens. destruct keys; [done |]. simpl. lia. }
  transitivity (process_get_command hash (take 7 (lit (if rc then "gets" else "get") :: keys)) rest rc (s, set_wbuf [] c)).
  - rewrite (proj2 (Z.leb_le 3 n) Hn). change (token (take 7 (lit (if rc then "gets" else "get") :: keys)) 0) with (lit (if rc then "gets" else "get")).
    destruct rc; [|reflexivity]. change (named (lit "gets") "get" || named (lit "gets") "bget") with false. change (bool_decide (is_Some (update_comm (lit "gets")))) with false.
    change (named (lit "gets") "cas") with false. change (named (lit "gets") "incr") with false. rewrite !andb_false_r. reflexivity.
  - unfold process_get_command. cbn [tail take].
    replace (take 6 keys ++ more_keys (length rest) rest) with keys; [done |]. unfold rest. cbn [drop]. apply Forall_cons in Hw as [_ Hw].
    rewrite more_keys_words; [by rewrite take_drop | by apply Forall_drop | apply unwords_length; by apply Forall_drop].
Qed.
(** The line of a storage command: as far as the item the data is read into. *)
Definition quietly (nr : bool) : list (list ascii) := if nr then [lit "noreply"] else [].
Lemma quietly_plain nr : Forall plain_word (quietly nr).
Proof. destruct nr; [|done]. apply Forall_singleton. by apply (bool_decide_unpack _). Qed.
Lemma update_line nr comm key flags exptime vlen req data s c : wireable true (Update comm key flags exptime vlen req data) -> noreply c = false ->
  process_command (unwords (words_of (Update comm key flags exptime vlen req data) ++ quietly nr)) (s, c) =
  (r <- on_store (process_update hash lockable junk process_started key flags exptime vlen comm req) ;;
   match r with
   | inr msg => out_string msg ;;; conn_set (fun c => set_sbytes (vlen + 2) (set_write_and_go conn_swallow c))
   | inl it => conn_set (fun c => set_state conn_nread (set_cmd comm (set_nread 0 (vlen + 2) (set_item (Some it) c))))
   end) (s, set_noreply nr (set_wbuf [] c)).
Proof.
  intros H Hn. pose proof (proj2 (words_plain true _ H)) as Hp. assert (Hw : Forall word (words_of (Update comm key flags exptime vlen req data) ++ quietly nr)).
  { apply plain_words, Forall_app. split; [exact Hp | apply quietly_plain]. }
  destruct H as (Hc & Hk & Hf & He & Hv & [Hr Hr0] & Hd). enter.
  assert (Hl : (length (words_of (Update comm key flags exptime vlen req data) ++ quietly nr) <= 7)%nat) by (cbn [words_of]; destruct (comm =? NREAD_CAS), nr; simpl; lia).
  rewrite tokenize_line by done. cbv iota zeta. clear Hl Hw Hp. set (ts := words_of _ ++ _).
  transitivity (process_update_command hash lockable junk process_started ts comm (comm =? NREAD_CAS) (s, set_wbuf [] c)).
  { unfold ts, NREAD_ADD, NREAD_CAS in *. cbn [words_of]. assert (comm = 1 \/ comm = 2 \/ comm = 3 \/ comm = 4 \/ comm = 5 \/ comm = 6) as [-> |[-> |[-> |[-> |[-> | ->]]]]] by lia; by destruct nr. }
  assert (Hlast : named (token ts (length ts - 1)) "noreply" = nr).
  { unfold ts. cbn [words_of]. destruct nr; [by destruct (comm =? NREAD_CAS) |]. destruct (comm =? NREAD_CAS); (apply named_numeral; [|done..]); cbn; [apply numeral_u64; lia | apply numeral_int]. }
  assert (Ht : token ts 1 = key /\ token ts 2 = show_u64 flags /\ token ts 3 = show_int exptime /\ token ts 4 = show_int vlen) by (split_and?; reflexivity). destruct Ht as (T1 & T2 & T3 & T4).
  assert (Hset : set_noreply_maybe ts (s, set_wbuf [] c) = Ret nr (s, set_noreply nr (set_wbuf [] c))).
  { unfold set_noreply_maybe. rewrite Hlast. destruct nr; [done |]. unfold bind, ret, conn_is, gets. cbn [snd]. change (noreply (set_wbuf [] c)) with (noreply c). rewrite Hn. do 2 f_equal. unfold set_noreply. by rewrite <- Hn. }
  unfold process_update_command. unfold bind at 1. rewrite Hset. cbv beta iota. rewrite T1, T2, T3, T4, safe_strtoul_u32, !safe_strtol_int by (done || (unfold int32; lia)).
  unfold process_update. rewrite (proj2 (Z.ltb_ge _ _)) by apply Hk. cbv zeta. rewrite (i32_small (vlen + 2)) by lia.
  rewrite (proj2 (Z.ltb_ge (vlen + 2) 0)), (proj2 (Z.ltb_ge (vlen + 2 - 2) 0)) by lia. cbn [orb].
  unfold bind at 1. destruct (Z.eqb_spec comm NREAD_CAS) as [->|Hne].
  - unfold ts. cbn [words_of]. change (NREAD_CAS =? NREAD_CAS) with true. cbv iota. replace (token _ 5) with (show_u64 req) by reflexivity.
    rewrite (on_store_eq _ _ _ _ _ (safe_strtoull_u64 req s Hr)). done.
  - rewrite (Hr0 Hne). done.
Qed.

(** ** What is answered is short *)

Definition brief (m : SM (list ascii)) : Prop := forall s a s', m s = Ret a s' -> (length a <= 2046)%nat.
Lemma brief_ret a : (length a <= 2046)%nat -> brief (ret a).
Proof. intros H s b s' [= <- _]. done. Qed.
Lemma brief_bind {A} (m : SM A) k : (forall a, brief (k a)) -> brief (bind m k).
Proof. intros H s b s' E. apply bind_ret_inv in E as (a & s1 & _ & E). by apply (H a s1 b s'). Qed.
Ltac brief_tac := repeat first [apply brief_bind; intros | apply brief_ret; vm_compute; lia | match goal with |- brief (match ?x with _ => _ end) => destruct x end].
Lemma brief_complete it comm : brief (complete_nread_ascii hash lockable junk it comm).
Proof.
  unfold complete_nread_ascii. apply brief_bind. intros h. apply brief_bind. intros d. intros s a s' E. apply bind_ret_inv in E as (reply & s1 & E1 & E). apply bind_ret_inv in E as (u & s2 & _ & [= <- _]).
  destruct (bool_decide _) in E1; [|injection E1 as <- _; vm_compute; lia]. apply bind_ret_inv in E1 as ([[] o] & s3 & _ & [= <- _]); vm_compute; lia.
Qed.
Lemma brief_refused key flags exptime vlen comm req s msg s' : process_update hash lockable junk process_started key flags exptime vlen comm req s = Ret (inr msg) s' -> (length msg <= 2046)%nat.
Proof.
  unfold process_update. destruct (_ <? _); [intros [= <- _]; vm_compute; lia |]. destruct (_ || _); [intros [= <- _]; vm_compute; lia |].
  unfold update_item. intros E. apply bind_ret_inv in E as (rt & s1 & _ & E). apply bind_ret_inv in E as ([it|] & s2 & _ & E); [by apply bind_ret_inv in E as (u & s3 & _ & [= _]) |].
  apply bind_ret_inv in E as (ok & s3 & _ & E). apply bind_ret_inv in E as (u & s4 & _ & [= <- _]). destruct ok; vm_compute; lia.
Qed.
Lemma brief_delete key : brief (StoreCmd.process_delete_command hash key).
Proof. unfold StoreCmd.process_delete_command. brief_tac. Qed.
Lemma brief_touch key exptime : brief (StoreCmd.process_touch_command hash process_started key exptime).
Proof. unfold StoreCmd.process_touch_command. brief_tac. Qed.
Lemma brief_flush exptime : brief (flush_all process_started exptime).
Proof. unfold flush_all. brief_tac. Qed.

(** ** A request on the wire *)

Definition serves (r : request) (s : store) (c : side) (a : list ascii) (s' : store) : Prop :=
  exists n c', ready c' /\ forall f rest, converse (n + f) (wire r ++ rest) (s, c) = after (spoken r a) (converse f rest) (s', c').

Lemma wire_app r rest : wire r ++ rest = unwords (words_of r) ++ [CR; LF] ++ payload r ++ rest.
Proof. unfold wire. by rewrite <- !app_assoc. Qed.
(** Requests without data that are answered with a line. *)
Lemma serves_told r m s c a s' : wireable (flush_enabled opts) r -> payload r = [] -> spoken r a = a ++ [CR; LF] -> ready c -> brief m -> m s = Ret a s' ->
  process_command (unwords (words_of r)) (s, set_state conn_parse_cmd (set_cmd (-1) c)) = (r <- on_store m ;; out_string r) (s, at_command c) -> serves r s c a s'.
Proof.
  intros H Hp Hs R Hm Ha Hc. rewrite (bind_eq _ _ _ _ _ (on_store_eq m s _ a s' Ha)) in Hc.
  exists 3%nat. unfold serves. eexists. split; [|intros f rest; rewrite wire_app, Hp, Hs; cbn [app Nat.add]].
  2:{ change (CR :: LF :: rest) with ([CR; LF] ++ rest). rewrite (converse_request _ _ _ _ _ _ H R). unfold bind at 1. rewrite Hc, out_string_says by (apply R || by apply (Hm s a s')).
      rewrite converse_says by done. reflexivity. }
  destruct R. by constructor.
Qed.
Lemma serves_get rc keys s c a s' : wireable (flush_enabled opts) (Get rc keys) -> ready c -> answer (Get rc keys) s = Ret a s' -> serves (Get rc keys) s c a s'.
Proof.
  intros H R Ha. pose proof H as [Hk Hf]. cbn [CacheRun.answer] in Ha. unfold StoreCmd.process_get_command in Ha. apply bind_ret_inv in Ha as ([[text|] l] & s1 & Hg & Ha); cbn [fst snd] in Ha.
  - apply bind_ret_inv in Ha as ([] & s2 & Hr & [= <- <-]). eexists 3%nat, _. split; [|intros f rest; rewrite wire_app; cbn [payload app Nat.add spoken]].
    2:{ change (CR :: LF :: rest) with ([CR; LF] ++ rest). rewrite (converse_request _ _ _ _ _ _ H R). unfold bind at 1. rewrite get_line by done.
        rewrite (bind_eq _ _ _ _ _ (on_store_eq _ s _ _ _ Hg)). cbn [fst snd]. unfold conn_set at 1, modify at 1. cbn [fst snd].
        cbn [Conn.converse]. unfold bind at 1, conn_is at 1, gets at 1. cbn [snd set_state state]. unfold bind at 1, conn_is at 1, gets at 1. cbn [snd].
        unfold bind at 1, conn_set at 1, modify at 1. cbn [fst snd]. unfold bind at 1, answered, bind at 1, conn_is at 1, gets at 1. cbn [snd set_wbuf state]. rewrite bool_decide_eq_true_2 by done.
        unfold bind at 1, release_conn, bind at 1, conn_is at 1, gets at 1. cbn [snd c_item]. change (c_item _) with (c_item c). rewrite (rd_item _ R). unfold bind at 1, ret at 1. unfold bind at 1, conn_is at 1, gets at 1. cbn [snd].
        unfold bind at 1. change (ilist _) with l. rewrite (on_store_eq _ s1 _ _ _ Hr). reflexivity. }
    destruct R. by constructor.
  - apply bind_ret_inv in Ha as ([] & s2 & Hr & [= <- <-]). eexists 3%nat, _. split; [|intros f rest; rewrite wire_app; cbn [payload app Nat.add spoken]].
    2:{ change (CR :: LF :: rest) with ([CR; LF] ++ rest). rewrite (converse_request _ _ _ _ _ _ H R). unfold bind at 1. rewrite get_line by done.
        rewrite (bind_eq _ _ _ _ _ (on_store_eq _ s _ _ _ Hg)). cbn [fst snd]. rewrite (bind_eq _ _ _ _ _ (on_store_eq _ s1 _ _ _ Hr)).
        rewrite out_string_says by (apply R || (vm_compute; lia)). rewrite converse_says by done. reflexivity. }
    destruct R. by constructor.
Qed.
(** The data of an item. *)
Lemma converse_data f data rest s c it s2 : state c = conn_nread -> c_item c = Some it -> rlbytes c = Z.of_nat (length data) -> write_data it (ritem c) data s = Ret tt s2 ->
  converse (S f) (data ++ rest) (s, c) = (complete_nread ;;; converse f rest) (s2, filled (Z.of_nat (length data)) c).
Proof.
  intros H1 H2 H3 Hw. cbn [Conn.converse]. unfold bind at 1, conn_is at 1, gets at 1. cbn [snd]. rewrite H1. unfold bind at 1, conn_is at 1, gets at 1. cbn [snd]. rewrite H3, (proj2 (Z.ltb_ge _ _)) by lia.
  rewrite Nat2Z.id, take_app_length, drop_app_length. unfold bind at 1. rewrite (fill_eq _ s c it H2), Hw. unfold bind at 1, conn_is at 1, gets at 1. cbn [snd filled set_nread rlbytes]. rewrite H3, Z.sub_diag. reflexivity.
Qed.
Lemma complete_says it comm s c a s' : c_item c = Some it -> cmd c = comm -> noreply c = false -> complete_nread_ascii hash lockable junk it comm s = Ret a s' ->
  complete_nread (s, c) = Ret tt (s', set_item None (set_write_and_go conn_new_cmd (set_state conn_write (set_wbuf (a ++ [CR; LF]) c)))).
Proof.
  intros H1 H2 H3 Ha. unfold Proto.complete_nread, bind at 1, conn_is at 1, gets at 1. cbn [snd]. rewrite H1. unfold bind at 1, get_or_undef at 1. unfold bind at 1, conn_is at 1, gets at 1. cbn [snd]. rewrite H2.
  unfold bind at 1. rewrite (on_store_eq _ s _ _ _ Ha). unfold bind at 1. rewrite out_string_says by (done || by apply (brief_complete it comm s a s')). reflexivity.
Qed.
(** The data of an item that there is no place for. *)
Lemma converse_skips f data rest s c : state c = conn_swallow -> sbytes c = Z.of_nat (length data) ->
  converse (S f) (data ++ rest) (s, c) = converse f rest (s, set_state conn_new_cmd (set_sbytes 0 c)).
Proof.
  intros H1 H2. cbn [Conn.converse]. unfold bind at 1, conn_is at 1, gets at 1. cbn [snd]. rewrite H1. unfold bind at 1, conn_is at 1, gets at 1. cbn [snd]. rewrite H2.
  cbv zeta. rewrite Nat2Z.id, take_app_length, drop_app_length. unfold bind at 1, swallow, conn_set at 1, modify at 1. cbn [fst snd]. rewrite H2, Z.sub_diag. reflexivity.
Qed.
Lemma serves_update comm key flags exptime vlen req data s c a s' :
  let r := Update comm key flags exptime vlen req data in
  wireable (flush_enabled opts) r -> ready c -> answer r s = Ret a s' -> serves r s c a s'.
Proof.
  intros r H R Ha. pose proof H as H'. destruct H' as (_ & _ & _ & _ & Hv & _ & Hd).
  assert (Hline := update_line false comm key flags exptime vlen req data s (set_state conn_parse_cmd (set_cmd (-1) c)) H (rd_noreply _ R)). rewrite app_nil_r in Hline.
  cbn [CacheRun.answer r] in Ha. unfold update_command in Ha. apply bind_ret_inv in Ha as ([it|msg] & s1 & Hp & Ha).
  - rewrite (bind_eq _ _ _ _ _ (on_store_eq _ s _ _ _ Hp)) in Hline. apply bind_ret_inv in Ha as ([] & s2 & Hw & Ha). unfold nread in Hw. apply bind_ret_inv in Hw as (h & s3 & Hh & Hw).
    unfold hdr_of, get_or_undef in Hh. destruct (hdrs s1 !! it); [|done]. injection Hh as -> <-.
    apply bind_ret_inv in Hw as ([] & s4 & Has & Hw). unfold assert in Has. destruct (_ =? it_nbytes h) in Has; [|done]. injection Has as <-.
    pose proof (brief_complete it comm s2 a s' Ha) as Hb.
    eexists 4%nat, _. split; [|intros f rest; rewrite wire_app; cbn [payload r app Nat.add spoken]].
    2:{ change (CR :: LF :: data ++ rest) with ([CR; LF] ++ data ++ rest). rewrite (converse_request _ _ _ _ _ _ H R). unfold bind at 1. unfold r in *. rewrite Hline. unfold conn_set at 1, modify at 1. cbn [fst snd].
        rewrite (converse_data _ data rest s1 _ it s2) by (done || (cbn; lia)). unfold bind at 1. rewrite (complete_says it comm s2 _ a s') by (done || apply R). rewrite converse_says by done. reflexivity. }
    destruct R. by constructor.
  - injection Ha as <- <-. rewrite (bind_eq _ _ _ _ _ (on_store_eq _ s _ _ _ Hp)) in Hline. pose proof (brief_refused _ _ _ _ _ _ _ _ _ Hp) as Hb.
    rewrite (bind_eq _ _ _ _ _ (out_string_says msg s1 (set_noreply false (at_command c)) eq_refl Hb)) in Hline.
    eexists 4%nat, _. split; [|intros f rest; rewrite wire_app; cbn [payload r app Nat.add spoken]].
    2:{ change (CR :: LF :: data ++ rest) with ([CR; LF] ++ data ++ rest). rewrite (converse_request _ _ _ _ _ _ H R). unfold bind at 1. unfold r in *. rewrite Hline. unfold conn_set at 1, modify at 1. cbn [fst snd].
        rewrite converse_says by done. unfold after, bind at 1. rewrite converse_skips by (done || (cbn; lia)). reflexivity. }
    destruct R. by constructor.
Qed.
(** One request; all of them, one after the other. *)
Lemma serves_request r s c a s' : wireable (flush_enabled opts) r -> stale_errno = false -> ready c -> answer r s = Ret a s' -> serves r s c a s'.
Proof.
  intros H Hs R Ha. destruct r as [comm key flags exptime vlen req data|rc keys|key|key exptime|exptime|now]; [by apply serves_update | by apply serves_get | | | | done].
  - apply (serves_told _ (StoreCmd.process_delete_command hash key)); try done; [apply brief_delete | by apply delete_line].
  - destruct H as [H He]. apply (serves_told _ (StoreCmd.process_touch_command hash process_started key exptime)); try done; [apply brief_touch | apply touch_line; [done | done | apply R]].
  - destruct H as [H He]. apply (serves_told _ (flush_all process_started exptime)); try done; [apply brief_flush | apply flush_line; [done | done | apply R | auto]].
Qed.
Definition spoken_all (l : list request) (replies : list (list ascii)) : list ascii := concat (zip_with spoken l replies).
Lemma serve_all_wire l : forall s c replies s', Forall (wireable (flush_enabled opts)) l -> stale_errno = false -> ready c ->
  serve_all hash lockable junk process_started l s = Ret replies s' ->
  exists f c', converse f (concat (map wire l)) (s, c) = Ret (spoken_all l replies) (s', c').
Proof.
  induction l as [|r l IH]; intros s c replies s' H Hs R Ha; cbn [serve_all] in Ha.
  - injection Ha as <- <-. exists 1%nat, (set_state conn_parse_cmd (set_cmd (-1) c)). cbn [map concat spoken_all zip_with Conn.converse]. unfold bind at 1, conn_is at 1, gets at 1. cbn [snd]. rewrite (rd_state _ R).
    unfold bind at 1. rewrite reset_settled by apply R. reflexivity.
  - apply Forall_cons in H as [H1 H2]. apply bind_ret_inv in Ha as (a & s1 & Ha1 & Ha). apply bind_ret_inv in Ha as (b & s2 & Ha2 & [= <- <-]).
    destruct (serves_request r s c a s1 H1 Hs R Ha1) as (n & c1 & R1 & E). destruct (IH s1 c1 b s2 H2 Hs R1 Ha2) as (f & c2 & Ef). exists (n + f)%nat, c2.
    cbn [map concat]. rewrite E. unfold after. by rewrite (bind_eq _ _ _ _ _ Ef).
Qed.

(** ** Without an answer *)

Lemma quietly_fits comm key flags exptime vlen req data rest : let r := Update comm key flags exptime vlen req data in
  wireable true r -> fits (unwords (words_of r ++ quietly true) ++ [CR; LF] ++ rest) = true.
Proof.
  intros r H. pose proof (proj2 (words_plain true r H)) as Hp. apply short_fits; [apply Forall_app; split; [exact Hp | apply quietly_plain] |].
  pose proof H as (_ & (_ & _ & _ & Hk) & _). unfold KEY_MAX_LENGTH in Hk. etransitivity; [apply unwords_le |].
  assert (Hu : forall n, (length (show_u64 n) <= 20)%nat) by (intros n; unfold show_u64; pose proof (dec_go_length 20 n []) as Hd; by rewrite Nat.add_0_r in Hd).
  pose proof (storage_name_length comm). pose proof (Hu flags). pose proof (Hu req). pose proof (show_int_length exptime). pose proof (show_int_length vlen).
  unfold r. cbn [words_of quietly]. destruct (comm =? NREAD_CAS); cbn [app text_size]; change (length (lit "noreply")) with 7%nat; lia.
Qed.
(** A storage command that wants no answer: when the item is there its data is stored;
    when it is refused what follows the line is taken for commands. *)
Definition quiet_line (r : request) : list ascii := unwords (words_of r ++ quietly true) ++ [CR; LF].
Lemma quiet_update comm key flags exptime vlen req data s c : let r := Update comm key flags exptime vlen req data in
  wireable true r -> ready c ->
  match process_update hash lockable junk process_started key flags exptime vlen comm req s with
  | Ret (inl _) _ => forall a s', answer r s = Ret a s' -> exists c', ready c' /\ forall f rest, converse (3 + f) (quiet_line r ++ data ++ rest) (s, c) = converse f rest (s', c')
  | Ret (inr _) s' => exists c', ready c' /\ forall f rest, converse (2 + f) (quiet_line r ++ rest) (s, c) = converse f rest (s', c')
  | _ => True
  end.
Proof.
  intros r H R. pose proof (proj2 (words_plain true r H)) as Hp. pose proof (update_line true comm key flags exptime vlen req data s (set_state conn_parse_cmd (set_cmd (-1) c)) H (rd_noreply _ R)) as Hline.
  fold r in Hline. assert (Hl : words_of r ++ quietly true <> []) by by destruct (words_of r). assert (Hpl : Forall plain_word (words_of r ++ quietly true)) by (apply Forall_app; split; [exact Hp | apply quietly_plain]).
  assert (Hgo : forall f rest, converse (2 + f) (quiet_line r ++ rest) (s, c) = (process_command (unwords (words_of r ++ quietly true)) ;;; converse f rest) (s, set_state conn_parse_cmd (set_cmd (-1) c))).
  { intros f rest. unfold quiet_line. rewrite <- app_assoc. apply converse_words; [done | done | by apply quietly_fits | done]. }
  destruct (process_update _ _ _ _ _ _ _ _ _ _ s) as [[it|msg] s1| | |] eqn:Hpu; [| |done..]; rewrite (bind_eq _ _ _ _ _ (on_store_eq _ s _ _ _ Hpu)) in Hline.
  - intros a s' Ha. pose proof H as (_ & _ & _ & _ & Hv & _ & Hd). cbn [CacheRun.answer r] in Ha. unfold update_command in Ha. rewrite (bind_eq _ _ _ _ _ Hpu) in Ha.
    apply bind_ret_inv in Ha as ([] & s2 & Hw & Ha). unfold nread in Hw. apply bind_ret_inv in Hw as (h & s3 & Hh & Hw). unfold hdr_of, get_or_undef in Hh. destruct (hdrs s1 !! it); [|done]. injection Hh as -> <-.
    apply bind_ret_inv in Hw as ([] & s4 & Has & Hw). unfold assert in Has. destruct (_ =? it_nbytes h) in Has; [|done]. injection Has as <-.
    eexists. split; [|intros f rest; change (3 + f)%nat with (2 + S f)%nat; rewrite Hgo; unfold bind at 1; rewrite Hline; unfold conn_set at 1, modify at 1; cbn [fst snd];
      rewrite (converse_data _ data rest s1 _ it s2) by (done || (cbn; lia)); unfold bind at 1; unfold Proto.complete_nread, bind at 1, conn_is at 1, gets at 1; cbn [snd c_item filled set_nread set_state set_cmd set_item];
      unfold bind at 1, get_or_undef at 1, bind at 1, conn_is at 1, gets at 1; cbn [snd cmd filled set_nread set_state set_cmd set_item]; unfold bind at 1; rewrite (on_store_eq _ s2 _ _ _ Ha); reflexivity].
    destruct R. by constructor.
  - eexists. split; [|intros f rest; rewrite Hgo; unfold bind at 1; rewrite Hline; reflexivity]. destruct R. by constructor.
Qed.

(** ** Numbers that do not fit *)

(** The length of a value is cut to 32 bits. *)
Lemma safe_strtol_cut n : 0 <= n < 2 ^ 63 -> safe_strtol (show_u64 n) = Some (i32 n).
Proof.
  intros H. unfold safe_strtol, show_u64. rewrite <- (app_nil_r (dec_go _ _ _)), strtoull_dec by (done || lia || (change (10 ^ Z.of_nat 20) with 100000000000000000000; lia)). cbn match.
  rewrite (proj2 (Z.ltb_ge n _)), (proj2 (Z.leb_gt _ n)) by lia. done.
Qed.
Lemma cut_command comm key flags exptime n s c : comm <> NREAD_CAS ->
  let line t := unwords [storage_name comm; key; show_u64 flags; show_int exptime; t] in
  NREAD_ADD <= comm <= NREAD_CAS -> key_ok key -> 0 <= flags -> 0 <= n < 2 ^ 63 -> 
  process_command (line (show_u64 n)) (s, c) = process_command (line (show_int (i32 n))) (s, c).
Proof.
  intros Hne line Hc Hk Hf Hn. assert (Hw : forall t, numeral t -> Forall word [storage_name comm; key; show_u64 flags; show_int exptime; t]).
  { intros t Ht. rewrite !Forall_cons. split; [unfold storage_name; repeat case_match; by apply (bool_decide_unpack _) |]. split; [apply Hk |]. split; [by apply numeral_word, numeral_u64 |].
    split; [apply numeral_word, numeral_int |]. split; [by apply numeral_word | done]. }
  assert (H1 : numeral (show_u64 n)) by (apply numeral_u64; lia). pose proof (numeral_int (i32 n)) as H2.
  assert (Hgen : forall t, numeral t -> process_command (line t) (s, c) = process_update_command hash lockable junk process_started [storage_name comm; key; show_u64 flags; show_int exptime; t] comm false (s, set_wbuf [] c)).
  { intros t Ht. unfold line. enter. rewrite tokenize_line by (by apply Hw || (simpl; lia)). unfold NREAD_ADD, NREAD_CAS in *.
    assert (comm = 1 \/ comm = 2 \/ comm = 3 \/ comm = 4 \/ comm = 5) as [-> |[-> |[-> |[-> | ->]]]] by lia; reflexivity. }
  rewrite !Hgen by done. unfold process_update_command. unfold bind at 1. symmetry. unfold bind at 1. rewrite !no_noreply by (by apply named_numeral). cbv beta iota.
  assert (H4 : forall t, token [storage_name comm; key; show_u64 flags; show_int exptime; t] 4 = t) by done.
  rewrite !H4, safe_strtol_cut, safe_strtol_int by (done || exact (i32_range n)). reflexivity.
Qed.
Lemma cut_converse comm key flags exptime n f rest s c : comm <> NREAD_CAS ->
  let line t := unwords [storage_name comm; key; show_u64 flags; show_int exptime; t] in
  NREAD_ADD <= comm <= NREAD_CAS -> key_ok key -> 0 <= flags -> 0 <= n < 2 ^ 63 -> ready c ->
  converse (S (S f)) (line (show_u64 n) ++ [CR; LF] ++ rest) (s, c) = converse (S (S f)) (line (show_int (i32 n)) ++ [CR; LF] ++ rest) (s, c).
Proof.
  intros Hne line Hc Hk Hf Hn R. assert (Hgen : forall t, numeral t -> (length t <= 20)%nat ->
    converse (S (S f)) (line t ++ [CR; LF] ++ rest) (s, c) = (process_command (line t) ;;; converse f rest) (s, set_state conn_parse_cmd (set_cmd (-1) c))).
  { intros t Ht Hl. assert (Hp : Forall plain_word [storage_name comm; key; show_u64 flags; show_int exptime; t]).
    { rewrite !Forall_cons. split; [unfold storage_name; repeat case_match; by apply (bool_decide_unpack _) |]. split; [by apply key_plain |]. split; [by apply numeral_plain, numeral_u64 |].
      split; [apply numeral_plain, numeral_int |]. split; [by apply numeral_plain | done]. }
    apply converse_words; [done | done | apply short_fits; [done |] | done]. etransitivity; [apply unwords_le |]. pose proof (storage_name_length comm). pose proof (show_int_length exptime).
    pose proof (dec_go_length 20 flags []) as Hu. rewrite Nat.add_0_r in Hu. fold (show_u64 flags) in Hu. destruct Hk as (_ & _ & _ & Hk). unfold KEY_MAX_LENGTH in Hk. cbn [text_size]. lia. }
  rewrite !Hgen; [unfold bind at 1; symmetry; unfold bind at 1; unfold line; by rewrite cut_command by done | apply numeral_int | pose proof (show_int_length (i32 n)); lia | apply numeral_u64; lia |].
  pose proof (dec_go_length 20 n []) as Hu. by rewrite Nat.add_0_r in Hu.
Qed.
End Machine.
