(* ===== verification/Binary.v ===== *)
(** The binary protocol of the cache server (lib/memcached-1.4.25/memcached.c,
    protocol_binary.h): packets, the handler of each command, and what a connection
    sends when all the packets are there at once. *)
From S2P Require Import Prelude CStr CDec Assoc Store Slabs Items StoreCmd Proto Conn.
Local Open Scope Z_scope.

(** * Packets *)

(** Numbers in network byte order: htons, htonl and htonll of [n] bytes, and back. *)
Definition byte_of (z : Z) : ascii := ascii_of_N (Z.to_N (z mod 256)).
Fixpoint be (n : nat) (z : Z) : list ascii := match n with O => [] | S n => byte_of (Z.shiftr z (8 * Z.of_nat n)) :: be n z end.
Definition unbe (l : list ascii) : Z := fold_left (fun acc c => acc * 256 + uchar c) l 0.

(** protocol_binary_request_header; the reserved and opaque bytes stay as they are. *)
Record packet_header := PacketHeader {
  p_magic : Z; p_opcode : Z; p_keylen : Z; p_extlen : Z; p_datatype : Z; p_reserved : list ascii; p_bodylen : Z; p_opaque : list ascii; p_cas : Z
}.
Definition part (off n : nat) (l : list ascii) : list ascii := take n (drop off l).
Definition read_header (l : list ascii) : packet_header :=
  PacketHeader (unbe (part 0 1 l)) (unbe (part 1 1 l)) (unbe (part 2 2 l)) (unbe (part 4 1 l)) (unbe (part 5 1 l)) (part 6 2 l) (unbe (part 8 4 l)) (part 12 4 l) (unbe (part 16 8 l)).
Definition HEADER_SIZE : nat := 24.

Definition PROTOCOL_BINARY_REQ : Z := 128.
Definition PROTOCOL_BINARY_RES : Z := 129.
Definition SUCCESS : Z := 0.
Definition KEY_ENOENT : Z := 1.
Definition KEY_EEXISTS : Z := 2.
Definition E2BIG : Z := 3.
Definition EINVAL : Z := 4.
Definition RESPONSE_NOT_STORED : Z := 5.
Definition DELTA_BADVAL : Z := 6.
Definition AUTH_ERROR : Z := 32.
Definition UNKNOWN_COMMAND : Z := 129.
Definition ENOMEM : Z := 130.

Definition CMD_GET : Z := 0.
Definition CMD_SET : Z := 1.
Definition CMD_ADD : Z := 2.
Definition CMD_REPLACE : Z := 3.
Definition CMD_DELETE : Z := 4.
Definition CMD_INCREMENT : Z := 5.
Definition CMD_DECREMENT : Z := 6.
Definition CMD_QUIT : Z := 7.
Definition CMD_FLUSH : Z := 8.
Definition CMD_NOOP : Z := 10.
Definition CMD_VERSION : Z := 11.
Definition CMD_GETK : Z := 12.
Definition CMD_APPEND : Z := 14.
Definition CMD_PREPEND : Z := 15.
Definition CMD_STAT : Z := 16.
Definition CMD_TOUCH : Z := 28.
Definition CMD_GAT : Z := 29.
Definition CMD_SASL_LIST_MECHS : Z := 32.
Definition CMD_SASL_AUTH : Z := 33.
Definition CMD_SASL_STEP : Z := 34.
Definition CMD_GATK : Z := 35.
(** The command that a quiet one is; none for the others. *)
Definition loud (cmd : Z) : option Z :=
  if cmd =? 17 then Some CMD_SET else if cmd =? 18 then Some CMD_ADD else if cmd =? 19 then Some CMD_REPLACE else if cmd =? 20 then Some CMD_DELETE
  else if cmd =? 21 then Some CMD_INCREMENT else if cmd =? 22 then Some CMD_DECREMENT else if cmd =? 23 then Some CMD_QUIT else if cmd =? 24 then Some CMD_FLUSH
  else if cmd =? 25 then Some CMD_APPEND else if cmd =? 26 then Some CMD_PREPEND else if cmd =? 9 then Some CMD_GET else if cmd =? 13 then Some CMD_GETK
  else if cmd =? 30 then Some CMD_GAT else if cmd =? 36 then Some CMD_GATK else None.

(** * The connection *)

Inductive bin_substates :=
  | bin_no_state | bin_reading_set_header | bin_reading_cas_header | bin_read_set_value | bin_reading_get_key | bin_reading_stat | bin_reading_del_header
  | bin_reading_incr_header | bin_read_flush_exptime | bin_reading_sasl_auth | bin_reading_sasl_auth_data | bin_reading_touch_key.
#[export] Instance bin_substates_eq_dec : EqDecision bin_substates.
Proof. solve_decision. Defined.
(** The part of [struct conn] that the binary protocol has besides; [packet] is what
    has been read of the extras and the key of the packet, which stay in the buffer. *)
Record bconn := MkBconn { base : side; substate : bin_substates; header : packet_header; c_cas : Z; packet : list ascii }.
Definition set_base v c := MkBconn v (substate c) (header c) (c_cas c) (packet c).
Definition set_substate v c := MkBconn (base c) v (header c) (c_cas c) (packet c).
Definition set_header v c := MkBconn (base c) (substate c) v (c_cas c) (packet c).
Definition set_ccas v c := MkBconn (base c) (substate c) (header c) v (packet c).
Definition set_packet v c := MkBconn (base c) (substate c) (header c) (c_cas c) v.

Abbreviation BS := (CM (store * bconn)).
Definition on_side {A} (m : CS A) : BS A := zoom (fun p => (p.1, base p.2)) (fun q p => (q.1, set_base q.2 p.2)) m.
Definition in_store {A} (m : SM A) : BS A := on_side (on_store m).
Definition b_is {A} (f : bconn -> A) : BS A := gets (fun p => f p.2).
Definition put (f : bconn -> bconn) : BS unit := modify (fun p => (p.1, f p.2)).
Definition put_side (f : side -> side) : BS unit := on_side (conn_set f).
Definition side_is {A} (f : side -> A) : BS A := on_side (conn_is f).

(** * Answers *)

Definition response_header (opcode err hdr_len key_len body_len : Z) (opaque : list ascii) (cas : Z) : list ascii :=
  [byte_of PROTOCOL_BINARY_RES; byte_of opcode] ++ be 2 key_len ++ [byte_of hdr_len; byte_of 0] ++ be 2 err ++ be 4 body_len ++ opaque ++ be 8 cas.
(** What is to be sent is begun with a header, and added to. *)
Definition add_bin_header (err hdr_len key_len body_len : Z) : BS unit :=
  h <- b_is header ;;
  cas <- b_is c_cas ;;
  put_side (set_wbuf (response_header (p_opcode h) err hdr_len key_len body_len (p_opaque h) cas)).
Definition add_iov (bytes : list ascii) : BS unit := put_side (fun c => set_wbuf (wbuf c ++ bytes) c).
Definition error_text (err : Z) : list ascii :=
  if err =? ENOMEM then lit "Out of memory" else if err =? UNKNOWN_COMMAND then lit "Unknown command" else if err =? KEY_ENOENT then lit "Not found"
  else if err =? EINVAL then lit "Invalid arguments" else if err =? KEY_EEXISTS then lit "Data exists for key." else if err =? E2BIG then lit "Too large."
  else if err =? DELTA_BADVAL then lit "Non-numeric server-side value for incr or decr" else if err =? RESPONSE_NOT_STORED then lit "Not stored." else lit "Auth failure.".
Definition write_bin_error (err : Z) (errstr : option (list ascii)) (swallow : Z) : BS unit :=
  let errstr := default (error_text err) errstr in
  add_bin_header err 0 0 (Z.of_nat (length errstr)) ;;;
  add_iov errstr ;;;
  put_side (set_state conn_mwrite) ;;;
  if 0 <? swallow then put_side (fun c => set_write_and_go conn_swallow (set_sbytes swallow c)) else put_side (set_write_and_go conn_new_cmd).
(** out_of_memory, without the prefix of the text. *)
Definition bin_out_of_memory (text : string) : BS unit := write_bin_error ENOMEM (Some (lit text)) 0.
Definition write_bin_response (d : list ascii) (hlen keylen : Z) : BS unit :=
  quiet <- side_is noreply ;;
  cmd <- side_is cmd ;;
  if negb quiet || (cmd =? CMD_GET) || (cmd =? CMD_GETK) then
    add_bin_header SUCCESS hlen keylen (Z.of_nat (length d)) ;;;
    add_iov d ;;;
    put_side (fun c => set_write_and_go conn_new_cmd (set_state conn_mwrite c))
  else put_side (set_state conn_new_cmd).
Definition handle_binary_protocol_error : BS unit := write_bin_error EINVAL None 0 ;;; put_side (set_write_and_go conn_closing).

(** The key and the extras of the packet. *)
Definition binary_get_key : BS (list ascii) := p <- b_is packet ;; h <- b_is header ;; ret (drop (length p - Z.to_nat (p_keylen h)) p).
Definition extras (off n : nat) : BS Z := p <- b_is packet ;; ret (unbe (part off n p)).

Section Commands.
Variable hash : list ascii -> Z.
Variable lockable : Z -> bool.
Variable junk : Z -> list ascii.
Variable process_started : Z.
Variable opts : options.

(** * The commands *)

(** No item: the reply, and an item that a set does not replace goes. *)
Definition no_item (key : list ascii) (flags vlen : Z) (text : string) (set : bool) : BS unit :=
  ok <- in_store (item_size_ok (Z.of_nat (length key)) flags (i32 (vlen + 2))) ;;
  (if ok : bool then bin_out_of_memory text else write_bin_error E2BIG None vlen) ;;;
  (if set then
     in_store (old <- item_get hash key ;; match old with Some o => item_unlink hash o ;;; item_remove o | None => ret tt end)
   else ret tt) ;;;
  put_side (set_write_and_go conn_swallow).
Definition read_value (it : ptr) (comm vlen : Z) : BS unit :=
  put_side (fun c => set_state conn_nread (set_nread 0 vlen (set_item (Some it) (set_cmd comm c)))) ;;;
  put (set_substate bin_read_set_value).
Definition process_bin_update : BS unit :=
  key <- binary_get_key ;;
  h <- b_is header ;;
  flags <- extras 0 4 ;;
  expiration <- extras 4 4 ;;
  let vlen := i32 (p_bodylen h - (Z.of_nat (length key) + p_extlen h)) in
  cmd <- side_is cmd ;;
  rt <- in_store (gets (realtime process_started expiration)) ;;
  it <- in_store (item_alloc hash lockable junk key (i32 flags) rt (i32 (vlen + 2))) ;;
  match it with
  | None => no_item key (i32 flags) vlen "Out of memory allocating item" (cmd =? CMD_SET)
  | Some it =>
      in_store (upd_hdr it (ITEM_set_cas (p_cas h))) ;;;
      comm <- (if cmd =? CMD_ADD then ret NREAD_ADD else if cmd =? CMD_SET then ret NREAD_SET else if cmd =? CMD_REPLACE then ret NREAD_REPLACE else undef) ;;
      i <- in_store (hdr_of it) ;;
      read_value it (if ITEM_get_cas i =? 0 then comm else NREAD_CAS) vlen
  end.
Definition process_bin_append_prepend : BS unit :=
  key <- binary_get_key ;;
  h <- b_is header ;;
  let vlen := i32 (p_bodylen h - Z.of_nat (length key)) in
  it <- in_store (item_alloc hash lockable junk key 0 0 (i32 (vlen + 2))) ;;
  match it with
  | None => no_item key 0 vlen "Out of memory allocating item" false
  | Some it =>
      in_store (upd_hdr it (ITEM_set_cas (p_cas h))) ;;;
      cmd <- side_is cmd ;;
      comm <- (if cmd =? CMD_APPEND then ret NREAD_APPEND else if cmd =? CMD_PREPEND then ret NREAD_PREPEND else undef) ;;
      read_value it comm vlen
  end.

(** store_item on the connection: what was stored has the number that is sent back. *)
Definition bin_store_item (it : ptr) (comm : Z) : BS store_item_type :=
  r <- in_store (store_item hash lockable junk it comm) ;;
  match r.2 with Some cas => put (set_ccas cas) | None => ret tt end ;;;
  ret r.1.
Definition complete_update_bin : BS unit :=
  o <- side_is c_item ;;
  it <- get_or_undef (fun _ => o) ;;
  comm <- side_is cmd ;;
  h <- in_store (hdr_of it) ;;
  in_store (write_data it (it_nbytes h - 2) [CR; LF]) ;;;
  r <- bin_store_item it comm ;;
  match r with
  | STORED => write_bin_response [] 0 0
  | EXISTS => write_bin_error KEY_EEXISTS None 0
  | NOT_FOUND => write_bin_error KEY_ENOENT None 0
  | NOT_STORED => write_bin_error (if comm =? NREAD_ADD then KEY_EEXISTS else if comm =? NREAD_REPLACE then KEY_ENOENT else RESPONSE_NOT_STORED) None 0
  end ;;;
  in_store (item_remove it) ;;;
  put_side (set_item None).

(** The flags of an item, strtoul of the text that is kept of them. *)
Definition suffix_flags (suffix : list ascii) : Z := match strtoull suffix with Some (neg, v, _) => u32 (if 2 ^ 64 <=? v then 2 ^ 64 - 1 else if neg : bool then - v else v) | None => 0 end.
Definition process_bin_get_or_touch : BS unit :=
  key <- binary_get_key ;;
  cmd <- side_is cmd ;;
  let nkey := Z.of_nat (length key) in
  let should_touch := (cmd =? CMD_TOUCH) || (cmd =? CMD_GAT) || (cmd =? CMD_GATK) in
  let should_return_key := (cmd =? CMD_GETK) || (cmd =? CMD_GATK) in
  let should_return_value := negb (cmd =? CMD_TOUCH) in
  it <- (if should_touch then
           exptime <- extras 0 4 ;;
           rt <- in_store (gets (realtime process_started exptime)) ;;
           in_store (item_touch hash key rt)
         else in_store (item_get hash key)) ;;
  match it with
  | Some it =>
      k <- in_store (ITEM_key it) ;;
      i <- in_store (hdr_of it) ;;
      d <- in_store (read_data i) ;;
      in_store (item_update it) ;;;
      let bodylen := if cmd =? CMD_TOUCH then 4 else 4 + (it_nbytes i - 2) + (if should_return_key then nkey else 0) in
      h <- b_is header ;;
      put_side (set_wbuf (response_header (p_opcode h) SUCCESS 4 (if negb (cmd =? CMD_TOUCH) && should_return_key then nkey else 0) bodylen (p_opaque h) (ITEM_get_cas i))) ;;;
      add_iov (be 4 (suffix_flags (it_suffix i))) ;;;
      (if should_return_key then add_iov (take (length key) k) else ret tt) ;;;
      (if should_return_value then add_iov (take (length d - 2) d) else ret tt) ;;;
      put_side (fun c => set_item (Some it) (set_write_and_go conn_new_cmd (set_state conn_mwrite c)))
  | None =>
      quiet <- side_is noreply ;;
      if quiet : bool then put_side (set_state conn_new_cmd)
      else if should_return_key then
        add_bin_header KEY_ENOENT 0 nkey nkey ;;;
        add_iov key ;;;
        put_side (fun c => set_write_and_go conn_new_cmd (set_state conn_mwrite c))
      else write_bin_error KEY_ENOENT None 0
  end.
Definition process_bin_delete : BS unit :=
  key <- binary_get_key ;;
  h <- b_is header ;;
  it <- in_store (item_get hash key) ;;
  match it with
  | Some it =>
      same <- (if p_cas h =? 0 then ret true else i <- in_store (hdr_of it) ;; ret (p_cas h =? ITEM_get_cas i)) ;;
      (if same : bool then in_store (item_unlink hash it) ;;; write_bin_response [] 0 0 else write_bin_error KEY_EEXISTS None 0) ;;;
      in_store (item_remove it)
  | None => write_bin_error KEY_ENOENT None 0
  end.
Definition process_bin_flush : BS unit :=
  if negb (flush_enabled opts) then write_bin_error AUTH_ERROR None 0
  else
    h <- b_is header ;;
    exptime <- (if p_extlen h =? 4 then extras 0 4 else ret 0) ;;
    in_store (flush_all process_started exptime) ;;;
    write_bin_response [] 0 0.
(** The item that incr and decr make of the initial value. *)
Definition initial_item (key : list ascii) (initial expiration : Z) : BS unit :=
  let buf := show_u64 initial in
  rt <- in_store (gets (realtime process_started expiration)) ;;
  it <- in_store (item_alloc hash lockable junk key 0 rt (Z.of_nat (length buf) + 2)) ;;
  match it with
  | Some it =>
      in_store (write_data it 0 buf ;;; write_data it (Z.of_nat (length buf)) [CR; LF]) ;;;
      r <- bin_store_item it NREAD_ADD ;;
      match r with
      | NOT_STORED => write_bin_error RESPONSE_NOT_STORED None 0
      | _ =>
          i <- in_store (hdr_of it) ;;
          put (set_ccas (ITEM_get_cas i)) ;;;
          write_bin_response (be 8 initial) 0 0
      end ;;;
      in_store (item_remove it)
  | None => bin_out_of_memory "Out of memory allocating new item"
  end.
Definition complete_incr_bin : BS unit :=
  key <- binary_get_key ;;
  h <- b_is header ;;
  cmd <- side_is cmd ;;
  delta <- extras 0 8 ;;
  initial <- extras 8 8 ;;
  expiration <- extras 16 4 ;;
  r <- in_store (add_delta hash lockable junk key (cmd =? CMD_INCREMENT) delta (Some (p_cas h))) ;;
  match r with
  | (DELTA_OK, buf, cas) =>
      (match cas with Some c => if c =? 0 then ret tt else put (set_ccas c) | None => ret tt end) ;;;
      write_bin_response (be 8 (digits 0 buf)) 0 0
  | (NON_NUMERIC, _, _) => write_bin_error DELTA_BADVAL None 0
  | (EOM, _, _) => bin_out_of_memory "Out of memory incrementing value"
  | (DELTA_ITEM_NOT_FOUND, _, _) => if expiration =? 2 ^ 32 - 1 then write_bin_error KEY_ENOENT None 0 else initial_item key initial expiration
  | (DELTA_ITEM_CAS_MISMATCH, _, _) => write_bin_error KEY_EEXISTS None 0
  end.
(** Without SASL. *)
Definition no_sasl : BS unit := h <- b_is header ;; write_bin_error UNKNOWN_COMMAND None (i32 (p_bodylen h - p_keylen h)).
Definition not_followed : BS unit := put_side (set_state conn_elsewhere).

Definition complete_nread_binary : BS unit :=
  s <- b_is substate ;;
  match s with
  | bin_reading_set_header =>
      cmd <- side_is cmd ;;
      if (cmd =? CMD_APPEND) || (cmd =? CMD_PREPEND) then process_bin_append_prepend else process_bin_update
  | bin_read_set_value => complete_update_bin
  | bin_reading_get_key | bin_reading_touch_key => process_bin_get_or_touch
  | bin_reading_stat => not_followed
  | bin_reading_del_header => process_bin_delete
  | bin_reading_incr_header => complete_incr_bin
  | bin_read_flush_exptime => process_bin_flush
  | bin_reading_sasl_auth | bin_reading_sasl_auth_data => no_sasl
  | bin_no_state | bin_reading_cas_header => undef
  end.

(** * A packet *)

(** What follows the header is read into the buffer, which is made large enough. *)
Definition bin_read_key (next_substate : bin_substates) (extra : Z) : BS unit :=
  h <- b_is header ;;
  put (fun c => set_packet [] (set_substate next_substate c)) ;;;
  put_side (fun c => set_state conn_nread (set_nread 0 (p_keylen h + extra) c)).
Definition dispatch_bin_command : BS unit :=
  h <- b_is header ;;
  let extlen := p_extlen h in
  let keylen := p_keylen h in
  let bodylen := p_bodylen h in
  put_side (set_noreply true) ;;;
  if KEY_MAX_LENGTH <? keylen then handle_binary_protocol_error
  else
    op <- side_is cmd ;;
    put_side (match loud op with Some op => set_cmd op | None => set_noreply false end) ;;;
    cmd <- side_is cmd ;;
    if cmd =? CMD_VERSION then
      if (extlen =? 0) && (keylen =? 0) && (bodylen =? 0) then write_bin_response (version opts) 0 0 else handle_binary_protocol_error
    else if cmd =? CMD_FLUSH then
      if (keylen =? 0) && (bodylen =? extlen) && ((extlen =? 0) || (extlen =? 4)) then bin_read_key bin_read_flush_exptime extlen else handle_binary_protocol_error
    else if cmd =? CMD_NOOP then
      if (extlen =? 0) && (keylen =? 0) && (bodylen =? 0) then write_bin_response [] 0 0 else handle_binary_protocol_error
    else if (cmd =? CMD_SET) || (cmd =? CMD_ADD) || (cmd =? CMD_REPLACE) then
      if (extlen =? 8) && negb (keylen =? 0) && (keylen + 8 <=? bodylen) then bin_read_key bin_reading_set_header 8 else handle_binary_protocol_error
    else if (cmd =? CMD_GET) || (cmd =? CMD_GETK) then
      if (extlen =? 0) && (bodylen =? keylen) && (0 <? keylen) then bin_read_key bin_reading_get_key 0 else handle_binary_protocol_error
    else if cmd =? CMD_DELETE then
      if (0 <? keylen) && (extlen =? 0) && (bodylen =? keylen) then bin_read_key bin_reading_del_header extlen else handle_binary_protocol_error
    else if (cmd =? CMD_INCREMENT) || (cmd =? CMD_DECREMENT) then
      if (0 <? keylen) && (extlen =? 20) && (bodylen =? keylen + extlen) then bin_read_key bin_reading_incr_header 20 else handle_binary_protocol_error
    else if (cmd =? CMD_APPEND) || (cmd =? CMD_PREPEND) then
      if (0 <? keylen) && (extlen =? 0) then bin_read_key bin_reading_set_header 0 else handle_binary_protocol_error
    else if cmd =? CMD_STAT then
      if extlen =? 0 then bin_read_key bin_reading_stat 0 else handle_binary_protocol_error
    else if cmd =? CMD_QUIT then
      if (keylen =? 0) && (extlen =? 0) && (bodylen =? 0) then
        write_bin_response [] 0 0 ;;;
        put_side (set_write_and_go conn_closing) ;;;
        quiet <- side_is noreply ;;
        if quiet : bool then put_side (set_state conn_closing) else ret tt
      else handle_binary_protocol_error
    else if cmd =? CMD_SASL_LIST_MECHS then
      if (extlen =? 0) && (keylen =? 0) && (bodylen =? 0) then no_sasl else handle_binary_protocol_error
    else if (cmd =? CMD_SASL_AUTH) || (cmd =? CMD_SASL_STEP) then
      if (extlen =? 0) && negb (keylen =? 0) then bin_read_key bin_reading_sasl_auth 0 else handle_binary_protocol_error
    else if (cmd =? CMD_TOUCH) || (cmd =? CMD_GAT) || (cmd =? CMD_GATK) then
      if (extlen =? 4) && negb (keylen =? 0) then bin_read_key bin_reading_touch_key 4 else handle_binary_protocol_error
    else write_bin_error UNKNOWN_COMMAND None (i32 bodylen).
(** The part of try_read_command for a whole header. *)
Definition read_packet (bytes : list ascii) : BS unit :=
  let h := read_header bytes in
  put (set_header h) ;;;
  if negb (p_magic h =? PROTOCOL_BINARY_REQ) then put_side (set_state conn_closing)
  else
    put_side (set_cmd (p_opcode h)) ;;;
    put (set_ccas 0) ;;;
    dispatch_bin_command.

(** ** With everything there *)

(** conn_nread: the value goes into the item, the extras and the key stay. *)
Definition bin_fill (bytes : list ascii) : BS unit :=
  s <- b_is substate ;;
  if bool_decide (s = bin_read_set_value) then on_side (fill bytes)
  else
    put (fun c => set_packet (packet c ++ bytes) c) ;;;
    put_side (fun c => set_nread (ritem c) (rlbytes c - Z.of_nat (length bytes)) c).
(** What a connection in its state sends when [bytes] are all that is to come. *)
Fixpoint bin_converse (fuel : nat) (bytes : list ascii) : BS (list ascii) :=
  let next bytes := match fuel with O => nofuel | S fuel => bin_converse fuel bytes end in
  st <- side_is state ;;
  match st with
  | conn_new_cmd => on_side reset_cmd ;;; put (set_substate bin_no_state) ;;; put_side (set_state conn_parse_cmd) ;;; next bytes
  | conn_waiting | conn_read | conn_parse_cmd =>
      put_side (set_state conn_parse_cmd) ;;;
      if (length bytes <? HEADER_SIZE)%nat then ret [] else read_packet bytes ;;; next (drop HEADER_SIZE bytes)
  | conn_mwrite =>
      w <- side_is wbuf ;;
      put_side (set_wbuf []) ;;;
      on_side release_conn ;;;
      put_side (fun c => set_state (write_and_go c) c) ;;;
      out <- next bytes ;;
      ret (w ++ out)
  | conn_nread =>
      left <- side_is rlbytes ;;
      if left <? 0 then put_side (set_state conn_closing) ;;; next bytes
      else
        bin_fill (take (Z.to_nat left) bytes) ;;;
        left' <- side_is rlbytes ;;
        if left' =? 0 then complete_nread_binary ;;; next (drop (Z.to_nat left) bytes) else ret []
  | conn_swallow =>
      left <- side_is sbytes ;;
      let n := Z.to_nat left in
      on_side (swallow (Z.of_nat (length (take n bytes)))) ;;;
      left' <- side_is sbytes ;;
      if left' =? 0 then put_side (set_state conn_new_cmd) ;;; next (drop n bytes) else ret []
  | conn_closing => on_side conn_close ;;; ret []
  | conn_closed => ret []
  | conn_write | conn_elsewhere => undef
  end.
End Commands.
(** A new connection. *)
Definition no_header : packet_header := PacketHeader 0 0 0 0 0 [] 0 [] 0.
Definition bin_conn_new : bconn := MkBconn conn_new bin_no_state no_header 0 [].
