(* ===== verification/BinaryThm.v ===== *)
(** Packets of the binary protocol: what is written is read back; and requests that are
    made in it do on the store what they do in the text protocol. *)
From S2P Require Import Prelude CStr CDec Assoc AssocThm DList Store Slabs Items StoreCmd StoreInv LruThm SlabsThm ItemsThm ItemsGet PullThm AllocThm CacheSpec CachedThm StoreThm UpdateThm LookupThm CacheRun Proto Conn ProtoThm ConnThm WireThm Binary.
Local Open Scope Z_scope.

(** * Numbers in network byte order *)

Lemma uchar_byte_of z : uchar (byte_of z) = z mod 256.
Proof. unfold uchar, byte_of. pose proof (Z.mod_pos_bound z 256). rewrite N_ascii_embedding; lia. Qed.
Lemma be_length n z : length (be n z) = n.
Proof. induction n as [|n IH]; [done |]. simpl. by rewrite IH. Qed.
Lemma unbe_app_acc l acc : fold_left (fun acc c => acc * 256 + uchar c) l acc = acc * 256 ^ Z.of_nat (length l) + unbe l.
Proof.
  unfold unbe. revert acc. induction l as [|c l IH]; intros acc; [simpl; lia |]. cbn [fold_left length]. rewrite IH, (IH (0 * 256 + uchar c)), Nat2Z.inj_succ, Z.pow_succ_r by lia. nia.
Qed.
Lemma unbe_be n z : unbe (be n z) = z mod 256 ^ Z.of_nat n.
Proof.
  induction n as [|n IH]; [by rewrite Z.mod_1_r |]. cbn [be]. unfold unbe. cbn [fold_left]. rewrite unbe_app_acc, be_length, IH, uchar_byte_of. cbn [Z.mul Z.add].
  rewrite Nat2Z.inj_succ, Z.pow_succ_r by lia. rewrite Z.shiftr_div_pow2 by lia. replace (2 ^ (8 * Z.of_nat n)) with (256 ^ Z.of_nat n) by (rewrite (Z.pow_mul_r 2 8) by lia; done).
  pose proof (Z.pow_pos_nonneg 256 (Z.of_nat n)). rewrite (Z.mul_comm 256), Z.rem_mul_r by lia. lia.
Qed.
Lemma unbe_small n z : 0 <= z < 256 ^ Z.of_nat n -> unbe (be n z) = z.
Proof. intros H. by rewrite unbe_be, Z.mod_small. Qed.
Lemma unbe_byte z : 0 <= z < 256 -> unbe [byte_of z] = z.
Proof. intros H. unfold unbe. cbn [fold_left]. rewrite uchar_byte_of, Z.mod_small; lia. Qed.

(** * Headers *)

Definition write_header (h : packet_header) : list ascii :=
  [byte_of (p_magic h); byte_of (p_opcode h)] ++ be 2 (p_keylen h) ++ [byte_of (p_extlen h); byte_of (p_datatype h)] ++ p_reserved h ++ be 4 (p_bodylen h) ++ p_opaque h ++ be 8 (p_cas h).
Definition header_ok (h : packet_header) : Prop :=
  (0 <= p_magic h < 2 ^ 8 /\ 0 <= p_opcode h < 2 ^ 8 /\ 0 <= p_extlen h < 2 ^ 8 /\ 0 <= p_datatype h < 2 ^ 8) /\ (0 <= p_keylen h < 2 ^ 16 /\ length (p_reserved h) = 2%nat) /\
  0 <= p_bodylen h < 2 ^ 32 /\ length (p_opaque h) = 4%nat /\ 0 <= p_cas h < 2 ^ 64.
Lemma write_header_length h : header_ok h -> length (write_header h) = HEADER_SIZE.
Proof. intros (_ & (_ & H1) & _ & H2 & _). unfold write_header. rewrite !length_app, !be_length, H1, H2. done. Qed.
Lemma part_at (a b r : list ascii) : part (length a) (length b) (a ++ b ++ r) = b.
Proof. unfold part. by rewrite drop_app_length, take_app_length. Qed.
Lemma header_back h rest : header_ok h -> read_header (write_header h ++ rest) = h.
Proof.
  intros ((H1 & H2 & H3 & H4) & (H5 & H6) & H7 & H8 & H9). destruct h as [mg op kl el dt rs bl oq cs]. cbn [p_magic p_opcode p_keylen p_extlen p_datatype p_reserved p_bodylen p_opaque p_cas] in *.
  destruct oq as [|o1 [|o2 [|o3 [|o4 [|]]]]]; try discriminate H8. destruct rs as [|r1 [|r2 [|]]]; try discriminate H6. rewrite <- (unbe_small 2 kl), <- (unbe_small 4 bl), <- (unbe_small 8 cs), <- (unbe_byte mg), <- (unbe_byte op), <- (unbe_byte el), <- (unbe_byte dt) at 2 by (done || (simpl; lia)).
  reflexivity.
Qed.
(** The header of an answer. *)
Lemma response_header_back opcode err hdr_len key_len body_len opaque cas rest :
  0 <= opcode < 2 ^ 8 -> 0 <= err < 2 ^ 16 -> 0 <= hdr_len < 2 ^ 8 -> 0 <= key_len < 2 ^ 16 -> 0 <= body_len < 2 ^ 32 -> length opaque = 4%nat -> 0 <= cas < 2 ^ 64 ->
  read_header (response_header opcode err hdr_len key_len body_len opaque cas ++ rest) = PacketHeader PROTOCOL_BINARY_RES opcode key_len hdr_len 0 (be 2 err) body_len opaque cas.
Proof.
  intros. rewrite <- (header_back (PacketHeader PROTOCOL_BINARY_RES opcode key_len hdr_len 0 (be 2 err) body_len opaque cas) rest); [done |].
  unfold header_ok, PROTOCOL_BINARY_RES. cbn. split_and!; done || lia.
Qed.

(** The flags of an item are what they were set to. *)
Lemma i32_high n : 2 ^ 31 <= n < 2 ^ 32 -> i32 n = n - 2 ^ 32.
Proof.
  intros H. unfold i32, wrap_s. change (2 ^ (32 - 1)) with (2 ^ 31). replace (n + 2 ^ 31) with (n - 2 ^ 31 + 1 * 2 ^ 32) by lia. rewrite Z_mod_plus_full, Z.mod_small by lia. lia.
Qed.
Lemma flags_back flags n : 0 <= flags < 2 ^ 32 -> suffix_flags (item_suffix (i32 flags) n) = flags.
Proof.
  intros H. unfold suffix_flags, item_suffix. set (rest := [SP] ++ show_int (n - 2) ++ [CR; LF]). assert (Hr : ended rest) by done. clearbody rest.
  change (strtoull ([SP] ++ show_int (i32 flags) ++ rest)) with (strtoull (show_int (i32 flags) ++ rest)). unfold show_int, dec. destruct (Z.lt_ge_cases flags (2 ^ 31)) as [Hl|Hl].
  - rewrite i32_small by lia. rewrite (proj2 (Z.ltb_ge _ _)) by lia. rewrite strtoull_dec by (done || lia || (simpl; lia)). rewrite (proj2 (Z.leb_gt _ _)) by lia. apply u32_small. lia.
  - rewrite i32_high by lia. rewrite (proj2 (Z.ltb_lt _ _)) by lia. cbn [app]. rewrite strtoull_minus by (done || lia || (simpl; lia)). rewrite (proj2 (Z.leb_gt _ _)) by lia.
    replace (- - (flags - 2 ^ 32)) with (flags + (-1) * 2 ^ 32) by lia. unfold u32, wrap_u. rewrite Z_mod_plus_full. apply Z.mod_small. lia.
Qed.

(** * Requests *)

(** The storage commands, by the number of theirs in the text protocol; the look-ups,
    with a new time of expiry or without; and the others. *)
Inductive bin_request :=
  | BStore (comm : Z) (quietly : bool) (key : list ascii) (flags exptime cas : Z) (value : list ascii)
  | BGet (exptime : option Z) (with_key quietly : bool) (key : list ascii)
  | BTouch (key : list ascii) (exptime : Z)
  | BDelete (quietly : bool) (key : list ascii) (cas : Z)
  | BFlush (quietly : bool) (exptime : option Z)
  | BNoop
  | BVersion.

(** What is answered: nothing, a success, a failure. *)
Inductive bin_outcome :=
  | Silence
  | Ok (cas : Z) (ext key value : list ascii)
  | Fail (err : Z) (key text : list ascii).
Definition size (l : list ascii) : Z := Z.of_nat (length l).
Definition say (op : Z) (opaque : list ascii) (o : bin_outcome) : list ascii :=
  match o with
  | Silence => []
  | Ok cas ext key value => response_header op SUCCESS (size ext) (size key) (size ext + size key + size value) opaque cas ++ ext ++ key ++ value
  | Fail err key text => response_header op err 0 (size key) (size key + size text) opaque 0 ++ key ++ text
  end.
Definition success (quietly : bool) (cas : Z) : bin_outcome := if quietly then Silence else Ok cas [] [] [].
Definition failure (err : Z) : bin_outcome := Fail err [] (error_text err).

Definition joining (comm : Z) : bool := (comm =? NREAD_APPEND) || (comm =? NREAD_PREPEND).
(** A number that is given makes a set a check-and-set, when numbers are in use. *)
Definition checked (use : bool) (cas comm : Z) : Z := if joining comm || negb use || (cas =? 0) then comm else NREAD_CAS.
Definition store_answer (quietly : bool) (comm : Z) (r : store_item_type * option Z) : bin_outcome :=
  match r.1 with
  | STORED => success quietly (default 0 r.2)
  | EXISTS => failure KEY_EEXISTS
  | NOT_FOUND => failure KEY_ENOENT
  | NOT_STORED => failure (if comm =? NREAD_ADD then KEY_EEXISTS else if comm =? NREAD_REPLACE then KEY_ENOENT else RESPONSE_NOT_STORED)
  end.
Definition no_place (fits : bool) : bin_outcome := if fits then Fail ENOMEM [] (lit "Out of memory allocating item") else failure E2BIG.
(** A hit: the flags, the key when it is asked for, and the value without its CR LF. *)
Definition found (with_key : bool) (key : list ascii) (e : entry) : bin_outcome :=
  Ok (e_cas e) (be 4 (suffix_flags (e_suffix e))) (if with_key then key else []) (take (length (e_bytes e) - 2) (e_bytes e)).
Definition missing (with_key quietly : bool) (key : list ascii) : bin_outcome :=
  if quietly then Silence else if with_key then Fail KEY_ENOENT key [] else failure KEY_ENOENT.

Section Spec.
Variable started : Z.
Variable opts : options.

(** What a request may be answered, and the map after it; whether its value is left to
    be read as the next packet. *)
Inductive obeyed (w : world) : bin_request -> bin_outcome -> bool -> world -> Prop :=
  | ob_store comm quietly key flags exptime cas value m0 r m :
      let comm' := checked (use_cas (w_cfg w)) cas comm in m0 ⊆ w_map w ->
      storing (w_cfg w) (w_now w) key (brought (w_cfg w) (w_now w) (i32 flags) (realtime_at started exptime (w_now w)) cas (value ++ [CR; LF])) m0 comm' r m ->
      obeyed w (BStore comm quietly key flags exptime cas value) (store_answer quietly comm' r) false (World (w_cfg w) (w_now w) m)
  | ob_no_place comm quietly key flags exptime cas value m0 fits : m0 ⊆ w_map w ->
      obeyed w (BStore comm quietly key flags exptime cas value) (no_place fits) fits (World (w_cfg w) (w_now w) (if comm =? NREAD_SET then delete key m0 else m0))
  | ob_get with_key quietly key :
      obeyed w (BGet None with_key quietly key) (match look (w_cfg w) (w_now w) key (w_map w) with Some e => found with_key key e | None => missing with_key quietly key end) false
        (World (w_cfg w) (w_now w) (refresh (w_cfg w) (w_now w) key (w_map w)))
  | ob_get_touch t with_key quietly key :
      obeyed w (BGet (Some t) with_key quietly key) (match look (w_cfg w) (w_now w) key (w_map w) with Some e => found with_key key e | None => missing with_key quietly key end) false
        (World (w_cfg w) (w_now w) (touched (w_cfg w) (w_now w) key (realtime_at started t (w_now w)) (w_map w)))
  | ob_touch key t :
      obeyed w (BTouch key t) (match look (w_cfg w) (w_now w) key (w_map w) with Some e => Ok (e_cas e) (be 4 (suffix_flags (e_suffix e))) [] [] | None => failure KEY_ENOENT end) false
        (World (w_cfg w) (w_now w) (touched (w_cfg w) (w_now w) key (realtime_at started t (w_now w)) (w_map w)))
  | ob_delete quietly key cas e : look (w_cfg w) (w_now w) key (w_map w) = Some e -> cas = 0 \/ cas = e_cas e ->
      obeyed w (BDelete quietly key cas) (success quietly 0) false (World (w_cfg w) (w_now w) (delete key (w_map w)))
  | ob_delete_differs quietly key cas e : look (w_cfg w) (w_now w) key (w_map w) = Some e -> cas <> 0 -> cas <> e_cas e ->
      obeyed w (BDelete quietly key cas) (failure KEY_EEXISTS) false w
  | ob_delete_none quietly key cas : look (w_cfg w) (w_now w) key (w_map w) = None ->
      obeyed w (BDelete quietly key cas) (failure KEY_ENOENT) false (World (w_cfg w) (w_now w) (delete key (w_map w)))
  | ob_flush quietly t c : flushing started (w_cfg w) (w_now w) (default 0 t) c -> obeyed w (BFlush quietly t) (success quietly 0) false (World c (w_now w) (w_map w))
  | ob_noop : obeyed w BNoop (success false 0) false w
  | ob_version : obeyed w BVersion (Ok 0 [] [] (version opts)) false w.
End Spec.

(** * On the store *)

(** What each request does to the store, without the connection. *)
Section Reference.
Variable hash : list ascii -> Z.
Variable lockable : Z -> bool.
Variable junk : Z -> list ascii.
Variable started : Z.

Definition bin_store (comm : Z) (key : list ascii) (flags exptime cas : Z) (value : list ascii) : SM (Z * (store_item_type * option Z) + bool) :=
  rt <- gets (realtime started exptime) ;;
  it <- item_alloc hash lockable junk key (i32 flags) rt (size value + 2) ;;
  match it with
  | None =>
      ok <- item_size_ok (size key) (i32 flags) (size value + 2) ;;
      (if comm =? NREAD_SET then old <- item_get hash key ;; match old with Some o => item_unlink hash o ;;; item_remove o | None => ret tt end else ret tt) ;;;
      ret (inr ok)
  | Some it =>
      upd_hdr it (ITEM_set_cas cas) ;;;
      i <- hdr_of it ;;
      let comm' := if joining comm || (ITEM_get_cas i =? 0) then comm else NREAD_CAS in
      write_data it 0 value ;;;
      h <- hdr_of it ;;
      write_data it (it_nbytes h - 2) [CR; LF] ;;;
      r <- store_item hash lockable junk it comm' ;;
      item_remove it ;;;
      ret (inl (comm', r))
  end.
Definition bin_look (exptime : option Z) (key : list ascii) : SM (option (list ascii * hdr * list ascii)) :=
  it <- match exptime with
        | Some t => rt <- gets (realtime started t) ;; item_touch hash key rt
        | None => item_get hash key
        end ;;
  match it with
  | None => ret None
  | Some it =>
      k <- ITEM_key it ;;
      i <- hdr_of it ;;
      d <- read_data i ;;
      item_update it ;;;
      item_remove it ;;;
      ret (Some (k, i, d))
  end.
Definition bin_delete (key : list ascii) (cas : Z) : SM (option bool) :=
  it <- item_get hash key ;;
  match it with
  | None => ret None
  | Some it =>
      same <- (if cas =? 0 then ret true else i <- hdr_of it ;; ret (cas =? ITEM_get_cas i)) ;;
      (if same : bool then item_unlink hash it else ret tt) ;;;
      item_remove it ;;;
      ret (Some same)
  end.
End Reference.

Section Ok.
Variable hash : list ascii -> Z.
Hypothesis hash_range : forall k, 0 <= hash k < 2 ^ 32.
Variable lockable : Z -> bool.
Variable junk : Z -> list ascii.
Hypothesis junk_length : forall n, 0 <= n -> Z.of_nat (length (junk n)) = n.
Variable started : Z.

(** A held item is given back. *)
Lemma bin_give_back s V s1 V1 x {A} (a : A) (Q : A -> store -> Prop) :
  ok hash s1 V1 -> calm_but x 1 s V s1 V1 -> 0 < v_held V1 x ->
  (forall s2 V2, ok hash s2 V2 -> calm s V s2 V2 -> cached s2 V2 = cached s1 V1 -> Q a s2) -> wp (item_remove x ;;; ret a) s1 Q.
Proof.
  intros O C Hx HQ. destruct (held_hdr hash None s1 V1 x O Hx) as [h Hh]. destruct (ok_links hash None s1 V1 x O ltac:(by eexists)) as (_ & _ & _ & [k Hk]).
  apply wp_bind. unfold item_remove. apply wp_bind. eapply wp_ITEM_key; [exact Hk |]. eapply wp_mono; [by apply (give_cached hash hash_range s1 V1 x O) |].
  intros _ s2 (V2 & O2 & C2 & E2 & _). apply wp_ret. apply (HQ s2 V2 O2); [|done]. apply (calm_but_calm x). change 0 with (1 + -1). by eapply calm_but_trans.
Qed.

Lemma bin_store_cached s V comm key flags exptime cas value :
  ok hash s V -> plain s -> room 3 V -> NREAD_ADD <= comm < NREAD_CAS -> size key <= 250 -> size value < 2 ^ 31 - 2 ->
  wp (bin_store hash lockable junk started comm key flags exptime cas value) s (fun r s' => exists V', ok hash s' V' /\ calm s V s' V' /\ exists m0, m0 ⊆ cached s V /\
    match r with
    | inl (comm', r) => comm' = checked (use_cas (cfg s)) cas comm /\
        storing (cfg s) (current_time (cnt s)) key (brought (cfg s) (current_time (cnt s)) (i32 flags) (realtime started exptime s) cas (value ++ [CR; LF])) m0 comm' r (cached s' V')
    | inr _ => cached s' V' = if comm =? NREAD_SET then delete key m0 else m0
    end).
Proof.
  intros O Hp Hr Hcomm Hlen Hv. unfold size in *. unfold bin_store, item_alloc, size. apply wp_bind, wp_gets, wp_bind.
  eapply wp_mono; [apply (alloc_cached hash hash_range lockable junk junk_length s V key _ _ _ 0 O Hp); [by apply (room_le 3 1); [lia | done] | lia | change (2 ^ 31) with 2147483648; lia] |].
  intros [x|] s1 (V1 & O1 & St & Sub & A).
  - destruct A as (C1 & Hx0 & h & Hh & L & Hsu & Hex & Hnb & Hdl & Hcas). apply wp_bind. eapply wp_upd_hdr; [exact Hh |].
    destruct (set_cas_cached hash s1 V1 x key h cas O1 Hh L) as (V2 & O2 & C2 & E2 & L2). set (s2 := set_hdrs _ s1) in *. set (h2 := ITEM_set_cas cas h) in *.
    assert (Hf : (it_suffix h2 = it_suffix h /\ it_exptime h2 = it_exptime h /\ it_nbytes h2 = it_nbytes h /\ it_data h2 = it_data h) /\ ITEM_get_cas h2 = if use_cas (cfg s) then cas else 0).
    { rewrite <- (cb_cfg _ _ _ _ _ _ C1), <- Hcas. unfold h2, ITEM_set_cas, ITEM_get_cas. destruct (has ITEM_CAS h) eqn:Eh; [|by rewrite Eh]. change (has ITEM_CAS (set_cas cas h)) with (has ITEM_CAS h). by rewrite Eh. }
    destruct Hf as ((F1 & F2 & F3 & F5) & F4). assert (Hh2 : hdrs s2 !! x = Some h2) by apply lookup_insert_eq.
    apply wp_bind. eapply wp_hdr_of; [exact Hh2 |]. rewrite F4. set (comm' := if _ || _ then _ else _).
    assert (Hc' : comm' = checked (use_cas (cfg s)) cas comm) by (unfold comm', checked; destruct (joining comm), (use_cas (cfg s)), (cas =? 0); done).
    apply wp_bind. eapply wp_mono; [apply (write_cached hash s2 V2 x key h2 0 value O2 Hh2 L2); rewrite ?F3, ?F5; lia |].
    intros _ sw (Vw & Ow & Nw & Cw & Mw & Ew & Hhw & Lw). set (hw := set_data _ h2) in *. apply wp_bind. eapply wp_hdr_of; [exact Hhw |].
    assert (Hoff : it_nbytes hw - 2 = Z.of_nat (length value)) by (change (it_nbytes hw) with (it_nbytes h2); lia). rewrite Hoff.
    apply wp_bind. eapply wp_mono; [apply (write_cached hash sw Vw x key hw _ [CR; LF] Ow Hhw Lw); [lia | simpl length; lia] |].
    intros _ s3 (V3 & O3 & N3 & C3w & M3 & E3w & Hh3 & L3). set (h3 := set_data _ hw) in *.
    assert (C3 : calm s2 V2 s3 V3) by by eapply calm_trans. assert (E3 : cached s3 V3 = cached s2 V2) by congruence.
    assert (C13 : calm_but x 1 s V s3 V3) by (eapply calm_but_0_r; [exact C1 |]; by eapply calm_trans).
    assert (He : entry_of h3 = Entry (it_suffix h) (value ++ [CR; LF]) (it_exptime h) (ITEM_get_cas h2) (it_time h2)).
    { unfold entry_of. cbn [h3 hw it_suffix it_nbytes it_data it_exptime it_time set_data]. rewrite F1, F2, F3, Hnb. f_equal.
      replace (Z.to_nat (Z.of_nat (length value) + 2)) with (Z.to_nat (Z.of_nat (length value)) + length [CR; LF])%nat by (simpl; lia).
      rewrite take_splice by (rewrite splice_length by (rewrite F5; simpl; lia); rewrite F5; lia). f_equal. rewrite Nat2Z.id. apply (take_splice 0). rewrite F5. lia. }
    apply wp_bind. unfold store_item. pose proof L3 as (_ & _ & Hk3 & _). apply wp_bind. eapply wp_ITEM_key; [exact Hk3 |].
    assert (Hc2 : NREAD_ADD <= comm' <= NREAD_CAS) by (unfold comm'; destruct (_ || _); unfold NREAD_ADD, NREAD_CAS in *; lia).
    eapply wp_mono; [apply (do_store_item_cached hash hash_range lockable junk junk_length s3 V3 x key (entry_of h3) comm' O3); try done |].
    + unfold plain. rewrite (cb_cfg _ _ _ _ _ _ C13). exact Hp.
    + intros y. destruct (decide (y = x)) as [->|Hne]; [rewrite (cb_at _ _ _ _ _ _ C13); lia | rewrite (cb_held _ _ _ _ _ _ C13) by done]. specialize (Hr y). lia.
    + intros r s4 (V4 & O4 & C4 & Hst). pose proof (calm_but_0_r _ _ _ _ _ _ _ _ C13 C4) as C14.
      apply (bin_give_back s V s4 V4 x (inl (comm', r)) _ O4 C14); [rewrite (cb_at _ _ _ _ _ _ C14); lia |].
      intros s5 V5 O5 C5 E5. exists V5. split; [done |]. split; [done |]. exists (cached s1 V1). split; [done |]. split; [done |].
      rewrite E5. rewrite He, E3, E2, (cb_cfg _ _ _ _ _ _ C13), (cb_time _ _ _ _ _ _ C13), F4, Hsu, Hex in Hst. unfold brought.
      replace (Z.of_nat (length (value ++ [CR; LF]))) with (Z.of_nat (length value) + 2) by (rewrite length_app; simpl; lia). by apply (storing_stamp _ _ _ _ (it_time h2)).
  - assert (R1 : room 1 V1) by (eapply calm_room; [exact A |]; apply (room_le 3 1); [lia | done]).
    apply wp_bind. eapply wp_mono; [apply (item_size_ok_spec hash s1 V1 _ _ _ O1); [lia | change (2 ^ 31) with 2147483648; lia] |]. intros b s2 ->. apply wp_bind.
    assert (Hdrop : wp (if comm =? NREAD_SET then old <- item_get hash key ;; match old with Some o => item_unlink hash o ;;; item_remove o | None => ret tt end else ret tt) s1
      (fun _ s' => exists V', ok hash s' V' /\ calm s V s' V' /\ cached s' V' = if comm =? NREAD_SET then delete key (cached s1 V1) else cached s1 V1)).
    { destruct (comm =? NREAD_SET); [|apply wp_ret; by exists V1]. eapply wp_mono; [by apply (drop_old_cached hash hash_range s1 V1 key O1) |].
      intros _ s2 (V2 & O2 & C2 & E2). exists V2. split; [done |]. split; [by eapply calm_trans | done]. }
    eapply wp_mono; [exact Hdrop |]. intros _ s2 (V2 & O2 & C2 & E2). apply wp_ret. exists V2. split; [done |]. split; [done |]. by exists (cached s1 V1).
Qed.

(** A hit is read, its time renewed, and given back. *)
Definition read_as (key : list ascii) (e : entry) (r : option (list ascii * hdr * list ascii)) : Prop :=
  exists i, r = Some (key, i, e_bytes e) /\ it_suffix i = e_suffix e /\ ITEM_get_cas i = e_cas e /\ it_nbytes i = size (e_bytes e) /\ (2 <= length (e_bytes e))%nat.
Lemma read_back s V s1 V1 x key h :
  ok hash s1 V1 -> plain s1 -> calm_but x 1 s V s1 V1 -> v_map V1 !! key = Some x -> 0 < v_held V1 x -> hdrs s1 !! x = Some h ->
  wp (k <- ITEM_key x ;; i <- hdr_of x ;; d <- read_data i ;; item_update x ;;; item_remove x ;;; ret (Some (k, i, d))) s1 (fun r s' =>
    exists V', ok hash s' V' /\ calm s V s' V' /\ read_as key (entry_of h) r /\ cached s' V' = refreshed (current_time (cnt s)) key (entry_of h) (cached s1 V1)).
Proof.
  intros O1 Hp C1 Hk Hx Hh. destruct (ok_mapped _ hash_range _ _ _ _ _ O1 Hk) as (Hik & h' & Hh' & Hl). assert (h' = h) as -> by congruence.
  destruct (used_bytes hash s1 V1 x h O1 Hh) as [B1 B2]; [by apply (used_not_slabbed hash None s1 V1 x h) |].
  apply wp_bind. eapply wp_ITEM_key; [exact Hik |]. apply wp_bind. eapply wp_hdr_of; [exact Hh |]. apply wp_bind, wp_read_data; [done |].
  apply wp_bind. unfold item_update. apply wp_bind. eapply wp_ITEM_key; [exact Hik |].
  eapply wp_mono; [by apply (update_item_cached hash hash_range s1 V1 key x h O1) |]. intros _ s2 (V2 & O2 & C2 & _ & _ & E2).
  apply (bin_give_back s V s2 V2 x (Some (key, h, e_bytes (entry_of h))) _ O2); [by eapply calm_but_0_r | by rewrite (ca_held _ _ _ _ C2) |].
  intros s3 V3 O3 C3 E3. exists V3. split; [done |]. split; [done |]. split; [|by rewrite E3, E2, (cb_time _ _ _ _ _ _ C1)].
  assert (Hn : size (e_bytes (entry_of h)) = it_nbytes h) by (apply bytes_length; lia). exists h. do 3 (split; [done |]). unfold size in *. lia.
Qed.
Lemma bin_look_cached s V exptime key :
  ok hash s V -> plain s -> room 1 V ->
  wp (bin_look hash started exptime key) s (fun r s' => exists V', ok hash s' V' /\ calm s V s' V' /\
    cached s' V' = match exptime with Some t => touched (cfg s) (current_time (cnt s)) key (realtime started t s) (cached s V) | None => refresh (cfg s) (current_time (cnt s)) key (cached s V) end /\
    match look (cfg s) (current_time (cnt s)) key (cached s V) with Some e => read_as key e r | None => r = None end).
Proof.
  intros O Hp Hr. unfold bin_look. apply wp_bind. destruct exptime as [t|].
  - apply wp_bind, wp_gets. unfold item_touch, do_item_touch. apply wp_bind. eapply wp_mono; [by apply (get_cached hash hash_range s V key O) |]. intros [x|] s1 (V1 & O1 & St & G).
    + destruct G as (C1 & E1 & e & He & Hk & Ho & He1 & h & Hh & Ee & Hl).
      apply wp_bind. eapply wp_upd_hdr; [exact Hh |]. apply wp_ret. set (h2 := set_exptime _ h).
      destruct (edit_cached hash hash_range s1 V1 key x h h2 O1 Hk Hh) as (O2 & C2 & N2 & E2); [done |]. set (s2 := set_hdrs _ s1) in *. set (V2 := hold x 0 V1) in *.
      assert (C12 : calm_but x 1 s V s2 V2) by by eapply calm_but_0_r.
      eapply wp_mono; [apply (read_back s V s2 V2 x key h2 O2); [|exact C12 | exact Hk | by rewrite (ca_held _ _ _ _ C2) | apply lookup_insert_eq] |].
      * unfold plain. rewrite (cb_cfg _ _ _ _ _ _ C12). exact Hp.
      * intros r s3 (V3 & O3 & C3 & R3 & E3). exists V3. split; [done |]. split; [done |]. rewrite He. split; [|by rewrite <- Ee].
        unfold touched. rewrite He, E3, E2, E1. by rewrite <- Ee.
    + destruct G as (C1 & Hn & _ & E1). apply wp_ret, wp_ret. exists V1. split; [done |]. split; [done |]. unfold touched. by rewrite Hn.
  - unfold item_get. eapply wp_mono; [by apply (get_cached hash hash_range s V key O) |]. intros [x|] s1 (V1 & O1 & St & G).
    + destruct G as (C1 & E1 & e & He & Hk & Ho & He1 & h & Hh & Ee & Hl).
      eapply wp_mono; [apply (read_back s V s1 V1 x key h O1); [|exact C1 | done | done | done] |].
      * unfold plain. rewrite (cb_cfg _ _ _ _ _ _ C1). exact Hp.
      * intros r s3 (V3 & O3 & C3 & R3 & E3). exists V3. split; [done |]. split; [done |]. unfold refresh. rewrite He, E3, E1, Ee. split; [done |]. by rewrite <- Ee.
    + destruct G as (C1 & Hn & _ & E1). apply wp_ret. exists V1. split; [done |]. split; [done |]. unfold refresh. by rewrite Hn.
Qed.
Lemma bin_delete_cached s V key cas :
  ok hash s V -> room 1 V ->
  wp (bin_delete hash key cas) s (fun r s' => exists V', ok hash s' V' /\ calm s V s' V' /\
    match look (cfg s) (current_time (cnt s)) key (cached s V) with
    | Some e => r = Some (bool_decide (cas = 0 \/ cas = e_cas e)) /\ cached s' V' = if bool_decide (cas = 0 \/ cas = e_cas e) then delete key (cached s V) else cached s V
    | None => r = None /\ cached s' V' = delete key (cached s V)
    end).
Proof.
  clear lockable junk junk_length started. intros O Hr. unfold bin_delete, item_get. apply wp_bind. eapply wp_mono; [by apply (get_cached hash hash_range s V key O) |]. intros [x|] s1 (V1 & O1 & St & G).
  - destruct G as (C1 & E1 & e & He & Hk & Ho & _ & h & Hh & Ee & Hl). rewrite He. set (b := bool_decide _). apply wp_bind.
    assert (Hsame : wp (if cas =? 0 then ret true else i <- hdr_of x ;; ret (cas =? ITEM_get_cas i)) s1 (fun same s' => same = b /\ s' = s1)).
    { unfold b. destruct (Z.eqb_spec cas 0) as [->|Hne]; [apply wp_ret; by rewrite bool_decide_eq_true_2 by by left |]. apply wp_bind. eapply wp_hdr_of; [exact Hh |]. apply wp_ret. split; [|done].
      change (ITEM_get_cas h) with (e_cas (entry_of h)). rewrite Ee. destruct (Z.eqb_spec cas (e_cas e)); symmetry; [apply bool_decide_eq_true_2; by right | apply bool_decide_eq_false_2; tauto]. }
    eapply wp_mono; [exact Hsame |]. intros _ _ [-> ->]. apply wp_bind. destruct b eqn:Eb.
    + destruct (ok_mapped _ hash_range _ _ _ _ _ O1 Hk) as (Hik & _). unfold item_unlink. apply wp_bind. eapply wp_ITEM_key; [exact Hik |].
      eapply wp_mono; [by apply (unlink_cached hash hash_range s1 V1 x key O1) |]. intros z s2 (V2 & O2 & N2 & C2 & M2 & E2).
      apply (bin_give_back s V s2 V2 x (Some true) _ O2); [by eapply calm_but_0_r | by rewrite (ca_held _ _ _ _ C2) |].
      intros s3 V3 O3 C3 E3. exists V3. do 3 (split; [done |]). by rewrite E3, E2, E1.
    + apply wp_ret. apply (bin_give_back s V s1 V1 x (Some false) _ O1 C1 Ho). intros s3 V3 O3 C3 E3. exists V3. do 3 (split; [done |]). by rewrite E3, E1.
  - destruct G as (C1 & Hn & _ & E1). apply wp_ret. exists V1. split; [done |]. split; [done |]. by rewrite Hn.
Qed.
End Ok.

(** * On the connection *)

(** ** The text of a request *)

Definition opcode (q : bin_request) : Z :=
  match q with
  | BStore comm quietly _ _ _ _ _ =>
      if comm =? NREAD_ADD then if quietly then 18 else CMD_ADD else if comm =? NREAD_SET then if quietly then 17 else CMD_SET
      else if comm =? NREAD_REPLACE then if quietly then 19 else CMD_REPLACE
      else if comm =? NREAD_APPEND then if quietly then 25 else CMD_APPEND else if quietly then 26 else CMD_PREPEND
  | BGet None with_key quietly _ => if with_key then if quietly then 13 else CMD_GETK else if quietly then 9 else CMD_GET
  | BGet (Some _) with_key quietly _ => if with_key then if quietly then 36 else CMD_GATK else if quietly then 30 else CMD_GAT
  | BTouch _ _ => CMD_TOUCH
  | BDelete quietly _ _ => if quietly then 20 else CMD_DELETE
  | BFlush quietly _ => if quietly then 24 else CMD_FLUSH
  | BNoop => CMD_NOOP
  | BVersion => CMD_VERSION
  end.
Definition bin_quiet (q : bin_request) : bool :=
  match q with BStore _ b _ _ _ _ _ | BGet _ _ b _ | BDelete b _ _ | BFlush b _ => b | _ => false end.
Definition bin_cmd (q : bin_request) : Z := default (opcode q) (loud (opcode q)).
Definition bin_extras (q : bin_request) : list ascii :=
  match q with
  | BStore comm _ _ flags exptime _ _ => if joining comm then [] else be 4 flags ++ be 4 exptime
  | BGet (Some t) _ _ _ | BTouch _ t | BFlush _ (Some t) => be 4 t
  | _ => []
  end.
Definition bin_key (q : bin_request) : list ascii := match q with BStore _ _ key _ _ _ _ | BGet _ _ _ key | BTouch key _ | BDelete _ key _ => key | _ => [] end.
Definition bin_value (q : bin_request) : list ascii := match q with BStore _ _ _ _ _ _ value => value | _ => [] end.
Definition bin_cas (q : bin_request) : Z := match q with BStore _ _ _ _ _ cas _ | BDelete _ _ cas => cas | _ => 0 end.
Definition header_for (opaque : list ascii) (q : bin_request) : packet_header :=
  PacketHeader PROTOCOL_BINARY_REQ (opcode q) (size (bin_key q)) (size (bin_extras q)) 0 [NUL; NUL] (size (bin_extras q) + size (bin_key q) + size (bin_value q)) opaque (bin_cas q).
Definition packet_for (opaque : list ascii) (q : bin_request) : list ascii := write_header (header_for opaque q) ++ bin_extras q ++ bin_key q ++ bin_value q.

(** Requests that a client can write. *)
Definition a_key (key : list ascii) : Prop := 0 < size key <= KEY_MAX_LENGTH.
Definition u32_ok (n : Z) : Prop := 0 <= n < 2 ^ 32.
Definition bin_ok (flush_enabled : bool) (q : bin_request) : Prop :=
  match q with
  | BStore comm _ key flags exptime cas value =>
      (NREAD_ADD <= comm <= NREAD_PREPEND /\ (joining comm = true -> flags = 0 /\ exptime = 0)) /\ a_key key /\ u32_ok flags /\ u32_ok exptime /\ 0 <= cas < 2 ^ 64 /\ size value < 2 ^ 31 - 2
  | BGet t _ _ key => a_key key /\ match t with Some t => u32_ok t | None => True end
  | BTouch key t => a_key key /\ u32_ok t
  | BDelete _ key cas => a_key key /\ 0 <= cas < 2 ^ 64
  | BFlush _ t => flush_enabled = true /\ match t with Some t => u32_ok t | None => True end
  | BNoop | BVersion => True
  end.

#[export] Instance bin_ok_dec b q : Decision (bin_ok b q).
Proof. destruct q as [comm quietly key flags exptime cas value|[t|] wk quietly key|key t|quietly key cas|quietly [t|]| |]; unfold bin_ok, a_key, u32_ok; apply _. Defined.

Lemma size_nonneg l : 0 <= size l.
Proof. unfold size. lia. Qed.
Lemma size_be n z : size (be n z) = Z.of_nat n.
Proof. unfold size. by rewrite be_length. Qed.
Lemma size_app a b : size (a ++ b) = size a + size b.
Proof. unfold size. rewrite length_app. lia. Qed.
Lemma comm_cases comm : NREAD_ADD <= comm <= NREAD_PREPEND -> comm = 1 \/ comm = 2 \/ comm = 3 \/ comm = 4 \/ comm = 5.
Proof. unfold NREAD_ADD, NREAD_PREPEND. lia. Qed.
Lemma opcode_byte b q : bin_ok b q -> 0 <= opcode q < 2 ^ 8.
Proof.
  destruct q as [comm [] key flags exptime cas value|[t|] [] [] key|key t|[] key cas|[] t| |]; cbn [bin_ok opcode]; intros H; try by split.
  all: destruct H as ((H & _) & _); destruct (comm_cases comm H) as [-> |[-> |[-> |[-> | ->]]]]; by split.
Qed.
Lemma extras_small b q : bin_ok b q -> size (bin_extras q) <= 8.
Proof. destruct q as [comm q key flags exptime cas value|[t|] k q key|key t|q key cas|q [t|]| |]; cbn [bin_extras]; intros _; try done. by destruct (joining comm). Qed.
Lemma key_small b q : bin_ok b q -> size (bin_key q) <= 250.
Proof. destruct q as [comm q key flags exptime cas value|[t|] k q key|key t|q key cas|q [t|]| |]; cbn [bin_key bin_ok]; unfold a_key, KEY_MAX_LENGTH; intros H; try done; tauto || lia. Qed.
Lemma header_for_ok b opaque q : bin_ok b q -> length opaque = 4%nat -> header_ok (header_for opaque q).
Proof.
  intros H Ho. pose proof (opcode_byte b q H). pose proof (extras_small b q H). pose proof (key_small b q H). pose proof (size_nonneg (bin_extras q)). pose proof (size_nonneg (bin_key q)). pose proof (size_nonneg (bin_value q)).
  assert (size (bin_value q) < 2 ^ 31 - 2) by (destruct q; cbn [bin_value bin_ok] in *; done || tauto).
  assert (0 <= bin_cas q < 2 ^ 64) by (destruct q; cbn [bin_cas bin_ok] in *; done || tauto).
  unfold header_ok, header_for, PROTOCOL_BINARY_REQ. cbn [p_magic p_opcode p_keylen p_extlen p_datatype p_reserved p_bodylen p_opaque p_cas]. split_and!; done || lia.
Qed.
Lemma bin_cmd_quiet b q : bin_ok b q -> match loud (opcode q) with Some _ => bin_quiet q = true | None => bin_quiet q = false end.
Proof.
  destruct q as [comm [] key flags exptime cas value|[t|] [] [] key|key t|[] key cas|[] t| |]; cbn [bin_ok opcode]; intros H; try done.
  all: destruct H as ((H & _) & _); destruct (comm_cases comm H) as [-> |[-> |[-> |[-> | ->]]]]; done.
Qed.

(** ** Rounds *)

Lemma set_base_same c : set_base (base c) c = c.
Proof. by destruct c. Qed.
Lemma bind_bind {S A B C} (m : CM S A) (k : A -> CM S B) (k' : B -> CM S C) (p : S) : bind (bind m k) k' p = bind m (fun a => bind (k a) k') p.
Proof. unfold bind. by destruct (m p). Qed.
Lemma bind_ret {S A B} (a : A) (k : A -> CM S B) (p : S) : bind (ret a) k p = k a p.
Proof. done. Qed.
Lemma bind_b_is {A B} (f : bconn -> A) (k : A -> BS B) s c : bind (b_is f) k (s, c) = k (f c) (s, c).
Proof. done. Qed.
Lemma bind_put {B} f (k : unit -> BS B) s c : bind (put f) k (s, c) = k tt (s, f c).
Proof. done. Qed.
Lemma bind_put_side {B} f (k : unit -> BS B) s c : bind (put_side f) k (s, c) = k tt (s, set_base (f (base c)) c).
Proof. done. Qed.
Lemma bind_side_is {A B} (f : side -> A) (k : A -> BS B) s c : bind (side_is f) k (s, c) = k (f (base c)) (s, c).
Proof. unfold bind, side_is, on_side, zoom, conn_is, gets. cbn [fst snd]. by rewrite set_base_same. Qed.
Lemma bind_in_store {A B} (m : SM A) (k : A -> BS B) s a s' c : m s = Ret a s' -> bind (in_store m) k (s, c) = k a (s', c).
Proof. intros H. unfold bind, in_store, on_side, on_store, zoom. cbn [fst snd]. rewrite H. cbn [fst snd]. by rewrite set_base_same. Qed.
Lemma bind_on_side {A B} (m : CS A) (k : A -> BS B) s c a s' c' : m (s, base c) = Ret a (s', c') -> bind (on_side m) k (s, c) = k a (s', set_base c' c).
Proof. intros H. unfold bind, on_side, zoom. cbn [fst snd]. by rewrite H. Qed.
Ltac side_cbn := cbn [base substate header c_cas packet state write_and_go noreply wbuf c_item cmd ritem rlbytes sbytes ilist set_base set_substate set_header set_ccas set_packet
  set_state set_write_and_go set_noreply set_wbuf set_item set_cmd set_nread set_sbytes set_ilist p_magic p_opcode p_keylen p_extlen p_datatype p_reserved p_bodylen p_opaque p_cas fst snd].
(** One operation of the connection after the other. *)
Ltac bin_step := first [rewrite bind_bind | rewrite bind_ret | rewrite bind_b_is | rewrite bind_put | rewrite bind_put_side | rewrite bind_side_is]; cbv beta.
Ltac bin_steps := repeat bin_step.

Section Rounds.
Variable hash : list ascii -> Z.
Variable lockable : Z -> bool.
Variable junk : Z -> list ascii.
Variable started : Z.
Variable opts : options.

Abbreviation bin_converse := (bin_converse hash lockable junk started opts).
Abbreviation complete := (complete_nread_binary hash lockable junk started opts).

Record bin_ready (c : bconn) : Prop := { br_state : state (base c) = conn_new_cmd; br_item : c_item (base c) = None; br_wbuf : wbuf (base c) = []; br_sbytes : sbytes (base c) = 0; br_ilist : ilist (base c) = [] }.
Definition after_bin (w : list ascii) (m : BS (list ascii)) : BS (list ascii) := out <- m ;; ret (w ++ out).

(** A header on a connection that is ready. *)
Definition at_header (c : bconn) : bconn := set_base (set_state conn_parse_cmd (set_cmd (-1) (base c))) (set_substate bin_no_state c).
Lemma bin_header opaque q b f s c rest c' : bin_ok b q -> length opaque = 4%nat -> bin_ready c ->
  read_packet opts (write_header (header_for opaque q) ++ rest) (s, at_header c) = Ret tt (s, c') ->
  bin_converse (S (S f)) (write_header (header_for opaque q) ++ rest) (s, c) = bin_converse f rest (s, c').
Proof.
  intros H Ho R Hr. pose proof (write_header_length (header_for opaque q) (header_for_ok b opaque q H Ho)) as Hl. set (h := write_header _) in *.
  cbn [Binary.bin_converse]. rewrite bind_side_is, (br_state _ R). rewrite (bind_on_side _ _ _ _ _ _ _ (reset_settled s (base c) (br_item _ R))). cbv beta. bin_steps.
  change (set_base _ _) with (at_header c). change (state (base (at_header c))) with conn_parse_cmd. cbv iota. bin_steps. change (set_base _ (at_header c)) with (at_header c).
  rewrite (proj2 (Nat.ltb_ge _ _)) by (rewrite length_app; lia). rewrite (bind_eq _ _ _ _ _ Hr). by rewrite <- Hl, drop_app_length.
Qed.
(** What is read of the packet besides. *)
Lemma bin_body f s c body rest : state (base c) = conn_nread -> rlbytes (base c) = size body -> substate c <> bin_read_set_value ->
  bin_converse (S f) (body ++ rest) (s, c) = (complete ;;; bin_converse f rest) (s, set_base (set_nread (ritem (base c)) 0 (base c)) (set_packet (packet c ++ body) c)).
Proof.
  intros H1 H2 H3. cbn [Binary.bin_converse]. bin_steps. rewrite H1. bin_steps. rewrite H2, (proj2 (Z.ltb_ge _ _)) by apply size_nonneg.
  unfold size at 1 2. rewrite Nat2Z.id, take_app_length, drop_app_length. unfold bin_fill. bin_steps. rewrite bool_decide_eq_false_2 by done. bin_steps. side_cbn. rewrite H2.
  unfold size at 1 2. rewrite Z.sub_diag. side_cbn. done.
Qed.
Lemma bin_data f s c it value rest s2 : state (base c) = conn_nread -> rlbytes (base c) = size value -> substate c = bin_read_set_value -> c_item (base c) = Some it ->
  write_data it (ritem (base c)) value s = Ret tt s2 ->
  bin_converse (S f) (value ++ rest) (s, c) = (complete ;;; bin_converse f rest) (s2, set_base (filled (size value) (base c)) c).
Proof.
  intros H1 H2 H3 H4 Hw. cbn [Binary.bin_converse]. bin_steps. rewrite H1. bin_steps. rewrite H2, (proj2 (Z.ltb_ge _ _)) by apply size_nonneg.
  unfold size at 1 2. rewrite Nat2Z.id, take_app_length, drop_app_length. unfold bin_fill. bin_steps. rewrite H3, bool_decide_eq_true_2 by done.
  assert (Hf : fill value (s, base c) = Ret tt (s2, filled (size value) (base c))) by by rewrite (fill_eq _ s _ it H4), Hw. rewrite (bind_on_side _ _ _ _ _ _ _ Hf). bin_steps.
  change (rlbytes _) with (rlbytes (base c) - size value). rewrite H2, Z.sub_diag. done.
Qed.
(** An answer goes out; the item of it is given back. *)
Definition sent_off (c : bconn) : bconn := set_base (set_state (write_and_go (base c)) (set_ilist [] (set_item None (set_wbuf [] (base c))))) c.
Lemma bin_send f s c bytes s' : state (base c) = conn_mwrite -> ilist (base c) = [] -> match c_item (base c) with Some it => item_remove it s = Ret tt s' | None => s' = s end ->
  bin_converse (S f) bytes (s, c) = after_bin (wbuf (base c)) (bin_converse f bytes) (s', sent_off c).
Proof.
  intros H1 H2 H3. cbn [Binary.bin_converse]. bin_steps. rewrite H1. bin_steps.
  assert (Hrel : release_conn (s, set_wbuf [] (base c)) = Ret tt (s', set_ilist [] (set_item None (set_wbuf [] (base c))))).
  { destruct c as [[st wg nr w it cm ri rl sb il] sub h cas pk]. cbn [base state wbuf c_item ilist] in *. subst il. unfold release_conn, bind at 1, conn_is at 1, gets at 1. cbn [snd c_item set_wbuf].
    destruct it as [it|]; [|by subst]. unfold bind at 1, bind at 1. rewrite (on_store_eq _ s _ _ _ H3). reflexivity. }
  rewrite (bind_on_side release_conn _ s (set_base (set_wbuf [] (base c)) c) tt s' _ Hrel). cbv beta. bin_steps. reflexivity.
Qed.
(** A value that there is no place for is left out. *)
Lemma bin_skip f s c value rest : state (base c) = conn_swallow -> sbytes (base c) = size value ->
  bin_converse (S f) (value ++ rest) (s, c) = bin_converse f rest (s, set_base (set_state conn_new_cmd (set_sbytes 0 (base c))) c).
Proof.
  intros H1 H2. cbn [Binary.bin_converse]. bin_steps. rewrite H1. bin_steps. rewrite H2. cbv zeta. unfold size at 1 2. rewrite Nat2Z.id, take_app_length.
  change (on_side (swallow ?n)) with (put_side (fun c => set_sbytes (sbytes c - n) c)). bin_steps. side_cbn. rewrite H2. unfold size. rewrite Z.sub_diag. cbn [Z.eqb]. cbv iota. bin_steps. side_cbn.
  by rewrite drop_app_length.
Qed.

(** ** Dispatch *)

Definition body_for (q : bin_request) : list ascii := bin_extras q ++ bin_key q.
Definition substate_for (q : bin_request) : bin_substates :=
  match q with
  | BStore _ _ _ _ _ _ _ => bin_reading_set_header
  | BGet None _ _ _ => bin_reading_get_key
  | BGet (Some _) _ _ _ | BTouch _ _ => bin_reading_touch_key
  | BDelete _ _ _ => bin_reading_del_header
  | BFlush _ _ => bin_read_flush_exptime
  | BNoop | BVersion => bin_no_state
  end.
Definition dispatched (opaque : list ascii) (q : bin_request) (c : bconn) : bconn :=
  MkBconn (set_noreply (bin_quiet q) (set_cmd (bin_cmd q) (base (at_header c)))) bin_no_state (header_for opaque q) 0 (packet c).
Definition awaiting (opaque : list ascii) (q : bin_request) (c : bconn) : bconn :=
  MkBconn (set_state conn_nread (set_nread 0 (size (body_for q)) (base (dispatched opaque q c)))) (substate_for q) (header_for opaque q) 0 [].
Ltac closed_tests := repeat match goal with
  | |- context [?a =? ?b] => let v := eval vm_compute in (a =? b) in match v with true => change (a =? b) with true | false => change (a =? b) with false end
  end; cbn [orb andb negb]; cbv iota.
Ltac sizes := unfold body_for, header_for; side_cbn; cbn [bin_extras bin_key bin_value]; unfold joining; closed_tests; rewrite ?size_app, ?size_be; change (size []) with 0.
Ltac dispatch_tac key H :=
  closed_tests;
  try match goal with |- (if ?b then _ else _) _ = _ => replace b with true by (sizes; clear - H; try symmetry; rewrite ?andb_true_iff; repeat split; try first [apply negb_true_iff, Z.eqb_neq | apply Z.leb_le | apply Z.eqb_eq | apply Z.ltb_lt]; lia) end;
  match goal with |- bin_read_key _ ?n _ = _ => match goal with |- context [size (body_for ?q)] => replace (size (body_for q)) with (size key + n) by (sizes; lia) end end;
  unfold bin_read_key; bin_steps; reflexivity.
Lemma dispatch_for opaque q b rest s c : bin_ok b q -> length opaque = 4%nat -> q <> BNoop -> q <> BVersion ->
  read_packet opts (write_header (header_for opaque q) ++ rest) (s, at_header c) = Ret tt (s, awaiting opaque q c).
Proof.
  intros H Ho N1 N2. pose proof (header_for_ok b opaque q H Ho) as Hh. unfold read_packet. rewrite (header_back _ rest Hh). bin_steps.
  change (negb (p_magic (header_for opaque q) =? PROTOCOL_BINARY_REQ)) with false. cbv iota. bin_steps. side_cbn. unfold dispatch_bin_command. bin_steps. side_cbn.
  assert (Hk : KEY_MAX_LENGTH <? p_keylen (header_for opaque q) = false) by (apply Z.ltb_ge; pose proof (key_small b q H); done).
  rewrite Hk. bin_steps. side_cbn.
  destruct q as [comm quietly key flags exptime cas value|[t|] wk quietly key|key t|quietly key cas|quietly [t|]| |]; try done; cbn [bin_ok] in H; unfold awaiting.
  - destruct H as ((Hc & Hj) & H & _). unfold a_key in H. pose proof (size_nonneg value) as Hv. apply (conj Hv) in H. destruct (comm_cases comm Hc) as [-> |[-> |[-> |[-> | ->]]]]; destruct quietly; dispatch_tac key H.
  - destruct H as [H Ht]. unfold a_key in H. destruct wk, quietly; dispatch_tac key H.
  - destruct H as [H Ht]. unfold a_key in H. destruct wk, quietly; dispatch_tac key H.
  - destruct H as [H Ht]. unfold a_key in H. dispatch_tac key H.
  - destruct H as [H Ht]. unfold a_key in H. destruct quietly; dispatch_tac key H.
  - destruct quietly; dispatch_tac (@nil ascii) H.
  - destruct quietly; dispatch_tac (@nil ascii) H.
Qed.

(** ** Requests without a value *)

(** The rest of the packet is there. *)
Definition arrived (opaque : list ascii) (q : bin_request) (c : bconn) : bconn :=
  MkBconn (set_state conn_nread (set_nread 0 0 (base (dispatched opaque q c)))) (substate_for q) (header_for opaque q) 0 (body_for q).
Lemma request_arrives opaque q b f rest s c : bin_ok b q -> length opaque = 4%nat -> q <> BNoop -> q <> BVersion -> bin_ready c ->
  bin_converse (3 + f) (packet_for opaque q ++ rest) (s, c) = (complete ;;; bin_converse f (bin_value q ++ rest)) (s, arrived opaque q c).
Proof.
  intros H Ho N1 N2 R. unfold packet_for. rewrite <- !app_assoc. change (3 + f)%nat with (S (S (S f))). rewrite (bin_header opaque q b _ s c _ (awaiting opaque q c)) by (done || by apply (dispatch_for opaque q b)).
  rewrite (app_assoc (bin_extras q)). rewrite bin_body; [done | done | done | by destruct q as [|[]| | | | |]].
Qed.
Definition bin_serves (opaque : list ascii) (q : bin_request) (s : store) (c : bconn) (o : bin_outcome) (s' : store) (left : list ascii) : Prop :=
  exists n c', (n <= 8)%nat /\ bin_ready c' /\ forall f rest,
    bin_converse (n + f) (packet_for opaque q ++ rest) (s, c) = after_bin (say (opcode q) opaque o) (bin_converse f (left ++ rest)) (s', c').

Lemma after_nothing (m : BS (list ascii)) p : after_bin [] m p = m p.
Proof. unfold after_bin, bind. by destruct (m p). Qed.
(** The answer is on its way; or there is none. *)
Record told (w : list ascii) (go : conn_states) (c : bconn) : Prop := {
  tl_state : state (base c) = conn_mwrite; tl_wbuf : wbuf (base c) = w; tl_go : write_and_go (base c) = go; tl_ilist : ilist (base c) = []
}.
Lemma bin_serves_told opaque q b s c o s1 c1 s' : bin_ok b q -> length opaque = 4%nat -> q <> BNoop -> q <> BVersion -> bin_ready c -> bin_value q = [] ->
  complete (s, arrived opaque q c) = Ret tt (s1, c1) -> told (say (opcode q) opaque o) conn_new_cmd c1 -> sbytes (base c1) = 0 ->
  match c_item (base c1) with Some it => item_remove it s1 = Ret tt s' | None => s' = s1 end -> bin_serves opaque q s c o s' [].
Proof.
  intros H Ho N1 N2 R Hv Hc [T1 T2 T3 T4] Hs Hi. exists 4%nat, (sent_off c1). split; [lia |]. split; [|intros f rest].
  - unfold sent_off. by constructor.
  - change (4 + f)%nat with (3 + S f)%nat. rewrite (request_arrives opaque q b) by done. rewrite (bind_eq _ _ _ _ _ Hc), Hv. cbn [app]. rewrite (bin_send _ s1 c1 rest s') by done. by rewrite T2.
Qed.
Lemma serves_silent opaque q b s c s' c1 : bin_ok b q -> length opaque = 4%nat -> q <> BNoop -> q <> BVersion -> bin_ready c -> bin_value q = [] ->
  complete (s, arrived opaque q c) = Ret tt (s', c1) -> bin_ready c1 -> bin_serves opaque q s c Silence s' [].
Proof.
  intros H Ho N1 N2 R Hv Hc R1. exists 3%nat, c1. split; [lia |]. split; [done |]. intros f rest. rewrite (request_arrives opaque q b) by done. rewrite (bind_eq _ _ _ _ _ Hc), Hv. cbn [app say]. by rewrite after_nothing.
Qed.

Definition speaking (w : list ascii) (go : conn_states) (c : bconn) : bconn := set_base (set_write_and_go go (set_state conn_mwrite (set_wbuf w (base c)))) c.
Lemma error_says err s c : c_cas c = 0 -> write_bin_error err None 0 (s, c) = Ret tt (s, speaking (say (p_opcode (header c)) (p_opaque (header c)) (failure err)) conn_new_cmd c).
Proof. intros H. unfold write_bin_error, add_bin_header, add_iov. bin_steps. change (0 <? 0) with false. cbv iota. unfold put_side, on_side, zoom, conn_set, modify. side_cbn. rewrite H. reflexivity. Qed.
Lemma response_says d s c : cmd (base c) <> CMD_GET -> cmd (base c) <> CMD_GETK ->
  write_bin_response d 0 0 (s, c) = Ret tt (s, if noreply (base c) then set_base (set_state conn_new_cmd (base c)) c
    else speaking (say (p_opcode (header c)) (p_opaque (header c)) (Ok (c_cas c) [] [] d)) conn_new_cmd c).
Proof.
  intros H1 H2. unfold write_bin_response, add_bin_header, add_iov. bin_steps. rewrite (proj2 (Z.eqb_neq _ _) H1), (proj2 (Z.eqb_neq _ _) H2), !orb_false_r. by destruct (noreply (base c)).
Qed.
Lemma key_arrived e k : drop (length (e ++ k) - Z.to_nat (size k)) (e ++ k) = k.
Proof. unfold size. rewrite Nat2Z.id, length_app, Nat.add_sub. apply drop_app_length. Qed.
Lemma told_speaking w go c : ilist (base c) = [] -> told w go (speaking w go c).
Proof. by constructor. Qed.

Lemma serves_flush opaque quietly t s c r s' : bin_ok (flush_enabled opts) (BFlush quietly t) -> length opaque = 4%nat -> bin_ready c ->
  flush_all started (default 0 t) s = Ret r s' -> bin_serves opaque (BFlush quietly t) s c (success quietly 0) s' [].
Proof.
  intros H Ho R Hf. assert (Hc : complete (s, arrived opaque (BFlush quietly t) c) = write_bin_response [] 0 0 (s', arrived opaque (BFlush quietly t) c)).
  { unfold complete_nread_binary. bin_steps. change (substate _) with bin_read_flush_exptime. cbv iota. unfold process_bin_flush. rewrite (proj1 H). cbn [negb]. cbv iota. bin_steps.
    destruct t as [t|].
    - change (p_extlen _ =? 4) with true. cbv iota. unfold extras. bin_steps. change (part 0 4 (packet _)) with (be 4 t). rewrite unbe_small by apply H. by rewrite (bind_in_store _ _ _ _ _ _ Hf).
    - change (p_extlen _ =? 4) with false. cbv iota. bin_steps. by rewrite (bind_in_store _ _ _ _ _ _ Hf). }
  rewrite response_says in Hc by (by destruct quietly, t). destruct quietly.
  - eapply (serves_silent _ _ _ _ _ _ _ H Ho); [done | done | done | done | exact Hc |]. destruct R. by constructor.
  - eapply (bin_serves_told _ _ _ _ _ _ _ _ _ H Ho); [done | done | done | done | exact Hc | apply told_speaking, R | apply R |]. cbn. by rewrite (br_item _ R).
Qed.
Lemma in_store_eq {A} (m : SM A) s a s' c : m s = Ret a s' -> in_store m (s, c) = Ret a (s', c).
Proof. intros H. unfold in_store, on_side, on_store, zoom. cbn [fst snd]. rewrite H. cbn [fst snd]. by rewrite set_base_same. Qed.
Lemma serves_delete opaque quietly key cas s c r s' : bin_ok (flush_enabled opts) (BDelete quietly key cas) -> length opaque = 4%nat -> bin_ready c ->
  bin_delete hash key cas s = Ret r s' ->
  bin_serves opaque (BDelete quietly key cas) s c (match r with Some true => success quietly 0 | Some false => failure KEY_EEXISTS | None => failure KEY_ENOENT end) s' [].
Proof.
  intros H Ho R Hd. set (q := BDelete quietly key cas) in *. set (c0 := arrived opaque q c). unfold bin_delete in Hd. apply bind_ret_inv in Hd as (o & s1 & Hg & Hd).
  assert (Hc : complete (s, c0) = match o with
    | Some it => ((same <- (if cas =? 0 then ret true else i <- in_store (hdr_of it) ;; ret (cas =? ITEM_get_cas i)) ;;
      (if same : bool then in_store (item_unlink hash it) ;;; write_bin_response [] 0 0 else write_bin_error KEY_EEXISTS None 0) ;;; in_store (item_remove it)) : BS unit) (s1, c0)
    | None => write_bin_error KEY_ENOENT None 0 (s1, c0) end).
  { unfold complete_nread_binary. bin_steps. change (substate c0) with bin_reading_del_header. cbv iota. unfold process_bin_delete, binary_get_key. bin_steps.
    change (packet c0) with ([] ++ key). change (p_keylen (header c0)) with (size key). rewrite key_arrived. rewrite (bind_in_store _ _ _ _ _ _ Hg). by destruct o. }
  destruct o as [it|].
  - apply bind_ret_inv in Hd as (same & s2 & Hsame & Hd). apply bind_ret_inv in Hd as (u & s3 & Hu & Hd). apply bind_ret_inv in Hd as (u' & s4 & Hrm & [= <- <-]). destruct u, u'.
    assert (Hs : forall (k : bool -> BS unit), bind (if cas =? 0 then ret true else i <- in_store (hdr_of it) ;; ret (cas =? ITEM_get_cas i)) k (s1, c0) = k same (s2, c0)).
    { intros k. destruct (cas =? 0); [by injection Hsame as <- <- |]. apply bind_ret_inv in Hsame as (i & s0 & Hi & [= <- <-]). rewrite bind_bind. by rewrite (bind_in_store _ _ _ _ _ _ Hi). }
    rewrite Hs in Hc. destruct same.
    + rewrite bind_bind, (bind_in_store _ _ _ _ _ _ Hu) in Hc. rewrite (bind_eq _ _ _ _ _ (response_says [] s3 c0 ltac:(by destruct quietly) ltac:(by destruct quietly))) in Hc. rewrite (in_store_eq _ _ _ _ _ Hrm) in Hc.
      destruct quietly.
      * eapply (serves_silent _ _ _ _ _ _ _ H Ho); [done | done | done | done | exact Hc |]. destruct R. by constructor.
      * eapply (bin_serves_told _ _ _ _ _ _ _ _ _ H Ho); [done | done | done | done | exact Hc | apply told_speaking, R | apply R |]. cbn. by rewrite (br_item _ R).
    + injection Hu as <-. rewrite (bind_eq _ _ _ _ _ (error_says KEY_EEXISTS s2 c0 eq_refl)), (in_store_eq _ _ _ _ _ Hrm) in Hc.
      eapply (bin_serves_told _ _ _ _ _ _ _ _ _ H Ho); [done | done | done | done | exact Hc | apply told_speaking, R | apply R |]. cbn. by rewrite (br_item _ R).
  - injection Hd as <- <-. rewrite error_says in Hc by done.
    eapply (bin_serves_told _ _ _ _ _ _ _ _ _ H Ho); [done | done | done | done | exact Hc | apply told_speaking, R | apply R |]. cbn. by rewrite (br_item _ R).
Qed.

(** Look-ups: with a new time of expiry, with the key, without the value. *)
Definition look_request (exptime : option Z) (touch_only with_key quietly : bool) (key : list ascii) : bin_request :=
  if touch_only then BTouch key (default 0 exptime) else BGet exptime with_key quietly key.
Definition look_answer (touch_only with_key quietly : bool) (key : list ascii) (e : option entry) : bin_outcome :=
  match e with
  | Some e => if touch_only then Ok (e_cas e) (be 4 (suffix_flags (e_suffix e))) [] [] else found with_key key e
  | None => missing with_key quietly key
  end.
Lemma serves_look opaque exptime touch_only with_key quietly key s c r e s' : let q := look_request exptime touch_only with_key quietly key in
  bin_ok (flush_enabled opts) q -> length opaque = 4%nat -> bin_ready c -> (touch_only = true -> is_Some exptime /\ with_key = false /\ quietly = false) ->
  bin_look hash started exptime key s = Ret r s' -> match e with Some e => read_as key e r | None => r = None end ->
  bin_serves opaque q s c (look_answer touch_only with_key quietly key e) s' [].
Proof.
  intros q H Ho R Ht Hl He. set (c0 := arrived opaque q c). unfold bin_look in Hl. apply bind_ret_inv in Hl as (o & s1 & Hg & Hl).
  assert (Hq : q <> BNoop /\ q <> BVersion /\ bin_value q = [] /\ bin_quiet q = quietly /\ bin_key q = key) by (unfold q, look_request; destruct touch_only; [by destruct (Ht eq_refl) as (_ & -> & ->) | done]).
  destruct Hq as (N1 & N2 & Hv & Hqu & Hk).
  assert (Hcmd : (bin_cmd q =? CMD_TOUCH = touch_only) /\ (bin_cmd q =? CMD_GETK) || (bin_cmd q =? CMD_GATK) = with_key /\
    (bin_cmd q =? CMD_TOUCH) || (bin_cmd q =? CMD_GAT) || (bin_cmd q =? CMD_GATK) = bool_decide (is_Some exptime)).
  { unfold q, look_request. destruct touch_only; [destruct (Ht eq_refl) as ([t ->] & -> & ->); done |]. destruct exptime, with_key, quietly; done. }
  destruct Hcmd as (C1 & C2 & C3).
  assert (Hst : forall (k : option ptr -> BS unit), bind (if bool_decide (is_Some exptime) then exptime <- extras 0 4 ;; rt <- in_store (gets (realtime started exptime)) ;; in_store (item_touch hash key rt) else in_store (item_get hash key)) k (s, c0) = k o (s1, c0)).
  { intros k. destruct exptime as [t|]; cbn [is_Some]; [rewrite bool_decide_eq_true_2 by by eexists | rewrite bool_decide_eq_false_2 by by intros [? ?]].
    - unfold extras. bin_steps. assert (Hp : part 0 4 (packet c0) = be 4 t) by (unfold q, look_request; by destruct touch_only). rewrite Hp, unbe_small by (unfold q, look_request in H; destruct touch_only; apply H).
      apply bind_ret_inv in Hg as (rt & s0 & [= <- <-] & Hg). rewrite (bind_in_store (gets (realtime started t)) _ s _ s c0 eq_refl). by rewrite (bind_in_store _ _ _ _ _ _ Hg).
    - by rewrite (bind_in_store _ _ _ _ _ _ Hg). }
  assert (Hc : complete (s, c0) = process_bin_get_or_touch hash started (s, c0)) by (unfold complete_nread_binary; bin_steps; unfold c0, q, look_request; by destruct touch_only, exptime).
  unfold process_bin_get_or_touch, binary_get_key in Hc. rewrite bind_bind, bind_b_is, bind_bind, bind_b_is, bind_ret in Hc. change (packet c0) with (bin_extras q ++ bin_key q) in Hc. change (p_keylen (header c0)) with (size (bin_key q)) in Hc.
  rewrite key_arrived, Hk, bind_side_is in Hc. change (cmd (base c0)) with (bin_cmd q) in Hc. cbv zeta in Hc. rewrite C3, C2, C1, Hst in Hc. destruct o as [it|].
  - apply bind_ret_inv in Hl as (k & s2 & Hik & Hl). apply bind_ret_inv in Hl as (i & s3 & Hi & Hl). apply bind_ret_inv in Hl as (d & s4 & Hd & Hl). apply bind_ret_inv in Hl as ([] & s5 & Hu & Hl).
    apply bind_ret_inv in Hl as ([] & s6 & Hrm & [= <- <-]). rewrite (bind_in_store _ _ _ _ _ _ Hik), (bind_in_store _ _ _ _ _ _ Hi), (bind_in_store _ _ _ _ _ _ Hd), (bind_in_store _ _ _ _ _ _ Hu) in Hc.
    destruct e as [e|]; [|done]. destruct He as (i' & [= -> -> ->] & Hsu & Hca & Hnb & Hlen). rewrite Hsu, Hca, Hnb, take_ge in Hc by done.
    assert (Hsz : size (take (length (e_bytes e) - 2) (e_bytes e)) = size (e_bytes e) - 2) by (unfold size; rewrite length_take; lia).
    set (w := say (opcode q) opaque (look_answer touch_only with_key quietly key (Some e))).
    assert (Hr : exists w', complete (s, c0) = Ret tt (s5, set_base (set_item (Some it) (set_write_and_go conn_new_cmd (set_state conn_mwrite (set_wbuf w' (base c0))))) c0) /\ w' = w).
    { rewrite Hc. assert (Hop : p_opcode (header c0) = opcode q /\ p_opaque (header c0) = opaque) by done. destruct Hop as [O1 O2].
      unfold add_iov. bin_steps. rewrite O1, O2. unfold w, look_answer, found, say.
      destruct touch_only; [destruct (Ht eq_refl) as (_ & -> & ->) | destruct with_key]; cbn [negb andb]; cbv iota; bin_steps; (eexists; split; [reflexivity |]); side_cbn; rewrite ?size_be, ?Hsz; change (size []) with 0;
        rewrite <- ?app_assoc; cbn [app]; rewrite ?app_nil_r; repeat (f_equal; try (unfold size; lia)). }
    destruct Hr as (w' & Hr & ->).
    eapply (bin_serves_told _ _ _ _ _ _ _ _ _ H Ho N1 N2 R Hv Hr); [|apply R | exact Hrm]. constructor; try done. apply R.
  - injection Hl as <- <-. destruct e as [e|]; [by destruct He as (? & [=] & _) |]. rewrite bind_side_is in Hc. change (noreply (base c0)) with (bin_quiet q) in Hc. rewrite Hqu in Hc. destruct quietly.
    + eapply (serves_silent _ _ _ _ _ _ _ H Ho N1 N2 R Hv Hc). destruct R. by constructor.
    + destruct with_key.
      * set (w := say (opcode q) opaque (look_answer touch_only true false key None)).
        assert (Hr : exists w', complete (s, c0) = Ret tt (s1, speaking w' conn_new_cmd c0) /\ w' = w).
        { rewrite Hc. unfold add_bin_header, add_iov. bin_steps. eexists. split; [reflexivity |]. unfold w, look_answer, missing, say. side_cbn. change (size []) with 0. rewrite app_nil_r. repeat (f_equal; try (unfold size; lia)). }
        destruct Hr as (w' & Hr & ->).
        eapply (bin_serves_told _ _ _ _ _ _ _ _ _ H Ho N1 N2 R Hv Hr); [apply told_speaking, R | apply R |]. cbn. by rewrite (br_item _ R).
      * rewrite error_says in Hc by done. eapply (bin_serves_told _ _ _ _ _ _ _ _ _ H Ho N1 N2 R Hv Hc); [apply told_speaking, R | apply R |]. cbn. by rewrite (br_item _ R).
Qed.

(** ** Without a body *)

Definition is_stored (r : store_item_type) : bool := match r with STORED => true | _ => false end.
Lemma hdr_of_same it s i s' : hdr_of it s = Ret i s' -> s' = s.
Proof. unfold hdr_of, get_or_undef. destruct (_ !! it); [by intros [= _ <-] | done]. Qed.

(** ** Storing *)

Definition reading_value (it : ptr) (comm n : Z) (c : bconn) : bconn :=
  MkBconn (set_state conn_nread (set_nread 0 n (set_item (Some it) (set_cmd comm (base c))))) bin_read_set_value (header c) (c_cas c) (packet c).
Lemma read_value_eq it comm n s c : read_value it comm n (s, c) = Ret tt (s, reading_value it comm n c).
Proof. reflexivity. Qed.


Section Store.
Variable opaque : list ascii.
Variables (comm : Z) (quietly : bool) (key : list ascii) (flags exptime cas : Z) (value : list ascii).
Let q : bin_request := BStore comm quietly key flags exptime cas value.
Hypothesis q_ok : bin_ok (flush_enabled opts) q.
Hypothesis opaque_length : length opaque = 4%nat.
Variables (s : store) (c : bconn).
Hypothesis c_ready : bin_ready c.
Let c0 : bconn := arrived opaque q c.

Lemma value_length : i32 (p_bodylen (header c0) - (size key + p_extlen (header c0))) = size value /\ i32 (size value + 2) = size value + 2.
Proof.
  pose proof q_ok as (_ & _ & _ & _ & _ & Hv). pose proof (size_nonneg value). unfold c0, arrived, header_for. side_cbn. change (bin_key q) with key. change (bin_value q) with value.
  replace (size (bin_extras q) + size key + size value - (size key + size (bin_extras q))) with (size value) by lia. rewrite !i32_small by lia. done.
Qed.
(** As far as there is an item, or none. *)
Lemma store_begins rt r s1 s2 : realtime started exptime s = rt -> item_alloc hash lockable junk key (i32 flags) rt (size value + 2) s = Ret r s1 ->
  match r with Some it => upd_hdr it (ITEM_set_cas cas) s1 = Ret tt s2 | None => s2 = s1 end ->
  complete (s, c0) = match r with
    | Some it => (if joining comm then read_value it comm (size value) else i <- in_store (hdr_of it) ;; read_value it (if ITEM_get_cas i =? 0 then comm else NREAD_CAS) (size value)) (s2, c0)
    | None => no_item hash key (i32 flags) (size value) "Out of memory allocating item" (comm =? NREAD_SET) (s2, c0)
    end.
Proof.
  intros Hrt Ha Hu. pose proof value_length as [V1 V2]. pose proof q_ok as ((Hc & Hj) & _ & Hf & He & _).
  unfold complete_nread_binary. bin_steps. change (substate c0) with bin_reading_set_header. cbv iota. bin_steps. change (cmd (base c0)) with (bin_cmd q).
  assert (Hk : drop (length (packet c0) - Z.to_nat (p_keylen (header c0))) (packet c0) = key) by apply key_arrived.
  assert (Hq : ((bin_cmd q =? CMD_APPEND) || (bin_cmd q =? CMD_PREPEND) = joining comm /\ bin_cmd q =? CMD_SET = (comm =? NREAD_SET)) /\
    (if joining comm then if bin_cmd q =? CMD_APPEND then ret NREAD_APPEND else if bin_cmd q =? CMD_PREPEND then ret NREAD_PREPEND else undef
     else if bin_cmd q =? CMD_ADD then ret NREAD_ADD else if bin_cmd q =? CMD_SET then ret NREAD_SET else if bin_cmd q =? CMD_REPLACE then ret NREAD_REPLACE else undef) = (ret comm : BS Z)).
  { unfold q. destruct (comm_cases comm Hc) as [-> |[-> |[-> |[-> | ->]]]]; by destruct quietly. }
  destruct Hq as [[Q1 Q2] Q3]. rewrite Q1. destruct (joining comm) eqn:Ej.
  - destruct (Hj eq_refl) as [Ef Ee]. unfold process_bin_append_prepend, binary_get_key. bin_steps. rewrite Hk.
    assert (Hvl : i32 (p_bodylen (header c0) - Z.of_nat (length key)) = size value).
    { rewrite <- V1. f_equal. unfold c0, arrived, header_for, q. side_cbn. cbn [bin_extras]. rewrite Ej. change (size []) with 0. unfold size. lia. }
    rewrite Hvl, V2. assert (Ha0 : item_alloc hash lockable junk key 0 0 (size value + 2) s = Ret r s1) by (rewrite <- Ha, Ef, <- Hrt, Ee; reflexivity).
    rewrite (bind_in_store _ _ _ _ _ _ Ha0). destruct r as [it|].
    + rewrite (bind_in_store _ _ _ _ _ _ Hu). bin_steps. change (cmd (base c0)) with (bin_cmd q). by rewrite Q3.
    + rewrite Hu, Ef. assert (Hne : comm =? NREAD_SET = false) by (apply Z.eqb_neq; intros ->; discriminate Ej). by rewrite Hne.
  - unfold process_bin_update, binary_get_key, extras. bin_steps. rewrite Hk.
    assert (Hp : packet c0 = be 4 flags ++ be 4 exptime ++ key) by (unfold c0, arrived, body_for, q; side_cbn; cbn [bin_extras bin_key]; rewrite Ej; by rewrite <- app_assoc).
    assert (P1 : part 0 4 (packet c0) = be 4 flags) by by rewrite Hp. assert (P2 : part 4 4 (packet c0) = be 4 exptime) by by rewrite Hp. rewrite P1, P2, !unbe_small by done.
    fold (size key). rewrite V1, V2. rewrite (bind_in_store (gets (realtime started exptime)) _ s _ s c0 eq_refl), Hrt, (bind_in_store _ _ _ _ _ _ Ha). change (cmd (base c0)) with (bin_cmd q). destruct r as [it|].
    + rewrite (bind_in_store _ _ _ _ _ _ Hu), Q3. by bin_steps.
    + by rewrite Hu, Q2.
Qed.
Lemma accepted rt it s1 s2 i :
  realtime started exptime s = rt -> item_alloc hash lockable junk key (i32 flags) rt (size value + 2) s = Ret (Some it) s1 ->
  upd_hdr it (ITEM_set_cas cas) s1 = Ret tt s2 -> hdr_of it s2 = Ret i s2 ->
  let comm' := if joining comm || (ITEM_get_cas i =? 0) then comm else NREAD_CAS in
  complete (s, c0) = Ret tt (s2, reading_value it comm' (size value) c0).
Proof.
  intros Hrt Ha Hu Hi. rewrite (store_begins rt (Some it) s1 s2 Hrt Ha Hu). destruct (joining comm); cbn [orb]; [by rewrite read_value_eq |]. by rewrite (bind_in_store _ _ _ _ _ _ Hi), read_value_eq.
Qed.
Lemma refused rt s1 s2 s3 fits :
  realtime started exptime s = rt -> item_alloc hash lockable junk key (i32 flags) rt (size value + 2) s = Ret None s1 ->
  item_size_ok (size key) (i32 flags) (size value + 2) s1 = Ret fits s2 ->
  (if comm =? NREAD_SET then old <- item_get hash key ;; match old with Some o => item_unlink hash o ;;; item_remove o | None => ret tt end else ret tt) s2 = Ret tt s3 ->
  exists c1, complete (s, c0) = Ret tt (s3, c1) /\ told (say (opcode q) opaque (no_place fits)) conn_swallow c1 /\ c_item (base c1) = None /\ sbytes (base c1) = if fits then 0 else size value.
Proof.
  intros Hrt Ha Hok Hd. pose proof value_length as [V1 V2]. pose proof q_ok as ((Hc & Hj) & _ & Hf & He & _).
  assert (Hno : exists c1, no_item hash key (i32 flags) (size value) "Out of memory allocating item" (comm =? NREAD_SET) (s1, c0) = Ret tt (s3, c1) /\
    told (say (opcode q) opaque (no_place fits)) conn_swallow c1 /\ c_item (base c1) = None /\ sbytes (base c1) = if fits then 0 else size value).
  { unfold no_item. fold (size key). rewrite V2, (bind_in_store _ _ _ _ _ _ Hok). clear Ha Hok.
    assert (Hdrop : forall (k : unit -> BS unit) c1, bind (if comm =? NREAD_SET then in_store (old <- item_get hash key ;; match old with Some o => item_unlink hash o ;;; item_remove o | None => ret tt end) else ret tt) k (s2, c1) = k tt (s3, c1)).
    { intros k c1. destruct (comm =? NREAD_SET); [by rewrite (bind_in_store _ _ _ _ _ _ Hd) | by injection Hd as <-]. }
    destruct fits.
    - unfold bin_out_of_memory, write_bin_error, add_bin_header, add_iov. change (0 <? 0) with false. cbv iota. bin_steps. rewrite Hdrop. eexists. split; [reflexivity |]. split; [constructor; try done; apply c_ready |]. split; apply c_ready.
    - unfold write_bin_error, add_bin_header, add_iov. bin_steps. destruct (Z.ltb_spec 0 (size value)) as [Hv|Hv]; bin_steps; rewrite Hdrop; (eexists; split; [reflexivity |]); (split; [constructor; try done; apply c_ready |]); (split; [apply c_ready |]); [done |].
      pose proof (size_nonneg value). replace (size value) with 0 by lia. apply c_ready. }
  destruct Hno as (c1 & Hno & Hc1). exists c1. split; [|exact Hc1]. by rewrite (store_begins rt None s1 s1 Hrt Ha eq_refl).
Qed.
Lemma completed c1 it comm' sa h s1 r s2 s3 : substate c1 = bin_read_set_value -> c_item (base c1) = Some it -> cmd (base c1) = comm' -> c_cas c1 = 0 -> NREAD_ADD <= comm' <= NREAD_CAS ->
  hdr_of it sa = Ret h sa -> write_data it (it_nbytes h - 2) [CR; LF] sa = Ret tt s1 -> store_item hash lockable junk it comm' s1 = Ret r s2 -> (r.1 <> STORED -> r.2 = None) -> item_remove it s2 = Ret tt s3 ->
  exists c2, complete (sa, c1) = Ret tt (s3, c2) /\ (c_item (base c2) = None /\ sbytes (base c2) = sbytes (base c1) /\ ilist (base c2) = ilist (base c1)) /\
    if noreply (base c1) && is_stored r.1 then state (base c2) = conn_new_cmd /\ wbuf (base c2) = wbuf (base c1)
    else state (base c2) = conn_mwrite /\ write_and_go (base c2) = conn_new_cmd /\ wbuf (base c2) = say (p_opcode (header c1)) (p_opaque (header c1)) (store_answer false comm' r).
Proof.
  intros H1 H2 H3 H4 Hcomm Hh Hw Hst Hr Hrm. unfold complete_nread_binary. bin_steps. rewrite H1. unfold complete_update_bin. bin_steps. rewrite H2.
  change (bind (get_or_undef (fun _ => Some it)) ?k (sa, c1)) with (k it (sa, c1)). cbv beta. bin_steps. rewrite H3. rewrite (bind_in_store _ _ _ _ _ _ Hh), (bind_in_store _ _ _ _ _ _ Hw). unfold bin_store_item. bin_steps. rewrite (bind_in_store _ _ _ _ _ _ Hst).
  destruct r as [r o]. cbn [fst snd] in *. destruct r;
    try by (rewrite (Hr ltac:(done)); bin_steps; rewrite (bind_eq _ _ _ _ _ (error_says _ s2 c1 H4)), (bind_in_store _ _ _ _ _ _ Hrm), andb_false_r; eexists; split; [reflexivity |]).
  - set (c1' := match o with Some cas => set_ccas cas c1 | None => c1 end).
    assert (Hp : forall k : unit -> BS unit, bind (match o with Some cas => put (set_ccas cas) | None => ret tt end) k (s2, c1) = k tt (s2, c1')) by (intros k; by destruct o). bin_steps. rewrite Hp. bin_steps.
    assert (Hb : base c1' = base c1 /\ header c1' = header c1 /\ c_cas c1' = default 0 o) by (unfold c1'; by destruct o). destruct Hb as (B1 & B2 & B3).
    rewrite (bind_eq _ _ _ _ _ (response_says [] s2 c1' ltac:(rewrite B1, H3; unfold CMD_GET, NREAD_ADD in *; lia) ltac:(rewrite B1, H3; unfold CMD_GETK, NREAD_CAS in *; lia))), (bind_in_store _ _ _ _ _ _ Hrm).
    rewrite B1, B2, B3. destruct (noreply (base c1)); cbn [andb]; (eexists; split; [reflexivity |]); unfold speaking; rewrite ?B1; done.
Qed.

Lemma serves_store r s' :
  bin_store hash lockable junk started comm key flags exptime cas value s = Ret r s' ->
  match r with
  | inl (comm', r) => NREAD_ADD <= comm' <= NREAD_CAS -> (r.1 <> STORED -> r.2 = None) -> bin_serves opaque q s c (store_answer quietly comm' r) s' []
  | inr fits => bin_serves opaque q s c (no_place fits) s' (if fits then value else [])
  end.
Proof.
  intros Hs. unfold bin_store in Hs. apply bind_ret_inv in Hs as (rt & sx & [= Hrt <-] & Hs). apply bind_ret_inv in Hs as ([it|] & s1 & Ha & Hs).
  - apply bind_ret_inv in Hs as ([] & s2 & Hu & Hs). apply bind_ret_inv in Hs as (i & s3 & Hi & Hs). pose proof (hdr_of_same _ _ _ _ Hi) as ->.
    apply bind_ret_inv in Hs as ([] & s4 & Hw1 & Hs). apply bind_ret_inv in Hs as (h & s5 & Hh & Hs). pose proof (hdr_of_same _ _ _ _ Hh) as ->.
    apply bind_ret_inv in Hs as ([] & s6 & Hw2 & Hs). apply bind_ret_inv in Hs as (r0 & s7 & Hst & Hs). apply bind_ret_inv in Hs as ([] & s8 & Hrm & [= <- <-]).
    pose proof (accepted rt it s1 s2 i Hrt Ha Hu Hi) as Hacc. cbv zeta in Hacc. set (comm' := if _ || _ then _ else _) in *. intros Hcomm Hr.
    set (c1 := reading_value it comm' (size value) c0) in *. set (c2 := set_base (filled (size value) (base c1)) c1).
    destruct (completed c2 it comm' s4 h s6 r0 s7 s8) as (c3 & Hc3 & (I1 & I2 & I3) & Hout); try done.
    assert (Hrun : forall f rest, bin_converse (4 + f) (packet_for opaque q ++ rest) (s, c) = bin_converse f rest (s8, c3)).
    { intros f rest. change (4 + f)%nat with (3 + S f)%nat. rewrite (request_arrives opaque q (flush_enabled opts)) by done. rewrite (bind_eq _ _ _ _ _ Hacc). change (bin_value q) with value.
      rewrite (bin_data f s2 c1 it value rest s4) by done. by rewrite (bind_eq _ _ _ _ _ Hc3). }
    change (noreply (base c2)) with quietly in Hout. change (p_opcode (header c2)) with (opcode q) in Hout. change (p_opaque (header c2)) with opaque in Hout.
    assert (Hsb : sbytes (base c3) = 0 /\ ilist (base c3) = []) by (rewrite I2, I3; split; apply c_ready). destruct Hsb as [S1 S2].
    destruct (quietly && is_stored r0.1) eqn:Eq.
    + apply andb_prop in Eq as [Eq1 Eq2]. destruct r0 as [[] o]; try discriminate Eq2. exists 4%nat, c3. split; [lia |]. destruct Hout as [Ho1 Ho2].
      split; [constructor; try done; rewrite Ho2; apply c_ready |]. intros f rest. rewrite Hrun. unfold store_answer, success. cbn [fst]. rewrite Eq1. cbn [say app]. by rewrite after_nothing.
    + destruct Hout as (Ho1 & Ho2 & Ho3). exists 5%nat, (sent_off c3). split; [lia |]. split; [by constructor |]. intros f rest. change (5 + f)%nat with (4 + S f)%nat. rewrite Hrun.
      rewrite (bin_send f s8 c3 rest s8) by (done || by rewrite I1). rewrite Ho3. replace (store_answer false comm' r0) with (store_answer quietly comm' r0); [done |].
      destruct r0 as [[] o]; unfold store_answer; cbn [fst]; try done. destruct quietly; done.
  - apply bind_ret_inv in Hs as (fits & s2 & Hok & Hs). apply bind_ret_inv in Hs as ([] & s3 & Hd & [= <- <-]). destruct (refused rt s1 s2 s3 fits Hrt Ha Hok Hd) as (c1 & Hc1 & [T1 T2 T3 T4] & I1 & I2).
    exists 5%nat, (set_base (set_state conn_new_cmd (set_sbytes 0 (base (sent_off c1)))) (sent_off c1)). split; [lia |]. split; [by constructor |]. intros f rest.
    change (5 + f)%nat with (3 + S (S f))%nat. rewrite (request_arrives opaque q (flush_enabled opts)) by done. rewrite (bind_eq _ _ _ _ _ Hc1). change (bin_value q) with value.
    rewrite (bin_send (S f) s3 c1 _ s3) by (done || by rewrite I1). rewrite T2. unfold after_bin, bind at 1. symmetry. unfold bind at 1. symmetry.
    assert (Hgo : state (base (sent_off c1)) = conn_swallow) by done. assert (Hsb : sbytes (base (sent_off c1)) = if fits then 0 else size value) by done.
    destruct fits.
    + change (value ++ rest) with ([] ++ value ++ rest). by rewrite bin_skip.
    + by rewrite bin_skip.
Qed.
End Store.

(** ** Requests that are answered at once *)

Lemma serves_plain opaque q d s c : (q = BNoop /\ d = []) \/ (q = BVersion /\ d = version opts) -> length opaque = 4%nat -> bin_ready c -> bin_serves opaque q s c (Ok 0 [] [] d) s [].
Proof.
  intros Hq Ho R. assert (H : bin_ok true q) by (by destruct Hq as [[-> _]|[-> _]]). set (c0 := dispatched opaque q c). pose proof (header_for_ok true opaque q H Ho) as Hh.
  assert (Hr : forall rest, read_packet opts (write_header (header_for opaque q) ++ rest) (s, at_header c) = Ret tt (s, speaking (say (opcode q) opaque (Ok 0 [] [] d)) conn_new_cmd c0)).
  { intros rest. unfold read_packet. rewrite (header_back _ rest Hh). bin_steps. change (negb (p_magic (header_for opaque q) =? PROTOCOL_BINARY_REQ)) with false. cbv iota. bin_steps.
    unfold dispatch_bin_command. bin_steps. side_cbn. destruct Hq as [[-> ->]|[-> ->]]; change (KEY_MAX_LENGTH <? _) with false; cbv iota; bin_steps; side_cbn; bin_steps; closed_tests; by rewrite response_says. }
  exists 3%nat, (sent_off (speaking (say (opcode q) opaque (Ok 0 [] [] d)) conn_new_cmd c0)). split; [lia |]. split; [constructor; try done; apply R |]. intros f rest.
  assert (Hp : packet_for opaque q = write_header (header_for opaque q)) by (destruct Hq as [[-> _]|[-> _]]; unfold packet_for; by rewrite app_nil_r). rewrite Hp.
  change (3 + f)%nat with (S (S (S f))). rewrite (bin_header opaque q true _ s c _ _ H Ho R (Hr rest)). rewrite (bin_send f s _ rest s); [done | done | apply R |]. cbn. by rewrite (br_item _ R).
Qed.
End Rounds.

(** * The server *)

Section Server.
Variable hash : list ascii -> Z.
Hypothesis hash_range : forall k, 0 <= hash k < 2 ^ 32.
Variable lockable : Z -> bool.
Variable junk : Z -> list ascii.
Hypothesis junk_length : forall n, 0 <= n -> Z.of_nat (length (junk n)) = n.
Variable started : Z.
Variable opts : options.

Abbreviation bin_converse := (bin_converse hash lockable junk started opts).
Abbreviation serves := (bin_serves hash lockable junk started opts).

Lemma storing_number c now k e m comm r m' : storing c now k e m comm r m' -> r.1 <> STORED -> r.2 = None.
Proof. by inversion 1. Qed.
Lemma checked_range use cas comm : NREAD_ADD <= comm <= NREAD_PREPEND -> NREAD_ADD <= checked use cas comm <= NREAD_CAS.
Proof. unfold checked, NREAD_ADD, NREAD_PREPEND, NREAD_CAS. destruct (_ || _); lia. Qed.
Lemma serves_obeyed opaque q s V c : quiet hash s V -> bin_ok (flush_enabled opts) q -> length opaque = 4%nat -> bin_ready c ->
  exists o lost s' V', quiet hash s' V' /\ obeyed started opts (world_of s V) q o lost (world_of s' V') /\ serves opaque q s c o s' (if lost then bin_value q else []).
Proof.
  intros Q H Ho R. pose proof Q as (O & P & Hh). destruct q as [comm quietly key flags exptime cas value|t wk quietly key|key t|quietly key cas|quietly t| |].
  - pose proof H as ((Hc & Hj) & Hk & Hf & He & Hca & Hv).
    assert (W : wp (bin_store hash lockable junk started comm key flags exptime cas value) s (fun r s' => exists V', ok hash s' V' /\ calm s V s' V' /\ exists m0, m0 ⊆ cached s V /\
      match r with
      | inl (comm', r) => comm' = checked (use_cas (cfg s)) cas comm /\
          storing (cfg s) (current_time (cnt s)) key (brought (cfg s) (current_time (cnt s)) (i32 flags) (realtime started exptime s) cas (value ++ [CR; LF])) m0 comm' r (cached s' V')
      | inr _ => cached s' V' = if comm =? NREAD_SET then delete key m0 else m0
      end)).
    { apply bin_store_cached; try done; [by apply (quiet_room hash s V) | unfold NREAD_ADD, NREAD_PREPEND, NREAD_CAS in *; lia | unfold a_key, KEY_MAX_LENGTH in Hk; lia]. }
    apply wp_run in W as ([[comm' r]|fits] & s' & Hrun & V' & O' & C & m0 & Hm & Hr).
    + destruct Hr as [-> Hst]. exists (store_answer quietly (checked (use_cas (cfg s)) cas comm) r), false, s', V'. split; [by eapply quiet_calm |]. split.
      * rewrite (calm_world _ _ _ _ C). by apply (ob_store _ _ (world_of s V) comm quietly key flags exptime cas value m0 r).
      * apply (serves_store hash lockable junk started opts opaque comm quietly key flags exptime cas value H Ho s c R _ _ Hrun); [by apply checked_range | by apply (storing_number _ _ _ _ _ _ _ _ Hst)].
    + exists (no_place fits), fits, s', V'. split; [by eapply quiet_calm |]. split.
      * rewrite (calm_world _ _ _ _ C), Hr. by apply (ob_no_place _ _ (world_of s V)).
      * apply (serves_store hash lockable junk started opts opaque comm quietly key flags exptime cas value H Ho s c R _ _ Hrun).
  - pose proof (bin_look_cached hash hash_range started s V t key O P) as W. specialize (W ltac:(by apply (quiet_room hash s V))). apply wp_run in W as (r & s' & Hrun & V' & O' & C & Em & Er).
    eexists _, false, s', V'. split; [by eapply quiet_calm |].
    split; [|apply (serves_look hash lockable junk started opts opaque t false wk quietly key s c r (look (cfg s) (current_time (cnt s)) key (cached s V)) s' H Ho R ltac:(done) Hrun); by destruct (look _ _ _ _)].
    rewrite (calm_world _ _ _ _ C), Em. destruct t as [t|]; [apply (ob_get_touch _ _ (world_of s V)) | apply (ob_get _ _ (world_of s V))].
  - pose proof (bin_look_cached hash hash_range started s V (Some t) key O P) as W. specialize (W ltac:(by apply (quiet_room hash s V))). apply wp_run in W as (r & s' & Hrun & V' & O' & C & Em & Er).
    eexists _, false, s', V'. split; [by eapply quiet_calm |].
    split; [|apply (serves_look hash lockable junk started opts opaque (Some t) true false false key s c r (look (cfg s) (current_time (cnt s)) key (cached s V)) s' H Ho R ltac:(by split; [eexists|]) Hrun); by destruct (look _ _ _ _)].
    rewrite (calm_world _ _ _ _ C), Em. apply (ob_touch _ _ (world_of s V)).
  - pose proof (bin_delete_cached hash hash_range s V key cas O) as W. specialize (W ltac:(by apply (quiet_room hash s V))). apply wp_run in W as (r & s' & Hrun & V' & O' & C & Hr).
    pose proof (serves_delete hash lockable junk started opts opaque quietly key cas s c r s' H Ho R Hrun) as Hs. destruct (look (cfg s) (current_time (cnt s)) key (cached s V)) as [e|] eqn:El.
    + destruct Hr as [-> Em]. destruct (bool_decide (cas = 0 \/ cas = e_cas e)) eqn:Eb.
      * apply bool_decide_eq_true in Eb. exists (success quietly 0), false, s', V'. split; [by eapply quiet_calm |]. split; [|done]. rewrite (calm_world _ _ _ _ C), Em. by apply (ob_delete _ _ (world_of s V) quietly key cas e).
      * apply bool_decide_eq_false in Eb. exists (failure KEY_EEXISTS), false, s', V'. split; [by eapply quiet_calm |]. split; [|done]. rewrite (calm_world _ _ _ _ C), Em. apply (ob_delete_differs _ _ (world_of s V) quietly key cas e); [done | tauto | tauto].
    + destruct Hr as [-> Em]. exists (failure KEY_ENOENT), false, s', V'. split; [by eapply quiet_calm |]. split; [|done]. rewrite (calm_world _ _ _ _ C), Em. by apply (ob_delete_none _ _ (world_of s V)).
  - pose proof (flush_all_quiet hash started s V (default 0 t) Q) as W. apply wp_run in W as (r & s' & Hrun & Q' & A). exists (success quietly 0), false, s', V. split; [done |].
    split; [|by apply (serves_flush hash lockable junk started opts opaque quietly t s c r s' H Ho R Hrun)]. inversion A as [| | | |exptime cc Hfl E1 E2 E3|]; subst. unfold world_of at 2. rewrite <- H0, <- H1. by apply (ob_flush _ _ (world_of s V)).
  - exists (success false 0), false, s, V. split; [done |]. split; [apply ob_noop | apply serves_plain; auto].
  - exists (Ok 0 [] [] (version opts)), false, s, V. split; [done |]. split; [apply ob_version | apply serves_plain; auto].
Qed.

(** Packets one after the other. *)
Definition packets (l : list (list ascii * bin_request)) : list ascii := concat (map (fun p => packet_for p.1 p.2) l).
(** A conversation: what is sent, and what of the packets is taken for other packets. *)
Inductive obeyed_all : world -> list (list ascii * bin_request) -> list ascii -> list ascii -> world -> Prop :=
  | obeyed_done w : obeyed_all w [] [] [] w
  | obeyed_next w opaque q o w1 l out left w2 : obeyed started opts w q o false w1 -> obeyed_all w1 l out left w2 -> obeyed_all w ((opaque, q) :: l) (say (opcode q) opaque o ++ out) left w2
  | obeyed_lost w opaque q o w1 l : obeyed started opts w q o true w1 ->
      obeyed_all w ((opaque, q) :: l) (say (opcode q) opaque o) (bin_value q ++ packets l) w1.
Lemma after_app w1 w2 (m : BS (list ascii)) p : after_bin w1 (after_bin w2 m) p = after_bin (w1 ++ w2) m p.
Proof. unfold after_bin. rewrite bind_bind. unfold bind. destruct (m p); try done. cbn. by rewrite app_assoc. Qed.
Lemma after_eq w (m m' : BS (list ascii)) p p' : m p = m' p' -> after_bin w m p = after_bin w m' p'.
Proof. intros H. unfold after_bin, bind. by rewrite H. Qed.
Lemma serves_all l : forall s V c fuel, quiet hash s V -> Forall (fun p => bin_ok (flush_enabled opts) p.2 /\ length p.1 = 4%nat) l -> bin_ready c -> (8 * length l <= fuel)%nat ->
  exists out left w s' V' c' f', obeyed_all (world_of s V) l out left w /\ quiet hash s' V' /\ world_of s' V' = w /\ bin_ready c' /\ (fuel <= f' + 8 * length l)%nat /\
    bin_converse fuel (packets l) (s, c) = after_bin out (bin_converse f' left) (s', c').
Proof.
  induction l as [|[opaque q] l IH]; intros s V c fuel Q Hl R Hf.
  - exists [], [], (world_of s V), s, V, c, fuel. split; [apply obeyed_done |]. do 3 (split; [done |]). split; [lia |]. by rewrite after_nothing.
  - apply Forall_cons in Hl as [[H Ho] Hl]. cbn [fst snd length] in *. destruct (serves_obeyed opaque q s V c Q H Ho R) as (o & lost & s1 & V1 & Q1 & A & n & c1 & Hn & R1 & E).
    specialize (E (fuel - n)%nat (packets l)). replace (n + (fuel - n))%nat with fuel in E by lia. change (packets ((opaque, q) :: l)) with (packet_for opaque q ++ packets l). rewrite E. destruct lost.
    + exists (say (opcode q) opaque o), (bin_value q ++ packets l), (world_of s1 V1), s1, V1, c1, (fuel - n)%nat. split; [by apply obeyed_lost |]. do 3 (split; [done |]). split; [lia | done].
    + destruct (IH s1 V1 c1 (fuel - n)%nat Q1 Hl R1 ltac:(lia)) as (out & left & w & s2 & V2 & c2 & f' & A2 & Q2 & E2 & R2 & Hf' & Ec). cbn [app].
      exists (say (opcode q) opaque o ++ out), left, w, s2, V2, c2, f'. split; [by eapply obeyed_next |]. do 3 (split; [done |]). split; [lia |]. rewrite <- after_app. apply (after_eq _ _ (after_bin out _) _ _ Ec).
Qed.
Lemma nothing_left f s c : bin_ready c -> exists c', bin_converse (S (S f)) [] (s, c) = Ret [] (s, c').
Proof.
  intros R. eexists. cbn [Binary.bin_converse]. bin_steps. rewrite (br_state _ R). rewrite (bind_on_side _ _ _ _ _ _ _ (reset_settled s (base c) (br_item _ R))). cbv beta. bin_steps.
  change (set_base _ _) with (at_header c). change (state (base (at_header c))) with conn_parse_cmd. cbv iota. bin_steps. cbn [length Nat.ltb Nat.leb HEADER_SIZE]. reflexivity.
Qed.
End Server.
