(* ===== verification/WireProps.v ===== *)
(** What the cache server promises to a client on the network, and where it does not
    keep it. *)
From S2P Require Import Prelude CStr CDec CFloat Assoc AssocThm DList Store Slabs Items StoreCmd StoreInv CacheSpec CacheRun CacheInit CacheProps Proto Conn ProtoThm ConnThm ConnRun WireThm Binary BinaryThm.
Local Open Scope Z_scope.

Lemma started_quiet hash now : (forall k, 0 <= hash k < 2 ^ 32) ->
  exists s0, start 0 script_bytes default_factor (blank default_settings now (2 ^ 32)) = Ret tt s0 /\ quiet hash s0 view0 /\ world_of s0 view0 = world0 now.
Proof.
  intros Hh. pose proof (default_start hash now Hh) as W. set (m := start 0 script_bytes default_factor) in *. set (b := blank default_settings now (2 ^ 32)) in *. clearbody m b.
  apply wp_run in W as ([] & s0 & H0 & Q0 & E0). by exists s0.
Qed.
Lemma started_serves hash lockable junk started now l :
  (forall k, 0 <= hash k < 2 ^ 32) -> (forall n, 0 <= n -> Z.of_nat (length (junk n)) = n) -> Forall proper l ->
  exists s0 replies s V, start 0 script_bytes default_factor (blank default_settings now (2 ^ 32)) = Ret tt s0 /\
    serve_all hash lockable junk started l s0 = Ret replies s /\ quiet hash s V /\ allowed_all started (world0 now) l replies (world_of s V).
Proof.
  intros Hh Hj Hl. destruct (started_quiet hash now Hh) as (s0 & H0 & Q0 & E0). pose proof (serve_all_allowed hash lockable junk started Hh Hj l s0 view0 Q0 Hl) as W.
  apply wp_run in W as (replies & s & H1 & V & Q & A). rewrite E0 in A. exists s0, replies, s, V. split; [exact H0 |]. split; [exact H1 |]. split; [exact Q | exact A].
Qed.
#[local] Opaque start.
Lemma requests_first b l a r : Forall (wireable b) l -> concat (map wire l) = a :: r -> uchar a <> 128.
Proof. intros H E. destruct H as [|q l Hq _]; [done |]. destruct (wire_first b q Hq) as (a' & w & Ew & Ha). cbn [map concat] in E. rewrite Ew in E. by injection E as <- _. Qed.

Lemma drive_machine_on hash lockable junk started opts stale_errno f n n' x x' : Conn.drive_step hash lockable junk started opts stale_errno n x = Ret (false, n') x' ->
  drive_machine hash lockable junk started opts stale_errno (S f) n x = drive_machine hash lockable junk started opts stale_errno f n' x'.
Proof. intros H. cbn [drive_machine]. unfold bind at 1. by rewrite H. Qed.
Lemma drive_machine_end hash lockable junk started opts stale_errno f n n' x x' : Conn.drive_step hash lockable junk started opts stale_errno n x = Ret (true, n') x' ->
  drive_machine hash lockable junk started opts stale_errno (S f) n x = Ret tt x'.
Proof. intros H. cbn [drive_machine]. unfold bind at 1. by rewrite H. Qed.
Lemma event_loop_turn hash lockable junk started opts stale_errno reqs_per_event f x Q : over x = false ->
  wp (event_loop hash lockable junk started opts stale_errno reqs_per_event (S f)) x Q =
  wp (drive_machine hash lockable junk started opts stale_errno (8 * (length (rbuf x) + length (inbox x) + length (events x)) + 8) reqs_per_event ;;; event_loop hash lockable junk started opts stale_errno reqs_per_event f) x Q.
Proof. intros H. unfold wp. cbn [event_loop]. unfold bind at 1, gets at 1. rewrite H. reflexivity. Qed.
(** A read that fills the buffer, then a hang-up. *)
Lemma network_hangup x b n ev : rbuf x = [] -> 0 < rsize x -> inbox x = b -> Z.of_nat (length b) = rsize x -> rsize x <= Z.of_nat n -> rsize x < 2 ^ 30 -> events x = Bytes n :: Hangup :: ev -> reallocs x = [] ->
  wp try_read_network x (fun r x' => r = READ_ERROR /\ ms x' = ms x /\ mc x' = mc x /\ sent x' = sent x).
Proof.
  intros Hb Hs Hi Hl Hn Hsz He Hr. unfold try_read_network. apply wp_bind, wp_gets. rewrite He. cbn [length]. cbn [network_loop]. unfold network_round at 1. apply wp_bind. unfold make_room at 1.
  apply wp_bind, wp_gets, wp_bind, wp_gets. unfold rbytes at 1. rewrite Hb. cbn [length Z.of_nat]. rewrite (proj2 (Z.leb_gt _ _)) by done. apply wp_ret. cbn [fst snd].
  apply wp_bind, wp_gets. unfold rbytes at 1. rewrite Hb. cbn [length Z.of_nat]. rewrite Z.sub_0_r. apply wp_bind. unfold sys_read at 1, next_event at 1. apply wp_bind, wp_bind, wp_gets. rewrite He. apply wp_bind, wp_modify, wp_ret.
  apply wp_bind, wp_gets. change (inbox (set_events _ x)) with (inbox x). rewrite Hi. replace (Z.min (Z.max 1 (Z.of_nat n)) (rsize x)) with (Z.of_nat (length b)) by lia. rewrite Nat2Z.id, firstn_all, drop_ge by lia.
  destruct b as [|a0 b0]; [simpl in Hl; lia |]. apply wp_bind, wp_modify, wp_ret. apply wp_bind, wp_modify. unfold rbytes at 1. rewrite Hl, Hb. cbn [length Z.of_nat]. rewrite Z.sub_0_r, Z.eqb_refl. set (x1 := set_rbuf _ _).
  unfold network_round at 1; apply wp_bind; unfold make_room at 1; apply wp_bind, wp_gets, wp_bind, wp_gets;
    (assert (H1 : rsize x1 = rsize x /\ rbytes x1 = rsize x) by (split; [done |]; unfold rbytes, x1; cbn [rbuf set_rbuf set_inbox set_events]; by rewrite Hb)); destruct H1 as [-> ->]; rewrite Z.leb_refl;
    change (0 =? 4) with false; cbv iota; rewrite (proj2 (Z.leb_gt _ _)) by lia; apply wp_bind; unfold sys_realloc; apply wp_bind, wp_gets; change (reallocs x1) with (reallocs x); rewrite Hr; apply wp_ret, wp_bind, wp_modify, wp_ret; cbn [fst snd];
    apply wp_bind, wp_gets, wp_bind; unfold sys_read, next_event; apply wp_bind, wp_bind, wp_gets; change (events (set_rsize _ x1)) with (Hangup :: ev); apply wp_bind, wp_modify, wp_ret, wp_ret, wp_ret; done.
Qed.


(** * Properties *)

(** C1: a client on the network of the cache server as the start script runs it: it writes
    requests, and however they arrive and the answers leave, all that the server sends
    is the beginning of answers that the map with a clock allows, and the whole of
    them once bytes have moved often enough, with the store then in the state the map
    is in and no reference left over. *)
Theorem network_server_refines hash lockable junk started opts reqs_per_event now l ev re fuel :
  (forall k, 0 <= hash k < 2 ^ 32) -> (forall n, 0 <= n -> Z.of_nat (length (junk n)) = n) -> 0 < reqs_per_event ->
  Forall proper l -> Forall (wireable (flush_enabled opts)) l -> Forall benign ev -> Forall (eq true) re -> Z.of_nat (length (concat (map wire l))) < 2 ^ 30 ->
  (8 * (length (concat (map wire l)) + length ev) + 8 <= fuel)%nat ->
  exists s0 replies w, start 0 script_bytes default_factor (blank default_settings now (2 ^ 32)) = Ret tt s0 /\ allowed_all started (world0 now) l replies w /\
    wp (event_loop hash lockable junk started opts false reqs_per_event fuel) (connect s0 (concat (map wire l)) ev re) (fun _ x => exists rest,
      spoken_all l replies = sent x ++ rest /\
      ((length (concat (map wire l)) + length (spoken_all l replies) < nbytes ev)%nat -> rest = [] /\ exists V, quiet hash (ms x) V /\ world_of (ms x) V = w)).
Proof.
  intros Hh Hj Hq Hp Hw Hev Hre Hsz Hf. destruct (started_serves hash lockable junk started now l Hh Hj Hp) as (s0 & replies & s & V & H0 & Hrun & Q & A).
  exists s0, replies, (world_of s V). split; [done |]. split; [done |].
  destruct (serve_all_wire hash lockable junk started opts false l s0 conn_new replies s Hw eq_refl) as (f & c' & Hc); [by constructor | done |].
  eapply wp_mono; [eapply (any_arrival _ _ _ _ _ _ _ _ _ _ _ _ _ _ _ Hq Hc Hev Hre); [intros a b E; by eapply requests_first | exact Hsz | exact Hf] |].
  intros _ x (rest & Hs & Hall). exists rest. split; [done |]. intros Hn. destruct (Hall Hn) as [-> ->]. split; [done |]. exists V. split; [exact Q | exact eq_refl].
Qed.

(** C4: what a connection sends does not depend on how the bytes arrive, in which pieces
    the network takes the answers, how often it would block, or how many commands are
    served before another connection has its turn: it is the beginning of what is sent
    when everything is there at once, and all of it, with the same store in the end,
    once bytes have moved often enough; and the event loop always comes to its end. *)
Theorem arrival_does_not_matter hash lockable junk started opts stale_errno reqs_per_event f s input out last ev re fuel :
  0 < reqs_per_event -> converse hash lockable junk started opts stale_errno f input (s, conn_new) = Ret out last ->
  Forall benign ev -> Forall (eq true) re -> (forall a b, input = a :: b -> uchar a <> 128) -> Z.of_nat (length input) < 2 ^ 30 -> (8 * (length input + length ev) + 8 <= fuel)%nat ->
  wp (event_loop hash lockable junk started opts stale_errno reqs_per_event fuel) (connect s input ev re)
    (fun _ x => exists rest, out = sent x ++ rest /\ ((length input + length out < nbytes ev)%nat -> rest = [] /\ ms x = last.1)).
Proof. apply any_arrival. Qed.


(** C23: the tokens of a line of words, and of what the tokeniser leaves of it again and
    again as get does, are the words, however many they are. *)
Theorem tokens_are_words l : Forall word l -> let r := tokenize_command (unwords l) in r.1 ++ more_keys (length r.2) r.2 = l.
Proof. apply words_come_back. Qed.

(** C24: a storage command with noreply that is accepted stores its data and sends nothing;
    one that is refused, because the value is too large or there is no memory, has its
    data run as commands. *)
Theorem refused_noreply_runs_data hash lockable junk started opts stale_errno comm key flags exptime vlen req data s c :
  let r := Update comm key flags exptime vlen req data in
  wireable true r -> ready c ->
  match process_update hash lockable junk started key flags exptime vlen comm req s with
  | Ret (inl _) _ => forall a s', answer hash lockable junk started r s = Ret a s' -> exists c', ready c' /\ forall f rest,
      converse hash lockable junk started opts stale_errno (3 + f) (quiet_line r ++ data ++ rest) (s, c) = converse hash lockable junk started opts stale_errno f rest (s', c')
  | Ret (inr _) s' => exists c', ready c' /\ forall f rest,
      converse hash lockable junk started opts stale_errno (2 + f) (quiet_line r ++ rest) (s, c) = converse hash lockable junk started opts stale_errno f rest (s', c')
  | _ => True
  end.
Proof. apply quiet_update. Qed.


(** C26: a client that sends exactly as much as fits the buffer and hangs up is not served:
    none of its commands is run. *)
Theorem hangup_discards_commands hash lockable junk started opts stale_errno reqs_per_event s input n ev fuel :
  0 < reqs_per_event -> Z.of_nat (length input) = DATA_BUFFER_SIZE -> DATA_BUFFER_SIZE <= Z.of_nat n -> (2 <= fuel)%nat ->
  wp (event_loop hash lockable junk started opts stale_errno reqs_per_event fuel) (connect s input (Bytes n :: Hangup :: ev) []) (fun _ x => ms x = s /\ sent x = [] /\ state (mc x) = conn_closed).
Proof.
  intros Hq Hi Hn Hf. destruct fuel as [|[|fuel]]; [lia | lia |]. set (x0 := connect s input (Bytes n :: Hangup :: ev) []). set (to st := put_cs (s, set_state st (set_cmd (-1) conn_new)) x0).
  assert (E1 : Conn.drive_step hash lockable junk started opts stale_errno reqs_per_event x0 = Ret (false, reqs_per_event - 1) (to conn_waiting)).
  { unfold Conn.drive_step, step_new_cmd, bind at 1, conn_get, gets at 1. change (state (mc x0)) with conn_new_cmd. cbv iota zeta. rewrite (proj2 (Z.leb_le 0 _)) by lia. reflexivity. }
  assert (E2 : Conn.drive_step hash lockable junk started opts stale_errno (reqs_per_event - 1) (to conn_waiting) = Ret (true, reqs_per_event - 1) (to conn_read)) by reflexivity.
  rewrite event_loop_turn by done. set (k := (8 * _ + 8)%nat). assert (Hk : (2 <= k)%nat) by (unfold k; lia). destruct k as [|[|k]]; try lia. clear Hk.
  apply wp_bind. eapply wp_intro; [rewrite (drive_machine_on _ _ _ _ _ _ _ _ _ _ _ E1); exact (drive_machine_end _ _ _ _ _ _ _ _ _ _ _ E2) |].
  rewrite event_loop_turn by done. set (j := (8 * _ + 8)%nat). assert (Hj : (2 <= j)%nat) by (unfold j; lia). destruct j as [|[|j]]; try lia. clear Hj. apply wp_bind.
  cbn [drive_machine]. apply wp_bind. unfold drive_step at 1. apply wp_bind, wp_gets. change (state (mc (to conn_read))) with conn_read. cbv iota zeta. unfold step_read. apply wp_bind, wp_bind.
  eapply wp_mono; [eapply (network_hangup _ input n ev); [done | done | done | exact Hi | exact Hn | done | done | done] |]. intros r x (-> & H1 & H2 & H3). apply wp_bind, wp_go, wp_ret, wp_ret. cbn [fst snd].
  apply wp_bind. unfold drive_step at 1. apply wp_bind, wp_gets. cbn [put_cs mc set_state state snd]. cbv zeta. apply wp_bind, wp_bind. eapply wp_on_conn.
  { unfold conn_close, release_conn. cbn [put_cs ms mc fst snd]. rewrite H1, H2. reflexivity. }
  apply wp_ret, wp_ret. cbn [fst snd]. apply wp_ret. destruct fuel; cbn [event_loop]; apply wp_bind, wp_gets; apply wp_ret; done.
Qed.

(** C5: packets of the binary protocol that are all there at once: what the cache server as
    the start script runs it sends is what the map with a clock allows, with the opaque
    bytes of each request and the numbers of the entries, quiet requests answered only
    when they fail or hit; unless a value finds no memory, when the value itself is
    taken for the next packet. *)
Theorem binary_server_refines hash lockable junk started opts now l fuel :
  (forall k, 0 <= hash k < 2 ^ 32) -> (forall n, 0 <= n -> Z.of_nat (length (junk n)) = n) ->
  Forall (fun p => bin_ok (flush_enabled opts) p.2 /\ length p.1 = 4%nat) l -> (8 * length l + 2 <= fuel)%nat ->
  exists s0 out left w s V c f, start 0 script_bytes default_factor (blank default_settings now (2 ^ 32)) = Ret tt s0 /\
    obeyed_all started opts (world0 now) l out left w /\ quiet hash s V /\ world_of s V = w /\ bin_ready c /\
    bin_converse hash lockable junk started opts fuel (packets l) (s0, bin_conn_new) = after_bin out (bin_converse hash lockable junk started opts f left) (s, c) /\
    (left = [] -> exists c', bin_converse hash lockable junk started opts fuel (packets l) (s0, bin_conn_new) = Ret out (s, c')).
Proof.
  intros Hh Hj Hl Hf. destruct (started_quiet hash now Hh) as (s0 & H0 & Q0 & E0).
  destruct (serves_all hash Hh lockable junk Hj started opts l s0 view0 bin_conn_new fuel Q0 Hl ltac:(by constructor) ltac:(lia)) as (out & left & w & s & V & c & f & A & Q & Ew & R & Hff & Ec).
  rewrite E0 in A. exists s0, out, left, w, s, V, c, f. split; [exact H0 |]. split; [exact A |]. split; [exact Q |]. split; [exact Ew |]. split; [exact R |]. split; [exact Ec |]. intros ->. destruct f as [|[|f]]; [lia.. |].
  destruct (nothing_left hash lockable junk started opts f s c R) as (c' & Hc). exists c'. rewrite Ec. unfold after_bin. rewrite (bind_eq _ _ _ _ _ Hc). cbn. by rewrite app_nil_r.
Qed.

(** C27: the header of a request that is written as the protocol says is read as it was, and
    so is the header of every answer the server sends; the flags that a hit sends are
    the 32 bits that were stored, through their text in the item. *)
Theorem packets_come_back h opcode err hdr_len key_len body_len opaque cas flags nbytes rest :
  header_ok h -> 0 <= opcode < 2 ^ 8 -> 0 <= err < 2 ^ 16 -> 0 <= hdr_len < 2 ^ 8 -> 0 <= key_len < 2 ^ 16 -> 0 <= body_len < 2 ^ 32 -> length opaque = 4%nat -> 0 <= cas < 2 ^ 64 -> 0 <= flags < 2 ^ 32 ->
  read_header (write_header h ++ rest) = h /\
  read_header (response_header opcode err hdr_len key_len body_len opaque cas ++ rest) = PacketHeader PROTOCOL_BINARY_RES opcode key_len hdr_len 0 (be 2 err) body_len opaque cas /\
  suffix_flags (item_suffix (i32 flags) nbytes) = flags.
Proof. intros. split; [by apply header_back |]. split; [by apply response_header_back | by apply flags_back]. Qed.


(** * At work *)

Definition demo_opts : options := Options true false false (lit "1.4.25").
Definition demo_wire : list request :=
  [Update NREAD_SET (lit "k") 7 0 2 0 value_41; Get true [lit "k"; lit "other"]; Update NREAD_CAS (lit "k") 7 (-1) 2 5 value_41; Touch (lit "k") 50; Remove (lit "j"); FlushAll 10; Get false [lit "k"]].
Lemma demo_wire_proper : Forall proper demo_wire.
Proof.
  repeat apply Forall_cons_2; try exact I; try (simpl; lia); try apply Forall_nil_2; [apply (set_proper (lit "k") value_41); vm_compute; split; congruence |].
  split; [unfold NREAD_CAS, NREAD_ADD; lia | by intros _].
Qed.
Lemma demo_wire_wireable : Forall (wireable (flush_enabled demo_opts)) demo_wire.
Proof. apply (bool_decide_unpack _). vm_compute. exact I. Qed.
(** One byte at a time, and now and then none. *)
Definition demo_events : list io := concat (replicate 400 [Bytes 1; Again]).
Lemma demo_events_benign : Forall benign demo_events.
Proof. apply Forall_concat, Forall_replicate. repeat constructor. Qed.

Lemma network_server_refines_witness :
  exists s0 replies w, start 0 script_bytes default_factor (blank default_settings 100 (2 ^ 32)) = Ret tt s0 /\ allowed_all 0 (world0 100) demo_wire replies w /\
    wp (event_loop jenkins (fun _ => true) zeros 0 demo_opts false 20 (8 * (length (concat (map wire demo_wire)) + length demo_events) + 8)) (connect s0 (concat (map wire demo_wire)) demo_events []) (fun _ x => exists rest,
      spoken_all demo_wire replies = sent x ++ rest /\
      ((length (concat (map wire demo_wire)) + length (spoken_all demo_wire replies) < nbytes demo_events)%nat -> rest = [] /\ exists V, quiet jenkins (ms x) V /\ world_of (ms x) V = w)).
Proof.
  apply (network_server_refines jenkins (fun _ => true) zeros 0 demo_opts 20 100 demo_wire demo_events []);
    [apply jenkins_range | apply zeros_length | reflexivity | apply demo_wire_proper | apply demo_wire_wireable | apply demo_events_benign | apply Forall_nil_2 | vm_compute; reflexivity | apply le_n].
Defined.
Lemma arrival_does_not_matter_witness : exists s f out last, converse jenkins (fun _ => true) zeros 0 demo_opts false f (concat (map wire demo_wire)) (s, conn_new) = Ret out last /\
  wp (event_loop jenkins (fun _ => true) zeros 0 demo_opts false 20 (8 * (length (concat (map wire demo_wire)) + length demo_events) + 8)) (connect s (concat (map wire demo_wire)) demo_events [true])
    (fun _ x => exists rest, out = sent x ++ rest /\ ((length (concat (map wire demo_wire)) + length out < nbytes demo_events)%nat -> rest = [] /\ ms x = last.1)).
Proof.
  destruct (started_serves jenkins (fun _ => true) zeros 0 100 demo_wire jenkins_range zeros_length demo_wire_proper) as (s0 & replies & s & V & H0 & Hrun & _).
  destruct (serve_all_wire jenkins (fun _ => true) zeros 0 demo_opts false demo_wire s0 conn_new replies s demo_wire_wireable eq_refl) as (f & c' & Hc); [by constructor | exact Hrun |].
  exists s0, f, (spoken_all demo_wire replies), (s, c'). split; [exact Hc |].
  apply (arrival_does_not_matter jenkins (fun _ => true) zeros 0 demo_opts false 20 f s0 (concat (map wire demo_wire)) (spoken_all demo_wire replies) (s, c') demo_events [true]);
    [reflexivity | exact Hc | apply demo_events_benign | by repeat constructor | | vm_compute; reflexivity | apply le_n].
  intros a b E. by apply (requests_first _ demo_wire a b demo_wire_wireable).
Defined.
Definition demo_words : list (list ascii) := map lit ["get"; "k1"; "k2"; "k3"; "k4"; "k5"; "k6"; "k7"; "k8"; "k9"]%string.
Lemma tokens_are_words_witness : let r := tokenize_command (unwords demo_words) in r.1 ++ more_keys (length r.2) r.2 = demo_words.
Proof. apply (tokens_are_words demo_words). apply (bool_decide_unpack _). vm_compute. exact I. Defined.

(** Two megabytes are too large. *)
Definition demo_large : request := Update NREAD_SET (lit "k") 7 0 2000000 0 (replicate (Z.to_nat 2000002) SP).
Definition demo_refused : outcome store (ptr + list ascii) := (start 0 script_bytes default_factor ;;; process_update jenkins (fun _ => true) zeros 0 (lit "k") 7 0 2000000 NREAD_SET 0) (blank default_settings 100 (2 ^ 32)).
Lemma demo_refuses : exists s s', process_update jenkins (fun _ => true) zeros 0 (lit "k") 7 0 2000000 NREAD_SET 0 s = Ret (inr (lit "SERVER_ERROR object too large for cache")) s'.
Proof.
  assert (H : match demo_refused with Ret (inr m) _ => m = lit "SERVER_ERROR object too large for cache" | _ => False end) by (vm_compute; reflexivity).
  destruct demo_refused as [[it|m] s'| | |] eqn:E; [destruct H | | destruct H..]. rewrite H in E. unfold demo_refused in E. apply bind_ret_inv in E as ([] & s & _ & E). by exists s, s'.
Qed.
Lemma demo_large_wireable : wireable true demo_large.
Proof.
  unfold demo_large, wireable. split; [unfold NREAD_SET, NREAD_ADD, NREAD_CAS; lia |]. split; [apply (bool_decide_unpack _); vm_compute; exact I |].
  split; [lia |]. split; [unfold int32; lia |]. split; [lia |]. split; [lia |]. rewrite length_replicate. lia.
Qed.
Lemma refused_noreply_runs_data_witness : exists s s', process_update jenkins (fun _ => true) zeros 0 (lit "k") 7 0 2000000 NREAD_SET 0 s = Ret (inr (lit "SERVER_ERROR object too large for cache")) s' /\
  exists c', ready c' /\ forall f rest, converse jenkins (fun _ => true) zeros 0 demo_opts false (2 + f) (quiet_line demo_large ++ rest) (s, conn_new) = converse jenkins (fun _ => true) zeros 0 demo_opts false f rest (s', c').
Proof.
  destruct demo_refuses as (s & s' & E). exists s, s'. split; [exact E |].
  pose proof (refused_noreply_runs_data jenkins (fun _ => true) zeros 0 demo_opts false NREAD_SET (lit "k") 7 0 2000000 0 (replicate (Z.to_nat 2000002) SP) s conn_new demo_large_wireable) as H.
  cbv zeta in H. rewrite E in H. apply H. by constructor.
Defined.
Definition demo_full : list ascii := replicate (Z.to_nat 2039) SP ++ lit "version" ++ [CR; LF].
Lemma hangup_discards_commands_witness :
  wp (event_loop jenkins (fun _ => true) zeros 0 demo_opts false 20 2) (connect (blank default_settings 100 (2 ^ 32)) demo_full [Bytes (Z.to_nat 4096); Hangup] []) (fun _ x => ms x = blank default_settings 100 (2 ^ 32) /\ sent x = [] /\ state (mc x) = conn_closed).
Proof.
  apply (hangup_discards_commands jenkins (fun _ => true) zeros 0 demo_opts false 20 (blank default_settings 100 (2 ^ 32)) demo_full (Z.to_nat 4096) [] 2); [reflexivity | vm_compute; reflexivity | vm_compute; congruence | lia].
Defined.
(** Packets with a number that is given, quiet ones, a hit and misses. *)
Definition demo_packets : list (list ascii * bin_request) :=
  map (pair (lit "OPAQ")) [BStore NREAD_SET false (lit "k") 7 0 0 value_41; BGet None true false (lit "k"); BStore NREAD_ADD true (lit "k") 0 0 0 (lit "x"); BGet (Some 50) false true (lit "other");
    BStore NREAD_REPLACE false (lit "k") 1 60 5 []; BStore NREAD_APPEND true (lit "k") 0 0 0 (lit "yz"); BTouch (lit "k") 9; BDelete false (lit "k") 77; BFlush true (Some 10); BNoop; BVersion].
Lemma demo_packets_ok : Forall (fun p => bin_ok (flush_enabled demo_opts) p.2 /\ length p.1 = 4%nat) demo_packets.
Proof.
  apply (bool_decide_unpack _). vm_compute. exact I.
Qed.
Lemma binary_server_refines_witness :
  exists s0 out left w s V c f, start 0 script_bytes default_factor (blank default_settings 100 (2 ^ 32)) = Ret tt s0 /\
    obeyed_all 0 demo_opts (world0 100) demo_packets out left w /\ quiet jenkins s V /\ world_of s V = w /\ bin_ready c /\
    bin_converse jenkins (fun _ => true) zeros 0 demo_opts 90 (packets demo_packets) (s0, bin_conn_new) = after_bin out (bin_converse jenkins (fun _ => true) zeros 0 demo_opts f left) (s, c) /\
    (left = [] -> exists c', bin_converse jenkins (fun _ => true) zeros 0 demo_opts 90 (packets demo_packets) (s0, bin_conn_new) = Ret out (s, c')).
Proof.
  apply (binary_server_refines jenkins (fun _ => true) zeros 0 demo_opts 100 demo_packets 90); [apply jenkins_range | apply zeros_length | apply demo_packets_ok | apply le_n].
Defined.
Definition demo_header : packet_header := PacketHeader PROTOCOL_BINARY_REQ CMD_SET 250 8 0 [NUL; NUL] 70000 (lit "abcd") (2 ^ 63 + 1).
Lemma packets_come_back_witness :
  read_header (write_header demo_header ++ lit "more") = demo_header /\
  read_header (response_header CMD_GETK SUCCESS 4 250 70000 (lit "abcd") (2 ^ 63 + 1) ++ lit "more") = PacketHeader PROTOCOL_BINARY_RES CMD_GETK 250 4 0 (be 2 SUCCESS) 70000 (lit "abcd") (2 ^ 63 + 1) /\
  suffix_flags (item_suffix (i32 4294967295) 7) = 4294967295.
Proof.
  apply (packets_come_back demo_header CMD_GETK SUCCESS 4 250 70000 (lit "abcd") (2 ^ 63 + 1) 4294967295 7 (lit "more")); unfold header_ok, demo_header, PROTOCOL_BINARY_REQ, CMD_SET, CMD_GETK, SUCCESS; cbn [p_magic p_opcode p_keylen p_extlen p_datatype p_reserved p_bodylen p_opaque p_cas];
    first [lia | reflexivity | (repeat split; (lia || reflexivity))].
Defined.
